(** * NeuroPlan: task tree, outline persistence, date parsing and reminders

    A shallow embedding of [task_manager.py], [org_storage.py] and
    [reminder_system.py], and of what [ui.py], [dashboard_view.py],
    [search_view.py], [app.py], [web_graph.py] and [notif.py] compute
    besides drawing, followed by the properties of the specification that
    were checked against it and by further properties of the code.

    Conventions of the embedding:
    - a Python [str] is a list of characters ([str]) with code points below
      256; the character classes are those of Python on that range;
    - a Python [dict] is an association list in insertion order (what
      [dict.values()] and [dict.items()] iterate over);
    - a Python exception is a value of [exn]; a function that may raise
      returns a [result];
    - [Task] objects are mutable and shared (a task is reachable from the
      manager's dict and from its parent's [children] list), so they live in
      an explicit heap and are referred to by location;
    - [datetime.datetime.now()] is an extra argument [now]. *)

From Stdlib Require Import String Ascii.
From Stdlib Require Import ZArith List Bool Lia Arith Permutation Sorted.
Import ListNotations.

Set Implicit Arguments.
Open Scope string_scope.
Open Scope list_scope.
Open Scope nat_scope.

(** ** Strings *)

Definition str := list ascii.

Definition lit (s : string) : str := list_ascii_of_string s.
Coercion lit : string >-> str.

Fixpoint str_eqb (a b : str) : bool :=
  match a, b with
  | [], [] => true
  | x :: a', y :: b' => Ascii.eqb x y && str_eqb a' b'
  | _, _ => false
  end.

Definition code (c : ascii) : nat := nat_of_ascii c.

(** [str.isspace] on one character, which is also the class [\s] of [re]:
    the ASCII whitespace, the separators 28 to 31, the next-line character
    133 and the no-break space 160. *)
Definition is_space (c : ascii) : bool :=
  let n := code c in
  ((9 <=? n) && (n <=? 13)) || ((28 <=? n) && (n <=? 32)) ||
  (n =? 133) || (n =? 160).

Definition is_digit (c : ascii) : bool :=
  let n := code c in (48 <=? n) && (n <=? 57).

(** The classes [[A-Z]] and [[a-z]] of [re]. *)
Definition is_upper (c : ascii) : bool :=
  let n := code c in (65 <=? n) && (n <=? 90).

Definition is_lower (c : ascii) : bool :=
  let n := code c in (97 <=? n) && (n <=? 122).

(** The upper-case letters above the ASCII range: 192 to 222 without the
    multiplication sign 215. *)
Definition is_upper_latin (c : ascii) : bool :=
  let n := code c in (192 <=? n) && (n <=? 222) && negb (n =? 215).

(** The characters above the ASCII range that are alphanumeric for
    Python: the ordinal indicators 170 and 186, the micro sign 181, the
    superscript digits 178, 179 and 185, the fractions 188 to 190, and the
    letters 192 to 255 without the signs 215 and 247. *)
Definition is_alnum_latin (c : ascii) : bool :=
  let n := code c in
  (n =? 170) || (n =? 178) || (n =? 179) || (n =? 181) || (n =? 185) ||
  (n =? 186) || ((188 <=? n) && (n <=? 190)) ||
  ((192 <=? n) && negb (n =? 215) && negb (n =? 247)).

(** The class [\w] of [re]. *)
Definition is_word (c : ascii) : bool :=
  is_digit c || is_upper c || is_lower c || Ascii.eqb c "_" ||
  is_alnum_latin c.

(** The characters at which [str.splitlines] breaks a line. *)
Definition is_linebreak (c : ascii) : bool :=
  let n := code c in
  ((10 <=? n) && (n <=? 13)) || ((28 <=? n) && (n <=? 30)) || (n =? 133).

Definition lower_char (c : ascii) : ascii :=
  if is_upper c || is_upper_latin c then ascii_of_nat (code c + 32) else c.

(** [s.lower()] *)
Definition lower (s : str) : str := map lower_char s.

(** [s.lstrip()], [s.rstrip()], [s.strip()] *)
Fixpoint lstrip (s : str) : str :=
  match s with
  | c :: s' => if is_space c then lstrip s' else s
  | [] => []
  end.

Definition rstrip (s : str) : str := rev (lstrip (rev s)).

Definition strip (s : str) : str := rstrip (lstrip s).

(** [s.startswith(p)] *)
Fixpoint startswith (p s : str) : bool :=
  match p, s with
  | [], _ => true
  | x :: p', y :: s' => Ascii.eqb x y && startswith p' s'
  | _ :: _, [] => false
  end.

(** [s.endswith(p)] *)
Definition endswith (p s : str) : bool := startswith (rev p) (rev s).

(** [s.split(sep)] for a one-character separator. *)
Fixpoint split_on (sep : ascii) (s : str) : list str :=
  match s with
  | [] => [[]]
  | c :: s' =>
      if Ascii.eqb c sep then [] :: split_on sep s'
      else match split_on sep s' with
           | w :: ws => (c :: w) :: ws
           | [] => [[c]]
           end
  end.

(** [sep.join(parts)] *)
Fixpoint join (sep : str) (parts : list str) : str :=
  match parts with
  | [] => []
  | [p] => p
  | p :: ps => p ++ sep ++ join sep ps
  end.

(** [s.find(p) >= 0] *)
Fixpoint contains (p s : str) : bool :=
  startswith p s ||
  match s with
  | [] => false
  | _ :: s' => contains p s'
  end.

(** An f-string: the concatenation of its pieces. *)
Definition fstr (pieces : list str) : str := List.concat pieces.

Notation "'f[' x ; .. ; y ']'" :=
  (fstr (@cons str (x : str) .. (@cons str (y : str) (@nil str)) ..))
  (at level 0).

(** The newline character. *)
Definition NL : ascii := ascii_of_nat 10.
Definition nl : str := [NL].

(** [c * n] *)
Definition repeat_char (c : ascii) (n : nat) : str := repeat c n.

(** ** Exceptions *)

Inductive exn : Type :=
| ValueError
| TypeError
| OverflowError
| RecursionError
| OSError.

Inductive result (A : Type) : Type :=
| Ok (a : A)
| Raise (e : exn).
Arguments Ok {A} a.
Arguments Raise {A} e.

Definition bind {A B : Type} (r : result A) (k : A -> result B) : result B :=
  match r with
  | Ok a => k a
  | Raise e => Raise e
  end.

Notation "x <- r ;; k" := (bind r (fun x => k))
  (at level 61, r at next level, right associativity).

(** ** Dictionaries keyed by strings, in insertion order *)

Section Dict.
Variable V : Type.

Definition dict := list (str * V).

(** [d.get(k)] *)
Fixpoint dict_get (d : dict) (k : str) : option V :=
  match d with
  | [] => None
  | (k', v) :: d' => if str_eqb k k' then Some v else dict_get d' k
  end.

(** [k in d] *)
Definition dict_mem (d : dict) (k : str) : bool :=
  match dict_get d k with Some _ => true | None => false end.

(** [d[k] = v]: an existing key keeps its position, a new key goes last. *)
Fixpoint dict_set (d : dict) (k : str) (v : V) : dict :=
  match d with
  | [] => [(k, v)]
  | (k', v') :: d' =>
      if str_eqb k k' then (k', v) :: d' else (k', v') :: dict_set d' k v
  end.

(** [del d[k]] *)
Fixpoint dict_del (d : dict) (k : str) : dict :=
  match d with
  | [] => []
  | (k', v') :: d' =>
      if str_eqb k k' then d' else (k', v') :: dict_del d' k
  end.

Definition dict_keys (d : dict) : list str := map fst d.
Definition dict_values (d : dict) : list V := map snd d.
End Dict.

(** ** [datetime]: the part of Python's standard module the program uses

    The calendar arithmetic follows CPython's [_pydatetime.py]
    ([_ymd2ord], [_ord2ymd], [datetime.__add__]). *)

Open Scope Z_scope.

Record datetime : Type := mkdatetime {
  year : Z;
  month : Z;
  day : Z;
  hour : Z;
  minute : Z;
  second : Z;
  microsecond : Z
}.

Definition MINYEAR : Z := 1.
Definition MAXYEAR : Z := 9999.
Definition MAXORDINAL : Z := 3652059.

Definition is_leap (y : Z) : bool :=
  (y mod 4 =? 0) && (negb (y mod 100 =? 0) || (y mod 400 =? 0)).

Definition DAYS_IN_MONTH (m : Z) : Z :=
  match m with
  | 1 => 31 | 2 => 28 | 3 => 31 | 4 => 30 | 5 => 31 | 6 => 30
  | 7 => 31 | 8 => 31 | 9 => 30 | 10 => 31 | 11 => 30 | 12 => 31
  | _ => -1
  end.

Definition DAYS_BEFORE_MONTH (m : Z) : Z :=
  match m with
  | 1 => 0 | 2 => 31 | 3 => 59 | 4 => 90 | 5 => 120 | 6 => 151
  | 7 => 181 | 8 => 212 | 9 => 243 | 10 => 273 | 11 => 304 | 12 => 334
  | _ => -1
  end.

Definition days_before_year (y : Z) : Z :=
  let y := y - 1 in y * 365 + y / 4 - y / 100 + y / 400.

Definition days_in_month (y m : Z) : Z :=
  if (m =? 2) && is_leap y then 29 else DAYS_IN_MONTH m.

Definition days_before_month (y m : Z) : Z :=
  DAYS_BEFORE_MONTH m + (if (2 <? m) && is_leap y then 1 else 0).

Definition ymd2ord (y m d : Z) : Z :=
  days_before_year y + days_before_month y m + d.

Definition DI400Y : Z := 146097.
Definition DI100Y : Z := 36524.
Definition DI4Y : Z := 1461.

Definition ord2ymd (n : Z) : Z * Z * Z :=
  let n := n - 1 in
  let n400 := n / DI400Y in
  let n := n mod DI400Y in
  let y := n400 * 400 + 1 in
  let n100 := n / DI100Y in
  let n := n mod DI100Y in
  let n4 := n / DI4Y in
  let n := n mod DI4Y in
  let n1 := n / 365 in
  let n := n mod 365 in
  let y := y + n100 * 100 + n4 * 4 + n1 in
  if (n1 =? 4) || (n100 =? 4) then (y - 1, 12, 31)
  else
    let leapyear := (n1 =? 3) && (negb (n4 =? 24) || (n100 =? 3)) in
    let m := Z.shiftr (n + 50) 5 in
    let preceding :=
      DAYS_BEFORE_MONTH m + (if (2 <? m) && leapyear then 1 else 0) in
    if n <? preceding then
      let m' := m - 1 in
      let preceding' :=
        preceding
        - (DAYS_IN_MONTH m' + (if (m' =? 2) && leapyear then 1 else 0)) in
      (y, m', n - preceding' + 1)
    else (y, m, n - preceding + 1).

(** The checks of the [datetime(...)] constructor. *)
Definition valid_date (y m d : Z) : bool :=
  (MINYEAR <=? y) && (y <=? MAXYEAR) &&
  (1 <=? m) && (m <=? 12) &&
  (1 <=? d) && (d <=? days_in_month y m).

Definition valid_time (h mi s us : Z) : bool :=
  (0 <=? h) && (h <=? 23) && (0 <=? mi) && (mi <=? 59) &&
  (0 <=? s) && (s <=? 59) && (0 <=? us) && (us <=? 999999).

Definition valid_datetime (t : datetime) : bool :=
  valid_date (year t) (month t) (day t) &&
  valid_time (hour t) (minute t) (second t) (microsecond t).

(** [datetime(y, m, d, h, mi, s, us)], which raises [ValueError] on a field
    out of range. *)
Definition new_datetime (y m d h mi s us : Z) : result datetime :=
  if valid_date y m d && valid_time h mi s us
  then Ok (mkdatetime y m d h mi s us)
  else Raise ValueError.

Definition toordinal (t : datetime) : Z := ymd2ord (year t) (month t) (day t).

(** [d.weekday()]: Monday is 0. *)
Definition weekday (t : datetime) : Z := (toordinal t + 6) mod 7.

(** Comparison is lexicographic on the fields. *)
Definition lex (c1 c2 : comparison) : comparison :=
  match c1 with Eq => c2 | _ => c1 end.

Definition dt_compare (a b : datetime) : comparison :=
  lex (year a ?= year b)
  (lex (month a ?= month b)
  (lex (day a ?= day b)
  (lex (hour a ?= hour b)
  (lex (minute a ?= minute b)
  (lex (second a ?= second b)
       (microsecond a ?= microsecond b)))))).

(** [a <= b], [a < b], [a >= b] *)
Definition dt_le (a b : datetime) : bool :=
  match dt_compare a b with Gt => false | _ => true end.
Definition dt_lt (a b : datetime) : bool :=
  match dt_compare a b with Lt => true | _ => false end.
Definition dt_ge (a b : datetime) : bool := dt_le b a.

Definition dt_eqb (a b : datetime) : bool :=
  match dt_compare a b with Eq => true | _ => false end.

(** A [timedelta] is kept as its total number of microseconds; the
    constructor raises [OverflowError] beyond 999999999 days. *)
Definition timedelta := Z.

Definition US_PER_SECOND : Z := 1000000.
Definition US_PER_DAY : Z := 86400 * US_PER_SECOND.

Definition new_timedelta (days hours minutes : Z) : result timedelta :=
  let us := ((days * 24 + hours) * 60 + minutes) * 60 * US_PER_SECOND in
  if Z.abs (us / US_PER_DAY) <=? 999999999 then Ok us
  else Raise OverflowError.

(** The microseconds from the start of day 0 of the calendar to [t]. *)
Definition timestamp_us (t : datetime) : Z :=
  (((toordinal t * 24 + hour t) * 60 + minute t) * 60 + second t)
    * US_PER_SECOND + microsecond t.

(** [t + delta]; [OverflowError] when the date leaves years 1..9999. *)
Definition dt_add (t : datetime) (delta : timedelta) : result datetime :=
  let us := timestamp_us t + delta in
  let days := us / US_PER_DAY in
  let rem := us mod US_PER_DAY in
  let secs := rem / US_PER_SECOND in
  if (0 <? days) && (days <=? MAXORDINAL) then
    let '(y, m, d) := ord2ymd days in
    Ok (mkdatetime y m d (secs / 3600) (secs mod 3600 / 60) (secs mod 60)
          (rem mod US_PER_SECOND))
  else Raise OverflowError.

(** [t - delta] *)
Definition dt_sub (t : datetime) (delta : timedelta) : result datetime :=
  dt_add t (- delta).

(** [t.replace(hour=h, minute=mi, second=s, microsecond=us)] *)
Definition replace_time (t : datetime) (h mi s us : Z) : result datetime :=
  new_datetime (year t) (month t) (day t) h mi s us.

(** Decimal digits. *)
Definition digit (d : Z) : ascii := ascii_of_nat (48 + Z.to_nat d).

Definition pad2 (n : Z) : str := [digit (n / 10 mod 10); digit (n mod 10)].

Definition pad4 (n : Z) : str :=
  [digit (n / 1000 mod 10); digit (n / 100 mod 10);
   digit (n / 10 mod 10); digit (n mod 10)].

Definition pad6 (n : Z) : str :=
  [digit (n / 100000 mod 10); digit (n / 10000 mod 10);
   digit (n / 1000 mod 10); digit (n / 100 mod 10);
   digit (n / 10 mod 10); digit (n mod 10)].

(** [t.isoformat()] *)
Definition isoformat (t : datetime) : str :=
  f[pad4 (year t); "-"; pad2 (month t); "-"; pad2 (day t); "T";
        pad2 (hour t); ":"; pad2 (minute t); ":"; pad2 (second t);
        if microsecond t =? 0 then [] else f["."; pad6 (microsecond t)]].

Definition day_abbr (w : Z) : str :=
  match w with
  | 0 => "Mon" | 1 => "Tue" | 2 => "Wed" | 3 => "Thu"
  | 4 => "Fri" | 5 => "Sat" | _ => "Sun"
  end.

(** The directive [%Y] of [strftime]: the year in decimal, which the C
    library does not pad, so that a year before 1000 has fewer than four
    digits. *)
Definition strftime_Y (y : Z) : str :=
  if y <? 10 then [digit (y mod 10)]
  else if y <? 100 then pad2 y
  else if y <? 1000 then digit (y / 100 mod 10) :: pad2 y
  else pad4 y.

(** [t.strftime('%Y-%m-%d %a %H:%M')] *)
Definition strftime_org (t : datetime) : str :=
  f[strftime_Y (year t); "-"; pad2 (month t); "-"; pad2 (day t); " ";
        day_abbr (weekday t); " "; pad2 (hour t); ":"; pad2 (minute t)].

(** Reading decimal numbers. *)
Definition digit_val (c : ascii) : Z := Z.of_nat (code c) - 48.

Definition int_of_digits (ds : str) : Z :=
  fold_left (fun acc c => acc * 10 + digit_val c) ds 0.

(** A greedy run of characters of one class, and what follows it. *)
Fixpoint span (p : ascii -> bool) (s : str) : str * str :=
  match s with
  | c :: s' =>
      if p c then let '(a, b) := span p s' in (c :: a, b) else ([], s)
  | [] => ([], [])
  end.

(** Exactly [n] digits. *)
Fixpoint take_digits (n : nat) (s : str) : option (str * str) :=
  match n with
  | O => Some ([], s)
  | S n' =>
      match s with
      | c :: s' =>
          if is_digit c then
            match take_digits n' s' with
            | Some (ds, r) => Some (c :: ds, r)
            | None => None
            end
          else None
      | [] => None
      end
  end.

(** A literal. *)
Fixpoint expect (p s : str) : option str :=
  match p, s with
  | [], _ => Some s
  | x :: p', y :: s' => if Ascii.eqb x y then expect p' s' else None
  | _ :: _, [] => None
  end.

(** The check of [ord2ymd] on day [r + 1] of the first cycle of 400 years:
    it gives a date of the calendar whose day number is [r + 1], of a year up
    to 399 exactly when the day is up to the last of that year. *)
Definition cycle_ok (r : Z) : bool :=
  let '(y, m, d) := ord2ymd (r + 1) in
  (1 <=? y) && (y <=? 400) && (1 <=? m) && (m <=? 12) && (1 <=? d) &&
  (d <=? days_in_month y m) && (ymd2ord y m d =? r + 1) &&
  Bool.eqb (y <=? 399) (r + 1 <=? 145731).

Fixpoint cycle_ok_from (n : nat) (r : Z) : bool :=
  match n with
  | O => true
  | S n' => cycle_ok r && cycle_ok_from n' (r + 1)
  end.


(** ** Entity model ([task_manager.py]) *)

Inductive Status : Type := TODO | DONE | WAITING.

(** [status.value] *)
Definition Status_value (s : Status) : str :=
  match s with
  | TODO => "TODO"
  | DONE => "DONE"
  | WAITING => "WAITING"
  end.

(** [Status(v)]: the enum lookup by value, [ValueError] on an unknown one. *)
Definition Status_of (v : str) : result Status :=
  if str_eqb v "TODO" then Ok TODO
  else if str_eqb v "DONE" then Ok DONE
  else if str_eqb v "WAITING" then Ok WAITING
  else Raise ValueError.

Definition Status_eqb (a b : Status) : bool :=
  match a, b with
  | TODO, TODO | DONE, DONE | WAITING, WAITING => true
  | _, _ => false
  end.

Inductive Priority : Type := HIGH | MEDIUM | LOW | NONE.

(** [priority.value] *)
Definition Priority_value (p : Priority) : str :=
  match p with
  | HIGH => "A"
  | MEDIUM => "B"
  | LOW => "C"
  | NONE => "D"
  end.

(** [Priority(v)] *)
Definition Priority_of (v : str) : result Priority :=
  if str_eqb v "A" then Ok HIGH
  else if str_eqb v "B" then Ok MEDIUM
  else if str_eqb v "C" then Ok LOW
  else if str_eqb v "D" then Ok NONE
  else Raise ValueError.

(** A [Task] object is referred to by its location in the heap. *)
Definition loc := nat.

Record Task : Type := mkTask {
  title : str;
  id : str;
  description : str;
  author : option str;
  status : Status;
  priority : Priority;
  due_date : option datetime;
  scheduled_date : option datetime;
  reminder_minutes : Z;
  reminder_enabled : bool;
  tags : list str;
  children : list loc;
  parent_id : option str;
  created_at : datetime;
  file : option str
}.

(** Truthiness of an optional string: [None] and [""] are false. *)
Definition truthy (o : option str) : bool :=
  match o with
  | Some (_ :: _) => true
  | _ => false
  end.

(** The heap of [Task] objects. *)
Definition heap := list Task.

Definition heap_get (h : heap) (l : loc) : option Task := nth_error h l.

Fixpoint heap_set (h : heap) (l : loc) (t : Task) : heap :=
  match h, l with
  | [], _ => []
  | _ :: h', O => t :: h'
  | x :: h', S l' => x :: heap_set h' l' t
  end.

Definition heap_alloc (h : heap) (t : Task) : heap * loc :=
  (h ++ [t], length h).

(** [TaskManager]: the dict [self.tasks] from id to [Task] object, and the
    objects themselves. *)
Record TaskManager : Type := mkTaskManager {
  objects : heap;
  tasks : dict loc
}.

(** [self.tasks.values()] *)
Definition task_values (tm : TaskManager) : list Task :=
  flat_map (fun l => match heap_get (objects tm) l with
                     | Some t => [t]
                     | None => []
                     end)
           (dict_values (tasks tm)).

(** [TaskManager.get_task] *)
Definition get_task (tm : TaskManager) (task_id : str) : option Task :=
  match dict_get (tasks tm) task_id with
  | Some l => heap_get (objects tm) l
  | None => None
  end.

(** ** Flexible date parsing ([task_manager.parse_flexible_date]) *)

Definition in_range (lo hi : nat) (c : ascii) : bool :=
  ((lo <=? code c) && (code c <=? hi))%nat.

(** One regex alternative made of two character classes, read as a two-digit
    number, and one made of a single class. *)
Definition two_chars (p1 p2 : ascii -> bool) (s : str) : option (Z * str) :=
  match s with
  | c1 :: c2 :: r =>
      if p1 c1 && p2 c2 then Some (digit_val c1 * 10 + digit_val c2, r)
      else None
  | _ => None
  end.

Definition one_char (p : ascii -> bool) (s : str) : option (Z * str) :=
  match s with
  | c :: r => if p c then Some (digit_val c, r) else None
  | [] => None
  end.

(** Ordered alternation [a|b]. *)
Definition orelse {A : Type} (a b : option A) : option A :=
  match a with
  | Some _ => a
  | None => b
  end.

(** The regular expressions [_strptime] builds for the directives.  Each is
    followed in the format by a literal that is not a digit, or ends the
    format, so the first alternative that matches is the one kept. *)

(** [%Y]: [\d\d\d\d] *)
Definition re_Y (s : str) : option (Z * str) :=
  match take_digits 4 s with
  | Some (ds, r) => Some (int_of_digits ds, r)
  | None => None
  end.

(** [%m]: [1[0-2]|0[1-9]|[1-9]] *)
Definition re_m (s : str) : option (Z * str) :=
  orelse (two_chars (in_range 49 49) (in_range 48 50) s)
  (orelse (two_chars (in_range 48 48) (in_range 49 57) s)
          (one_char (in_range 49 57) s)).

(** [%d]: [3[0-1]|[1-2]\d|0[1-9]|[1-9]| [1-9]] *)
Definition re_d (s : str) : option (Z * str) :=
  orelse (two_chars (in_range 51 51) (in_range 48 49) s)
  (orelse (two_chars (in_range 49 50) is_digit s)
  (orelse (two_chars (in_range 48 48) (in_range 49 57) s)
  (orelse (one_char (in_range 49 57) s)
          (match s with
           | c1 :: c2 :: r =>
               if Ascii.eqb c1 " " && in_range 49 57 c2
               then Some (digit_val c2, r) else None
           | _ => None
           end)))).

(** [%H]: [2[0-3]|[0-1]\d|\d] *)
Definition re_H (s : str) : option (Z * str) :=
  orelse (two_chars (in_range 50 50) (in_range 48 51) s)
  (orelse (two_chars (in_range 48 49) is_digit s)
          (one_char is_digit s)).

(** [%M]: [[0-5]\d|\d] *)
Definition re_M (s : str) : option (Z * str) :=
  orelse (two_chars (in_range 48 53) is_digit s) (one_char is_digit s).

(** [\s+] *)
Definition re_spaces1 (s : str) : option str :=
  match span is_space s with
  | ([], _) => None
  | (_, r) => Some r
  end.

(** The date part [%Y-%m-%d] of both formats. *)
Definition match_ymd (s : str) : option (Z * Z * Z * str) :=
  match re_Y s with
  | Some (y, r) =>
      match expect "-" r with
      | Some r =>
          match re_m r with
          | Some (m, r) =>
              match expect "-" r with
              | Some r =>
                  match re_d r with
                  | Some (d, r) => Some (y, m, d, r)
                  | None => None
                  end
              | None => None
              end
          | None => None
          end
      | None => None
      end
  | None => None
  end.

(** [datetime.strptime(s, '%Y-%m-%d %H:%M')] *)
Definition strptime_ymd_hm (s : str) : result datetime :=
  match match_ymd s with
  | Some (y, m, d, r) =>
      match re_spaces1 r with
      | Some r =>
          match re_H r with
          | Some (h, r) =>
              match expect ":" r with
              | Some r =>
                  match re_M r with
                  | Some (mi, []) => new_datetime y m d h mi 0 0
                  | _ => Raise ValueError
                  end
              | None => Raise ValueError
              end
          | None => Raise ValueError
          end
      | None => Raise ValueError
      end
  | None => Raise ValueError
  end.

(** [datetime.strptime(s, '%Y-%m-%d')] *)
Definition strptime_ymd (s : str) : result datetime :=
  match match_ymd s with
  | Some (y, m, d, []) => new_datetime y m d 0 0 0 0
  | _ => Raise ValueError
  end.

Inductive time_unit : Type := unit_h | unit_m | unit_d.

(** [re.match(r'in\s+(\d+)\s*(h|m|d)', s)]: the groups of a match at the
    start of [s], the digits as they stand; what follows the unit letter is
    not looked at. *)
Definition match_relative (s : str) : option (str * time_unit) :=
  match expect "in" s with
  | Some r =>
      match re_spaces1 r with
      | Some r =>
          match span is_digit r with
          | ([], _) => None
          | (ds, r) =>
              match snd (span is_space r) with
              | c :: _ =>
                  if Ascii.eqb c "h" then Some (ds, unit_h)
                  else if Ascii.eqb c "m" then Some (ds, unit_m)
                  else if Ascii.eqb c "d" then Some (ds, unit_d)
                  else None
              | [] => None
              end
          end
      | None => None
      end
  | None => None
  end.

(** [sys.get_int_max_str_digits()], as the interpreter starts with. *)
Definition MAX_STR_DIGITS : nat := 4300.

(** [int(ds)] on a run of decimal digits: a run of more than
    [MAX_STR_DIGITS] digits, leading zeros counted, raises [ValueError]. *)
Definition int_of_str (ds : str) : result Z :=
  if (MAX_STR_DIGITS <? length ds)%nat then Raise ValueError
  else Ok (int_of_digits ds).

(** [parse_flexible_date(date_string)], with the clock reading as [now]. *)
Definition parse_flexible_date (now : datetime) (date_string : str)
  : result (option datetime) :=
  let date_string := strip (lower date_string) in
  if str_eqb date_string "tomorrow" then
    delta <- new_timedelta 1 0 0 ;;
    t <- dt_add now delta ;;
    t <- replace_time t 9 0 0 0 ;;
    Ok (Some t)
  else if str_eqb date_string "today" then
    t <- replace_time now 23 59 0 0 ;;
    Ok (Some t)
  else
    match match_relative date_string with
    | Some (digits, unit) =>
        value <- int_of_str digits ;;
        delta <- match unit with
                 | unit_h => new_timedelta 0 value 0
                 | unit_m => new_timedelta 0 0 value
                 | unit_d => new_timedelta value 0 0
                 end ;;
        t <- dt_add now delta ;;
        Ok (Some t)
    | None =>
        match strptime_ymd_hm date_string with
        | Ok t => Ok (Some t)
        | Raise ValueError =>
            match strptime_ymd date_string with
            | Ok dt =>
                t <- replace_time dt 9 0 (second dt) (microsecond dt) ;;
                Ok (Some t)
            | Raise ValueError => Ok None
            | Raise e => Raise e
            end
        | Raise e => Raise e
        end
    end.

(** The letter and the length in microseconds of a unit of the relative
    form. *)
Definition unit_char (u : time_unit) : ascii :=
  match u with
  | unit_h => "h"
  | unit_m => "m"
  | unit_d => "d"
  end.

Definition unit_us (u : time_unit) : Z :=
  match u with
  | unit_h => 3600 * US_PER_SECOND
  | unit_m => 60 * US_PER_SECOND
  | unit_d => US_PER_DAY
  end.

(** The relative form: [in], whitespace, the digits [ds], optional
    whitespace, a unit letter, and anything after it. *)
Definition relative_form (t : str) (ds : str) (u : time_unit) : Prop :=
  exists ws ws' rest,
    t = f["in"; ws; ds; ws'; [unit_char u]; rest] /\
    ws <> [] /\ forallb is_space ws = true /\
    ds <> [] /\ forallb is_digit ds = true /\
    forallb is_space ws' = true.

(** The texts [strptime] reads as the number [n] under a directive: its two
    digits, or its one digit when it has one. *)
Definition number_text (n : Z) (s : str) : Prop :=
  s = pad2 n \/ (n <= 9 /\ s = [digit n]).

(** [%d] also reads a space and one digit. *)
Definition day_text (d : Z) (s : str) : Prop :=
  number_text d s \/ (d <= 9 /\ s = [" "%char; digit d]).

(** The absolute forms as [strptime] reads them: a year of four digits, a
    month from 1 to 12, a day from 1 to 31, and with a time some whitespace,
    an hour up to 23 and a minute up to 59; nothing before and nothing
    after. *)
Definition date_form (t : str) (y m d : Z) : Prop :=
  exists ms ds,
    t = f[pad4 y; "-"; ms; "-"; ds] /\
    0 <= y <= 9999 /\
    1 <= m <= 12 /\ number_text m ms /\
    1 <= d <= 31 /\ day_text d ds.

Definition date_time_form (t : str) (y m d h mi : Z) : Prop :=
  exists ms ds ws hs mis,
    t = f[pad4 y; "-"; ms; "-"; ds; ws; hs; ":"; mis] /\
    0 <= y <= 9999 /\
    1 <= m <= 12 /\ number_text m ms /\
    1 <= d <= 31 /\ day_text d ds /\
    ws <> [] /\ forallb is_space ws = true /\
    0 <= h <= 23 /\ number_text h hs /\
    0 <= mi <= 59 /\ number_text mi mis.

(** What follows a number written with one digit is not a digit. *)
Definition no_digit_next (r : str) : Prop :=
  match r with
  | [] => True
  | c :: _ => is_digit c = false
  end.

(** ** Reminder scheduler ([reminder_system.py]) *)

Inductive ReminderType : Type := DUE_DATE | BEFORE_DUE | OVERDUE.

Record ReminderConfig : Type := mkReminderConfig {
  task_id : str;
  reminder_type : ReminderType;
  trigger_time : datetime;
  message : str;
  sound_file : option str;
  enabled : bool;
  sent : bool
}.

(** [self.sound_files] *)
Definition sound_files (k : ReminderType) : str :=
  match k with
  | DUE_DATE => "due_notification.wav"
  | BEFORE_DUE => "warning_notification.wav"
  | OVERDUE => "overdue_notification.wav"
  end.

(** What [_send_reminder] hands to the desktop (or console) notifier. *)
Record Notification : Type := mkNotification {
  n_reminder : ReminderConfig;
  n_title : str;
  n_message : str
}.

(** [ReminderSystem]: the set [self.sent_reminders], and the notifications
    delivered so far, oldest first. *)
Record ReminderSystem : Type := mkReminderSystem {
  sent_reminders : list str;
  delivered : list Notification
}.

Definition new_ReminderSystem : ReminderSystem := mkReminderSystem [] [].

(** [x in self.sent_reminders] *)
Definition in_sent (rs : ReminderSystem) (x : str) : bool :=
  existsb (str_eqb x) (sent_reminders rs).

(** [ReminderSystem._generate_reminders_for_task] *)
Definition _generate_reminders_for_task (task : Task) (now : datetime)
  : result (list ReminderConfig) :=
  match due_date task with
  | None => Ok []
  | Some due =>
      let base_id := f[id task; "_"; isoformat due] in
      let reminders :=
        if dt_le now due then
          [mkReminderConfig f[base_id; "_due"] DUE_DATE due
             f["Task due now: "; title task]
             (Some (sound_files DUE_DATE)) true false]
        else [] in
      delta <- new_timedelta 0 0 30 ;;
      before_time <- dt_sub due delta ;;
      let reminders :=
        if dt_le now before_time then
          reminders ++
          [mkReminderConfig f[base_id; "_before"] BEFORE_DUE before_time
             f["Task due in 30 minutes: "; title task]
             (Some (sound_files BEFORE_DUE)) true false]
        else reminders in
      delta <- new_timedelta 0 0 30 ;;
      overdue_time <- dt_add due delta ;;
      let reminders :=
        if dt_lt due now && dt_le now overdue_time then
          reminders ++
          [mkReminderConfig f[base_id; "_overdue"] OVERDUE overdue_time
             f["Task is overdue: "; title task]
             (Some (sound_files OVERDUE)) true false]
        else reminders in
      Ok reminders
  end.

(** [ReminderSystem._send_reminder]: nothing is delivered or recorded when
    the task cannot be found again; the body never lets an exception out. *)
Definition _send_reminder (tm : TaskManager) (rs : ReminderSystem)
    (reminder : ReminderConfig) : ReminderSystem :=
  let original_id := hd [] (split_on "_" (task_id reminder)) in
  match get_task tm original_id with
  | None => rs
  | Some task =>
      let message := message reminder in
      let message :=
        if truthy (author task)
        then f[message; nl; "Author: ";
               match author task with Some a => a | None => [] end]
        else message in
      let message :=
        match description task with
        | [] => message
        | d =>
            let desc_preview :=
              if (100 <? length d)%nat then f[firstn 100 d; "..."] else d in
            f[message; nl; "Description: "; desc_preview]
        end in
      mkReminderSystem
        (task_id reminder :: sent_reminders rs)
        (delivered rs ++
         [mkNotification reminder "NeuroPlan Reminder" message])
  end.

(** The inner loop of [_check_all_reminders] over one task's reminders. *)
Definition send_due (tm : TaskManager) (now : datetime)
    (rs : ReminderSystem) (reminders : list ReminderConfig)
  : ReminderSystem :=
  fold_left
    (fun rs reminder =>
       if enabled reminder && negb (sent reminder) &&
          dt_ge now (trigger_time reminder) &&
          negb (in_sent rs (task_id reminder))
       then _send_reminder tm rs reminder
       else rs)
    reminders rs.

(** [ReminderSystem._check_all_reminders]: one tick at time [now].  An
    exception ends the tick; what was sent before it stays sent. *)
Fixpoint check_tasks (tm : TaskManager) (now : datetime)
    (rs : ReminderSystem) (ts : list Task) : ReminderSystem * option exn :=
  match ts with
  | [] => (rs, None)
  | task :: ts' =>
      match due_date task with
      | None => check_tasks tm now rs ts'
      | Some _ =>
          if str_eqb (Status_value (status task)) "DONE"
          then check_tasks tm now rs ts'
          else
            match _generate_reminders_for_task task now with
            | Raise e => (rs, Some e)
            | Ok reminders =>
                check_tasks tm now (send_due tm now rs reminders) ts'
            end
      end
  end.

Definition _check_all_reminders (tm : TaskManager) (now : datetime)
    (rs : ReminderSystem) : ReminderSystem * option exn :=
  check_tasks tm now rs (task_values tm).

(** [_reminder_loop] over a sequence of clock readings, one per tick: an
    exception of a tick is printed and the loop goes on. *)
Definition _reminder_loop (tm : TaskManager) (ticks : list datetime)
    (rs : ReminderSystem) : ReminderSystem :=
  fold_left (fun rs now => fst (_check_all_reminders tm now rs)) ticks rs.

(** The kinds of the reminders delivered, in order. *)
Definition delivered_kinds (rs : ReminderSystem) : list ReminderType :=
  map (fun n => reminder_type (n_reminder n)) (delivered rs).

(** ** The outline parser ([orgparse])

    Modelled from the spec: [orgparse] is a third-party package; what its
    [load] returns for a file is modelled from the file format of the spec
    (sections 4.2 and 6) and the package's documented parsing rules: the lines
    up to the first heading belong to the root node; a heading line is a run
    of stars and a space; of a heading, the trailing [:tag:...:] block, a
    leading TODO keyword and a priority cookie are taken out; a SCHEDULED
    stamp is looked for on the line after the heading; the first PROPERTIES
    drawer gives the properties; the remaining lines are the body; a node's
    tags include those of the headings it is nested under.  Link markup,
    CLOCK lines and state-change notes are not modelled. *)

Open Scope nat_scope.

Record OrgNode : Type := mkOrgNode {
  level : nat;
  heading : str;
  shallow_tags : list str;
  node_tags : list str;          (* [node.tags]: own and inherited *)
  scheduled : option datetime;   (* [node.scheduled.start] *)
  properties : dict str;
  body : str
}.

(** The lines of a text file. *)
Definition splitlines (s : str) : list str :=
  match s with
  | [] => []
  | _ => let ps := split_on NL s in
         match last ps [NL] with
         | [] => removelast ps
         | _ => ps
         end
  end.

Definition is_star (c : ascii) : bool := Ascii.eqb c "*".

(** [^\*+ ] *)
Definition is_heading_line (l : str) : bool :=
  match span is_star l with
  | (_ :: _, c :: _) => Ascii.eqb c " "
  | _ => false
  end.

(** The lines before the first heading, then each heading line with the
    lines that follow it. *)
Fixpoint lines_to_chunks (ls : list str) : list str * list (str * list str) :=
  match ls with
  | [] => ([], [])
  | l :: ls' =>
      let '(pre, cs) := lines_to_chunks ls' in
      if is_heading_line l then ([], (l, pre) :: cs) else (l :: pre, cs)
  end.

(** [^(\*+)\s+(.*?)\s*$] *)
Definition parse_heading_level (l : str) : nat * str :=
  let '(stars, rest) := span is_star l in (length stars, strip rest).

Definition is_tag_char (c : ascii) : bool :=
  is_word c || Ascii.eqb c "@" || Ascii.eqb c ":".

Definition is_colon (c : ascii) : bool := Ascii.eqb c ":".

(** [(.*?)\s*:([\w@:]+):\s*$]: the heading without its tag block, and the
    tags.  The block is the part, from its first colon on, of the run of tag
    characters that ends the heading. *)
Definition parse_heading_tags (h : str) : str * list str :=
  let '(rrun, rprefix) := span is_tag_char (rev (rstrip h)) in
  let run := rev rrun in
  let '(before, block) := span (fun c => negb (is_colon c)) run in
  match block, rrun with
  | _ :: inner, c :: _ =>
      if is_colon c && (3 <=? length block)
      then (rstrip (rev rprefix ++ before),
            split_on ":" (removelast inner))
      else (h, [])
  | _, _ => (h, [])
  end.

(** [parse_heading_todos] *)
Fixpoint parse_heading_todos (h : str) (todo_candidates : list str) : str :=
  match todo_candidates with
  | [] => h
  | todo :: rest =>
      if str_eqb h todo then []
      else if startswith f[todo; " "] h then skipn (length todo + 1) h
      else parse_heading_todos h rest
  end.

(** A priority cookie and one space after it, at the start:
    [\s*], then [#X] in brackets with [X] in [A-Z0-9]. *)
Definition parse_heading_priority (h : str) : str :=
  match lstrip h with
  | c1 :: c2 :: c3 :: c4 :: r =>
      if Ascii.eqb c1 "[" && Ascii.eqb c2 "#" &&
         (is_upper c3 || is_digit c3) && Ascii.eqb c4 "]"
      then match r with
           | c :: r' => if Ascii.eqb c " " then r' else r
           | [] => []
           end
      else h
  | _ => h
  end.

(** The first place where [p] occurs in [s], as what follows it. *)
Fixpoint after (p s : str) : option str :=
  match expect p s with
  | Some r => Some r
  | None => match s with
            | [] => None
            | _ :: s' => after p s'
            end
  end.

(** An optional clock time [H:MM] or [HH:MM]. *)
Definition stamp_time (s : str) : option (Z * Z) :=
  let '(hs, r) := span is_digit s in
  match hs, r with
  | _ :: _, c :: r' =>
      if Ascii.eqb c ":" && (length hs <=? 2) then
        match take_digits 2 r' with
        | Some (ms, _) => Some (int_of_digits hs, int_of_digits ms)
        | None => None
        end
      else None
  | _, _ => None
  end.

(** The stamp of [SCHEDULED: <YYYY-MM-DD Day HH:MM>] on a line, if it has
    one; building the date raises [ValueError] when it is not a date of the
    calendar.  A stamp without a time is kept as midnight. *)
Definition parse_scheduled (l : str) : result (option datetime) :=
  match after "SCHEDULED:" l with
  | None => Ok None
  | Some r =>
      match lstrip r with
      | c :: r =>
          if Ascii.eqb c "<" then
            match take_digits 4 r with
            | Some (y, r) =>
                match expect "-" r with
                | Some r =>
                    match take_digits 2 r with
                    | Some (m, r) =>
                        match expect "-" r with
                        | Some r =>
                            match take_digits 2 r with
                            | Some (d, r) =>
                                let r := snd (span (fun c => negb (is_digit c)
                                                     && negb (Ascii.eqb c ">")) r) in
                                let '(h, mi) :=
                                  match stamp_time r with
                                  | Some hm => hm
                                  | None => (0, 0)%Z
                                  end in
                                t <- new_datetime (int_of_digits y)
                                       (int_of_digits m) (int_of_digits d)
                                       h mi 0 0 ;;
                                Ok (Some t)
                            | None => Ok None
                            end
                        | None => Ok None
                        end
                    | None => Ok None
                    end
                | None => Ok None
                end
            | None => Ok None
            end
          else Ok None
      | [] => Ok None
      end
  end.

(** [^\s*:(.*?):\s*(.*?)\s*$] *)
Definition parse_property (l : str) : option (str * str) :=
  match lstrip l with
  | c :: r =>
      if is_colon c then
        match span (fun c => negb (is_colon c)) r with
        | (key, _ :: v) => Some (key, strip v)
        | (_, []) => None
        end
      else None
  | [] => None
  end.

(** [_iparse_properties]: the properties of the first drawer, and the lines
    outside it. *)
Fixpoint drawer_lines (ls : list str) (props : dict str)
  : dict str * list str :=
  match ls with
  | [] => (props, [])
  | l :: ls' =>
      if contains ":END:" l then (props, ls')
      else
        match parse_property l with
        | Some (k :: key, v) => drawer_lines ls' (dict_set props (k :: key) v)
        | _ => drawer_lines ls' props
        end
  end.

Fixpoint iparse_properties (ls : list str) : dict str * list str :=
  match ls with
  | [] => ([], [])
  | l :: ls' =>
      if contains ":PROPERTIES:" l then drawer_lines ls' []
      else let '(props, rest) := iparse_properties ls' in (props, l :: rest)
  end.

(** One node from its heading line and the lines under it; the inherited
    tags are added afterwards. *)
Definition parse_node (todo_keys : list str) (chunk : str * list str)
  : result OrgNode :=
  let '(hl, ls) := chunk in
  let '(lvl, h) := parse_heading_level hl in
  let '(h, tgs) := parse_heading_tags h in
  let h := parse_heading_todos h todo_keys in
  let h := parse_heading_priority h in
  sched <- match ls with
           | l :: _ => parse_scheduled l
           | [] => Ok None
           end ;;
  let ls := match sched, ls with
            | Some _, _ :: ls' => ls'
            | _, _ => ls
            end in
  let '(props, rest) := iparse_properties ls in
  Ok (mkOrgNode lvl h tgs tgs sched props (join nl rest)).

Fixpoint parse_nodes (todo_keys : list str) (cs : list (str * list str))
  : result (list OrgNode) :=
  match cs with
  | [] => Ok []
  | c :: cs' =>
      n <- parse_node todo_keys c ;;
      ns <- parse_nodes todo_keys cs' ;;
      Ok (n :: ns)
  end.

(** Union of two tag sets, kept as lists without repetition of the first. *)
Definition tag_union (own inherited : list str) : list str :=
  own ++ filter (fun t => negb (existsb (str_eqb t) own)) inherited.

(** Tag inheritance: [stack] holds the headings the current position is
    nested under, innermost first, each with its level and its full tags. *)
Fixpoint inherit_tags (stack : list (nat * list str)) (ns : list OrgNode)
  : list OrgNode :=
  match ns with
  | [] => []
  | n :: ns' =>
      let stack' := filter (fun a => fst a <? level n) stack in
      let inherited := match stack' with
                       | (_, ts) :: _ => ts
                       | [] => []
                       end in
      let full := tag_union (shallow_tags n) inherited in
      mkOrgNode (level n) (heading n) (shallow_tags n) full (scheduled n)
                (properties n) (body n)
      :: inherit_tags ((level n, full) :: stack') ns'
  end.

(** What a file holds: text, or bytes that are not text. *)
Inductive FileContent : Type :=
| Text (s : str)
| Undecodable.

(** [orgparse.load(path)[1:]]: the nodes of the file below its root. *)
Definition orgparse_load (todo_keys : list str) (c : FileContent)
  : result (list OrgNode) :=
  match c with
  | Undecodable => Raise ValueError
  | Text s =>
      ns <- parse_nodes todo_keys (snd (lines_to_chunks (splitlines s))) ;;
      Ok (inherit_tags [] ns)
  end.

(** The TODO keywords of a file that declares none. *)
Definition default_todo_keys : list str := [lit "TODO"; lit "DONE"].

(** ** Outline persistence ([org_storage.py]) *)

(** [datetime.fromisoformat] on the naive forms
    [YYYY-MM-DD[*HH[:MM[:SS[.fff[fff]]]]]]. *)
Definition iso_fraction (s : str) : option Z :=
  match take_digits 6 s with
  | Some (ds, []) => Some (int_of_digits ds)
  | _ =>
      match take_digits 3 s with
      | Some (ds, []) => Some (int_of_digits ds * 1000)%Z
      | _ => None
      end
  end.

Definition iso_time (s : str) : option (Z * Z * Z * Z) :=
  match take_digits 2 s with
  | Some (hh, []) => Some (int_of_digits hh, 0, 0, 0)%Z
  | Some (hh, c :: r) =>
      if is_colon c then
        match take_digits 2 r with
        | Some (mm, []) => Some (int_of_digits hh, int_of_digits mm, 0, 0)%Z
        | Some (mm, c :: r) =>
            if is_colon c then
              match take_digits 2 r with
              | Some (ss, []) =>
                  Some (int_of_digits hh, int_of_digits mm,
                        int_of_digits ss, 0%Z)
              | Some (ss, c :: r) =>
                  if Ascii.eqb c "." then
                    match iso_fraction r with
                    | Some us =>
                        Some (int_of_digits hh, int_of_digits mm,
                              int_of_digits ss, us)
                    | None => None
                    end
                  else None
              | None => None
              end
            else None
        | None => None
        end
      else None
  | None => None
  end.

Definition fromisoformat (s : str) : result datetime :=
  match take_digits 4 s with
  | Some (y, c1 :: r) =>
      match take_digits 2 r with
      | Some (m, c2 :: r) =>
          if Ascii.eqb c1 "-" && Ascii.eqb c2 "-" then
            match take_digits 2 r with
            | Some (d, []) =>
                new_datetime (int_of_digits y) (int_of_digits m)
                             (int_of_digits d) 0 0 0 0
            | Some (d, _ :: r) =>
                match iso_time r with
                | Some (hh, mm, ss, us) =>
                    new_datetime (int_of_digits y) (int_of_digits m)
                                 (int_of_digits d) hh mm ss us
                | None => Raise ValueError
                end
            | None => Raise ValueError
            end
          else Raise ValueError
      | _ => Raise ValueError
      end
  | _ => Raise ValueError
  end.

(** The dictionaries [load] returns.  [d_id = None] stands for a dictionary
    without the key ['id'].  The dates are [datetime] objects. *)
Record TaskData : Type := mkTaskData {
  d_id : option str;
  d_title : str;
  d_description : str;
  d_author : option str;
  d_status : Status;
  d_priority : Priority;
  d_due_date : option datetime;
  d_tags : list str;
  d_parent_id : option str;
  d_created_at : datetime;
  d_file : str
}.

(** [properties.get(k, default)] *)
Definition get_default (d : dict str) (k default : str) : str :=
  match dict_get d k with
  | Some v => v
  | None => default
  end.

(** The body of the loop of [OrgStorage.load] over the nodes of a file. *)
Definition node_to_dict (now : datetime) (filename : str) (node : OrgNode)
  : result TaskData :=
  let properties := properties node in
  let status_val := get_default properties "status" "TODO" in
  let priority_val := get_default properties "priority" "D" in
  let due_date :=
    match scheduled node with
    | Some start => Some start
    | None =>
        if truthy (dict_get properties "due_date") then
          match fromisoformat (get_default properties "due_date" "") with
          | Ok t => Some t
          | Raise _ => None
          end
        else None
    end in
  let created_at :=
    if truthy (dict_get properties "created_at") then
      match fromisoformat (get_default properties "created_at" "") with
      | Ok t => t
      | Raise _ => now
      end
    else now in
  st <- Status_of status_val ;;
  pr <- Priority_of priority_val ;;
  Ok (mkTaskData (Some (get_default properties "id" "N/A"))
        (heading node) (body node) (dict_get properties "author")
        st pr
        due_date (node_tags node) (dict_get properties "parent_id")
        created_at filename).

Fixpoint nodes_to_dicts (now : datetime) (filename : str)
    (nodes : list OrgNode) : result (list TaskData) :=
  match nodes with
  | [] => Ok []
  | node :: nodes' =>
      d <- node_to_dict now filename node ;;
      ds <- nodes_to_dicts now filename nodes' ;;
      Ok (d :: ds)
  end.

(** The directory of the storage: its files in the order [os.listdir] gives
    them. *)
Definition directory := dict FileContent.

(** [OrgStorage.load]: a file that [orgparse] cannot load is skipped; an
    exception raised while a node is turned into a dictionary is not caught. *)
Fixpoint load_files (todo_keys : list str) (now : datetime)
    (files : directory) : result (list TaskData) :=
  match files with
  | [] => Ok []
  | (filename, content) :: files' =>
      if negb (endswith ".org" filename) then load_files todo_keys now files'
      else
        match orgparse_load todo_keys content with
        | Raise _ => load_files todo_keys now files'
        | Ok nodes =>
            ds <- nodes_to_dicts now filename nodes ;;
            rest <- load_files todo_keys now files' ;;
            Ok (ds ++ rest)
        end
  end.

Definition OrgStorage_load (todo_keys : list str) (now : datetime)
    (dir : directory) : result (list TaskData) :=
  load_files todo_keys now dir.

(** [sorted(ts, key=lambda t: t.created_at)]: stable. *)
Fixpoint insert_by_created (t : Task) (ts : list Task) : list Task :=
  match ts with
  | [] => [t]
  | u :: ts' =>
      if dt_lt (created_at u) (created_at t)
      then u :: insert_by_created t ts'
      else t :: ts
  end.

Definition sorted_by_created (ts : list Task) : list Task :=
  fold_right insert_by_created [] ts.

(** The objects a list of references denotes. *)
Definition deref (h : heap) (ls : list loc) : list Task :=
  flat_map (fun l => match heap_get h l with
                     | Some t => [t]
                     | None => []
                     end) ls.

(** What one call of [_write_task_node] writes before it turns to the
    children. *)
Definition node_text (task : Task) (level : nat) : str :=
  let stars := repeat_char "*" level in
  let status_token := if Status_eqb (status task) TODO then []
                      else f[Status_value (status task); " "] in
  let tag_block := match tags task with
                   | [] => []
                   | ts => f[":"; join ":" ts; ":"]
                   end in
  f[ f[stars; " "; status_token; title task; " "; tag_block; nl];
     match due_date task with
     | Some d => f["SCHEDULED: <"; strftime_org d; ">"; nl]
     | None => []
     end;
     f[":PROPERTIES:"; nl];
     f[":id: "; id task; nl];
     if truthy (parent_id task)
     then f[":parent_id: ";
            match parent_id task with Some p => p | None => [] end; nl]
     else [];
     if truthy (author task)
     then f[":author: ";
            match author task with Some a => a | None => [] end; nl]
     else [];
     f[":status: "; Status_value (status task); nl];
     f[":priority: "; Priority_value (priority task); nl];
     f[":created_at: "; isoformat (created_at task); nl];
     f[":END:"; nl; nl];
     match description task with
     | [] => []
     | d => f[strip d; nl; nl]
     end ].

(** [OrgStorage._write_task_node]: [out] is what the file handle has
    received; [depth] is the number of nested calls the interpreter still
    allows, and running out of it raises [RecursionError].  What was written
    before an exception stays written. *)
Fixpoint _write_task_node (depth : nat) (h : heap) (out : str)
    (task : Task) (level : nat) {struct depth} : str * option exn :=
  match depth with
  | O => (out, Some RecursionError)
  | S depth' =>
      let out := out ++ node_text task level in
      (fix each (out : str) (cs : list Task) : str * option exn :=
         match cs with
         | [] => (out, None)
         | child :: cs' =>
             match _write_task_node depth' h out child (level + 1) with
             | (out, None) => each out cs'
             | (out, Some e) => (out, Some e)
             end
         end)
        out (sorted_by_created (deref h (children task)))
  end.

(** The loop of [save] that writes the tasks of one file. *)
Fixpoint write_tasks (depth : nat) (h : heap) (out : str)
    (ts : list Task) : str * option exn :=
  match ts with
  | [] => (out, None)
  | task :: ts' =>
      match _write_task_node depth h out task 1 with
      | (out, None) => write_tasks depth h out ts'
      | (out, Some e) => (out, Some e)
      end
  end.

Definition opt_str_eqb (a b : option str) : bool :=
  match a, b with
  | None, None => true
  | Some x, Some y => str_eqb x y
  | _, _ => false
  end.

(** [tasks_by_file]: [getattr(task, 'file', 'tasks.org')] is [task.file],
    the attribute always being there; its value may be [None]. *)
Fixpoint group_add (g : list (option str * list Task)) (k : option str)
    (t : Task) : list (option str * list Task) :=
  match g with
  | [] => [(k, [t])]
  | (k', ts) :: g' =>
      if opt_str_eqb k k' then (k', ts ++ [t]) :: g'
      else (k', ts) :: group_add g' k t
  end.

Definition tasks_by_file (ts : list Task) : list (option str * list Task) :=
  fold_left (fun g t => group_add g (file t) t) ts [].

(** [s.replace('.org', '')] *)
Fixpoint remove_org (n : nat) (s : str) : str :=
  match n with
  | O => s
  | S n' =>
      match s with
      | [] => []
      | c :: s' =>
          if startswith ".org" s then remove_org n' (skipn 4 s)
          else c :: remove_org n' s'
      end
  end.

Definition title_line (filename : str) : str :=
  f["#+TITLE: "; remove_org (length filename) filename; nl; nl].

(** The length of a name in the bytes of its UTF-8 form. *)
Definition utf8_length (name : str) : nat :=
  fold_right (fun c n => if code c <? 128 then S n else S (S n)) O name.

(** A plain file name: not empty, neither [.] nor [..], without a path
    separator and without a null character, and not longer than the 255
    bytes a name may have.  Joined to the path of the directory it names a
    file of the directory itself. *)
Definition plain_name (name : str) : bool :=
  match name with
  | [] => false
  | _ =>
      forallb (fun c => negb (Ascii.eqb c "/") && negb (code c =? 0)) name &&
      negb (str_eqb name ".") && negb (str_eqb name "..") &&
      (utf8_length name <=? 255)
  end.

(** Where [open(os.path.join(self.directory_path, filename), "w")] leads:
    to the file of the directory with a given plain name; to a file that
    is not in the listing of the directory (a path that leaves it or
    enters a subdirectory); or nowhere, [open] raising, as it does with
    [OSError] for a path that names a directory, goes through a missing
    one or is too long, and with [ValueError] for a null character. *)
Inductive Target : Type :=
| InDirectory (name : str)
| Elsewhere
| OpenRaises (e : exn).

(** The file system around the storage directory: where the path of a
    file name that is not plain leads.  It is the same for the whole run:
    the program makes no directory and removes nothing. *)
Definition surroundings : Type := str -> Target.

Definition open_target (env : surroundings) (filename : str) : Target :=
  if plain_name filename then InDirectory filename
  else
    match env filename with
    | InDirectory name =>
        if plain_name name then InDirectory name else Elsewhere
    | target => target
    end.

(** The loop of [save] over the files: joining the directory path and
    [None] raises [TypeError]; [open] may raise; a file that was opened
    holds what was written to it, also when the writing raised; the files
    before an exception are written.  The entries of the directory are
    regular files that can be written. *)
Fixpoint save_files (env : surroundings) (depth : nat) (h : heap)
    (dir : directory) (groups : list (option str * list Task))
  : directory * option exn :=
  match groups with
  | [] => (dir, None)
  | (None, _) :: _ => (dir, Some TypeError)
  | (Some filename, file_tasks) :: groups' =>
      match open_target env filename with
      | OpenRaises e => (dir, Some e)
      | target =>
          let dir_with out :=
            match target with
            | InDirectory name => dict_set dir name (Text out)
            | _ => dir
            end in
          match write_tasks depth h (title_line filename)
                  (sorted_by_created file_tasks) with
          | (out, None) => save_files env depth h (dir_with out) groups'
          | (out, Some e) => (dir_with out, Some e)
          end
      end
  end.

(** [OrgStorage.save] *)
Definition OrgStorage_save (env : surroundings) (depth : nat) (h : heap)
    (dir : directory) (ts : list Task) : directory * option exn :=
  save_files env depth h dir (tasks_by_file ts).

(** What a save that returns does to the directory: the files it opens
    there, in the order of the groups, with the text it leaves in each. *)
Fixpoint writes (env : surroundings) (depth : nat) (h : heap)
    (groups : list (option str * list Task)) : list (str * FileContent) :=
  match groups with
  | [] => []
  | (Some filename, file_tasks) :: groups' =>
      match open_target env filename with
      | InDirectory name =>
          (name,
           Text (fst (write_tasks depth h (title_line filename)
                        (sorted_by_created file_tasks))))
          :: writes env depth h groups'
      | _ => writes env depth h groups'
      end
  | (None, _) :: groups' => writes env depth h groups'
  end.

Definition apply_writes (ops : list (str * FileContent)) (dir : directory)
  : directory :=
  fold_left (fun d op => dict_set d (fst op) (snd op)) ops dir.

(** ** Task tree manager ([task_manager.TaskManager]) *)

(** The body of the [try] of [load_tasks] up to the call of [Task] on the
    filtered dictionary.  The dates of the dictionaries of [OrgStorage] are
    [datetime] objects already, so the conversion from text is not entered
    and nothing raises here. *)
Definition task_of_data (data : TaskData) (task_id : str) : result Task :=
  Ok (mkTask (d_title data) task_id (d_description data) (d_author data)
        (d_status data) (d_priority data) (d_due_date data) None 30%Z true
        (d_tags data) [] (d_parent_id data) (d_created_at data)
        (Some (d_file data))).

(** The first loop of [load_tasks]: a dictionary whose conversion raises is
    reported and skipped; one without an id is skipped. *)
Fixpoint build_temp_tasks (h : heap) (temp_tasks : dict loc)
    (all_tasks_data : list TaskData) : heap * dict loc :=
  match all_tasks_data with
  | [] => (h, temp_tasks)
  | data :: rest =>
      match d_id data with
      | Some task_id =>
          match task_of_data data task_id with
          | Ok task =>
              let '(h, l) := heap_alloc h task in
              build_temp_tasks h (dict_set temp_tasks task_id l) rest
          | Raise _ => build_temp_tasks h temp_tasks rest
          end
      | None => build_temp_tasks h temp_tasks rest
      end
  end.

Definition set_children (t : Task) (cs : list loc) : Task :=
  mkTask (title t) (id t) (description t) (author t) (status t) (priority t)
         (due_date t) (scheduled_date t) (reminder_minutes t)
         (reminder_enabled t) (tags t) cs (parent_id t) (created_at t)
         (file t).

Definition set_parent_id (t : Task) (p : option str) : Task :=
  mkTask (title t) (id t) (description t) (author t) (status t) (priority t)
         (due_date t) (scheduled_date t) (reminder_minutes t)
         (reminder_enabled t) (tags t) (children t) p (created_at t)
         (file t).

(** An update of the object at a location. *)
Definition heap_upd (h : heap) (l : loc) (f : Task -> Task) : heap :=
  match heap_get h l with
  | Some t => heap_set h l (f t)
  | None => h
  end.

(** One round of the second loop of [load_tasks], for the object at [l]. *)
Definition link_task (temp_tasks : dict loc) (h : heap) (l : loc) : heap :=
  let h := heap_upd h l (fun task => set_children task []) in
  match heap_get h l with
  | None => h
  | Some task =>
      match parent_id task with
      | Some p =>
          match (if truthy (Some p) then dict_get temp_tasks p else None) with
          | Some lp =>
              heap_upd h lp
                (fun parent => set_children parent (children parent ++ [l]))
          | None => heap_upd h l (fun task => set_parent_id task None)
          end
      | None => heap_upd h l (fun task => set_parent_id task None)
      end
  end.

(** [TaskManager.load_tasks] on the dictionaries of the storage. *)
Definition load_tasks (all_tasks_data : list TaskData) : TaskManager :=
  let '(h, temp_tasks) := build_temp_tasks [] [] all_tasks_data in
  let h := fold_left (link_task temp_tasks) (dict_values temp_tasks) h in
  mkTaskManager h temp_tasks.

(** [TaskManager(storage)]: an exception of [storage.load()] leaves the
    constructor. *)
Definition new_TaskManager (todo_keys : list str) (now : datetime)
    (dir : directory) : result TaskManager :=
  all_tasks_data <- OrgStorage_load todo_keys now dir ;;
  Ok (load_tasks all_tasks_data).

(** [TaskManager.save_tasks] *)
Definition save_tasks (env : surroundings) (depth : nat) (tm : TaskManager)
    (dir : directory) : directory * option exn :=
  OrgStorage_save env depth (objects tm) dir (task_values tm).

(** A keyword argument of [add_task] or [update_task].  [K_other] is a
    keyword that names no attribute of a [Task]. *)
Inductive kwarg : Type :=
| K_title (v : str)
| K_id (v : str)
| K_description (v : str)
| K_author (v : option str)
| K_status (v : Status)
| K_priority (v : Priority)
| K_due_date (v : option datetime)
| K_scheduled_date (v : option datetime)
| K_reminder_minutes (v : Z)
| K_reminder_enabled (v : bool)
| K_tags (v : list str)
| K_children (v : list loc)
| K_parent_id (v : option str)
| K_created_at (v : datetime)
| K_file (v : option str)
| K_other (key : str).

(** [hasattr(task, key)] *)
Definition hasattr (k : kwarg) : bool :=
  match k with
  | K_other _ => false
  | _ => true
  end.

(** [setattr(task, key, value)] *)
Definition setattr (t : Task) (k : kwarg) : Task :=
  match k with
  | K_title v =>
      mkTask v (id t) (description t) (author t) (status t) (priority t)
        (due_date t) (scheduled_date t) (reminder_minutes t)
        (reminder_enabled t) (tags t) (children t) (parent_id t)
        (created_at t) (file t)
  | K_id v =>
      mkTask (title t) v (description t) (author t) (status t) (priority t)
        (due_date t) (scheduled_date t) (reminder_minutes t)
        (reminder_enabled t) (tags t) (children t) (parent_id t)
        (created_at t) (file t)
  | K_description v =>
      mkTask (title t) (id t) v (author t) (status t) (priority t)
        (due_date t) (scheduled_date t) (reminder_minutes t)
        (reminder_enabled t) (tags t) (children t) (parent_id t)
        (created_at t) (file t)
  | K_author v =>
      mkTask (title t) (id t) (description t) v (status t) (priority t)
        (due_date t) (scheduled_date t) (reminder_minutes t)
        (reminder_enabled t) (tags t) (children t) (parent_id t)
        (created_at t) (file t)
  | K_status v =>
      mkTask (title t) (id t) (description t) (author t) v (priority t)
        (due_date t) (scheduled_date t) (reminder_minutes t)
        (reminder_enabled t) (tags t) (children t) (parent_id t)
        (created_at t) (file t)
  | K_priority v =>
      mkTask (title t) (id t) (description t) (author t) (status t) v
        (due_date t) (scheduled_date t) (reminder_minutes t)
        (reminder_enabled t) (tags t) (children t) (parent_id t)
        (created_at t) (file t)
  | K_due_date v =>
      mkTask (title t) (id t) (description t) (author t) (status t)
        (priority t) v (scheduled_date t) (reminder_minutes t)
        (reminder_enabled t) (tags t) (children t) (parent_id t)
        (created_at t) (file t)
  | K_scheduled_date v =>
      mkTask (title t) (id t) (description t) (author t) (status t)
        (priority t) (due_date t) v (reminder_minutes t)
        (reminder_enabled t) (tags t) (children t) (parent_id t)
        (created_at t) (file t)
  | K_reminder_minutes v =>
      mkTask (title t) (id t) (description t) (author t) (status t)
        (priority t) (due_date t) (scheduled_date t) v
        (reminder_enabled t) (tags t) (children t) (parent_id t)
        (created_at t) (file t)
  | K_reminder_enabled v =>
      mkTask (title t) (id t) (description t) (author t) (status t)
        (priority t) (due_date t) (scheduled_date t) (reminder_minutes t)
        v (tags t) (children t) (parent_id t) (created_at t) (file t)
  | K_tags v =>
      mkTask (title t) (id t) (description t) (author t) (status t)
        (priority t) (due_date t) (scheduled_date t) (reminder_minutes t)
        (reminder_enabled t) v (children t) (parent_id t) (created_at t)
        (file t)
  | K_children v => set_children t v
  | K_parent_id v => set_parent_id t v
  | K_created_at v =>
      mkTask (title t) (id t) (description t) (author t) (status t)
        (priority t) (due_date t) (scheduled_date t) (reminder_minutes t)
        (reminder_enabled t) (tags t) (children t) (parent_id t) v (file t)
  | K_file v =>
      mkTask (title t) (id t) (description t) (author t) (status t)
        (priority t) (due_date t) (scheduled_date t) (reminder_minutes t)
        (reminder_enabled t) (tags t) (children t) (parent_id t)
        (created_at t) v
  | K_other _ => t
  end.

(** The state the manager's operations act on: the manager and the directory
    of its storage.  The file system around the directory, [env], is an
    argument of the operations that save. *)
Definition world : Type := TaskManager * directory.

(** The call of [Task] in [add_task] (title, parent_id, file and the
    keywords), with [fresh_id] the value [uuid.uuid4()] gives and [now] the
    clock: a keyword that is no field of [Task], or is given twice, raises
    [TypeError]. *)
Definition is_init_conflict (k : kwarg) : bool :=
  match k with
  | K_title _ | K_parent_id _ | K_file _ | K_other _ => true
  | _ => false
  end.

Definition new_Task (fresh_id : str) (now : datetime) (title : str)
    (parent_id filename : option str) (kwargs : list kwarg) : result Task :=
  if existsb is_init_conflict kwargs then Raise TypeError
  else
    Ok (fold_left setattr kwargs
          (mkTask title fresh_id [] None TODO NONE None None 30%Z true [] []
                  parent_id now filename)).

(** [TaskManager.add_task] *)
Definition add_task (env : surroundings) (depth : nat) (fresh_id : str)
    (now : datetime) (w : world) (title : str) (parent_id filename : option str)
    (kwargs : list kwarg) : world * result loc :=
  let '(tm, dir) := w in
  match new_Task fresh_id now title parent_id filename kwargs with
  | Raise e => (w, Raise e)
  | Ok new_task =>
      let '(h, l) := heap_alloc (objects tm) new_task in
      let tasks := dict_set (tasks tm) (id new_task) l in
      let h :=
        match parent_id with
        | Some p =>
            match (if truthy (Some p) then dict_get tasks p else None) with
            | Some lp =>
                heap_upd h lp
                  (fun parent => set_children parent (children parent ++ [l]))
            | None => h
            end
        | None => h
        end in
      let tm := mkTaskManager h tasks in
      match save_tasks env depth tm dir with
      | (dir, None) => ((tm, dir), Ok l)
      | (dir, Some e) => ((tm, dir), Raise e)
      end
  end.

(** [TaskManager.update_task] *)
Definition update_task (env : surroundings) (depth : nat) (w : world)
    (task_id : str) (kwargs : list kwarg) : world * option exn :=
  let '(tm, dir) := w in
  match dict_get (tasks tm) task_id with
  | Some l =>
      let h :=
        fold_left
          (fun h k => if hasattr k then heap_upd h l (fun t => setattr t k)
                      else h)
          kwargs (objects tm) in
      let tm := mkTaskManager h (tasks tm) in
      let '(dir, e) := save_tasks env depth tm dir in
      ((tm, dir), e)
  | None => (w, None)
  end.

(** ** What a save writes, record by record *)

(** The calls of [_write_task_node] made by the call on [task] at [level],
    that call first, each with its task and its level. *)
Fixpoint written (depth : nat) (h : heap) (task : Task) (level : nat)
  : list (Task * nat) :=
  match depth with
  | O => []
  | S depth' =>
      (task, level)
      :: flat_map (fun c => written depth' h c (level + 1))
                  (sorted_by_created (deref h (children task)))
  end.

(** The text of a sequence of records. *)
Definition render (trace : list (Task * nat)) : str :=
  List.concat (map (fun e => node_text (fst e) (snd e)) trace).

(** The tasks that belong to a file. *)
Definition tasks_of_file (f : str) (ts : list Task) : list Task :=
  filter (fun t => opt_str_eqb (file t) (Some f)) ts.

(** The records of a file, in the order they are written. *)
Definition file_trace (depth : nat) (h : heap) (f : str) (ts : list Task)
  : list (Task * nat) :=
  flat_map (fun t => written depth h t 1)
           (sorted_by_created (tasks_of_file f ts)).

(** The group of a file name among the groups of [tasks_by_file]. *)
Fixpoint group_get (g : list (option str * list Task)) (k : option str)
  : option (list Task) :=
  match g with
  | [] => None
  | (k', ts) :: g' => if opt_str_eqb k k' then Some ts else group_get g' k
  end.


(** ** The records of a file as lines, and the tasks that can be read back *)

(** The text of a list of lines. *)
Definition unlines (ls : list str) : str :=
  List.concat (map (fun l : str => l ++ nl) ls).

Definition status_token (t : Task) : str :=
  if Status_eqb (status t) TODO then [] else f[Status_value (status t); " "].

Definition tag_block (t : Task) : str :=
  match tags t with
  | [] => []
  | ts => f[":"; join ":" ts; ":"]
  end.

(** The heading of a record between its stars and its tags. *)
Definition heading_core (t : Task) : str := status_token t ++ title t.

Definition heading_line (t : Task) (lvl : nat) : str :=
  f[repeat_char "*" lvl; " "; status_token t; title t; " "; tag_block t].

Definition scheduled_lines (t : Task) : list str :=
  match due_date t with
  | Some d => [f["SCHEDULED: <"; strftime_org d; ">"]]
  | None => []
  end.

Definition or_empty (o : option str) : str :=
  match o with
  | Some s => s
  | None => []
  end.

Definition property_lines (t : Task) : list str :=
  [lit ":PROPERTIES:"; f[":id: "; id t]]
  ++ (if truthy (parent_id t)
      then [f[":parent_id: "; or_empty (parent_id t)]] else [])
  ++ (if truthy (author t)
      then [f[":author: "; or_empty (author t)]] else [])
  ++ [f[":status: "; Status_value (status t)];
      f[":priority: "; Priority_value (priority t)];
      f[":created_at: "; isoformat (created_at t)];
      lit ":END:"; []].

Definition description_lines (t : Task) : list str :=
  match description t with
  | [] => []
  | d => split_on NL (strip d) ++ [[]]
  end.

(** The lines of one record. *)
Definition node_lines (e : Task * nat) : list str :=
  heading_line (fst e) (snd e)
  :: scheduled_lines (fst e) ++ property_lines (fst e)
     ++ description_lines (fst e).

(** An optional string that is [None] when it is false. *)
Definition if_truthy (o : option str) : option str :=
  if truthy o then o else None.

(** The properties a record carries. *)
Definition node_properties (t : Task) : dict str :=
  [(lit "id", id t)]
  ++ (if truthy (parent_id t)
      then [(lit "parent_id", or_empty (parent_id t))] else [])
  ++ (if truthy (author t)
      then [(lit "author", or_empty (author t))] else [])
  ++ [(lit "status", Status_value (status t));
      (lit "priority", Priority_value (priority t));
      (lit "created_at", isoformat (created_at t))].

(** A moment without its seconds. *)
Definition to_the_minute (d : datetime) : datetime :=
  mkdatetime (year d) (month d) (day d) (hour d) (minute d) 0 0.

(** The body the parser gives for a description. *)
Definition node_body (t : Task) : str :=
  match description t with
  | [] => []
  | d => f[nl; strip d; nl]
  end.

(** The node of a record, before tags are inherited. *)
Definition node_of (e : Task * nat) : OrgNode :=
  mkOrgNode (snd e) (title (fst e)) (tags (fst e)) (tags (fst e))
            (option_map to_the_minute (due_date (fst e)))
            (node_properties (fst e)) (node_body (fst e)).

(** A text without the separator. *)
Definition sep_free (sep : ascii) (l : str) : bool :=
  forallb (fun c => negb (Ascii.eqb c sep)) l.

(** Texts that the format keeps. *)
Definition no_break (s : str) : bool :=
  forallb (fun c => negb (is_linebreak c)) s.

(** Not empty, and no whitespace at either end. *)
Definition stripped (s : str) : bool :=
  match s, rev s with
  | c :: _, c' :: _ => negb (is_space c) && negb (is_space c')
  | _, _ => false
  end.

(** The value of a property: one line without a colon. *)
Definition value_ok (v : str) : bool :=
  stripped v && no_break v && forallb (fun c => negb (is_colon c)) v.

Definition opt_value_ok (o : option str) : bool :=
  match o with
  | Some (c :: v) => value_ok (c :: v)
  | _ => true
  end.

Definition is_bracket (c : ascii) : bool := Ascii.eqb c "[".

(** A title: one line, without colon or bracket, that no TODO keyword
    starts; a status other than TODO has to be a keyword. *)
Definition title_ok (todo_keys : list str) (t : Task) : bool :=
  stripped (title t) && no_break (title t) &&
  forallb (fun c => negb (is_colon c) && negb (is_bracket c)) (title t) &&
  if Status_eqb (status t) TODO
  then forallb (fun k => negb (str_eqb (title t) k) &&
                         negb (startswith f[k; " "] (title t))) todo_keys
  else existsb (str_eqb (Status_value (status t))) todo_keys.

Definition tag_ok (tg : str) : bool :=
  match tg with
  | [] => false
  | _ => forallb (fun c => is_word c || Ascii.eqb c "@") tg
  end.

(** A description: no line break but the newline, no star, colon or
    bracket. *)
Definition description_ok (d : str) : bool :=
  forallb (fun c => (negb (is_linebreak c) || Ascii.eqb c NL) &&
                    negb (is_star c) && negb (is_colon c) &&
                    negb (is_bracket c)) d.

Definition file_ok (o : option str) : bool :=
  match o with
  | Some f => endswith ".org" f && no_break f && plain_name f
  | None => false
  end.

Definition due_ok (o : option datetime) : bool :=
  match o with
  | Some d => valid_datetime d && (1000 <=? year d)%Z
  | None => true
  end.

Definition task_ok (todo_keys : list str) (t : Task) : bool :=
  value_ok (id t) && opt_value_ok (parent_id t) && opt_value_ok (author t) &&
  title_ok todo_keys t && forallb tag_ok (tags t) &&
  description_ok (description t) && file_ok (file t) && due_ok (due_date t).

(** A text without a space. *)
Definition space_free (k : str) : bool :=
  forallb (fun c => negb (Ascii.eqb c " ")) k.

(** TODO keywords are single words. *)
Definition keys_ok (todo_keys : list str) : bool :=
  forallb (fun k => forallb (fun c => negb (Ascii.eqb c " ")) k) todo_keys.

(** The key of a property line. *)
Definition key_ok (key : str) : bool :=
  match key with
  | [] => false
  | c :: _ => negb (Ascii.eqb c "E") &&
              forallb (fun c => negb (is_colon c)) key
  end.


(** The characters of [isoformat]. *)
Definition iso_char (c : ascii) : bool :=
  negb (Ascii.eqb c "E") && negb (is_space c).


(** The heading line of a record, and the lines under it. *)
Definition chunk_of (e : Task * nat) : str * list str :=
  (heading_line (fst e) (snd e),
   scheduled_lines (fst e) ++ property_lines (fst e)
   ++ description_lines (fst e)).

(** The two lines at the head of a file. *)
Definition title_lines (filename : str) : list str :=
  [f["#+TITLE: "; remove_org (length filename) filename]; []].

(** What a loaded dictionary keeps of the task whose record it was read
    from; [pool] bounds the tags that headings above the record may add. *)
Definition reads_as (pool : list str) (t : Task) (d : TaskData) : Prop :=
  d_id d = Some (id t) /\ d_title d = title t /\
  d_description d = node_body t /\ d_status d = status t /\
  d_priority d = priority t /\
  d_due_date d = option_map to_the_minute (due_date t) /\
  d_parent_id d = if_truthy (parent_id t) /\
  incl (tags t) (d_tags d) /\ incl (d_tags d) pool.

(** The tasks whose records a directory holds, file by file. *)
Definition records_of (trf : str -> list (Task * nat)) (files : directory)
  : list Task :=
  flat_map (fun nc => if endswith ".org" (fst nc)
                      then map fst (trf (fst nc)) else []) files.

(** A task without its links. *)
Definition core (t : Task) : Task := set_children (set_parent_id t None) [].

(** The parent a task is left with by the linking loop. *)
Definition resolve (temp_tasks : dict loc) (p : option str) : option str :=
  match p with
  | Some q => if truthy (Some q) && dict_mem temp_tasks q then Some q
              else None
  | None => None
  end.

(** Every key of the map is the id of the task it leads to. *)
Definition coherent (tm : TaskManager) : Prop :=
  NoDup (dict_keys (tasks tm)) /\
  forall k l, dict_get (tasks tm) k = Some l ->
              exists t, heap_get (objects tm) l = Some t /\ id t = k.

(** The children of the tasks of the map are tasks of the map. *)
Definition closed (tm : TaskManager) : Prop :=
  forall t c, In t (task_values tm) ->
              In c (deref (objects tm) (children t)) ->
              In c (task_values tm).

(** Every outline file of the directory is the file of a task of the map:
    a save leaves the other files as they are. *)
Definition owned (tm : TaskManager) (dir : directory) : Prop :=
  NoDup (dict_keys dir) /\
  forall name, In name (dict_keys dir) -> endswith ".org" name = true ->
               exists t, In t (task_values tm) /\ file t = Some name.

(** ** The inputs of the examples *)

(** The reference time of the examples of the specification. *)
Definition ref_time : datetime := mkdatetime 2024 1 1 10 0 0 0.

(** The task of the scheduler scenarios: not DONE, due on 2024-01-01 at
    12:00, held by a manager under its id. *)
Definition due_T : datetime := mkdatetime 2024 1 1 12 0 0 0.

Definition reminder_task (minutes : Z) (on : bool) : Task :=
  mkTask "Call the bank" "7f3a" "" None TODO NONE (Some due_T) None
         minutes on [] [] None (mkdatetime 2023 12 1 8 0 0 0)
         (Some (lit "tasks.org")).

Definition reminder_manager (minutes : Z) (on : bool) : TaskManager :=
  mkTaskManager [reminder_task minutes on] [(lit "7f3a", 0%nat)].

(** The ticks T-31min, T-29min, T and T+1min. *)
Definition four_ticks : list datetime :=
  [mkdatetime 2024 1 1 11 29 0 0; mkdatetime 2024 1 1 11 31 0 0;
   due_T; mkdatetime 2024 1 1 12 1 0 0].

(** The lines of a file, each ended by a newline. *)
Definition text_of (lines : list str) : FileContent :=
  Text (List.concat (map (fun l : str => l ++ nl) lines)).

(** The time of the loads of the examples. *)
Definition clock : datetime := mkdatetime 2024 6 1 9 0 0 0.

(** A file whose only record has a metadata block without an id. *)
Definition dir_without_id : directory :=
  [(lit "inbox.org",
    text_of [lit "#+TITLE: inbox"; lit "";
             lit "* Buy milk "; lit ":PROPERTIES:";
             lit ":status: TODO"; lit ":priority: D"; lit ":END:"; lit ""])].

(** Two well-formed files; the second record of the first one carries a
    status that is not one of TODO, DONE, WAITING. *)
Definition dir_with_bad_status : directory :=
  [(lit "home.org",
    text_of [lit "#+TITLE: home"; lit "";
             lit "* Water the plants "; lit ":PROPERTIES:"; lit ":id: a1";
             lit ":status: TODO"; lit ":priority: B"; lit ":END:"; lit "";
             lit "* Fix the door "; lit ":PROPERTIES:"; lit ":id: a2";
             lit ":status: BLOCKED"; lit ":priority: B"; lit ":END:"; lit ""]);
   (lit "work.org",
    text_of [lit "#+TITLE: work"; lit "";
             lit "* Send report "; lit ":PROPERTIES:"; lit ":id: b1";
             lit ":status: TODO"; lit ":priority: A"; lit ":END:"; lit ""])].

(** The same directory without the record of the unknown status. *)
Definition dir_without_bad_status : directory :=
  [(lit "home.org",
    text_of [lit "#+TITLE: home"; lit "";
             lit "* Water the plants "; lit ":PROPERTIES:"; lit ":id: a1";
             lit ":status: TODO"; lit ":priority: B"; lit ":END:"; lit ""]);
   (lit "work.org",
    text_of [lit "#+TITLE: work"; lit "";
             lit "* Send report "; lit ":PROPERTIES:"; lit ":id: b1";
             lit ":status: TODO"; lit ":priority: A"; lit ":END:"; lit ""])].

(** A file in which the record of a child comes before the record of its
    parent. *)
Definition dir_child_first : directory :=
  [(lit "trip.org",
    text_of [lit "#+TITLE: trip"; lit "";
             lit "* Book hotel "; lit ":PROPERTIES:"; lit ":id: c1";
             lit ":parent_id: p1"; lit ":status: TODO"; lit ":priority: D";
             lit ":END:"; lit "";
             lit "* Plan trip "; lit ":PROPERTIES:"; lit ":id: p1";
             lit ":status: TODO"; lit ":priority: D"; lit ":END:"; lit ""])].

(** A manager whose task [c1] is a child of [p1], both of [a.org]. *)
Definition family_manager : TaskManager :=
  mkTaskManager
    [mkTask "Parent" "p1" "" None TODO NONE None None 30 true [] [1%nat] None
            (mkdatetime 2024 1 1 8 1 0 0) (Some (lit "a.org"));
     mkTask "Child" "c1" "" None TODO NONE None None 30 true [] []
            (Some (lit "p1")) (mkdatetime 2024 1 1 8 2 0 0)
            (Some (lit "a.org"))]
    [(lit "p1", 0%nat); (lit "c1", 1%nat)].

(** An empty manager over an empty directory. *)
Definition empty_world : world := (mkTaskManager [] [], []).

(** A manager holding one task, saved in [tasks.org]. *)
Definition one_task_world : world :=
  (mkTaskManager
     [mkTask "Write report" "t1" "" None TODO NONE None None 30 true [] []
             None (mkdatetime 2024 1 1 8 0 0 0) (Some (lit "tasks.org"))]
     [(lit "t1", 0%nat)],
   []).

(** A manager whose only task has a description that starts with spaces. *)
Definition note_manager : TaskManager :=
  mkTaskManager
    [mkTask "Buy milk" "t1" "  two litres" None TODO NONE None None 30 true
            [] [] None (mkdatetime 2024 1 1 8 0 0 0) (Some (lit "a.org"))]
    [(lit "t1", 0%nat)].

(** A manager with a task and its child, with tags, a due date with
    seconds, a description and an author. *)
Definition outline_manager : TaskManager :=
  mkTaskManager
    [mkTask "Plan trip" "p1" "Book the hotel" None TODO HIGH
            (Some (mkdatetime 2024 3 5 9 30 15 0)) None 30 true
            [lit "travel"] [1%nat] None (mkdatetime 2024 1 1 8 1 0 0)
            (Some (lit "trips.org"));
     mkTask "Pack" "c1" "" (Some (lit "ana")) DONE NONE None None 30 true
            [lit "home"] [] (Some (lit "p1")) (mkdatetime 2024 1 1 8 2 0 0)
            (Some (lit "trips.org"))]
    [(lit "p1", 0%nat); (lit "c1", 1%nat)].

(** The same family with the child created before its parent. *)
Definition elder_child_manager : TaskManager :=
  mkTaskManager
    [mkTask "Plan trip" "p1" "" None TODO HIGH None None 30 true
            [lit "travel"] [1%nat] None (mkdatetime 2024 1 1 8 2 0 0)
            (Some (lit "trips.org"));
     mkTask "Pack" "c1" "" None TODO NONE None None 30 true
            [lit "home"] [] (Some (lit "p1")) (mkdatetime 2024 1 1 8 1 0 0)
            (Some (lit "trips.org"))]
    [(lit "p1", 0%nat); (lit "c1", 1%nat)].

(** A task whose id has an underscore, as a hand-written outline file may
    give it, and the manager that holds it. *)
Definition underscore_task : Task :=
  mkTask "Call the bank" "call_bank" "" None TODO NONE (Some due_T) None
         30 true [] [] None (mkdatetime 2023 12 1 8 0 0 0)
         (Some (lit "tasks.org")).

Definition underscore_manager : TaskManager :=
  mkTaskManager [underscore_task] [(lit "call_bank", 0%nat)].

(** The dictionaries of a parent, its child, and a record that names a
    parent that is in no file. *)
Definition family_data : list TaskData :=
  [mkTaskData (Some (lit "p1")) "Parent" "" None TODO NONE None [] None
              (mkdatetime 2024 1 1 8 1 0 0) "a.org";
   mkTaskData (Some (lit "c1")) "Child" "" None TODO NONE None []
              (Some (lit "p1")) (mkdatetime 2024 1 1 8 2 0 0) "a.org";
   mkTaskData (Some (lit "o1")) "Orphan" "" None TODO NONE None []
              (Some (lit "gone")) (mkdatetime 2024 1 1 8 3 0 0) "b.org"].

(** A file system in which no path that leaves the storage directory can
    be opened. *)
Definition closed_surroundings : surroundings :=
  fun _ => OpenRaises OSError.

(** ** Sorted views of the map ([task_manager.py]) *)

(** [sorted(xs, key=...)]: the sort is stable and compares keys with [<];
    [lt a b] is that comparison on the keys of [a] and [b]. *)
Fixpoint insert_sorted {A : Type} (lt : A -> A -> bool) (x : A)
    (l : list A) : list A :=
  match l with
  | [] => [x]
  | y :: l' => if lt y x then y :: insert_sorted lt x l' else x :: l
  end.

Definition sorted_with {A : Type} (lt : A -> A -> bool) (l : list A)
  : list A :=
  fold_right (insert_sorted lt) [] l.

(** [a < b] on strings: by code point, a proper prefix first. *)
Fixpoint str_ltb (a b : str) : bool :=
  match a, b with
  | _, [] => false
  | [], _ :: _ => true
  | x :: a', y :: b' =>
      (code x <? code y) || ((code x =? code y) && str_ltb a' b')
  end.

(** [(a.priority.value, a.created_at) < (b.priority.value, b.created_at)] *)
Definition tree_key_lt (a b : Task) : bool :=
  if str_eqb (Priority_value (priority a)) (Priority_value (priority b))
  then dt_lt (created_at a) (created_at b)
  else str_ltb (Priority_value (priority a)) (Priority_value (priority b)).

(** [TaskManager.get_task_tree] *)
Definition get_task_tree (tm : TaskManager) : list Task :=
  sorted_with tree_key_lt
    (filter (fun task => negb (truthy (parent_id task))) (task_values tm)).

(** [datetime.datetime.max] *)
Definition datetime_max : datetime := mkdatetime 9999 12 31 23 59 59 999999.

(** The key of [get_all_tasks_flat]. *)
Definition due_key (t : Task) : datetime :=
  match due_date t with
  | Some d => d
  | None => datetime_max
  end.

(** [TaskManager.get_all_tasks_flat]: a [datetime] is never false, so the
    tasks kept are those whose due date is not [None]. *)
Definition get_all_tasks_flat (tm : TaskManager) : list Task :=
  sorted_with (fun a b => dt_lt (due_key a) (due_key b))
    (filter (fun task => match due_date task with
                         | Some _ => true
                         | None => false
                         end) (task_values tm)).

(** ** Upcoming reminders ([ReminderSystem.get_upcoming_reminders]) *)

(** The loop over the tasks: a task due between [now] and [cutoff] that is
    not DONE gives those of its reminders whose trigger time is between
    [now] and [cutoff]. *)
Fixpoint upcoming_of (now cutoff : datetime) (ts : list Task)
  : result (list ReminderConfig) :=
  match ts with
  | [] => Ok []
  | task :: ts' =>
      match due_date task with
      | Some due =>
          if dt_le now due && dt_le due cutoff &&
             negb (str_eqb (Status_value (status task)) "DONE")
          then
            reminders <- _generate_reminders_for_task task now ;;
            rest <- upcoming_of now cutoff ts' ;;
            Ok (filter (fun r => dt_le now (trigger_time r) &&
                                 dt_le (trigger_time r) cutoff) reminders
                ++ rest)
          else upcoming_of now cutoff ts'
      | None => upcoming_of now cutoff ts'
      end
  end.

Definition get_upcoming_reminders (tm : TaskManager) (now : datetime)
    (hours_ahead : Z) : result (list ReminderConfig) :=
  delta <- new_timedelta 0 hours_ahead 0 ;;
  cutoff <- dt_add now delta ;;
  upcoming <- upcoming_of now cutoff (task_values tm) ;;
  Ok (sorted_with (fun a b => dt_lt (trigger_time a) (trigger_time b))
        upcoming).

(** The identities of the reminders delivered so far. *)
Definition delivered_ids (rs : ReminderSystem) : list str :=
  map (fun n => task_id (n_reminder n)) (delivered rs).

(** The body of the inner loop of [_check_all_reminders]. *)
Definition send_step (tm : TaskManager) (now : datetime)
    (rs : ReminderSystem) (reminder : ReminderConfig) : ReminderSystem :=
  if enabled reminder && negb (sent reminder) &&
     dt_ge now (trigger_time reminder) &&
     negb (in_sent rs (task_id reminder))
  then _send_reminder tm rs reminder
  else rs.

(** The invariant of the ledger of the scheduler: the identities of the
    notifications delivered are distinct, and each is in the sent set. *)
Definition ledger_ok (rs : ReminderSystem) : Prop :=
  NoDup (delivered_ids rs) /\
  forall x, In x (delivered_ids rs) -> In x (sent_reminders rs).

(** ** Deleting a task ([TaskManager.delete_task]) *)

(** The loop of [delete_task] over the copy of the children list:
    [delete_task(child.id)] for each child in turn, [rec] being the method
    one call deeper.  An exception ends the loop. *)
Fixpoint delete_children (rec : world -> str -> world * option exn)
    (w : world) (cs : list loc) : world * option exn :=
  match cs with
  | [] => (w, None)
  | c :: cs' =>
      match heap_get (objects (fst w)) c with
      | None => delete_children rec w cs'
      | Some child =>
          match rec w (id child) with
          | (w, None) => delete_children rec w cs'
          | (w, Some e) => (w, Some e)
          end
      end
  end.

(** [parent.children = [c for c in parent.children if c.id != task_id]] *)
Definition without_child (h : heap) (task_id : str) (parent : Task) : Task :=
  set_children parent
    (filter (fun c => match heap_get h c with
                      | Some child => negb (str_eqb (id child) task_id)
                      | None => true
                      end) (children parent)).

(** What [delete_task] does after the loop over the children: the task is
    taken out of the children of its parent, when that is in the map, and
    out of the map; then everything is saved. *)
Definition unlink_and_save (env : surroundings) (depth : nat) (w : world)
    (l : loc) (task_id : str) : world * option exn :=
  let '(tm, dir) := w in
  let h := objects tm in
  let h :=
    match heap_get h l with
    | Some task_to_delete =>
        match parent_id task_to_delete with
        | Some p =>
            match (if truthy (Some p) then dict_get (tasks tm) p
                   else None) with
            | Some lp => heap_upd h lp (without_child h task_id)
            | None => h
            end
        | None => h
        end
    | None => h
    end in
  let tm := mkTaskManager h (dict_del (tasks tm) task_id) in
  let '(dir, e) := save_tasks env depth tm dir in
  ((tm, dir), e).

(** [TaskManager.delete_task]; [depth] is the number of nested calls the
    interpreter still allows. *)
Fixpoint delete_task (env : surroundings) (depth : nat) (w : world)
    (task_id : str) {struct depth} : world * option exn :=
  match depth with
  | O => (w, Some RecursionError)
  | S depth' =>
      match dict_get (tasks (fst w)) task_id with
      | None => (w, None)
      | Some l =>
          match heap_get (objects (fst w)) l with
          | None => (w, None)
          | Some task_to_delete =>
              match delete_children (delete_task env depth') w
                      (children task_to_delete) with
              | (w, None) => unlink_and_save env depth' w l task_id
              | (w, Some e) => (w, Some e)
              end
          end
      end
  end.

(** [w'] is [w] with tasks taken out of the map: a manager that was
    coherent still is; every key of the map of [w'] leads where it led in
    [w]; and the objects are those of [w], up to their children lists,
    which can only have lost entries. *)
Definition shrinks (w w' : world) : Prop :=
  (coherent (fst w) -> coherent (fst w')) /\
  (NoDup (dict_keys (tasks (fst w))) ->
   forall k l, dict_get (tasks (fst w')) k = Some l ->
               dict_get (tasks (fst w)) k = Some l) /\
  (forall l t, heap_get (objects (fst w)) l = Some t ->
     exists t', heap_get (objects (fst w')) l = Some t' /\
                set_children t' [] = set_children t [] /\
                incl (children t') (children t)).

(** ** How deep the children of a task are nested *)

(** [shallow h n t]: writing [t] and what is nested under it takes at most
    [n] nested calls of [_write_task_node]. *)
Fixpoint shallow (h : heap) (n : nat) (t : Task) : Prop :=
  match n with
  | O => False
  | S n' => forall c, In c (deref h (children t)) -> shallow h n' c
  end.

(** ** The children lists while a load links the tasks *)

(** Every location in a children list has been visited by the linking
    loop ([visited]), and the task there names, as its parent, a key that
    leads to the owner of the list. *)
Definition links_ok (temp_tasks : dict loc) (h : heap) (visited : list loc)
  : Prop :=
  forall l t, heap_get h l = Some t ->
    forall c, In c (children t) ->
      In c visited /\
      exists tc p, heap_get h c = Some tc /\ parent_id tc = Some p /\
                   dict_get temp_tasks p = Some l.

(** ** The reminder list of [notif.py] *)

Inductive NotifReminderType : Type := N_OVERDUE | N_BEFORE_DUE | N_CUSTOM.

(** [notif.Reminder] *)
Record Reminder : Type := mkReminder {
  r_task_id : str;
  r_trigger_time : datetime;
  r_message : str;
  r_reminder_type : NotifReminderType;
  r_sent : bool
}.

(** The call of [notification.notify] that [_send_notification] makes: its
    title and its message.  [title_of] stands for the task manager handed
    to the system: the title of the object its [get_task] returns, [None]
    where it returns nothing.  An exception of the call is caught and
    printed. *)
Definition notice (title_of : str -> option str) (reminder : Reminder)
  : str * str :=
  let task_id := hd [] (split_on "_" (r_task_id reminder)) in
  let title :=
    match title_of task_id with
    | Some task_title => f["Task: "; firstn 30 task_title]
    | None => lit "Task Reminder"
    end in
  (title, r_message reminder).

Definition mark_sent (r : Reminder) : Reminder :=
  mkReminder (r_task_id r) (r_trigger_time r) (r_message r)
             (r_reminder_type r) true.

(** [notif.ReminderSystem._check_reminders]: the reminders after the tick,
    and the calls of the notifier, oldest first. *)
Fixpoint _check_reminders (title_of : str -> option str) (now : datetime)
    (reminders : list Reminder) (calls : list (str * str))
  : list Reminder * list (str * str) :=
  match reminders with
  | [] => ([], calls)
  | reminder :: rest =>
      if negb (r_sent reminder) && dt_le (r_trigger_time reminder) now
      then
        let '(rest', calls') :=
          _check_reminders title_of now rest (calls ++ [notice title_of reminder]) in
        (mark_sent reminder :: rest', calls')
      else
        let '(rest', calls') := _check_reminders title_of now rest calls in
        (reminder :: rest', calls')
  end.

(** [_run_loop] over a sequence of clock readings, one per tick. *)
Definition _run_loop (title_of : str -> option str) (ticks : list datetime)
    (reminders : list Reminder) (calls : list (str * str))
  : list Reminder * list (str * str) :=
  fold_left (fun st now => _check_reminders title_of now (fst st) (snd st))
            ticks (reminders, calls).

(** [add_reminder] *)
Definition add_reminder (reminders : list Reminder) (task_id : str)
    (trigger_time : datetime) (message : str)
    (reminder_type : NotifReminderType) : list Reminder :=
  reminders ++ [mkReminder task_id trigger_time message reminder_type false].

(** Whether a tick of [ticks] is at or after [t]. *)
Definition reached (ticks : list datetime) (t : datetime) : bool :=
  existsb (fun now => dt_le t now) ticks.

(** ** The calendar of the dashboard ([dashboard_view.py]) *)

(** [datetime.date] *)
Record date : Type := mkdate {
  date_year : Z;
  date_month : Z;
  date_day : Z
}.

(** [d.replace(year=y, month=m, day=dd)], which raises [ValueError] on a
    field out of range. *)
Definition date_replace (d : date) (y m dd : Z) : result date :=
  if valid_date y m dd then Ok (mkdate y m dd) else Raise ValueError.

(** The keys [handle_input] tells apart. *)
Inductive Key : Type := KEY_LEFT | KEY_RIGHT | KEY_OTHER (c : Z).

(** [DashboardView.handle_input]: the calendar date after the key, and what
    the call returns or raises.  An exception of [replace] leaves the date
    as it was. *)
Definition handle_input (_calendar_date : date) (key : Key)
  : date * result bool :=
  match key with
  | KEY_LEFT =>
      let current_month := date_month _calendar_date in
      let current_year := date_year _calendar_date in
      let new_month := (current_month - 1)%Z in
      let new_year := current_year in
      let '(new_month, new_year) :=
        if (new_month =? 0)%Z then (12%Z, (new_year - 1)%Z)
        else (new_month, new_year) in
      match date_replace _calendar_date new_year new_month 1 with
      | Ok d => (d, Ok true)
      | Raise e => (_calendar_date, Raise e)
      end
  | KEY_RIGHT =>
      let current_month := date_month _calendar_date in
      let current_year := date_year _calendar_date in
      let new_month := (current_month + 1)%Z in
      let new_year := current_year in
      let '(new_month, new_year) :=
        if (new_month =? 13)%Z then (1%Z, (new_year + 1)%Z)
        else (new_month, new_year) in
      match date_replace _calendar_date new_year new_month 1 with
      | Ok d => (d, Ok true)
      | Raise e => (_calendar_date, Raise e)
      end
  | KEY_OTHER _ => (_calendar_date, Ok false)
  end.

(** The date a [datetime.date] object can hold. *)
Definition date_ok (d : date) : bool :=
  valid_date (date_year d) (date_month d) (date_day d).

(** The months since January of year 0. *)
Definition month_index (d : date) : Z := date_year d * 12 + date_month d - 1.

(** The keys pressed one after the other, up to the first that raises. *)
Fixpoint handle_inputs (d : date) (keys : list Key) : date * option exn :=
  match keys with
  | [] => (d, None)
  | key :: keys' =>
      match handle_input d key with
      | (d', Ok _) => handle_inputs d' keys'
      | (d', Raise e) => (d', Some e)
      end
  end.

(** ** The data of the task graph ([web_graph.py], [app.py]) *)

(** [t.strftime('%Y-%m-%d %H:%M')] *)
Definition strftime_minute (t : datetime) : str :=
  f[strftime_Y (year t); "-"; pad2 (month t); "-"; pad2 (day t); " ";
    pad2 (hour t); ":"; pad2 (minute t)].

(** [x or default] on an optional string. *)
Definition or_default (o : option str) (default : str) : str :=
  match o with
  | Some (c :: s) => c :: s
  | _ => default
  end.

(** [x == task_id] for an optional string [x]. *)
Definition is_id (x : option str) (task_id : str) : bool :=
  match x with
  | Some s => str_eqb s task_id
  | None => false
  end.

(** A node of [_build_graph_data]. *)
Record WebNode : Type := mkWebNode {
  wn_id : str;
  wn_title : str;
  wn_author : str;
  wn_description : str;
  wn_status : str;
  wn_created_at : str;
  wn_isCentral : bool;
  wn_val : Z;
  wn_parent_id : option str
}.

Record WebLink : Type := mkWebLink {
  wl_source : str;
  wl_target : str;
  wl_type : str
}.

(** [web_graph._build_graph_data] *)
Definition _build_graph_data (task_manager : TaskManager)
    (central_node_id : option str) : list WebNode * list WebLink :=
  let tasks_ := task_values task_manager in
  match tasks_ with
  | [] => ([], [])
  | _ =>
      let nodes :=
        fold_left
          (fun nodes task =>
             nodes ++
             [mkWebNode (id task) (title task)
                (or_default (author task) "Unknown")
                (or_default (Some (description task))
                            "No description available.")
                (Status_value (status task))
                (strftime_minute (created_at task))
                (is_id central_node_id (id task))
                (if is_id central_node_id (id task) then 50 else 15)%Z
                (parent_id task)])
          tasks_ [] in
      let links :=
        fold_left
          (fun links task =>
             match parent_id task with
             | Some p =>
                 if truthy (Some p) && dict_mem (tasks task_manager) p
                 then links ++ [mkWebLink (id task) p "parent"]
                 else links
             | None => links
             end)
          tasks_ [] in
      (nodes, links)
  end.

(** A node of [build_graph_data_live]. *)
Record LiveNode : Type := mkLiveNode {
  ln_id : str;
  ln_title : str;
  ln_author : str;
  ln_description : str;
  ln_status : str;
  ln_created_at : str;
  ln_filename : option str;
  ln_val : Z
}.

Record LiveLink : Type := mkLiveLink {
  ll_source : str;
  ll_target : str
}.

(** [app.build_graph_data_live]; [tm] is [None] before a manager is set. *)
Definition build_graph_data_live (tm : option TaskManager)
  : list LiveNode * list LiveLink :=
  match tm with
  | None => ([], [])
  | Some tm =>
      let tasks_ := task_values tm in
      let task_ids := map id tasks_ in
      fold_left
        (fun '(nodes, links) task =>
           let has_children :=
             existsb (fun t => is_id (parent_id t) (id task)) tasks_ in
           let nodes :=
             nodes ++
             [mkLiveNode (id task) (title task)
                (or_default (author task) "Unknown") (description task)
                (Status_value (status task))
                (strftime_minute (created_at task)) (file task)
                (if has_children then 30 else 15)%Z] in
           let links :=
             match parent_id task with
             | Some p =>
                 if truthy (Some p) && existsb (str_eqb p) task_ids
                 then links ++ [mkLiveLink (id task) p]
                 else links
             | None => links
             end in
           (nodes, links))
        tasks_ ([], [])
  end.

(** ** The author and the creation time of a record *)

(** What a loaded dictionary keeps of the author and the creation time of
    the task whose record it was read from. *)
Definition reads_created (t : Task) (d : TaskData) : Prop :=
  d_author d = if_truthy (author t) /\
  (valid_datetime (created_at t) = true -> d_created_at d = created_at t).

(** ** The file of a new top-level task ([ui.py], key [a]) *)

(** [re.sub(r'[^\w\s-]', '', s)] *)
Definition drop_punctuation (s : str) : str :=
  filter (fun c => is_word c || is_space c || Ascii.eqb c "-") s.

(** [re.sub(r'[\s_-]+', '-', s)]: every longest run of whitespace,
    underscores and hyphens becomes one hyphen.  [in_run] tells that the
    character before was of the run. *)
Fixpoint hyphenate (in_run : bool) (s : str) : str :=
  match s with
  | [] => []
  | c :: s' =>
      if is_space c || Ascii.eqb c "_" || Ascii.eqb c "-"
      then if in_run then hyphenate true s'
           else "-"%char :: hyphenate true s'
      else c :: hyphenate false s'
  end.

(** The [filename] that [on_complete] adds to the data of the form; [None]
    when the title is empty and nothing is added. *)
Definition filename_of_title (title : str) : option str :=
  match title with
  | [] => None
  | _ =>
      let s := lower (strip title) in
      let s := drop_punctuation s in
      let s := hyphenate false s in
      Some f[s; ".org"]
  end.

(** A character of the ASCII range. *)
Definition is_ascii (c : ascii) : bool := (code c <? 128)%nat.

(** A lower-case letter, a digit or a hyphen. *)
Definition is_slug_char (c : ascii) : bool :=
  is_lower c || is_digit c || Ascii.eqb c "-".

(** ** The rows of the task list ([ui.py], [draw_list_pane]) *)

(** A row of [self.planner_tasks]. *)
Record Row : Type := mkRow {
  row_task : Task;
  row_level : nat;
  row_id : str
}.

(** [flatten] of [draw_list_pane]: [planner_tasks] is the list the rows are
    appended to, [collapsed_tasks] the set of the ids of the folded tasks,
    [depth] the number of nested calls the interpreter still allows.  The
    rows appended before an exception stay in the list. *)
Fixpoint flatten (depth : nat) (h : heap) (collapsed_tasks : list str)
    (planner_tasks : list Row) (tasks_ : list Task) (level : nat)
    (parent_collapsed : bool) {struct depth} : list Row * option exn :=
  match depth with
  | O => (planner_tasks, Some RecursionError)
  | S depth' =>
      (fix each (planner_tasks : list Row) (ts : list Task)
         : list Row * option exn :=
         match ts with
         | [] => (planner_tasks, None)
         | task :: ts' =>
             let planner_tasks :=
               if parent_collapsed then planner_tasks
               else planner_tasks ++ [mkRow task level (id task)] in
             let is_collapsed :=
               existsb (str_eqb (id task)) collapsed_tasks in
             match deref h (children task) with
             | [] => each planner_tasks ts'
             | c :: cs =>
                 match flatten depth' h collapsed_tasks planner_tasks
                               (c :: cs) (level + 1)
                               (if is_collapsed then true
                                else parent_collapsed) with
                 | (planner_tasks, None) => each planner_tasks ts'
                 | (planner_tasks, Some e) => (planner_tasks, Some e)
                 end
             end
         end)
        planner_tasks tasks_
  end.

(** The rows [draw_list_pane] computes: [flatten] on the roots of the tree,
    from an empty list. *)
Definition planner_tasks_of (depth : nat) (tm : TaskManager)
    (collapsed_tasks : list str) : list Row * option exn :=
  flatten depth (objects tm) collapsed_tasks [] (get_task_tree tm) 0 false.

(** The rows of a task that is shown: its own, and, unless it is folded,
    the rows of its children one level deeper. *)
Fixpoint rows_under (depth : nat) (h : heap) (collapsed_tasks : list str)
    (level : nat) (task : Task) : list Row :=
  match depth with
  | O => []
  | S depth' =>
      mkRow task level (id task)
      :: (if existsb (str_eqb (id task)) collapsed_tasks then []
          else flat_map (rows_under depth' h collapsed_tasks (level + 1))
                        (deref h (children task)))
  end.

(** ** The search view ([search_view.py]) *)

(** [TaskManager.search_tasks]: the body of the method is [pass], so the
    call returns [None] whatever the query. *)
Definition search_tasks (tm : TaskManager) (query : str)
  : option (list Task) := None.

(** The fields of a [SearchView] that its input handling reads and
    writes.  [sv_results] is [None] when the attribute holds [None]. *)
Record SearchView : Type := mkSearchView {
  sv_query : str;
  sv_results : option (list Task);
  sv_selected_index : Z;
  sv_scroll_offset : Z;
  sv_active : bool
}.

(** [SearchView.activate] *)
Definition activate (sv : SearchView) : SearchView :=
  mkSearchView [] (Some []) 0 0 true.

(** [SearchView._update_search] *)
Definition _update_search (tm : TaskManager) (sv : SearchView) : SearchView :=
  mkSearchView (sv_query sv) (search_tasks tm (sv_query sv)) 0 0
               (sv_active sv).

(** Key codes of [curses]. *)
Definition KEY_BACKSPACE : Z := 263.
Definition KEY_DOWN : Z := 258.
Definition KEY_UP : Z := 259.
Definition KEY_ENTER : Z := 343.

(** [key in keys] *)
Definition key_in (key : Z) (keys : list Z) : bool :=
  existsb (Z.eqb key) keys.

(** What a call of [handle_input] returns or raises: the id of the task
    that was selected, [None], or one of the two exceptions of its body. *)
Inductive Outcome : Type :=
| Selected (task_id : str)
| Nothing
| Raised_TypeError
| Raised_IndexError.

(** [SearchView.handle_input]: the view after the key, and the outcome of
    the call. *)
Definition SearchView_handle_input (tm : TaskManager) (sv : SearchView)
    (key : Z) : SearchView * Outcome :=
  if key_in key [KEY_BACKSPACE; 127; 8]%Z then
    let sv := mkSearchView (removelast (sv_query sv)) (sv_results sv)
                (sv_selected_index sv) (sv_scroll_offset sv)
                (sv_active sv) in
    (_update_search tm sv, Nothing)
  else if ((32 <=? key) && (key <=? 126))%Z then
    let sv := mkSearchView (sv_query sv ++ [ascii_of_nat (Z.to_nat key)])
                (sv_results sv) (sv_selected_index sv)
                (sv_scroll_offset sv) (sv_active sv) in
    (_update_search tm sv, Nothing)
  else if key_in key [KEY_DOWN; 106]%Z then
    match sv_results sv with
    | None => (sv, Raised_TypeError)
    | Some results =>
        if (sv_selected_index sv <? Z.of_nat (length results) - 1)%Z
        then (mkSearchView (sv_query sv) (sv_results sv)
                (sv_selected_index sv + 1)%Z (sv_scroll_offset sv)
                (sv_active sv), Nothing)
        else (sv, Nothing)
    end
  else if key_in key [KEY_UP; 107]%Z then
    if (0 <? sv_selected_index sv)%Z
    then (mkSearchView (sv_query sv) (sv_results sv)
            (sv_selected_index sv - 1)%Z (sv_scroll_offset sv)
            (sv_active sv), Nothing)
    else (sv, Nothing)
  else if key_in key [KEY_ENTER; 10; 13]%Z then
    match sv_results sv with
    | Some (r :: rs) =>
        match nth_error (r :: rs) (Z.to_nat (sv_selected_index sv)) with
        | Some task =>
            (mkSearchView (sv_query sv) (sv_results sv)
               (sv_selected_index sv) (sv_scroll_offset sv) false,
             Selected (id task))
        | None => (sv, Raised_IndexError)
        end
    | _ => (sv, Nothing)
    end
  else if (key =? 27)%Z then
    (mkSearchView (sv_query sv) (sv_results sv) (sv_selected_index sv)
       (sv_scroll_offset sv) false, Nothing)
  else (sv, Nothing).

(** The keys of a session in the view, up to the first that selects a task
    or raises. *)
Fixpoint SearchView_session (tm : TaskManager) (sv : SearchView)
    (keys : list Z) : SearchView * Outcome :=
  match keys with
  | [] => (sv, Nothing)
  | key :: keys' =>
      match SearchView_handle_input tm sv key with
      | (sv', Nothing) => SearchView_session tm sv' keys'
      | (sv', outcome) => (sv', outcome)
      end
  end.

(** * Properties *)

Open Scope Z_scope.

(** ** Strings, dictionaries and the heap *)

Lemma str_eqb_refl (a : str) : str_eqb a a = true.
Proof.
  induction a as [|c a IH]; simpl; [reflexivity|].
  rewrite Ascii.eqb_refl. exact IH.
Qed.

Lemma str_eqb_eq (a b : str) : str_eqb a b = true <-> a = b.
Proof.
  split; [|intros ->; apply str_eqb_refl].
  revert b. induction a as [|c a IH]; intros [|d b]; simpl;
    try discriminate; [reflexivity|].
  intros H. apply andb_prop in H. destruct H as [H1 H2].
  apply Ascii.eqb_eq in H1. apply IH in H2. congruence.
Qed.

Lemma str_eqb_neq (a b : str) : str_eqb a b = false <-> a <> b.
Proof.
  split.
  - intros H E. apply str_eqb_eq in E. congruence.
  - intros H. destruct (str_eqb a b) eqn:E; [|reflexivity].
    apply str_eqb_eq in E. contradiction.
Qed.

Lemma str_eqb_sym (a b : str) : str_eqb a b = str_eqb b a.
Proof.
  destruct (str_eqb a b) eqn:E1, (str_eqb b a) eqn:E2; try reflexivity.
  - apply str_eqb_eq in E1. subst. rewrite str_eqb_refl in E2. discriminate.
  - apply str_eqb_eq in E2. subst. rewrite str_eqb_refl in E1. discriminate.
Qed.

Section DictFacts.
Variable V : Type.
Implicit Types (d : dict V) (k : str) (v : V).

Lemma dict_get_set_same d k v : dict_get (dict_set d k v) k = Some v.
Proof.
  induction d as [|[k' v'] d IH]; simpl.
  - rewrite str_eqb_refl. reflexivity.
  - destruct (str_eqb k k') eqn:E; simpl; rewrite E; auto.
Qed.

Lemma dict_get_set_other d k k' v :
  k <> k' -> dict_get (dict_set d k v) k' = dict_get d k'.
Proof.
  intros Hne. induction d as [|[k0 v0] d IH]; simpl.
  - apply not_eq_sym in Hne. apply str_eqb_neq in Hne. rewrite Hne.
    reflexivity.
  - destruct (str_eqb k k0) eqn:E; simpl.
    + apply str_eqb_eq in E. subst k0.
      apply not_eq_sym in Hne. apply str_eqb_neq in Hne. rewrite Hne.
      reflexivity.
    + rewrite IH. reflexivity.
Qed.

Lemma dict_get_In d k v : dict_get d k = Some v -> In (k, v) d.
Proof.
  induction d as [|[k' v'] d IH]; simpl; [discriminate|].
  destruct (str_eqb k k') eqn:E.
  - apply str_eqb_eq in E. intros [= ->]. subst. auto.
  - auto.
Qed.

Lemma dict_keys_set d k v :
  dict_keys (dict_set d k v)
  = if dict_mem d k then dict_keys d else dict_keys d ++ [k].
Proof.
  unfold dict_mem, dict_keys.
  induction d as [|[k' v'] d IH]; simpl; [reflexivity|].
  destruct (str_eqb k k') eqn:E; simpl; [reflexivity|].
  rewrite IH. destruct (dict_get d k); reflexivity.
Qed.

Lemma dict_mem_In d k : dict_mem d k = true <-> In k (dict_keys d).
Proof.
  unfold dict_mem, dict_keys.
  induction d as [|[k' v'] d IH]; simpl.
  - split; [discriminate|tauto].
  - destruct (str_eqb k k') eqn:E.
    + apply str_eqb_eq in E. subst. tauto.
    + apply str_eqb_neq in E. rewrite IH. intuition congruence.
Qed.

Lemma dict_set_NoDup d k v :
  NoDup (dict_keys d) -> NoDup (dict_keys (dict_set d k v)).
Proof.
  intros H. rewrite dict_keys_set.
  destruct (dict_mem d k) eqn:E; [assumption|].
  apply NoDup_app; [assumption|repeat constructor; simpl; tauto|].
  intros a Ha [<-|[]]. apply dict_mem_In in Ha. congruence.
Qed.

Lemma dict_get_NoDup_In d k v :
  NoDup (dict_keys d) -> In (k, v) d -> dict_get d k = Some v.
Proof.
  unfold dict_keys.
  induction d as [|[k' v'] d IH]; simpl; [tauto|].
  intros Hnd [H|H].
  - inversion H; subst. rewrite str_eqb_refl. reflexivity.
  - inversion Hnd as [|? ? Hnotin Hnd']; subst.
    destruct (str_eqb k k') eqn:E; [|auto].
    apply str_eqb_eq in E. subst k'.
    exfalso. apply Hnotin. apply (in_map fst) in H. exact H.
Qed.
End DictFacts.

Lemma heap_get_alloc (h : heap) (t : Task) :
  heap_get (fst (heap_alloc h t)) (snd (heap_alloc h t)) = Some t.
Proof.
  unfold heap_alloc, heap_get. simpl.
  rewrite nth_error_app2 by apply Nat.le_refl.
  rewrite Nat.sub_diag. reflexivity.
Qed.

Lemma heap_get_alloc_old (h : heap) (t : Task) (l : loc) :
  (l < length h)%nat -> heap_get (fst (heap_alloc h t)) l = heap_get h l.
Proof.
  intros H. unfold heap_alloc, heap_get. simpl.
  apply nth_error_app1. exact H.
Qed.

Lemma heap_get_set_same (h : heap) (l : loc) (t : Task) :
  (l < length h)%nat -> heap_get (heap_set h l t) l = Some t.
Proof.
  revert l. induction h as [|x h IH]; intros [|l] H; simpl in *;
    try lia; [reflexivity|].
  apply IH. lia.
Qed.

Lemma heap_get_set_other (h : heap) (l l' : loc) (t : Task) :
  l <> l' -> heap_get (heap_set h l t) l' = heap_get h l'.
Proof.
  revert l l'. induction h as [|x h IH]; intros [|l] [|l'] H; simpl;
    try reflexivity; try congruence.
  apply IH. congruence.
Qed.

Lemma heap_set_length (h : heap) (l : loc) (t : Task) :
  length (heap_set h l t) = length h.
Proof.
  revert l. induction h as [|x h IH]; intros [|l]; simpl; auto.
Qed.

Lemma heap_get_upd_same (h : heap) (l : loc) (f : Task -> Task) :
  heap_get (heap_upd h l f) l = option_map f (heap_get h l).
Proof.
  unfold heap_upd. destruct (heap_get h l) as [t|] eqn:E; simpl.
  - apply heap_get_set_same. apply nth_error_Some. unfold heap_get in E.
    congruence.
  - exact E.
Qed.

Lemma heap_get_upd_other (h : heap) (l l' : loc) (f : Task -> Task) :
  l <> l' -> heap_get (heap_upd h l f) l' = heap_get h l'.
Proof.
  intros H. unfold heap_upd. destruct (heap_get h l); [|reflexivity].
  apply heap_get_set_other. exact H.
Qed.

Lemma heap_upd_length (h : heap) (l : loc) (f : Task -> Task) :
  length (heap_upd h l f) = length h.
Proof.
  unfold heap_upd. destruct (heap_get h l); [apply heap_set_length|reflexivity].
Qed.

(** ** The calendar *)

Lemma cycle_checked : cycle_ok_from (Z.to_nat 146097) 0 = true.
Proof. vm_compute. reflexivity. Qed.

Lemma cycle_ok_from_all (n : nat) :
  forall r k : Z,
    cycle_ok_from n r = true -> r <= k < r + Z.of_nat n -> cycle_ok k = true.
Proof.
  induction n as [|n IH]; intros r k H Hk; [lia|].
  simpl in H. apply andb_prop in H. destruct H as [H1 H2].
  destruct (Z.eq_dec k r) as [->|Hne]; [exact H1|].
  apply (IH (r + 1)); [exact H2|lia].
Qed.

Lemma cycle_ok_all (r : Z) : 0 <= r < 146097 -> cycle_ok r = true.
Proof.
  intros H. apply (@cycle_ok_from_all (Z.to_nat 146097) 0 r cycle_checked).
  rewrite Z2Nat.id; lia.
Qed.

Lemma ord2ymd_cycle (n : Z) :
  ord2ymd n =
  let '(y, m, d) := ord2ymd ((n - 1) mod 146097 + 1) in
  (y + 400 * ((n - 1) / 146097), m, d).
Proof.
  unfold ord2ymd.
  replace ((n - 1) mod 146097 + 1 - 1) with ((n - 1) mod 146097) by lia.
  change DI400Y with 146097.
  assert (Hr : 0 <= (n - 1) mod 146097 < 146097)
    by (apply Z.mod_pos_bound; lia).
  rewrite (Z.div_small ((n - 1) mod 146097) 146097) by exact Hr.
  rewrite (Z.mod_small ((n - 1) mod 146097) 146097) by exact Hr.
  set (r := (n - 1) mod 146097).
  set (q := (n - 1) / 146097).
  cbv zeta.
  destruct ((r mod DI100Y mod DI4Y / 365 =? 4) || (r / DI100Y =? 4)).
  - f_equal. f_equal. lia.
  - destruct (_ <? _); f_equal; f_equal; lia.
Qed.

Lemma is_leap_cycle (y q : Z) : is_leap (y + 400 * q) = is_leap y.
Proof.
  unfold is_leap.
  replace ((y + 400 * q) mod 4) with (y mod 4)
    by (replace (y + 400 * q) with (y + (100 * q) * 4) by lia;
        symmetry; apply Z_mod_plus_full).
  replace ((y + 400 * q) mod 100) with (y mod 100)
    by (replace (y + 400 * q) with (y + (4 * q) * 100) by lia;
        symmetry; apply Z_mod_plus_full).
  replace ((y + 400 * q) mod 400) with (y mod 400)
    by (replace (y + 400 * q) with (y + q * 400) by lia;
        symmetry; apply Z_mod_plus_full).
  reflexivity.
Qed.

Lemma days_before_year_cycle (y q : Z) :
  days_before_year (y + 400 * q) = days_before_year y + 146097 * q.
Proof.
  unfold days_before_year. cbv zeta.
  replace ((y + 400 * q - 1) / 4) with ((y - 1) / 4 + 100 * q)
    by (replace (y + 400 * q - 1) with (y - 1 + (100 * q) * 4) by lia;
        rewrite Z.div_add by lia; reflexivity).
  replace ((y + 400 * q - 1) / 100) with ((y - 1) / 100 + 4 * q)
    by (replace (y + 400 * q - 1) with (y - 1 + (4 * q) * 100) by lia;
        rewrite Z.div_add by lia; reflexivity).
  replace ((y + 400 * q - 1) / 400) with ((y - 1) / 400 + q)
    by (replace (y + 400 * q - 1) with (y - 1 + q * 400) by lia;
        rewrite Z.div_add by lia; reflexivity).
  lia.
Qed.

(** Every day number from 1 to [MAXORDINAL] is the number of one date of the
    calendar, which [ord2ymd] gives. *)
Lemma ord2ymd_valid (n : Z) :
  1 <= n <= MAXORDINAL ->
  let '(y, m, d) := ord2ymd n in
  valid_date y m d = true /\ ymd2ord y m d = n.
Proof.
  intros Hn. rewrite ord2ymd_cycle.
  set (r := (n - 1) mod 146097).
  set (q := (n - 1) / 146097).
  assert (Hr : 0 <= r < 146097) by (apply Z.mod_pos_bound; lia).
  assert (Hdm : n - 1 = 146097 * q + r) by (apply Z.div_mod; lia).
  assert (Hq : 0 <= q <= 24).
  { unfold MAXORDINAL in Hn. split.
    - apply Z.div_pos; lia.
    - apply Z.lt_succ_r. apply Z.div_lt_upper_bound; lia. }
  pose proof (cycle_ok_all Hr) as Hc. unfold cycle_ok in Hc.
  destruct (ord2ymd (r + 1)) as [[y m] d].
  repeat (apply andb_prop in Hc; destruct Hc as [Hc ?H]).
  repeat match goal with
         | E : (_ <=? _) = true |- _ => apply Z.leb_le in E
         | E : (_ =? _) = true |- _ => apply Z.eqb_eq in E
         end.
  apply Bool.eqb_prop in H.
  split.
  - unfold valid_date, days_in_month. rewrite is_leap_cycle.
    unfold days_in_month in H1.
    assert (Hy : y + 400 * q <= MAXYEAR).
    { unfold MAXYEAR. destruct (Z.eq_dec q 24) as [->|Hne]; [|lia].
      assert (Hle : (r + 1 <=? 145731) = true)
        by (apply Z.leb_le; unfold MAXORDINAL in Hn; lia).
      rewrite Hle in H. apply Z.leb_le in H. lia. }
    unfold MINYEAR.
    repeat (apply andb_true_intro; split); apply Z.leb_le; lia.
  - unfold ymd2ord, days_before_month in *.
    rewrite is_leap_cycle, days_before_year_cycle. lia.
Qed.

(** The day number of a date of the calendar. *)
Lemma ymd2ord_bounds (y m d : Z) :
  valid_date y m d = true -> 1 <= ymd2ord y m d <= MAXORDINAL.
Proof.
  unfold valid_date. intros H.
  repeat (apply andb_prop in H; destruct H as [H ?H]).
  repeat match goal with
         | E : (_ <=? _) = true |- _ => apply Z.leb_le in E
         end.
  unfold MINYEAR, MAXYEAR in *.
  assert (Hm : 0 <= days_before_month y m /\
               days_before_month y m + days_in_month y m <= 365 +
                 (if is_leap y then 1 else 0)).
  { unfold days_before_month, days_in_month.
    assert (Hcases : m = 1 \/ m = 2 \/ m = 3 \/ m = 4 \/ m = 5 \/ m = 6 \/
                     m = 7 \/ m = 8 \/ m = 9 \/ m = 10 \/ m = 11 \/ m = 12)
      by lia.
    destruct (is_leap y);
      repeat (destruct Hcases as [->|Hcases]; [simpl; lia|]);
      subst; simpl; lia. }
  assert (Hy : 0 <= days_before_year y /\
               days_before_year y + 365 + (if is_leap y then 1 else 0)
               <= days_before_year (y + 1)).
  { unfold days_before_year, is_leap. cbv zeta.
    replace (y + 1 - 1) with y by lia.
    destruct (y mod 4 =? 0) eqn:E4, (y mod 100 =? 0) eqn:E100,
      (y mod 400 =? 0) eqn:E400; simpl;
      repeat match goal with
             | E : (_ =? _) = true |- _ => apply Z.eqb_eq in E
             | E : (_ =? _) = false |- _ => apply Z.eqb_neq in E
             end;
      Z.div_mod_to_equations; lia. }
  assert (Hmax : days_before_year (y + 1) <= MAXORDINAL).
  { unfold days_before_year, MAXORDINAL. cbv zeta.
    Z.div_mod_to_equations. lia. }
  unfold ymd2ord. lia.
Qed.

Lemma valid_time_bounds (h mi s us : Z) :
  valid_time h mi s us = true <->
  0 <= h <= 23 /\ 0 <= mi <= 59 /\ 0 <= s <= 59 /\ 0 <= us <= 999999.
Proof.
  unfold valid_time. repeat rewrite andb_true_iff.
  repeat rewrite Z.leb_le. tauto.
Qed.

(** Adding a duration moves the time stamp by it, as long as the result is a
    date of the calendar. *)
Lemma dt_add_spec (t : datetime) (delta : timedelta) :
  valid_datetime t = true ->
  US_PER_DAY <= timestamp_us t + delta < (MAXORDINAL + 1) * US_PER_DAY ->
  exists r,
    dt_add t delta = Ok r /\ valid_datetime r = true /\
    timestamp_us r = timestamp_us t + delta.
Proof.
  intros Hv Hrange. unfold dt_add. cbv zeta.
  set (us := timestamp_us t + delta) in *.
  assert (Hday : 1 <= us / US_PER_DAY <= MAXORDINAL).
  { unfold US_PER_DAY, US_PER_SECOND, MAXORDINAL in *. split.
    - apply Z.div_le_lower_bound; lia.
    - apply Z.lt_succ_r. apply Z.div_lt_upper_bound; lia. }
  assert (Hrem : 0 <= us mod US_PER_DAY < US_PER_DAY)
    by (apply Z.mod_pos_bound; unfold US_PER_DAY, US_PER_SECOND; lia).
  assert (Hdm : us = US_PER_DAY * (us / US_PER_DAY) + us mod US_PER_DAY)
    by (apply Z.div_mod; unfold US_PER_DAY, US_PER_SECOND; lia).
  replace ((0 <? us / US_PER_DAY) && (us / US_PER_DAY <=? MAXORDINAL))
    with true
    by (symmetry; apply andb_true_intro; split;
        [apply Z.ltb_lt|apply Z.leb_le]; lia).
  pose proof (ord2ymd_valid Hday) as Hord.
  destruct (ord2ymd (us / US_PER_DAY)) as [[y m] d].
  destruct Hord as [Hvd Hord].
  eexists. split; [reflexivity|].
  set (rem := us mod US_PER_DAY) in *.
  unfold US_PER_DAY, US_PER_SECOND in *.
  split.
  - unfold valid_datetime. simpl. rewrite Hvd. simpl.
    apply valid_time_bounds.
    Z.div_mod_to_equations. lia.
  - unfold timestamp_us, toordinal. simpl. rewrite Hord.
    unfold US_PER_SECOND.
    Z.div_mod_to_equations. lia.
Qed.

Lemma valid_datetime_parts (t : datetime) :
  valid_datetime t = true ->
  valid_date (year t) (month t) (day t) = true /\
  0 <= hour t <= 23 /\ 0 <= minute t <= 59 /\ 0 <= second t <= 59 /\
  0 <= microsecond t <= 999999.
Proof.
  unfold valid_datetime. intros H. apply andb_prop in H.
  destruct H as [H1 H2]. split; [exact H1|].
  apply valid_time_bounds. exact H2.
Qed.

(** The time stamp of a date of the calendar. *)
Lemma timestamp_bounds (t : datetime) :
  valid_datetime t = true ->
  toordinal t * US_PER_DAY <= timestamp_us t
    < (toordinal t + 1) * US_PER_DAY /\
  1 <= toordinal t <= MAXORDINAL.
Proof.
  intros H. apply valid_datetime_parts in H.
  destruct H as [Hd Ht]. apply ymd2ord_bounds in Hd.
  unfold timestamp_us, toordinal, US_PER_DAY, US_PER_SECOND in *.
  split; [lia|exact Hd].
Qed.

(** ** Flexible date parsing *)

Lemma span_app (p : ascii -> bool) (a b : str) :
  forallb p a = true ->
  match b with [] => True | c :: _ => p c = false end ->
  span p (a ++ b) = (a, b).
Proof.
  intros Ha Hb. induction a as [|c a IH]; simpl in *.
  - destruct b as [|c b]; [reflexivity|]. simpl. rewrite Hb. reflexivity.
  - apply andb_prop in Ha. destruct Ha as [Hc Ha].
    rewrite Hc, (IH Ha). reflexivity.
Qed.

Lemma span_spec (p : ascii -> bool) (s a b : str) :
  span p s = (a, b) ->
  s = a ++ b /\ forallb p a = true /\
  match b with [] => True | c :: _ => p c = false end.
Proof.
  revert a b. induction s as [|c s IH]; intros a b H; simpl in H.
  - injection H as <- <-. auto.
  - destruct (p c) eqn:Ec.
    + destruct (span p s) as [a' b'] eqn:Es. injection H as <- <-.
      destruct (IH _ _ eq_refl) as (-> & Ha & Hb).
      simpl. rewrite Ec. auto.
    + injection H as <- <-. simpl. auto.
Qed.

Lemma expect_app (p s : str) : expect p (p ++ s) = Some s.
Proof.
  induction p as [|c p IH]; simpl; [reflexivity|].
  rewrite Ascii.eqb_refl. exact IH.
Qed.

Lemma expect_spec (p s r : str) : expect p s = Some r -> s = p ++ r.
Proof.
  revert s. induction p as [|c p IH]; intros s H; simpl in *.
  - congruence.
  - destruct s as [|d s]; [discriminate|].
    destruct (Ascii.eqb c d) eqn:E; [|discriminate].
    apply Ascii.eqb_eq in E. subst. f_equal. apply IH. exact H.
Qed.

Lemma digit_val_digit (k : Z) : 0 <= k <= 9 -> digit_val (digit k) = k.
Proof.
  intros H.
  assert (Hc : k = 0 \/ k = 1 \/ k = 2 \/ k = 3 \/ k = 4 \/ k = 5 \/
               k = 6 \/ k = 7 \/ k = 8 \/ k = 9) by lia.
  repeat (destruct Hc as [->|Hc]; [reflexivity|]). subst. reflexivity.
Qed.

Lemma is_digit_digit (k : Z) : 0 <= k <= 9 -> is_digit (digit k) = true.
Proof.
  intros H.
  assert (Hc : k = 0 \/ k = 1 \/ k = 2 \/ k = 3 \/ k = 4 \/ k = 5 \/
               k = 6 \/ k = 7 \/ k = 8 \/ k = 9) by lia.
  repeat (destruct Hc as [->|Hc]; [reflexivity|]). subst. reflexivity.
Qed.

Lemma mod10_digit (n : Z) : 0 <= n -> 0 <= n mod 10 <= 9.
Proof. intros H. pose proof (Z.mod_pos_bound n 10). lia. Qed.

Lemma int_of_digits_pad2 (n : Z) : 0 <= n <= 99 -> int_of_digits (pad2 n) = n.
Proof.
  intros H. unfold int_of_digits, pad2. cbn [fold_left].
  rewrite !digit_val_digit by (apply mod10_digit; Z.div_mod_to_equations; lia).
  Z.div_mod_to_equations. lia.
Qed.

Lemma int_of_digits_pad4 (n : Z) :
  0 <= n <= 9999 -> int_of_digits (pad4 n) = n.
Proof.
  intros H. unfold int_of_digits, pad4. cbn [fold_left].
  rewrite !digit_val_digit by (apply mod10_digit; Z.div_mod_to_equations; lia).
  Z.div_mod_to_equations. lia.
Qed.

Lemma take_digits_pad2 (n : Z) (r : str) :
  0 <= n -> take_digits 2 (pad2 n ++ r) = Some (pad2 n, r).
Proof.
  intros H. unfold pad2. cbn [take_digits app].
  rewrite !is_digit_digit by (apply mod10_digit; Z.div_mod_to_equations; lia).
  reflexivity.
Qed.

Lemma take_digits_pad4 (n : Z) (r : str) :
  0 <= n -> take_digits 4 (pad4 n ++ r) = Some (pad4 n, r).
Proof.
  intros H. unfold pad4. cbn [take_digits app].
  rewrite !is_digit_digit by (apply mod10_digit; Z.div_mod_to_equations; lia).
  reflexivity.
Qed.

Lemma int_of_digits_nonneg (ds : str) :
  forallb is_digit ds = true -> 0 <= int_of_digits ds.
Proof.
  unfold int_of_digits.
  assert (H : forall acc, 0 <= acc -> forallb is_digit ds = true ->
                          0 <= fold_left (fun a c => a * 10 + digit_val c)
                                         ds acc).
  { induction ds as [|c ds IH]; intros acc Hacc Hd; simpl in *; [exact Hacc|].
    apply andb_prop in Hd. destruct Hd as [Hc Hd].
    apply IH; [|exact Hd].
    unfold is_digit, digit_val in *. apply andb_prop in Hc.
    destruct Hc as [Hc _]. apply Nat.leb_le in Hc. lia. }
  apply H. lia.
Qed.

(** A range of small numbers, case by case. *)
Lemma below_cases (P : Z -> Prop) (n : nat) :
  (forall k : nat, (k < n)%nat -> P (Z.of_nat k)) ->
  forall z : Z, 0 <= z < Z.of_nat n -> P z.
Proof.
  intros H z Hz. rewrite <- (Z2Nat.id z) by lia. apply H. lia.
Qed.

Lemma re_m_pad2 (m : Z) (r : str) :
  1 <= m <= 12 -> re_m (pad2 m ++ r) = Some (m, r).
Proof.
  intros H. revert m H.
  enough (forall z, 0 <= z < Z.of_nat 13 -> 1 <= z ->
                    re_m (pad2 z ++ r) = Some (z, r)) as E
    by (intros m Hm; apply E; lia).
  apply (below_cases (fun z => 1 <= z -> re_m (pad2 z ++ r) = Some (z, r))).
  intros k Hk Hk1.
  do 13 (destruct k as [|k]; [try reflexivity; try lia|]).
  exfalso. lia.
Qed.

Lemma re_d_pad2 (d : Z) (r : str) :
  1 <= d <= 31 -> re_d (pad2 d ++ r) = Some (d, r).
Proof.
  intros H. revert d H.
  enough (forall z, 0 <= z < Z.of_nat 32 -> 1 <= z ->
                    re_d (pad2 z ++ r) = Some (z, r)) as E
    by (intros d Hd; apply E; lia).
  apply (below_cases (fun z => 1 <= z -> re_d (pad2 z ++ r) = Some (z, r))).
  intros k Hk Hk1.
  do 32 (destruct k as [|k]; [try reflexivity; try lia|]).
  exfalso. lia.
Qed.

Lemma re_H_pad2 (h : Z) (r : str) :
  0 <= h <= 23 -> re_H (pad2 h ++ r) = Some (h, r).
Proof.
  intros H. revert h H.
  enough (forall z, 0 <= z < Z.of_nat 24 ->
                    re_H (pad2 z ++ r) = Some (z, r)) as E
    by (intros h Hh; apply E; lia).
  apply (below_cases (fun z => re_H (pad2 z ++ r) = Some (z, r))).
  intros k Hk.
  do 24 (destruct k as [|k]; [reflexivity|]).
  exfalso. lia.
Qed.

Lemma re_M_pad2 (m : Z) (r : str) :
  0 <= m <= 59 -> re_M (pad2 m ++ r) = Some (m, r).
Proof.
  intros H. revert m H.
  enough (forall z, 0 <= z < Z.of_nat 60 ->
                    re_M (pad2 z ++ r) = Some (z, r)) as E
    by (intros m Hm; apply E; lia).
  apply (below_cases (fun z => re_M (pad2 z ++ r) = Some (z, r))).
  intros k Hk.
  do 60 (destruct k as [|k]; [reflexivity|]).
  exfalso. lia.
Qed.

Lemma is_digit_not_space (c : ascii) : is_digit c = true -> is_space c = false.
Proof.
  destruct c as [[] [] [] [] [] [] [] []]; intros H;
    try reflexivity; discriminate H.
Qed.

Lemma is_space_not_digit (c : ascii) : is_space c = true -> is_digit c = false.
Proof.
  intros H. destruct (is_digit c) eqn:E; [|reflexivity].
  apply is_digit_not_space in E. congruence.
Qed.

Lemma unit_char_class (u : time_unit) :
  is_space (unit_char u) = false /\ is_digit (unit_char u) = false.
Proof. destruct u; split; reflexivity. Qed.

(** The regular expression of the relative form matches the texts of the
    form, and no others. *)
Lemma match_relative_form (t ds : str) (u : time_unit) :
  relative_form t ds u -> match_relative t = Some (ds, u).
Proof.
  intros (ws & ws' & rest & -> & Hws & Hsp & Hds & Hdg & Hsp').
  unfold fstr. cbn [List.concat]. rewrite app_nil_r.
  unfold match_relative. rewrite expect_app.
  unfold re_spaces1.
  destruct (unit_char_class u) as [Hus Hud].
  rewrite (span_app is_space ws (ds ++ ws' ++ [unit_char u] ++ rest) Hsp).
  2:{ destruct ds as [|c ds]; [congruence|]. simpl in Hdg.
      apply andb_prop in Hdg. destruct Hdg as [Hc _].
      apply is_digit_not_space. exact Hc. }
  destruct ws as [|w ws]; [congruence|].
  rewrite (span_app is_digit ds (ws' ++ [unit_char u] ++ rest) Hdg).
  2:{ destruct ws' as [|c ws']; simpl; [exact Hud|].
      simpl in Hsp'. apply andb_prop in Hsp'. destruct Hsp' as [Hc _].
      apply is_space_not_digit. exact Hc. }
  destruct ds as [|d ds]; [congruence|].
  rewrite (span_app is_space ws' ([unit_char u] ++ rest) Hsp')
    by exact Hus.
  destruct u; reflexivity.
Qed.

Lemma match_relative_inv (t ds : str) (u : time_unit) :
  match_relative t = Some (ds, u) -> relative_form t ds u.
Proof.
  unfold match_relative, re_spaces1. intros H.
  destruct (expect "in" t) as [r|] eqn:E1; [|discriminate].
  apply expect_spec in E1.
  destruct (span is_space r) as [ws r1] eqn:E2.
  apply span_spec in E2. destruct E2 as (-> & Hsp & _).
  destruct ws as [|w ws]; [discriminate|].
  destruct (span is_digit r1) as [ds' r2] eqn:E3.
  apply span_spec in E3. destruct E3 as (-> & Hdg & _).
  destruct ds' as [|d ds']; [discriminate|].
  destruct (span is_space r2) as [ws' r3] eqn:E4.
  apply span_spec in E4. destruct E4 as (-> & Hsp' & _).
  simpl snd in H.
  destruct r3 as [|c rest]; [discriminate|].
  exists (w :: ws), ws', rest.
  assert (Hu : c = unit_char u /\ ds = d :: ds').
  { destruct (Ascii.eqb c "h") eqn:Eh;
      [apply Ascii.eqb_eq in Eh; injection H as <- <-; auto|].
    destruct (Ascii.eqb c "m") eqn:Em;
      [apply Ascii.eqb_eq in Em; injection H as <- <-; auto|].
    destruct (Ascii.eqb c "d") eqn:Ed;
      [apply Ascii.eqb_eq in Ed; injection H as <- <-; auto|].
    discriminate. }
  destruct Hu as [-> ->].
  repeat split; try assumption; try discriminate.
  rewrite E1. unfold fstr. cbn [List.concat]. rewrite app_nil_r.
  reflexivity.
Qed.

(** [int] reads a run of up to 4300 digits. *)
Lemma int_of_str_short (ds : str) :
  (length ds <= MAX_STR_DIGITS)%nat -> int_of_str ds = Ok (int_of_digits ds).
Proof.
  intros H. unfold int_of_str.
  destruct (Nat.ltb_spec MAX_STR_DIGITS (length ds)) as [Hlt|_];
    [lia|reflexivity].
Qed.

(** The two [strptime] calls raise nothing but [ValueError], and what they
    return is a date of the calendar at a full minute. *)
Lemma new_datetime_inv (y m d h mi s us : Z) (r : result datetime) :
  new_datetime y m d h mi s us = r ->
  (r = Raise ValueError) \/
  (r = Ok (mkdatetime y m d h mi s us) /\
   valid_date y m d = true /\ valid_time h mi s us = true).
Proof.
  unfold new_datetime. intros <-.
  destruct (valid_date y m d) eqn:E1; [|left; reflexivity].
  destruct (valid_time h mi s us) eqn:E2; [|left; reflexivity].
  right. auto.
Qed.

Lemma strptime_ymd_hm_inv (s : str) :
  strptime_ymd_hm s = Raise ValueError \/
  exists y m d h mi,
    strptime_ymd_hm s = Ok (mkdatetime y m d h mi 0 0) /\
    valid_date y m d = true.
Proof.
  unfold strptime_ymd_hm.
  destruct (match_ymd s) as [[[[y m] d] r]|]; [|auto].
  destruct (re_spaces1 r) as [r1|]; [|auto].
  destruct (re_H r1) as [[h r2]|]; [|auto].
  destruct (expect ":" r2) as [r3|]; [|auto].
  destruct (re_M r3) as [[mi [|c r4]]|]; auto.
  destruct (new_datetime_inv y m d h mi 0 0 eq_refl) as [->|(-> & Hv & _)];
    [auto|].
  right. exists y, m, d, h, mi. auto.
Qed.

Lemma strptime_ymd_inv (s : str) :
  strptime_ymd s = Raise ValueError \/
  exists y m d,
    strptime_ymd s = Ok (mkdatetime y m d 0 0 0 0) /\
    valid_date y m d = true.
Proof.
  unfold strptime_ymd.
  destruct (match_ymd s) as [[[[y m] d] [|c r]]|]; auto.
  destruct (new_datetime_inv y m d 0 0 0 0 eq_refl) as [->|(-> & Hv & _)];
    [auto|].
  right. exists y, m, d. auto.
Qed.

(** *** Digits and the numbers they spell *)

Lemma digit_of_val (c : ascii) :
  is_digit c = true -> digit (digit_val c) = c /\ 0 <= digit_val c <= 9.
Proof.
  destruct c as [[] [] [] [] [] [] [] []]; intros H;
    try discriminate H; split; try reflexivity; vm_compute; split;
    discriminate.
Qed.

Lemma in_range_bounds (lo hi : nat) (c : ascii) :
  in_range lo hi c = true ->
  Z.of_nat lo - 48 <= digit_val c <= Z.of_nat hi - 48.
Proof.
  unfold in_range, digit_val. intros H. apply andb_prop in H.
  destruct H as [H1 H2]. apply Nat.leb_le in H1. apply Nat.leb_le in H2.
  lia.
Qed.

Lemma in_range_digit (lo hi : nat) (c : ascii) :
  (48 <= lo)%nat -> (hi <= 57)%nat ->
  in_range lo hi c = true -> is_digit c = true.
Proof.
  unfold in_range, is_digit. intros Hlo Hhi H. apply andb_prop in H.
  destruct H as [H1 H2]. apply Nat.leb_le in H1. apply Nat.leb_le in H2.
  apply andb_true_intro. split; apply Nat.leb_le; lia.
Qed.

Lemma pad2_chars (c1 c2 : ascii) :
  is_digit c1 = true -> is_digit c2 = true ->
  pad2 (digit_val c1 * 10 + digit_val c2) = [c1; c2].
Proof.
  intros H1 H2.
  destruct (digit_of_val c1 H1) as [E1 B1].
  destruct (digit_of_val c2 H2) as [E2 B2].
  unfold pad2.
  replace ((digit_val c1 * 10 + digit_val c2) / 10 mod 10)
    with (digit_val c1) by (Z.div_mod_to_equations; lia).
  replace ((digit_val c1 * 10 + digit_val c2) mod 10)
    with (digit_val c2) by (Z.div_mod_to_equations; lia).
  rewrite E1, E2. reflexivity.
Qed.

Lemma take_digits_inv (n : nat) (s ds r : str) :
  take_digits n s = Some (ds, r) ->
  s = ds ++ r /\ length ds = n /\ forallb is_digit ds = true.
Proof.
  revert s ds r. induction n as [|n IH]; intros s ds r H; simpl in H.
  - injection H as <- <-. auto.
  - destruct s as [|c s]; [discriminate|].
    destruct (is_digit c) eqn:Ec; [|discriminate].
    destruct (take_digits n s) as [[ds' r']|] eqn:E; [|discriminate].
    injection H as <- <-.
    destruct (IH _ _ _ E) as (-> & Hl & Hd).
    simpl. rewrite Ec, Hl. auto.
Qed.

Lemma re_Y_inv (s r : str) (y : Z) :
  re_Y s = Some (y, r) -> s = pad4 y ++ r /\ 0 <= y <= 9999.
Proof.
  unfold re_Y. intros H.
  destruct (take_digits 4 s) as [[ds r']|] eqn:E; [|discriminate].
  injection H as <- <-.
  destruct (take_digits_inv _ _ E) as (-> & Hl & Hd).
  destruct ds as [|c1 [|c2 [|c3 [|c4 [|c5 ds]]]]]; try discriminate Hl.
  cbn [forallb] in Hd.
  repeat (apply andb_prop in Hd; destruct Hd as [?Hc Hd]).
  destruct (digit_of_val c1 Hc) as [E1 B1].
  destruct (digit_of_val c2 Hc0) as [E2 B2].
  destruct (digit_of_val c3 Hc1) as [E3 B3].
  destruct (digit_of_val c4 Hc2) as [E4 B4].
  unfold int_of_digits. cbn [fold_left].
  set (a := digit_val c1) in *. set (b := digit_val c2) in *.
  set (e := digit_val c3) in *. set (g := digit_val c4) in *.
  split; [|lia].
  unfold pad4.
  replace ((((0 * 10 + a) * 10 + b) * 10 + e) * 10 + g)
    with (a * 1000 + b * 100 + e * 10 + g) by lia.
  replace ((a * 1000 + b * 100 + e * 10 + g) / 1000 mod 10) with a
    by (Z.div_mod_to_equations; lia).
  replace ((a * 1000 + b * 100 + e * 10 + g) / 100 mod 10) with b
    by (Z.div_mod_to_equations; lia).
  replace ((a * 1000 + b * 100 + e * 10 + g) / 10 mod 10) with e
    by (Z.div_mod_to_equations; lia).
  replace ((a * 1000 + b * 100 + e * 10 + g) mod 10) with g
    by (Z.div_mod_to_equations; lia).
  subst a b e g. rewrite E1, E2, E3, E4. reflexivity.
Qed.

(** *** The regular expressions of the directives *)

Lemma two_chars_number (lo1 hi1 lo2 hi2 : nat) (s r : str) (v : Z) :
  (48 <= lo1)%nat -> (hi1 <= 57)%nat -> (48 <= lo2)%nat -> (hi2 <= 57)%nat ->
  two_chars (in_range lo1 hi1) (in_range lo2 hi2) s = Some (v, r) ->
  s = pad2 v ++ r /\
  exists a b, v = a * 10 + b /\
              Z.of_nat lo1 - 48 <= a <= Z.of_nat hi1 - 48 /\
              Z.of_nat lo2 - 48 <= b <= Z.of_nat hi2 - 48.
Proof.
  intros L1 U1 L2 U2 H. unfold two_chars in H.
  destruct s as [|c1 [|c2 s]]; try discriminate H.
  destruct (in_range lo1 hi1 c1) eqn:E1; [|discriminate H].
  destruct (in_range lo2 hi2 c2) eqn:E2; [|discriminate H].
  simpl in H. injection H as <- <-.
  rewrite (@pad2_chars c1 c2 (@in_range_digit _ _ c1 L1 U1 E1)
                      (@in_range_digit _ _ c2 L2 U2 E2)).
  split; [reflexivity|].
  exists (digit_val c1), (digit_val c2).
  split; [reflexivity|].
  split; apply in_range_bounds; assumption.
Qed.

Lemma one_char_number (lo hi : nat) (s r : str) (v : Z) :
  (48 <= lo)%nat -> (hi <= 57)%nat ->
  one_char (in_range lo hi) s = Some (v, r) ->
  s = [digit v] ++ r /\ Z.of_nat lo - 48 <= v <= Z.of_nat hi - 48.
Proof.
  intros L U H. unfold one_char in H.
  destruct s as [|c s]; [discriminate H|].
  destruct (in_range lo hi c) eqn:E; [|discriminate H].
  injection H as <- <-.
  destruct (@digit_of_val c) as [Ec _]; [exact (@in_range_digit _ _ c L U E)|].
  rewrite Ec. split; [reflexivity|]. apply in_range_bounds. exact E.
Qed.

Lemma two_chars_short (p1 p2 : ascii -> bool) (c : ascii) (r : str) :
  (forall x, p2 x = true -> is_digit x = true) -> no_digit_next r ->
  two_chars p1 p2 (c :: r) = None.
Proof.
  intros Hp Hr. unfold two_chars. destruct r as [|c2 r]; [reflexivity|].
  simpl in Hr. destruct (p2 c2) eqn:E; [apply Hp in E; congruence|].
  rewrite andb_false_r. reflexivity.
Qed.

Lemma in_range_is_digit (lo hi : nat) :
  (48 <= lo)%nat -> (hi <= 57)%nat ->
  forall x, in_range lo hi x = true -> is_digit x = true.
Proof. intros L U x. apply in_range_digit; assumption. Qed.

Lemma digit_cases (P : Z -> Prop) :
  P 0 -> P 1 -> P 2 -> P 3 -> P 4 -> P 5 -> P 6 -> P 7 -> P 8 -> P 9 ->
  forall k, 0 <= k <= 9 -> P k.
Proof.
  intros P0 P1 P2 P3 P4 P5 P6 P7 P8 P9 k H.
  assert (Hc : k = 0 \/ k = 1 \/ k = 2 \/ k = 3 \/ k = 4 \/ k = 5 \/
               k = 6 \/ k = 7 \/ k = 8 \/ k = 9) by lia.
  repeat (destruct Hc as [->|Hc]; [assumption|]). subst. assumption.
Qed.

Ltac short_alternatives :=
  repeat (rewrite two_chars_short
            by (try assumption; try (apply in_range_is_digit; lia); auto));
  cbn [orelse].

(** [%m] *)
Lemma re_m_text (m : Z) (ms r : str) :
  1 <= m <= 12 -> number_text m ms -> no_digit_next r ->
  re_m (ms ++ r) = Some (m, r).
Proof.
  intros Hm [->|[H9 ->]] Hr; [apply re_m_pad2; exact Hm|].
  unfold re_m. cbn [app]. short_alternatives.
  assert (H : 0 <= m <= 9) by lia. revert H Hm. clear.
  revert m. apply (digit_cases
    (fun m => 1 <= m <= 12 ->
              one_char (in_range 49 57) (digit m :: r) = Some (m, r)));
    intros H; try reflexivity; lia.
Qed.

Lemma re_m_inv (s r : str) (m : Z) :
  re_m s = Some (m, r) ->
  exists ms, s = ms ++ r /\ 1 <= m <= 12 /\ number_text m ms.
Proof.
  unfold re_m, orelse. intros H.
  destruct (two_chars (in_range 49 49) (in_range 48 50) s)
    as [[v r']|] eqn:E1.
  { injection H as <- <-.
    apply two_chars_number in E1; try lia.
    destruct E1 as (-> & a & b & -> & Ha & Hb).
    eexists. split; [reflexivity|]. split; [lia|]. left. reflexivity. }
  destruct (two_chars (in_range 48 48) (in_range 49 57) s)
    as [[v r']|] eqn:E2.
  { injection H as <- <-.
    apply two_chars_number in E2; try lia.
    destruct E2 as (-> & a & b & -> & Ha & Hb).
    eexists. split; [reflexivity|]. split; [lia|]. left. reflexivity. }
  apply one_char_number in H; try lia. destruct H as (-> & Hv).
  eexists. split; [reflexivity|]. split; [lia|]. right.
  split; [lia|reflexivity].
Qed.

(** [%d] *)
Lemma re_d_text (d : Z) (ds r : str) :
  1 <= d <= 31 -> day_text d ds -> no_digit_next r ->
  re_d (ds ++ r) = Some (d, r).
Proof.
  intros Hd [[->|[H9 ->]]|[H9 ->]] Hr; [apply re_d_pad2; exact Hd| |].
  - unfold re_d. cbn [app]. short_alternatives.
    assert (H : 0 <= d <= 9) by lia. revert H Hd. clear.
    revert d. apply (digit_cases
      (fun d => 1 <= d <= 31 ->
                orelse (one_char (in_range 49 57) (digit d :: r))
                  (match digit d :: r with
                   | c1 :: c2 :: r0 =>
                       if Ascii.eqb c1 " " && in_range 49 57 c2
                       then Some (digit_val c2, r0) else None
                   | _ => None
                   end) = Some (d, r)));
      intros H; try reflexivity; lia.
  - assert (H : 0 <= d <= 9) by lia. revert H Hd. clear.
    revert d. apply (digit_cases
      (fun d => 1 <= d <= 31 ->
                re_d ([" "%char; digit d] ++ r) = Some (d, r)));
      intros H; try reflexivity; lia.
Qed.

Lemma re_d_inv (s r : str) (d : Z) :
  re_d s = Some (d, r) ->
  exists ds, s = ds ++ r /\ 1 <= d <= 31 /\ day_text d ds.
Proof.
  unfold re_d, orelse. intros H.
  destruct (two_chars (in_range 51 51) (in_range 48 49) s)
    as [[v r']|] eqn:E1.
  { injection H as <- <-.
    apply two_chars_number in E1; try lia.
    destruct E1 as (-> & a & b & -> & Ha & Hb).
    eexists. split; [reflexivity|]. split; [lia|]. left. left. reflexivity. }
  destruct (two_chars (in_range 49 50) is_digit s) as [[v r']|] eqn:E2.
  { injection H as <- <-.
    apply (@two_chars_number 49 50 48 57) in E2; try lia.
    destruct E2 as (-> & a & b & -> & Ha & Hb).
    eexists. split; [reflexivity|]. split; [lia|]. left. left. reflexivity. }
  destruct (two_chars (in_range 48 48) (in_range 49 57) s)
    as [[v r']|] eqn:E3.
  { injection H as <- <-.
    apply two_chars_number in E3; try lia.
    destruct E3 as (-> & a & b & -> & Ha & Hb).
    eexists. split; [reflexivity|]. split; [lia|]. left. left. reflexivity. }
  destruct (one_char (in_range 49 57) s) as [[v r']|] eqn:E4.
  { injection H as <- <-.
    apply one_char_number in E4; try lia. destruct E4 as (-> & Hv).
    eexists. split; [reflexivity|]. split; [lia|]. left. right.
    split; [lia|reflexivity]. }
  destruct s as [|c1 [|c2 s]]; try discriminate H.
  destruct (Ascii.eqb c1 " ") eqn:Ec; [|discriminate H].
  destruct (in_range 49 57 c2) eqn:E5; [|discriminate H].
  simpl in H. injection H as <- <-.
  apply Ascii.eqb_eq in Ec. subst c1.
  pose proof (in_range_bounds _ _ _ E5) as Hb.
  destruct (@digit_of_val c2) as [E _];
    [eapply in_range_digit; [| |exact E5]; lia|].
  exists [" "%char; c2]. split; [reflexivity|]. split; [lia|]. right.
  split; [lia|]. rewrite E. reflexivity.
Qed.

(** [%H] *)
Lemma re_H_text (h : Z) (hs r : str) :
  0 <= h <= 23 -> number_text h hs -> no_digit_next r ->
  re_H (hs ++ r) = Some (h, r).
Proof.
  intros Hh [->|[H9 ->]] Hr; [apply re_H_pad2; exact Hh|].
  unfold re_H. cbn [app]. short_alternatives.
  assert (H : 0 <= h <= 9) by lia. revert H. clear.
  revert h. apply (digit_cases
    (fun h => one_char is_digit (digit h :: r) = Some (h, r)));
    reflexivity.
Qed.

Lemma re_H_inv (s r : str) (h : Z) :
  re_H s = Some (h, r) ->
  exists hs, s = hs ++ r /\ 0 <= h <= 23 /\ number_text h hs.
Proof.
  unfold re_H, orelse. intros H.
  destruct (two_chars (in_range 50 50) (in_range 48 51) s)
    as [[v r']|] eqn:E1.
  { injection H as <- <-.
    apply two_chars_number in E1; try lia.
    destruct E1 as (-> & a & b & -> & Ha & Hb).
    eexists. split; [reflexivity|]. split; [lia|]. left. reflexivity. }
  destruct (two_chars (in_range 48 49) is_digit s) as [[v r']|] eqn:E2.
  { injection H as <- <-.
    apply (@two_chars_number 48 49 48 57) in E2; try lia.
    destruct E2 as (-> & a & b & -> & Ha & Hb).
    eexists. split; [reflexivity|]. split; [lia|]. left. reflexivity. }
  apply (@one_char_number 48 57) in H; try lia. destruct H as (-> & Hv).
  eexists. split; [reflexivity|]. split; [lia|]. right.
  split; [lia|reflexivity].
Qed.

(** [%M] *)
Lemma re_M_text (mi : Z) (mis r : str) :
  0 <= mi <= 59 -> number_text mi mis -> no_digit_next r ->
  re_M (mis ++ r) = Some (mi, r).
Proof.
  intros Hm [->|[H9 ->]] Hr; [apply re_M_pad2; exact Hm|].
  unfold re_M. cbn [app]. short_alternatives.
  assert (H : 0 <= mi <= 9) by lia. revert H. clear.
  revert mi. apply (digit_cases
    (fun mi => one_char is_digit (digit mi :: r) = Some (mi, r)));
    reflexivity.
Qed.

Lemma re_M_inv (s r : str) (mi : Z) :
  re_M s = Some (mi, r) ->
  exists mis, s = mis ++ r /\ 0 <= mi <= 59 /\ number_text mi mis.
Proof.
  unfold re_M, orelse. intros H.
  destruct (two_chars (in_range 48 53) is_digit s) as [[v r']|] eqn:E1.
  { injection H as <- <-.
    apply (@two_chars_number 48 53 48 57) in E1; try lia.
    destruct E1 as (-> & a & b & -> & Ha & Hb).
    eexists. split; [reflexivity|]. split; [lia|]. left. reflexivity. }
  apply (@one_char_number 48 57) in H; try lia. destruct H as (-> & Hv).
  eexists. split; [reflexivity|]. split; [lia|]. right.
  split; [lia|reflexivity].
Qed.

(** [\s+] *)
Lemma re_spaces1_inv (s r : str) :
  re_spaces1 s = Some r ->
  exists ws, s = ws ++ r /\ ws <> [] /\ forallb is_space ws = true.
Proof.
  unfold re_spaces1. intros H.
  destruct (span is_space s) as [ws r'] eqn:E.
  apply span_spec in E. destruct E as (-> & Hsp & _).
  destruct ws as [|w ws]; [discriminate H|].
  injection H as <-. exists (w :: ws). repeat split; [discriminate|exact Hsp].
Qed.

Lemma number_text_first (n : Z) (s r : str) :
  0 <= n -> number_text n s ->
  exists c r', s ++ r = c :: r' /\ is_digit c = true.
Proof.
  intros Hn [->|[H9 ->]]; unfold pad2; cbn [app];
    eexists; eexists; (split; [reflexivity|]);
    apply is_digit_digit; try lia;
    apply mod10_digit; Z.div_mod_to_equations; lia.
Qed.

(** The date part. *)
Lemma match_ymd_text (y m d : Z) (ms ds r : str) :
  0 <= y <= 9999 ->
  1 <= m <= 12 -> number_text m ms ->
  1 <= d <= 31 -> day_text d ds ->
  no_digit_next r ->
  match_ymd (pad4 y ++ lit "-" ++ ms ++ lit "-" ++ ds ++ r)
  = Some (y, m, d, r).
Proof.
  intros Hy Hm Hms Hd Hds Hr.
  unfold match_ymd, re_Y.
  rewrite take_digits_pad4 by lia. rewrite int_of_digits_pad4 by lia.
  rewrite expect_app. rewrite (re_m_text _ Hm Hms) by reflexivity.
  rewrite expect_app. rewrite (re_d_text _ Hd Hds Hr).
  reflexivity.
Qed.

Lemma match_ymd_inv (s r : str) (y m d : Z) :
  match_ymd s = Some (y, m, d, r) ->
  exists ms ds,
    s = pad4 y ++ lit "-" ++ ms ++ lit "-" ++ ds ++ r /\
    0 <= y <= 9999 /\
    1 <= m <= 12 /\ number_text m ms /\
    1 <= d <= 31 /\ day_text d ds.
Proof.
  unfold match_ymd. intros H.
  destruct (re_Y s) as [[y' r1]|] eqn:E1; [|discriminate H].
  destruct (expect "-" r1) as [r2|] eqn:E2; [|discriminate H].
  destruct (re_m r2) as [[m' r3]|] eqn:E3; [|discriminate H].
  destruct (expect "-" r3) as [r4|] eqn:E4; [|discriminate H].
  destruct (re_d r4) as [[d' r5]|] eqn:E5; [|discriminate H].
  injection H as <- <- <- <-.
  apply re_Y_inv in E1. destruct E1 as (-> & Hy).
  apply expect_spec in E2. subst r1.
  apply re_m_inv in E3. destruct E3 as (ms & -> & Hm & Hms).
  apply expect_spec in E4. subst r3.
  apply re_d_inv in E5. destruct E5 as (ds & -> & Hd & Hds).
  exists ms, ds. auto 10.
Qed.

Lemma re_spaces1_app (ws r : str) :
  ws <> [] -> forallb is_space ws = true ->
  match r with [] => True | c :: _ => is_space c = false end ->
  re_spaces1 (ws ++ r) = Some r.
Proof.
  intros Hws Hsp Hr. unfold re_spaces1. rewrite (span_app is_space ws r Hsp Hr).
  destruct ws; [congruence|reflexivity].
Qed.

Lemma new_datetime_ok (y m d h mi s us : Z) :
  valid_date y m d = true -> valid_time h mi s us = true ->
  new_datetime y m d h mi s us = Ok (mkdatetime y m d h mi s us).
Proof. unfold new_datetime. intros -> ->. reflexivity. Qed.

(** [strptime] with the format of a date and a time returns on the texts of
    that form whose date is of the calendar, and on no others. *)
Lemma strptime_ymd_hm_of_form (s : str) (y m d h mi : Z) :
  date_time_form s y m d h mi -> valid_date y m d = true ->
  strptime_ymd_hm s = Ok (mkdatetime y m d h mi 0 0).
Proof.
  intros (ms & ds & ws & hs & mis & -> & Hy & Hm & Hms & Hd & Hds &
          Hws & Hsp & Hh & Hhs & Hmi & Hmis) Hv.
  unfold fstr. cbn [List.concat]. rewrite app_nil_r.
  unfold strptime_ymd_hm.
  assert (Hnext : no_digit_next (ws ++ hs ++ lit ":" ++ mis)).
  { destruct ws as [|w ws]; [congruence|]. simpl in Hsp.
    apply andb_prop in Hsp. destruct Hsp as [Hw _].
    apply is_space_not_digit. exact Hw. }
  rewrite (@match_ymd_text y m d ms ds (ws ++ hs ++ lit ":" ++ mis))
    by assumption.
  rewrite re_spaces1_app; try assumption.
  2:{ destruct (@number_text_first h hs (lit ":" ++ mis)) as (c & r' & -> & Hc);
        [lia|exact Hhs|]. apply is_digit_not_space. exact Hc. }
  rewrite (re_H_text _ Hh Hhs) by reflexivity.
  rewrite expect_app.
  rewrite <- (app_nil_r mis). rewrite (re_M_text _ Hmi Hmis) by exact I.
  apply new_datetime_ok; [exact Hv|].
  apply valid_time_bounds. lia.
Qed.

Lemma strptime_ymd_hm_form (s : str) (r : datetime) :
  strptime_ymd_hm s = Ok r ->
  exists y m d h mi,
    date_time_form s y m d h mi /\ valid_date y m d = true /\
    r = mkdatetime y m d h mi 0 0.
Proof.
  unfold strptime_ymd_hm. intros H.
  destruct (match_ymd s) as [[[[y m] d] r1]|] eqn:E1; [|discriminate H].
  destruct (re_spaces1 r1) as [r2|] eqn:E2; [|discriminate H].
  destruct (re_H r2) as [[h r3]|] eqn:E3; [|discriminate H].
  destruct (expect ":" r3) as [r4|] eqn:E4; [|discriminate H].
  destruct (re_M r4) as [[mi [|c r5]]|] eqn:E5; try discriminate H.
  destruct (new_datetime_inv y m d h mi 0 0 H) as [E|(E & Hv & _)];
    [discriminate E|].
  injection E as ->.
  apply match_ymd_inv in E1.
  destruct E1 as (ms & ds & -> & Hy & Hm & Hms & Hd & Hds).
  apply re_spaces1_inv in E2. destruct E2 as (ws & -> & Hws & Hsp).
  apply re_H_inv in E3. destruct E3 as (hs & -> & Hh & Hhs).
  apply expect_spec in E4. subst r3.
  apply re_M_inv in E5. destruct E5 as (mis & -> & Hmi & Hmis).
  exists y, m, d, h, mi. split; [|auto].
  exists ms, ds, ws, hs, mis.
  split; [unfold fstr; cbn [List.concat]; reflexivity|]. auto 15.
Qed.

(** The same for the format of a date alone, which the other format does not
    read. *)
Lemma strptime_ymd_of_form (s : str) (y m d : Z) :
  date_form s y m d -> valid_date y m d = true ->
  strptime_ymd_hm s = Raise ValueError /\
  strptime_ymd s = Ok (mkdatetime y m d 0 0 0 0).
Proof.
  intros (ms & ds & -> & Hy & Hm & Hms & Hd & Hds) Hv.
  unfold fstr. cbn [List.concat].
  assert (Em : match_ymd (pad4 y ++ lit "-" ++ ms ++ lit "-" ++ ds ++ [])
               = Some (y, m, d, []))
    by (apply match_ymd_text; try assumption; exact I).
  unfold strptime_ymd_hm, strptime_ymd. rewrite Em.
  split; [reflexivity|].
  apply new_datetime_ok; [exact Hv|reflexivity].
Qed.

Lemma strptime_ymd_form (s : str) (r : datetime) :
  strptime_ymd s = Ok r ->
  exists y m d,
    date_form s y m d /\ valid_date y m d = true /\
    r = mkdatetime y m d 0 0 0 0.
Proof.
  unfold strptime_ymd. intros H.
  destruct (match_ymd s) as [[[[y m] d] [|c r1]]|] eqn:E1;
    try discriminate H.
  destruct (new_datetime_inv y m d 0 0 0 0 H) as [E|(E & Hv & _)];
    [discriminate E|].
  injection E as ->.
  apply match_ymd_inv in E1.
  destruct E1 as (ms & ds & -> & Hy & Hm & Hms & Hd & Hds).
  exists y, m, d. split; [|auto].
  exists ms, ds.
  split; [unfold fstr; cbn [List.concat]; reflexivity|]. auto 10.
Qed.

Lemma digit_first_not_keyword (c : ascii) (r : str) :
  is_digit c = true ->
  str_eqb (c :: r) "tomorrow" = false /\
  str_eqb (c :: r) "today" = false /\
  match_relative (c :: r) = None.
Proof.
  intros H.
  assert (Ht : Ascii.eqb c "t" = false).
  { destruct (Ascii.eqb c "t") eqn:E; [|reflexivity].
    apply Ascii.eqb_eq in E. subst. discriminate. }
  assert (Hi : Ascii.eqb "i" c = false).
  { destruct (Ascii.eqb "i" c) eqn:E; [|reflexivity].
    apply Ascii.eqb_eq in E. subst. discriminate. }
  unfold match_relative. cbn [str_eqb lit list_ascii_of_string expect].
  rewrite Ht, Hi. auto.
Qed.

Lemma pad4_first (y : Z) (r : str) :
  0 <= y ->
  exists c r', pad4 y ++ r = c :: r' /\ is_digit c = true.
Proof.
  intros H. unfold pad4. cbn [app]. eexists. eexists.
  split; [reflexivity|].
  apply is_digit_digit. apply mod10_digit. Z.div_mod_to_equations. lia.
Qed.

(** The examples of the specification. *)
Lemma parse_examples :
  parse_flexible_date ref_time "tomorrow"
    = Ok (Some (mkdatetime 2024 1 2 9 0 0 0)) /\
  parse_flexible_date ref_time "in 2h"
    = Ok (Some (mkdatetime 2024 1 1 12 0 0 0)) /\
  parse_flexible_date ref_time "2024-03-05"
    = Ok (Some (mkdatetime 2024 3 5 9 0 0 0)) /\
  parse_flexible_date ref_time "not a date" = Ok None.
Proof. vm_compute. repeat split; reflexivity. Qed.

(** Texts that look like a date or a relative time and are neither, and dates
    written with single digits. *)
Lemma parse_other_texts :
  parse_flexible_date ref_time "12 monkeys" = Ok None /\
  parse_flexible_date ref_time "2024-02-30" = Ok None /\
  parse_flexible_date ref_time "2024-02-30 10:00" = Ok None /\
  parse_flexible_date ref_time "in 5 x" = Ok None /\
  parse_flexible_date ref_time "2024-3-5 7:05"
    = Ok (Some (mkdatetime 2024 3 5 7 5 0 0)) /\
  parse_flexible_date ref_time "2024-03- 5"
    = Ok (Some (mkdatetime 2024 3 5 9 0 0 0)).
Proof. vm_compute. repeat split; reflexivity. Qed.

(** A relative form whose moment is past year 9999 raises. *)
Lemma relative_overflow_raises :
  parse_flexible_date ref_time "in 3000000d" = Raise OverflowError.
Proof. vm_compute. reflexivity. Qed.

(** A relative form with a number of more than 4300 digits raises. *)
Lemma relative_long_number_raises :
  parse_flexible_date ref_time
    (lit "in " ++ repeat_char "0" 4301 ++ lit "h") = Raise ValueError.
Proof. vm_compute. reflexivity. Qed.

(** C5, counterexample: ["in 2 months"] is not of the form [in N h|m|d], and
    is parsed all the same, as two minutes from the reference time: the
    relative form is recognised at the start of the text and what follows the
    unit letter is not looked at. *)
Lemma in_2_months_is_two_minutes :
  parse_flexible_date ref_time "in 2 months"
  = Ok (Some (mkdatetime 2024 1 1 10 2 0 0)).
Proof. vm_compute. reflexivity. Qed.

(** C5, as amended.  With [t] the text in lower case and without the
    whitespace around it, and a reference time of the calendar:
    ["tomorrow"] gives the day after the reference date at 09:00 (there is
    one unless the reference date is the last of the calendar);
    ["today"] gives the reference date at 23:59;
    a text that starts with the relative form, its number written with at
    most 4300 digits, gives the reference time moved by that many units, when
    that moment is in the calendar;
    a text of one of the absolute forms whose date is of the calendar gives
    its moment, at 09:00 for a date alone;
    a text that is neither ["tomorrow"] nor starts with the relative form
    never raises;
    and every text that is none of the keywords, does not start with the
    relative form and is not of an absolute form with a date of the calendar
    gives none. *)
Theorem parse_flexible_date_forms (now : datetime) (s : str) :
  valid_datetime now = true ->
  let t := strip (lower s) in
  let parsed := parse_flexible_date now s in
  (t = "tomorrow" -> toordinal now < MAXORDINAL ->
   exists r, parsed = Ok (Some r) /\ valid_datetime r = true /\
             toordinal r = toordinal now + 1 /\
             hour r = 9 /\ minute r = 0 /\ second r = 0 /\
             microsecond r = 0) /\
  (t = "today" ->
   parsed = Ok (Some (mkdatetime (year now) (month now) (day now)
                                 23 59 0 0))) /\
  (forall ds u,
      relative_form t ds u ->
      (length ds <= MAX_STR_DIGITS)%nat ->
      timestamp_us now + int_of_digits ds * unit_us u
        < (MAXORDINAL + 1) * US_PER_DAY ->
      exists r, parsed = Ok (Some r) /\ valid_datetime r = true /\
                timestamp_us r
                = timestamp_us now + int_of_digits ds * unit_us u) /\
  (forall y m d h mi,
      date_time_form t y m d h mi -> valid_date y m d = true ->
      parsed = Ok (Some (mkdatetime y m d h mi 0 0))) /\
  (forall y m d,
      date_form t y m d -> valid_date y m d = true ->
      parsed = Ok (Some (mkdatetime y m d 9 0 0 0))) /\
  (t <> "tomorrow" -> (forall ds u, ~ relative_form t ds u) ->
   exists r, parsed = Ok r) /\
  (t <> "tomorrow" -> t <> "today" ->
   (forall ds u, ~ relative_form t ds u) ->
   (forall y m d h mi,
       date_time_form t y m d h mi -> valid_date y m d = false) ->
   (forall y m d, date_form t y m d -> valid_date y m d = false) ->
   parsed = Ok None).
Proof.
  intros Hnow t parsed.
  destruct (valid_datetime_parts now Hnow) as (Hdate & Hh & Hmi & Hs & Hus).
  destruct (timestamp_bounds now Hnow) as [Hts Hord].
  assert (Hother : forall y m d,
             valid_date y m d = true ->
             replace_time (mkdatetime y m d 0 0 0 0) 9 0 0 0
             = Ok (mkdatetime y m d 9 0 0 0)).
  { intros y m d Hv. unfold replace_time. simpl.
    apply new_datetime_ok; [exact Hv|reflexivity]. }
  assert (Habs : str_eqb t "tomorrow" = false ->
                 str_eqb t "today" = false ->
                 match_relative t = None ->
                 parsed =
                 match strptime_ymd_hm t with
                 | Ok r => Ok (Some r)
                 | Raise ValueError =>
                     match strptime_ymd t with
                     | Ok dt =>
                         (r <- replace_time dt 9 0 (second dt)
                                 (microsecond dt) ;;
                          Ok (Some r))
                     | Raise ValueError => Ok None
                     | Raise e => Raise e
                     end
                 | Raise e => Raise e
                 end).
  { intros E1 E2 E3. subst parsed. unfold parse_flexible_date. fold t.
    rewrite E1, E2, E3. reflexivity. }
  assert (Hnoexc : str_eqb t "tomorrow" = false ->
                   str_eqb t "today" = false ->
                   match_relative t = None ->
                   exists r, parsed = Ok r).
  { intros E1 E2 E3. rewrite (Habs E1 E2 E3).
    destruct (strptime_ymd_hm_inv t) as [->|(y & m & d & h & mi & -> & _)];
      [|eexists; reflexivity].
    destruct (strptime_ymd_inv t) as [->|(y & m & d & -> & Hv)];
      [eexists; reflexivity|].
    simpl second. simpl microsecond. rewrite (Hother _ _ _ Hv).
    eexists. reflexivity. }
  assert (Hdigit : forall y r, 0 <= y -> t = pad4 y ++ r ->
                   str_eqb t "tomorrow" = false /\
                   str_eqb t "today" = false /\
                   match_relative t = None).
  { intros y r Hy Et. destruct (pad4_first r Hy) as (c & r' & Ec & Hc).
    rewrite Et, Ec. apply digit_first_not_keyword. exact Hc. }
  assert (Hnorel : (forall ds u, ~ relative_form t ds u) ->
                   match_relative t = None).
  { intros Hnr. destruct (match_relative t) as [[ds u]|] eqn:E3;
      [|reflexivity].
    apply match_relative_inv in E3. destruct (Hnr ds u E3). }
  split; [|split; [|split; [|split; [|split; [|split]]]]].
  - (* tomorrow *)
    intros Et Hlast. subst parsed. unfold parse_flexible_date. fold t.
    rewrite Et. cbn [str_eqb lit list_ascii_of_string].
    change (new_timedelta 1 0 0) with (Ok US_PER_DAY). cbn [bind].
    destruct (@dt_add_spec now US_PER_DAY Hnow) as (r1 & -> & Hv1 & Hts1).
    { unfold US_PER_DAY, US_PER_SECOND, MAXORDINAL in *. lia. }
    cbn [bind].
    destruct (valid_datetime_parts r1 Hv1) as (Hd1 & _).
    destruct (timestamp_bounds r1 Hv1) as [Hb1 _].
    unfold replace_time.
    rewrite new_datetime_ok by (try exact Hd1; reflexivity).
    cbn [bind]. eexists. split; [reflexivity|].
    split; [unfold valid_datetime; simpl; rewrite Hd1; reflexivity|].
    split; [|simpl; auto].
    change (toordinal r1 = toordinal now + 1).
    unfold US_PER_DAY, US_PER_SECOND in *. lia.
  - (* today *)
    intros Et. subst parsed. unfold parse_flexible_date. fold t.
    rewrite Et. cbn [str_eqb lit list_ascii_of_string].
    unfold replace_time.
    rewrite new_datetime_ok by (try exact Hdate; reflexivity).
    reflexivity.
  - (* the relative form *)
    intros ds u Hform Hlen Hrange.
    pose proof (match_relative_form Hform) as Hm.
    destruct Hform as (ws & ws' & rest & Et & _ & _ & _ & Hdg & _).
    subst parsed. unfold parse_flexible_date. fold t.
    rewrite Hm. rewrite Et. unfold fstr.
    cbn [List.concat str_eqb lit list_ascii_of_string app].
    rewrite (int_of_str_short _ Hlen). cbn [bind].
    pose proof (int_of_digits_nonneg ds Hdg) as Hn.
    set (n := int_of_digits ds) in *.
    assert (Hdelta :
      match u with
      | unit_h => new_timedelta 0 n 0
      | unit_m => new_timedelta 0 0 n
      | unit_d => new_timedelta n 0 0
      end = Ok (n * unit_us u)).
    { assert (Hsmall : (Z.abs (n * unit_us u / US_PER_DAY) <=? 999999999)
                       = true).
      { apply Z.leb_le.
        assert (0 <= n * unit_us u / US_PER_DAY <= MAXORDINAL).
        { unfold US_PER_DAY, US_PER_SECOND, MAXORDINAL in *. split.
          - apply Z.div_pos; [|lia].
            destruct u; unfold unit_us, US_PER_DAY, US_PER_SECOND; lia.
          - apply Z.lt_succ_r. apply Z.div_lt_upper_bound; [lia|].
            destruct u; unfold unit_us, US_PER_DAY, US_PER_SECOND in *;
              lia. }
        unfold MAXORDINAL in *. lia. }
      unfold new_timedelta. cbv zeta.
      destruct u.
      - replace (((0 * 24 + n) * 60 + 0) * 60 * US_PER_SECOND)
          with (n * unit_us unit_h)
          by (unfold unit_us, US_PER_SECOND; lia).
        rewrite Hsmall. reflexivity.
      - replace (((0 * 24 + 0) * 60 + n) * 60 * US_PER_SECOND)
          with (n * unit_us unit_m)
          by (unfold unit_us, US_PER_SECOND; lia).
        rewrite Hsmall. reflexivity.
      - replace (((n * 24 + 0) * 60 + 0) * 60 * US_PER_SECOND)
          with (n * unit_us unit_d)
          by (unfold unit_us, US_PER_DAY, US_PER_SECOND; lia).
        rewrite Hsmall. reflexivity. }
    rewrite Hdelta. cbn [bind].
    destruct (@dt_add_spec now (n * unit_us u) Hnow) as (r & -> & Hv & Hr).
    { split; [|exact Hrange].
      assert (0 <= n * unit_us u)
        by (destruct u; unfold unit_us, US_PER_DAY, US_PER_SECOND; lia).
      unfold US_PER_DAY, US_PER_SECOND in *. lia. }
    cbn [bind]. exists r. auto.
  - (* date and time *)
    intros y m d h mi Hf Hv.
    pose proof (strptime_ymd_hm_of_form Hf Hv) as E.
    destruct Hf as (ms & ds & ws & hs & mis & Et & Hy & _).
    unfold fstr in Et. cbn [List.concat] in Et.
    destruct (Hdigit y _ (proj1 Hy) Et) as (E1 & E2 & E3).
    rewrite (Habs E1 E2 E3), E. reflexivity.
  - (* date alone *)
    intros y m d Hf Hv.
    destruct (strptime_ymd_of_form Hf Hv) as [Ea Eb].
    destruct Hf as (ms & ds & Et & Hy & _).
    unfold fstr in Et. cbn [List.concat] in Et.
    destruct (Hdigit y _ (proj1 Hy) Et) as (E1 & E2 & E3).
    rewrite (Habs E1 E2 E3), Ea, Eb.
    simpl second. simpl microsecond. rewrite (Hother _ _ _ Hv). reflexivity.
  - (* never an exception *)
    intros Hnt Hnr.
    assert (E1 : str_eqb t "tomorrow" = false) by (apply str_eqb_neq; exact Hnt).
    destruct (str_eqb t "today") eqn:E2.
    + subst parsed. unfold parse_flexible_date. fold t. rewrite E1, E2.
      unfold replace_time.
      rewrite new_datetime_ok by (try exact Hdate; reflexivity).
      eexists. reflexivity.
    + apply Hnoexc; [exact E1|reflexivity|]. apply Hnorel. exact Hnr.
  - (* none *)
    intros Hnt Hnd Hnr Hdt Hd.
    assert (E1 : str_eqb t "tomorrow" = false) by (apply str_eqb_neq; exact Hnt).
    assert (E2 : str_eqb t "today" = false) by (apply str_eqb_neq; exact Hnd).
    rewrite (Habs E1 E2 (Hnorel Hnr)).
    destruct (strptime_ymd_hm t) as [r|e] eqn:E4.
    { apply strptime_ymd_hm_form in E4.
      destruct E4 as (y & m & d & h & mi & Hf & Hv & _).
      rewrite (Hdt _ _ _ _ _ Hf) in Hv. discriminate Hv. }
    destruct (strptime_ymd_hm_inv t) as [E|(y & m & d & h & mi & E & _)];
      rewrite E4 in E; [|discriminate E].
    injection E as ->.
    destruct (strptime_ymd t) as [r|e] eqn:E5.
    { apply strptime_ymd_form in E5.
      destruct E5 as (y & m & d & Hf & Hv & _).
      rewrite (Hd _ _ _ Hf) in Hv. discriminate Hv. }
    destruct (strptime_ymd_inv t) as [E|(y & m & d & E & _)];
      rewrite E5 in E; [|discriminate E].
    injection E as ->. reflexivity.
Qed.

(** C5 at the texts ["In 2 H"] and ["12 monkeys"] and the reference time of
    the examples. *)
Lemma parse_flexible_date_forms_witness :
  (exists r,
      parse_flexible_date ref_time "In 2 H" = Ok (Some r) /\
      valid_datetime r = true /\
      timestamp_us r = timestamp_us ref_time + 2 * unit_us unit_h) /\
  parse_flexible_date ref_time "12 monkeys" = Ok None.
Proof.
  split.
  - refine (proj1 (proj2 (proj2
              (@parse_flexible_date_forms ref_time "In 2 H" eq_refl)))
            (lit "2") unit_h _ _ _).
    + exists (lit " "), (lit " "), [].
      repeat split; try reflexivity; discriminate.
    + unfold MAX_STR_DIGITS. cbn [lit list_ascii_of_string length]. lia.
    + vm_compute. reflexivity.
  - refine (proj2 (proj2 (proj2 (proj2 (proj2 (proj2
              (@parse_flexible_date_forms ref_time "12 monkeys" eq_refl))))))
            _ _ _ _ _).
    + intros E. vm_compute in E. discriminate E.
    + intros E. vm_compute in E. discriminate E.
    + intros ds u Hf. apply match_relative_form in Hf.
      vm_compute in Hf. discriminate Hf.
    + intros y m d h mi Hf.
      destruct (valid_date y m d) eqn:Ev; [|reflexivity].
      pose proof (strptime_ymd_hm_of_form Hf Ev) as E.
      vm_compute in E. discriminate E.
    + intros y m d Hf.
      destruct (valid_date y m d) eqn:Ev; [|reflexivity].
      destruct (strptime_ymd_of_form Hf Ev) as [_ E].
      vm_compute in E. discriminate E.
Defined.

(** ** Reminder scheduler *)

Lemma lex_eq (c1 c2 : comparison) : lex c1 c2 = Eq -> c1 = Eq /\ c2 = Eq.
Proof. destruct c1; simpl; intros H; try discriminate; auto. Qed.

Lemma dt_compare_eq (a b : datetime) : dt_compare a b = Eq -> a = b.
Proof.
  unfold dt_compare. intros H.
  repeat (apply lex_eq in H; destruct H as [?H H]).
  destruct a, b; simpl in *.
  repeat match goal with
         | E : (_ ?= _) = Eq |- _ => apply Z.compare_eq in E
         end.
  congruence.
Qed.

(** A reminder is only generated while its trigger time is not yet past,
    and only sent once the trigger time is reached: both hold at one instant
    only. *)
Lemma dt_le_ge_eq (a b : datetime) :
  dt_le a b = true -> dt_ge a b = true -> a = b.
Proof.
  unfold dt_ge, dt_le. intros H1 H2.
  assert (Hsym : dt_compare b a = CompOpp (dt_compare a b)).
  { unfold dt_compare.
    rewrite (Z.compare_antisym (year a)), (Z.compare_antisym (month a)),
      (Z.compare_antisym (day a)), (Z.compare_antisym (hour a)),
      (Z.compare_antisym (minute a)), (Z.compare_antisym (second a)),
      (Z.compare_antisym (microsecond a)).
    destruct (year a ?= year b), (month a ?= month b), (day a ?= day b),
      (hour a ?= hour b), (minute a ?= minute b), (second a ?= second b),
      (microsecond a ?= microsecond b); reflexivity. }
  rewrite Hsym in H2.
  destruct (dt_compare a b) eqn:E; simpl in *; try discriminate.
  apply dt_compare_eq; assumption.
Qed.

Lemma generated_trigger_not_past (task : Task) (now : datetime)
    (rems : list ReminderConfig) (r : ReminderConfig) :
  _generate_reminders_for_task task now = Ok rems ->
  In r rems -> dt_le now (trigger_time r) = true.
Proof.
  unfold _generate_reminders_for_task.
  destruct (due_date task) as [due|]; [|intros [= <-] []].
  simpl. destruct (dt_sub due _) as [before|]; [|discriminate].
  simpl. destruct (dt_add due _) as [over|]; [|discriminate].
  simpl. intros [= <-].
  destruct (dt_le now due) eqn:E1, (dt_le now before) eqn:E2,
    (dt_lt due now && dt_le now over) eqn:E3; simpl;
    try apply andb_prop in E3;
    intuition (subst; simpl; auto).
Qed.

(** The settings [reminder_minutes] and [reminder_enabled] of a task are
    never read when its reminders are generated. *)
Lemma generate_ignores_settings (t : Task) (now : datetime)
    (minutes : Z) (on : bool) :
  _generate_reminders_for_task
    (mkTask (title t) (id t) (description t) (author t) (status t)
            (priority t) (due_date t) (scheduled_date t) minutes on
            (tags t) (children t) (parent_id t) (created_at t) (file t))
    now
  = _generate_reminders_for_task t now.
Proof. reflexivity. Qed.

(** C2 (the code at the scenario of the claim): ticking at T-31min, T-29min,
    T and T+1min delivers one reminder, DUE_DATE, and not the BEFORE_DUE
    reminder that is due from T-30min on: a reminder whose trigger time has
    passed is no longer generated. *)
Theorem reminder_dedup_four_ticks :
  delivered_kinds
    (_reminder_loop (reminder_manager 30 true) four_ticks new_ReminderSystem)
  = [DUE_DATE].
Proof. vm_compute. reflexivity. Qed.

(** C3 (the code at a task with [reminder_minutes = 10]): one hour before the
    due time the BEFORE_DUE reminder is generated with trigger time
    due - 30 minutes, not due - 10 minutes. *)
Theorem before_due_lead_is_30 :
  match _generate_reminders_for_task (reminder_task 10 true)
          (mkdatetime 2024 1 1 11 0 0 0) with
  | Ok rems =>
      map (fun r => (reminder_type r, trigger_time r)) rems
      = [(DUE_DATE, due_T); (BEFORE_DUE, mkdatetime 2024 1 1 11 30 0 0)]
  | Raise _ => False
  end.
Proof. vm_compute. reflexivity. Qed.

(** C4 (the code at a task with [reminder_enabled = false]): a tick at the
    due time delivers its DUE_DATE reminder all the same. *)
Theorem disabled_task_still_reminded :
  delivered_kinds
    (_reminder_loop (reminder_manager 30 false) [due_T] new_ReminderSystem)
  = [DUE_DATE].
Proof. vm_compute. reflexivity. Qed.

(** ** Loading a directory *)

(** C6 (the code at a record without an id): the storage gives the record
    the id ["N/A"], so the test of the manager for the key never fails and
    the record becomes the task ["N/A"] of the map. *)
Theorem record_without_id_is_loaded :
  match new_TaskManager default_todo_keys clock dir_without_id with
  | Ok tm =>
      dict_keys (tasks tm) = [lit "N/A"] /\
      option_map title (get_task tm "N/A") = Some (lit "Buy milk")
  | Raise _ => False
  end.
Proof. vm_compute. split; reflexivity. Qed.

(** C7 (the code at a record with an unknown status): the enum lookup of the
    storage raises [ValueError] outside any handler, the constructor of the
    manager raises with it and no task is loaded, where the well-formed
    records alone give two tasks. *)
Theorem unknown_status_aborts_load :
  new_TaskManager default_todo_keys clock dir_with_bad_status
    = Raise ValueError /\
  match new_TaskManager default_todo_keys clock dir_without_bad_status with
  | Ok tm => dict_keys (tasks tm) = [lit "a1"; lit "b1"]
  | Raise _ => False
  end.
Proof. vm_compute. split; reflexivity. Qed.

(** A file that is not text is skipped and the others are loaded. *)
Lemma undecodable_file_skipped (todo_keys : list str) (now : datetime)
    (name : str) (files : directory) :
  load_files todo_keys now ((name, Undecodable) :: files)
  = load_files todo_keys now files.
Proof. simpl. destruct (negb _); reflexivity. Qed.

(** C9 (the code at a child recorded before its parent): the child keeps its
    [parent_id], and the parent, whose list is emptied when the loop reaches
    it after the child was appended, has no children. *)
Theorem child_before_parent_is_unlinked :
  match new_TaskManager default_todo_keys clock dir_child_first with
  | Ok tm =>
      option_map parent_id (get_task tm "c1") = Some (Some (lit "p1")) /\
      option_map children (get_task tm "p1") = Some []
  | Raise _ => False
  end.
Proof. vm_compute. split; reflexivity. Qed.

(** ** Saving *)

Lemma opt_str_eqb_eq (a b : option str) : opt_str_eqb a b = true <-> a = b.
Proof.
  destruct a as [a|], b as [b|]; simpl; try (split; congruence).
  rewrite str_eqb_eq. split; congruence.
Qed.

Lemma opt_str_eqb_refl (a : option str) : opt_str_eqb a a = true.
Proof. apply opt_str_eqb_eq. reflexivity. Qed.

Lemma insert_by_created_In (t x : Task) (ts : list Task) :
  In x (insert_by_created t ts) <-> x = t \/ In x ts.
Proof.
  induction ts as [|u ts IH]; simpl.
  - intuition congruence.
  - destruct (dt_lt (created_at u) (created_at t)); simpl.
    + rewrite IH. intuition congruence.
    + intuition congruence.
Qed.

Lemma sorted_by_created_In (x : Task) (ts : list Task) :
  In x (sorted_by_created ts) <-> In x ts.
Proof.
  induction ts as [|t ts IH]; simpl; [tauto|].
  rewrite insert_by_created_In, IH. intuition congruence.
Qed.

Lemma render_app (a b : list (Task * nat)) :
  render (a ++ b) = render a ++ render b.
Proof. unfold render. rewrite map_app, concat_app. reflexivity. Qed.

(** A call that returns has written the records of its trace, and has gone
    down to every child. *)
Lemma write_task_node_ok (depth : nat) :
  forall (h : heap) (out : str) (task : Task) (level : nat) (out' : str),
    _write_task_node depth h out task level = (out', None) ->
    out' = out ++ render (written depth h task level) /\
    forall c, In c (deref h (children task)) ->
              In (c, (level + 1)%nat) (written depth h task level).
Proof.
  induction depth as [|d IH]; intros h out task level out' H.
  - discriminate.
  - simpl in H. simpl written.
    assert (Hin : forall c, In c (deref h (children task)) ->
                            In c (sorted_by_created (deref h (children task))))
      by (intros c; apply sorted_by_created_In).
    revert H Hin.
    generalize (sorted_by_created (deref h (children task))) as cs.
    generalize (deref h (children task)) as kids.
    intros kids cs.
    assert (Hloop :
      forall (cs : list Task) (out0 out1 : str),
        (fix each (out : str) (cs : list Task) {struct cs}
           : str * option exn :=
           match cs with
           | [] => (out, None)
           | child :: cs' =>
               match _write_task_node d h out child (level + 1) with
               | (out2, None) => each out2 cs'
               | (out2, Some e) => (out2, Some e)
               end
           end) out0 cs = (out1, None) ->
        out1 = out0
               ++ render (flat_map (fun c => written d h c (level + 1)) cs)
        /\ forall c, In c cs ->
             In (c, (level + 1)%nat)
                (flat_map (fun c => written d h c (level + 1)) cs)).
    { clear cs. induction cs as [|c cs IHcs]; intros out0 out1 H.
      - injection H as <-. simpl. rewrite app_nil_r. split; [reflexivity|].
        intros c [].
      - destruct (_write_task_node d h out0 c (level + 1)) as [out2 [e|]]
          eqn:Ec; [discriminate|].
        destruct (IH _ _ _ _ _ Ec) as [-> _].
        destruct (IHcs _ _ H) as [-> Hcs].
        split.
        + simpl. rewrite render_app, app_assoc. reflexivity.
        + intros c' [<-|Hc'].
          * simpl. apply in_or_app. left.
            destruct d; [discriminate|]. simpl. left. reflexivity.
          * simpl. apply in_or_app. right. apply Hcs. exact Hc'. }
    intros H Hin. destruct (Hloop _ _ _ H) as [-> Hcs].
    split.
    + unfold render at 2. simpl. fold (render
        (flat_map (fun c => written d h c (level + 1)) cs)).
      rewrite app_assoc. reflexivity.
    + intros c Hc. right. apply Hcs. apply Hin. exact Hc.
Qed.

Lemma write_tasks_ok (depth : nat) (h : heap) (ts : list Task) :
  forall (out out' : str),
    write_tasks depth h out ts = (out', None) ->
    out' = out ++ render (flat_map (fun t => written depth h t 1) ts) /\
    forall t, In t ts ->
              In (t, 1%nat) (flat_map (fun t => written depth h t 1) ts) /\
              forall c, In c (deref h (children t)) ->
                In (c, 2%nat) (flat_map (fun t => written depth h t 1) ts).
Proof.
  induction ts as [|t ts IH]; intros out out' H; simpl in H.
  - injection H as <-. simpl. rewrite app_nil_r. split; [reflexivity|].
    intros t [].
  - destruct (_write_task_node depth h out t 1) as [out2 [e|]] eqn:Et;
      [discriminate|].
    destruct (write_task_node_ok _ _ _ _ _ Et) as [-> Hkids].
    destruct (IH _ _ H) as [-> Hts].
    split.
    + simpl. rewrite render_app, app_assoc. reflexivity.
    + intros t' [<-|Ht'].
      * split.
        -- simpl. apply in_or_app. left.
           destruct depth; [discriminate|]. simpl. left. reflexivity.
        -- intros c Hc. simpl. apply in_or_app. left.
           apply (Hkids c Hc).
      * destruct (Hts t' Ht') as [H1 H2]. split.
        -- simpl. apply in_or_app. right. exact H1.
        -- intros c Hc. simpl. apply in_or_app. right. apply H2. exact Hc.
Qed.

Lemma group_get_add (g : list (option str * list Task)) (k k' : option str)
    (t : Task) :
  group_get (group_add g k t) k'
  = if opt_str_eqb k k'
    then Some (match group_get g k with
               | Some ts => ts ++ [t]
               | None => [t]
               end)
    else group_get g k'.
Proof.
  induction g as [|[k0 ts] g IH]; simpl.
  - destruct (opt_str_eqb k k') eqn:E.
    + apply opt_str_eqb_eq in E. subst. rewrite opt_str_eqb_refl.
      reflexivity.
    + destruct (opt_str_eqb k' k) eqn:E'; [|reflexivity].
      apply opt_str_eqb_eq in E'. subst. rewrite opt_str_eqb_refl in E.
      discriminate.
  - destruct (opt_str_eqb k k0) eqn:E0; simpl.
    + apply opt_str_eqb_eq in E0. subst k0.
      destruct (opt_str_eqb k k') eqn:E.
      * apply opt_str_eqb_eq in E. subst. rewrite opt_str_eqb_refl.
        reflexivity.
      * destruct (opt_str_eqb k' k) eqn:E'; [|reflexivity].
        apply opt_str_eqb_eq in E'. subst. rewrite opt_str_eqb_refl in E.
        discriminate.
    + rewrite IH. destruct (opt_str_eqb k k') eqn:E.
      * apply opt_str_eqb_eq in E. subst k'. rewrite E0. reflexivity.
      * reflexivity.
Qed.

Lemma group_get_In (g : list (option str * list Task)) (k : option str)
    (ts : list Task) :
  group_get g k = Some ts -> In k (map fst g).
Proof.
  induction g as [|[k0 t0] g IH]; cbn [group_get map fst In];
    [discriminate|].
  destruct (opt_str_eqb k k0) eqn:E.
  - apply opt_str_eqb_eq in E. intros _. left. congruence.
  - intros H. right. apply IH. exact H.
Qed.

Lemma group_add_keys (g : list (option str * list Task)) (k : option str)
    (t : Task) :
  NoDup (map fst g) -> NoDup (map fst (group_add g k t)).
Proof.
  assert (Hkeys : forall g, forall k', In k' (map fst (group_add g k t)) ->
                                       k' = k \/ In k' (map fst g)).
  { clear g. induction g as [|[k0 ts] g IH]; simpl; intros k' H.
    - intuition.
    - destruct (opt_str_eqb k k0); simpl in H.
      + intuition.
      + destruct H as [H|H]; [auto|]. apply IH in H. intuition. }
  induction g as [|[k0 ts] g IH]; simpl; intros Hnd.
  - repeat constructor. simpl. tauto.
  - inversion Hnd as [|? ? Hnotin Hnd']; subst.
    destruct (opt_str_eqb k k0) eqn:E; simpl.
    + constructor; assumption.
    + constructor; [|auto].
      intros Hin. apply Hkeys in Hin. destruct Hin as [->|Hin]; [|auto].
      rewrite opt_str_eqb_refl in E. discriminate.
Qed.

Lemma tasks_by_file_fold (ts : list Task) :
  forall (g : list (option str * list Task)) (k : option str),
    group_get (fold_left (fun g t => group_add g (file t) t) ts g) k
    = match group_get g k,
            filter (fun t => opt_str_eqb (file t) k) ts with
      | None, [] => None
      | None, l => Some l
      | Some a, l => Some (a ++ l)
      end.
Proof.
  induction ts as [|t ts IH]; intros g k; simpl.
  - destruct (group_get g k); [rewrite app_nil_r|]; reflexivity.
  - rewrite IH, group_get_add.
    destruct (opt_str_eqb (file t) k) eqn:E.
    + apply opt_str_eqb_eq in E. subst k.
      destruct (group_get g (file t)) as [a|].
      * rewrite <- app_assoc. reflexivity.
      * reflexivity.
    + reflexivity.
Qed.

Lemma tasks_by_file_keys (ts : list Task) :
  NoDup (map fst (tasks_by_file ts)).
Proof.
  unfold tasks_by_file.
  assert (H : forall g, NoDup (map fst g) ->
                        NoDup (map fst (fold_left
                                 (fun g t => group_add g (file t) t) ts g))).
  { induction ts as [|t ts IH]; intros g Hg; simpl; [assumption|].
    apply IH. apply group_add_keys. assumption. }
  apply H. constructor.
Qed.

Lemma tasks_by_file_get (ts : list Task) (f : str) (t : Task) :
  In t ts -> file t = Some f ->
  group_get (tasks_by_file ts) (Some f) = Some (tasks_of_file f ts).
Proof.
  intros Hin Hf. unfold tasks_by_file. rewrite tasks_by_file_fold. simpl.
  unfold tasks_of_file.
  destruct (filter (fun t0 => opt_str_eqb (file t0) (Some f)) ts) eqn:E;
    [|reflexivity].
  assert (Hin' : In t (filter (fun t0 => opt_str_eqb (file t0) (Some f)) ts)).
  { apply filter_In. split; [assumption|]. apply opt_str_eqb_eq. assumption. }
  rewrite E in Hin'. destruct Hin'.
Qed.

Lemma group_add_key (g : list (option str * list Task)) (k k' : option str)
    (t : Task) :
  In k (map fst (group_add g k' t)) -> In k (map fst g) \/ k = k'.
Proof.
  induction g as [|[k0 ts0] g IH]; cbn [group_add map fst].
  - intros [H|[]]. right. symmetry. exact H.
  - destruct (opt_str_eqb k' k0); cbn [map fst].
    + intros H. left. exact H.
    + intros [H|H]; [left; left; exact H|].
      apply IH in H. destruct H as [H|H]; [left; right; exact H|].
      right. exact H.
Qed.

Lemma tasks_by_file_key (ts : list Task) (k : option str) :
  In k (map fst (tasks_by_file ts)) -> exists t, In t ts /\ file t = k.
Proof.
  unfold tasks_by_file.
  assert (H : forall g,
             In k (map fst (fold_left (fun g t => group_add g (file t) t)
                                      ts g)) ->
             In k (map fst g) \/ exists t, In t ts /\ file t = k).
  { induction ts as [|t ts IH]; intros g Hk; [left; exact Hk|].
    cbn [fold_left] in Hk. apply IH in Hk.
    destruct Hk as [Hk|[u [Hu Eu]]].
    - apply group_add_key in Hk. destruct Hk as [Hk| ->]; [left; exact Hk|].
      right. exists t. split; [left|]; reflexivity.
    - right. exists u. split; [right|]; assumption. }
  intros Hk. apply H in Hk. destruct Hk as [[]|Hk]. exact Hk.
Qed.

(** A plain name opens the file of that name in the directory, whatever the
    surroundings. *)
Lemma open_target_plain (env : surroundings) (f : str) :
  plain_name f = true -> open_target env f = InDirectory f.
Proof. unfold open_target. intros ->. reflexivity. Qed.

(** The file of the directory a name opens has a plain name. *)
Lemma open_target_InDirectory (env : surroundings) (f name : str) :
  open_target env f = InDirectory name -> plain_name name = true.
Proof.
  unfold open_target. destruct (plain_name f) eqn:E.
  - intros [= <-]. exact E.
  - destruct (env f) as [n| |e]; try discriminate.
    destruct (plain_name n) eqn:En; [|discriminate].
    intros [= <-]. exact En.
Qed.

(** One step of [save_files] on a group with a file name. *)
Lemma save_files_step (env : surroundings) (depth : nat) (h : heap)
    (dir : directory) (f : str) (ts : list Task)
    (groups : list (option str * list Task)) :
  save_files env depth h dir ((Some f, ts) :: groups)
  = match open_target env f with
    | OpenRaises e => (dir, Some e)
    | InDirectory name =>
        match write_tasks depth h (title_line f) (sorted_by_created ts) with
        | (out, None) =>
            save_files env depth h (dict_set dir name (Text out)) groups
        | (out, Some e) => (dict_set dir name (Text out), Some e)
        end
    | Elsewhere =>
        match write_tasks depth h (title_line f) (sorted_by_created ts) with
        | (out, None) => save_files env depth h dir groups
        | (out, Some e) => (dir, Some e)
        end
    end.
Proof.
  cbn [save_files]. destruct (open_target env f); reflexivity.
Qed.

(** A save that returns leaves a file as it is when no group opens it. *)
Lemma save_files_unopened (env : surroundings) (depth : nat) (h : heap)
    (f : str) (groups : list (option str * list Task)) :
  forall (dir dir' : directory) (e : option exn),
    (forall g, In (Some g) (map fst groups) ->
               open_target env g <> InDirectory f) ->
    save_files env depth h dir groups = (dir', e) ->
    dict_get dir' f = dict_get dir f.
Proof.
  induction groups as [|[[f0|] ts0] groups IH]; intros dir dir' e Hno H.
  - cbn [save_files] in H. injection H as <- _. reflexivity.
  - rewrite save_files_step in H.
    assert (Hno' : forall g, In (Some g) (map fst groups) ->
                             open_target env g <> InDirectory f)
      by (intros g Hg; apply Hno; right; exact Hg).
    pose proof (Hno f0 (or_introl eq_refl)) as Hf0.
    destruct (open_target env f0) as [name| |e0].
    + assert (Hset : forall v,
                 dict_get (dict_set dir name v) f = dict_get dir f)
        by (intros v; apply dict_get_set_other; congruence).
      destruct (write_tasks depth h (title_line f0) (sorted_by_created ts0))
        as [out [e'|]].
      * injection H as <- _. apply Hset.
      * rewrite (IH _ _ _ Hno' H). apply Hset.
    + destruct (write_tasks depth h (title_line f0) (sorted_by_created ts0))
        as [out [e'|]].
      * injection H as <- _. reflexivity.
      * apply (IH _ _ _ Hno' H).
    + injection H as <- _. reflexivity.
  - cbn [save_files] in H. injection H as <- _. reflexivity.
Qed.

(** After a save that returns, the file of a group with a plain name, which
    no other group opens, holds the title line and the records of the
    group. *)
Lemma save_files_ok (env : surroundings) (depth : nat) (h : heap) (f : str)
    (ts : list Task) (groups : list (option str * list Task)) :
  forall (dir dir' : directory),
    NoDup (map fst groups) ->
    group_get groups (Some f) = Some ts ->
    plain_name f = true ->
    (forall g, In (Some g) (map fst groups) ->
               open_target env g = InDirectory f -> g = f) ->
    save_files env depth h dir groups = (dir', None) ->
    dict_get dir' f
    = Some (Text (title_line f
                  ++ render (flat_map (fun t => written depth h t 1)
                                      (sorted_by_created ts)))) /\
    forall t, In t ts ->
              In (t, 1%nat) (flat_map (fun t => written depth h t 1)
                                      (sorted_by_created ts)) /\
              forall c, In c (deref h (children t)) ->
                In (c, 2%nat) (flat_map (fun t => written depth h t 1)
                                        (sorted_by_created ts)).
Proof.
  intros dir dir' Hnd Hget Hplain Honly Hsave.
  revert dir dir' Hnd Hget Honly Hsave.
  induction groups as [|[[f0|] ts0] groups IH];
    intros dir dir' Hnd Hget Honly Hsave.
  - discriminate.
  - cbn [map fst] in Hnd. inversion Hnd as [|? ? Hnotin Hnd']; subst.
    assert (Honly' : forall g, In (Some g) (map fst groups) ->
                               open_target env g = InDirectory f -> g = f)
      by (intros g Hg; apply Honly; right; exact Hg).
    rewrite save_files_step in Hsave. cbn [group_get opt_str_eqb] in Hget.
    destruct (str_eqb f f0) eqn:E.
    + apply str_eqb_eq in E. subst f0. injection Hget as ->.
      rewrite (open_target_plain env _ Hplain) in Hsave.
      destruct (write_tasks depth h (title_line f) (sorted_by_created ts))
        as [out [e|]] eqn:Ew; [discriminate|].
      destruct (write_tasks_ok _ _ _ _ Ew) as [-> Hts].
      split.
      * assert (Hno : forall g, In (Some g) (map fst groups) ->
                                open_target env g <> InDirectory f).
        { intros g Hg Eo. apply Hnotin. rewrite <- (Honly' g Hg Eo).
          exact Hg. }
        rewrite (@save_files_unopened env depth h f groups _ _ _ Hno Hsave).
        apply dict_get_set_same.
      * intros t Ht. apply Hts. apply sorted_by_created_In. exact Ht.
    + destruct (open_target env f0) as [name| |e0];
        [| |discriminate];
        (destruct (write_tasks depth h (title_line f0)
                     (sorted_by_created ts0)) as [out [e|]];
         [discriminate|]);
        apply (IH _ _ Hnd' Hget Honly' Hsave).
  - discriminate.
Qed.

Lemma build_temp_tasks_keys (data : list TaskData) :
  forall (h : heap) (temp_tasks : dict loc),
    NoDup (dict_keys temp_tasks) ->
    NoDup (dict_keys (snd (build_temp_tasks h temp_tasks data))).
Proof.
  induction data as [|d data IH]; intros h temp_tasks Hnd; simpl.
  - exact Hnd.
  - destruct (d_id d) as [task_id|]; [|apply IH; exact Hnd].
    simpl. apply IH. apply dict_set_NoDup. exact Hnd.
Qed.

(** The map of a manager that was loaded has one entry for an id, however
    many records carry it. *)
Lemma load_tasks_keys (data : list TaskData) :
  NoDup (dict_keys (tasks (load_tasks data))).
Proof.
  unfold load_tasks.
  pose proof (@build_temp_tasks_keys data [] []) as H.
  destruct (build_temp_tasks [] [] data) as [h temp_tasks]. simpl in *.
  apply H. constructor.
Qed.

(** The manager loaded from a file in which the record of a child comes
    first hands the child and the parent to the storage; the parent lists no
    child, so each has one record in the file. *)
Lemma child_first_records :
  match new_TaskManager default_todo_keys clock dir_child_first with
  | Ok tm =>
      map (fun r => (id (fst r), snd r))
          (file_trace 100 (objects tm) "trip.org" (task_values tm))
      = [(lit "c1", 1%nat); (lit "p1", 1%nat)]
  | Raise _ => False
  end.
Proof. vm_compute. reflexivity. Qed.

(** C10, counterexample: a task with a parent in the same file that has
    one record.  An update that sets the parent id of [b1] to [a1] leaves
    the children of [a1] as they are, and the save it ends with writes
    [b1] once, at depth 1.  The same holds in the manager loaded from a file
    in which the record of a child comes before the record of its parent:
    [c1] has the parent [p1], a task of the map and of the same file, and a
    save writes one record of [c1]. *)
Lemma child_loaded_first_is_written_once :
  (let task key at_minute :=
     mkTask "Note" key "" None TODO NONE None None 30 true [] [] None
            (mkdatetime 2024 1 1 8 at_minute 0 0) (Some (lit "a.org")) in
   let tm := mkTaskManager [task (lit "a1") 1; task (lit "b1") 2]
                           [(lit "a1", 0%nat); (lit "b1", 1%nat)] in
   let '((tm', dir'), e) :=
     update_task closed_surroundings 100 (tm, []) "b1"
                 [K_parent_id (Some (lit "a1"))] in
   exists c p,
     e = None /\
     get_task tm' "b1" = Some c /\ get_task tm' "a1" = Some p /\
     parent_id c = Some (id p) /\
     file c = Some (lit "a.org") /\ file p = Some (lit "a.org") /\
     let trace := file_trace 100 (objects tm') "a.org" (task_values tm') in
     dict_get dir' "a.org"
     = Some (Text (title_line "a.org" ++ render trace)) /\
     filter (fun r => str_eqb (id (fst r)) "b1") trace = [(c, 1%nat)]) /\
  match new_TaskManager default_todo_keys clock dir_child_first with
  | Ok tm =>
      exists c p dir',
        get_task tm "c1" = Some c /\ get_task tm "p1" = Some p /\
        parent_id c = Some (id p) /\
        file c = Some (lit "trip.org") /\ file p = Some (lit "trip.org") /\
        save_tasks closed_surroundings 100 tm dir_child_first
        = (dir', None) /\
        let trace := file_trace 100 (objects tm) "trip.org" (task_values tm)
        in
        dict_get dir' "trip.org"
        = Some (Text (title_line "trip.org" ++ render trace)) /\
        filter (fun r => str_eqb (id (fst r)) "c1") trace = [(c, 1%nat)]
  | Raise _ => False
  end.
Proof.
  split.
  - vm_compute. eexists. eexists. repeat split; reflexivity.
  - vm_compute. eexists. eexists. eexists. repeat split; reflexivity.
Qed.

(** C10, as amended: a save hands every task of the map to the storage.
    When it returns, the file [f], a plain name that no other file name of
    the map opens, holds its title line and then the records of
    [file_trace]: every task of the map that belongs to [f] as a record of
    depth 1, each followed by the records of its children one level deeper.
    So a task [c] of the map that is listed among the children of a task [p]
    of the map, both of file [f], has two records in [f]: one at depth 1 and
    one at depth 2.  On load the records are put in a dictionary under their
    ids, which keeps one task for an id. *)
Theorem child_is_written_twice (env : surroundings) (depth : nat)
    (tm : TaskManager) (dir dir' : directory) (f : str) (p c : Task) :
  save_tasks env depth tm dir = (dir', None) ->
  plain_name f = true ->
  (forall t g, In t (task_values tm) -> file t = Some g ->
               open_target env g = InDirectory f -> g = f) ->
  In p (task_values tm) -> In c (task_values tm) ->
  In c (deref (objects tm) (children p)) ->
  file p = Some f -> file c = Some f ->
  let trace := file_trace depth (objects tm) f (task_values tm) in
  dict_get dir' f = Some (Text (title_line f ++ render trace)) /\
  (forall t, In t (task_values tm) -> file t = Some f ->
             In (t, 1%nat) trace) /\
  (exists i j, i <> j /\ nth_error trace i = Some (c, 1%nat) /\
               nth_error trace j = Some (c, 2%nat)) /\
  (forall data, NoDup (dict_keys (tasks (load_tasks data)))).
Proof.
  intros Hsave Hplain Honly Hp Hc Hkid Hfp Hfc trace.
  unfold save_tasks, OrgStorage_save in Hsave.
  pose proof (@tasks_by_file_get (task_values tm) f p Hp Hfp) as Hg.
  destruct (@save_files_ok env depth (objects tm) f _ _ dir dir'
              (tasks_by_file_keys _) Hg Hplain)
    with (2 := Hsave) as [Hfile Hrec].
  { intros g Hin Eo. apply tasks_by_file_key in Hin.
    destruct Hin as (t & Ht & Eft). apply (Honly t g Ht Eft Eo). }
  assert (Hall : forall t, In t (task_values tm) -> file t = Some f ->
                           In (t, 1%nat) trace).
  { intros t Ht Hft. apply Hrec. apply filter_In. split; [exact Ht|].
    apply opt_str_eqb_eq. exact Hft. }
  split; [exact Hfile|]. split; [exact Hall|]. split.
  - assert (H1 : In (c, 1%nat) trace) by (apply Hall; assumption).
    assert (H2 : In (c, 2%nat) trace).
    { apply (Hrec p); [|exact Hkid]. apply filter_In. split; [exact Hp|].
      apply opt_str_eqb_eq. exact Hfp. }
    apply In_nth_error in H1. destruct H1 as [i Hi].
    apply In_nth_error in H2. destruct H2 as [j Hj].
    exists i, j. split; [|split; assumption].
    intros ->. rewrite Hi in Hj. discriminate.
  - apply load_tasks_keys.
Qed.

(** C10 at the manager of the parent and its child. *)
Lemma child_is_written_twice_witness :
  let tm := family_manager in
  let trace := file_trace 100 (objects tm) "a.org" (task_values tm) in
  exists c,
    get_task tm "c1" = Some c /\
    exists i j, i <> j /\ nth_error trace i = Some (c, 1%nat) /\
                nth_error trace j = Some (c, 2%nat).
Proof.
  eexists. split; [reflexivity|].
  refine (proj1 (proj2 (proj2
    (@child_is_written_twice closed_surroundings 100 family_manager []
       (fst (save_tasks closed_surroundings 100 family_manager [])) "a.org"
       (mkTask "Parent" "p1" "" None TODO NONE None None 30 true [] [1%nat]
               None (mkdatetime 2024 1 1 8 1 0 0) (Some (lit "a.org")))
       _ _ _ _ _ _ _ _ _)))).
  - vm_compute. reflexivity.
  - vm_compute. reflexivity.
  - intros t g Ht Hf Eo. vm_compute in Ht.
    destruct Ht as [<-|[<-|[]]]; injection Hf as <-; reflexivity.
  - vm_compute. left. reflexivity.
  - vm_compute. right. left. reflexivity.
  - vm_compute. left. reflexivity.
  - reflexivity.
  - reflexivity.
Defined.

(** ** The operations of the manager *)

Lemma update_fold_get (l : loc) (kwargs : list kwarg) :
  forall (h : heap) (t : Task),
    heap_get h l = Some t ->
    heap_get
      (fold_left
         (fun h k => if hasattr k then heap_upd h l (fun t => setattr t k)
                     else h)
         kwargs h) l
    = Some (fold_left setattr (filter hasattr kwargs) t).
Proof.
  induction kwargs as [|k kwargs IH]; intros h t Hget; simpl.
  - exact Hget.
  - destruct (hasattr k) eqn:Ek; simpl.
    + apply IH. rewrite heap_get_upd_same, Hget. reflexivity.
    + apply IH. exact Hget.
Qed.

Lemma update_fold_other (l l' : loc) (kwargs : list kwarg) :
  l <> l' ->
  forall h : heap,
    heap_get
      (fold_left
         (fun h k => if hasattr k then heap_upd h l (fun t => setattr t k)
                     else h)
         kwargs h) l'
    = heap_get h l'.
Proof.
  intros Hne. induction kwargs as [|k kwargs IH]; intros h; simpl.
  - reflexivity.
  - rewrite IH. destruct (hasattr k); [|reflexivity].
    apply heap_get_upd_other. exact Hne.
Qed.

Lemma add_link_get (h1 : heap) (l : loc) (new_task : Task)
    (tasks' : dict loc) (parent : option str) :
  heap_get h1 l = Some new_task ->
  exists task,
    heap_get
      match parent with
      | Some p =>
          match (if truthy (Some p) then dict_get tasks' p else None) with
          | Some lp =>
              heap_upd h1 lp
                (fun parent0 =>
                   set_children parent0 (children parent0 ++ [l]))
          | None => h1
          end
      | None => h1
      end l = Some task /\
    title task = title new_task /\ id task = id new_task.
Proof.
  intros Hl. destruct parent as [p|]; [|exists new_task; auto].
  destruct (if truthy (Some p) then dict_get tasks' p else None)
    as [lp|]; [|exists new_task; auto].
  destruct (Nat.eq_dec lp l) as [->|Hne].
  - rewrite heap_get_upd_same, Hl. simpl. eexists. split; [reflexivity|].
    auto.
  - rewrite heap_get_upd_other by exact Hne. exists new_task. auto.
Qed.

(** The keywords [Task] accepts leave the title as it is. *)
Lemma new_Task_title (fresh_id : str) (now : datetime) (title0 : str)
    (parent filename : option str) (kwargs : list kwarg) (new_task : Task) :
  new_Task fresh_id now title0 parent filename kwargs = Ok new_task ->
  title new_task = title0.
Proof.
  unfold new_Task.
  destruct (existsb is_init_conflict kwargs) eqn:E; [discriminate|].
  intros [= <-].
  assert (H : forall t, title (fold_left setattr kwargs t) = title t).
  { induction kwargs as [|k kwargs IH]; intros t; [reflexivity|].
    cbn [existsb] in E. apply orb_false_elim in E. destruct E as [Ek E].
    cbn [fold_left]. rewrite (IH E).
    destruct k; try reflexivity; discriminate Ek. }
  apply H.
Qed.

(** C8, counterexample: an add with the empty title is not rejected, the task
    is in the map and in the file afterwards; an update with the fields
    [title] and [colour], the second of which no task has, is not rejected
    either and sets the title. *)
Lemma empty_title_and_unknown_field_accepted :
  (let '((tm, dir), r) :=
     add_task closed_surroundings 100 "u1" (mkdatetime 2024 1 1 8 0 0 0)
              empty_world "" None (Some (lit "tasks.org")) [] in
   r = Ok 0%nat /\
   option_map title (get_task tm "u1") = Some [] /\
   dict_keys dir = [lit "tasks.org"]) /\
  (let '((tm, dir), e) :=
     update_task closed_surroundings 100 one_task_world "t1"
                 [K_title "Write the report"; K_other "colour"] in
   e = None /\
   option_map title (get_task tm "t1") = Some (lit "Write the report")).
Proof. vm_compute. repeat split; reflexivity. Qed.

(** C8, as amended: the manager validates nothing.  An add whose arguments
    [Task] accepts makes the new task, with the title given, the empty one
    included; it puts the task in the map under its id; when the parent id is
    not empty and a key of the map it appends the new task to the children of
    that parent, and changes no object otherwise; then it saves the whole
    map.  An add with a keyword [Task] does not accept raises before anything
    changes.  An update of a task of the map sets every field of the patch
    that a task has, skips the others, and then saves the whole map; an
    update of an id that is not in the map does nothing. *)
Theorem manager_applies_without_validation :
  (forall (env : surroundings) (depth : nat) (fresh_id : str)
          (now : datetime) (tm : TaskManager) (dir : directory)
          (title0 : str) (parent filename : option str)
          (kwargs : list kwarg) (new_task : Task),
      new_Task fresh_id now title0 parent filename kwargs = Ok new_task ->
      let l := length (objects tm) in
      let h1 := objects tm ++ [new_task] in
      let '((tm', dir'), r) :=
        add_task env depth fresh_id now (tm, dir) title0 parent filename
                 kwargs in
      title new_task = title0 /\
      tasks tm' = dict_set (tasks tm) (id new_task) l /\
      (exists task,
          get_task tm' (id new_task) = Some task /\
          title task = title0 /\ id task = id new_task) /\
      (forall p lp,
          parent = Some p -> p <> [] ->
          dict_get (tasks tm') p = Some lp ->
          heap_get (objects tm') lp
          = option_map (fun t => set_children t (children t ++ [l]))
                       (heap_get h1 lp) /\
          forall l', l' <> lp ->
                     heap_get (objects tm') l' = heap_get h1 l') /\
      (parent = None \/ parent = Some [] \/
       (exists p, parent = Some p /\ dict_get (tasks tm') p = None) ->
       objects tm' = h1) /\
      exists e, save_tasks env depth tm' dir = (dir', e) /\
                r = match e with
                    | None => Ok l
                    | Some x => Raise x
                    end) /\
  (forall (env : surroundings) (depth : nat) (fresh_id : str)
          (now : datetime) (tm : TaskManager) (dir : directory)
          (title0 : str) (parent filename : option str)
          (kwargs : list kwarg) (e : exn),
      new_Task fresh_id now title0 parent filename kwargs = Raise e ->
      add_task env depth fresh_id now (tm, dir) title0 parent filename kwargs
      = ((tm, dir), Raise e)) /\
  (forall (env : surroundings) (depth : nat) (tm : TaskManager)
          (dir : directory) (task_id : str)
          (l : loc) (t : Task) (kwargs : list kwarg),
      dict_get (tasks tm) task_id = Some l ->
      heap_get (objects tm) l = Some t ->
      let '((tm', dir'), e) :=
        update_task env depth (tm, dir) task_id kwargs in
      tasks tm' = tasks tm /\
      heap_get (objects tm') l
        = Some (fold_left setattr (filter hasattr kwargs) t) /\
      save_tasks env depth tm' dir = (dir', e)) /\
  (forall (env : surroundings) (depth : nat) (tm : TaskManager)
          (dir : directory) (task_id : str) (kwargs : list kwarg),
      dict_get (tasks tm) task_id = None ->
      update_task env depth (tm, dir) task_id kwargs = ((tm, dir), None)).
Proof.
  split; [|split; [|split]].
  - intros env depth fresh_id now tm dir title0 parent filename kwargs
           new_task Hnew l h1.
    pose proof (new_Task_title _ _ _ _ _ _ Hnew) as Htitle.
    unfold add_task. rewrite Hnew. unfold heap_alloc.
    cbv beta iota zeta. fold l. fold h1.
    set (tasks' := dict_set (tasks tm) (id new_task) l).
    set (h2 := match parent with
               | Some p =>
                   match (if truthy (Some p) then dict_get tasks' p
                          else None) with
                   | Some lp =>
                       heap_upd h1 lp
                         (fun parent0 =>
                            set_children parent0 (children parent0 ++ [l]))
                   | None => h1
                   end
               | None => h1
               end).
    assert (Hl : heap_get h1 l = Some new_task)
      by apply (heap_get_alloc (objects tm) new_task).
    assert (Hget : exists task,
               get_task (mkTaskManager h2 tasks') (id new_task) = Some task /\
               title task = title0 /\ id task = id new_task).
    { unfold get_task. cbn [tasks objects]. unfold tasks'.
      rewrite dict_get_set_same. rewrite <- Htitle.
      apply (@add_link_get h1 l new_task tasks' parent Hl). }
    assert (Hlink : forall p lp,
               parent = Some p -> p <> [] -> dict_get tasks' p = Some lp ->
               heap_get h2 lp
               = option_map (fun t => set_children t (children t ++ [l]))
                            (heap_get h1 lp) /\
               forall l', l' <> lp -> heap_get h2 l' = heap_get h1 l').
    { intros p lp H Hp Hlp. subst parent. subst h2.
      destruct p as [|c p]; [congruence|]. cbn [truthy]. rewrite Hlp.
      split; [apply heap_get_upd_same|].
      intros l' Hne. apply heap_get_upd_other. congruence. }
    assert (Hnolink : parent = None \/ parent = Some [] \/
                      (exists p, parent = Some p /\ dict_get tasks' p = None)
                      -> h2 = h1).
    { intros [H|[H|(p & H & Hp)]]; subst parent; subst h2;
        try reflexivity.
      rewrite Hp. destruct (truthy (Some p)); reflexivity. }
    match goal with
    | |- context [save_tasks env depth ?m dir] =>
        change m with (mkTaskManager h2 tasks')
    end.
    destruct (save_tasks env depth (mkTaskManager h2 tasks') dir)
      as [dir' [e|]] eqn:Es; cbv beta iota; cbn [tasks objects];
      (split; [exact Htitle|]); (split; [reflexivity|]);
      (split; [exact Hget|]); (split; [exact Hlink|]);
      (split; [exact Hnolink|]); eexists; (split; [exact Es|reflexivity]).
  - intros env depth fresh_id now tm dir title0 parent filename kwargs e
           Hnew.
    unfold add_task. rewrite Hnew. reflexivity.
  - intros env depth tm dir task_id l t kwargs Hk Hl.
    unfold update_task. rewrite Hk.
    destruct (save_tasks env depth _ dir) as [dir' e] eqn:Es.
    split; [reflexivity|]. split; [|exact Es].
    simpl. apply update_fold_get. exact Hl.
  - intros env depth tm dir task_id kwargs Hk.
    unfold update_task. rewrite Hk. reflexivity.
Qed.

(** C8 at an add under a parent with a keyword, and at the update of the
    manager that holds one task. *)
Lemma manager_applies_without_validation_witness :
  (let '((tm', dir'), r) :=
     add_task closed_surroundings 100 (lit "u2")
              (mkdatetime 2024 1 1 8 5 0 0) (fst one_task_world, [])
              [] (Some (lit "t1")) (Some (lit "tasks.org"))
              [K_priority HIGH] in
   option_map children (heap_get (objects tm') 0%nat) = Some [1%nat] /\
   option_map title (get_task tm' "u2") = Some []) /\
  (let '((tm', dir'), e) :=
     update_task closed_surroundings 100 one_task_world "t1"
                 [K_title "Write the report"; K_other "colour"] in
   tasks tm' = tasks (fst one_task_world) /\
   heap_get (objects tm') 0%nat
     = Some (fold_left setattr
               (filter hasattr
                  [K_title "Write the report"; K_other "colour"])
               (mkTask "Write report" "t1" "" None TODO NONE None None 30
                       true [] [] None (mkdatetime 2024 1 1 8 0 0 0)
                       (Some (lit "tasks.org")))) /\
   save_tasks closed_surroundings 100 tm' [] = (dir', e)).
Proof.
  split.
  - generalize (proj1 manager_applies_without_validation
                  closed_surroundings 100%nat (lit "u2")
                  (mkdatetime 2024 1 1 8 5 0 0) (fst one_task_world) []
                  [] (Some (lit "t1")) (Some (lit "tasks.org"))
                  [K_priority HIGH] _ eq_refl).
    cbv zeta.
    match goal with
    | |- context [add_task ?a ?b ?c ?d ?e ?f ?g ?h ?i] =>
        set (w := add_task a b c d e f g h i)
    end.
    try match goal with
        | |- context [add_task ?a ?b ?c ?d ?e ?f ?g ?h ?i] =>
            change (add_task a b c d e f g h i) with w
        end.
    clearbody w. destruct w as [[tm' dir'] r].
    intros (_ & Htasks & (task & Hget & Htitle & _) & Hlink & _).
    split.
    + assert (Hlp : dict_get (tasks tm') (lit "t1") = Some 0%nat)
        by (rewrite Htasks; reflexivity).
      assert (Hne : lit "t1" <> []) by discriminate.
      destruct (Hlink (lit "t1") 0%nat eq_refl Hne Hlp) as [E _].
      rewrite E. reflexivity.
    + change (get_task tm' (lit "u2") = Some task) in Hget.
      rewrite Hget. cbn [option_map]. rewrite Htitle. reflexivity.
  - apply (proj1 (proj2 (proj2 manager_applies_without_validation))
             closed_surroundings 100%nat (fst one_task_world) [] "t1" 0%nat).
    + reflexivity.
    + reflexivity.
Defined.

(** ** Texts: lines, stripping, searching *)

Lemma split_on_not_nil (sep : ascii) (s : str) : split_on sep s <> [].
Proof.
  destruct s as [|c s]; simpl; [discriminate|].
  destruct (Ascii.eqb c sep); [discriminate|].
  destruct (split_on sep s); discriminate.
Qed.

Lemma join_cons_char (sep : str) (c : ascii) (w : str) (ws : list str) :
  join sep ((c :: w) :: ws) = c :: join sep (w :: ws).
Proof. destruct ws; reflexivity. Qed.

Lemma join_split_on (sep : ascii) (s : str) :
  join [sep] (split_on sep s) = s.
Proof.
  induction s as [|c s IH]; simpl; [reflexivity|].
  destruct (Ascii.eqb c sep) eqn:E.
  - apply Ascii.eqb_eq in E. subst c.
    destruct (split_on sep s) as [|w ws] eqn:Es.
    + destruct (split_on_not_nil sep s Es).
    + simpl. simpl in IH. rewrite IH. reflexivity.
  - destruct (split_on sep s) as [|w ws] eqn:Es.
    + destruct (split_on_not_nil sep s Es).
    + rewrite join_cons_char, IH. reflexivity.
Qed.

Lemma split_on_app_sep (sep : ascii) (l r : str) :
  sep_free sep l = true ->
  split_on sep (l ++ sep :: r) = l :: split_on sep r.
Proof.
  unfold sep_free. induction l as [|c l IH]; intros H; simpl in *.
  - rewrite Ascii.eqb_refl. reflexivity.
  - apply andb_prop in H. destruct H as [Hc Hl].
    apply negb_true_iff in Hc. rewrite Hc, (IH Hl). reflexivity.
Qed.

Lemma split_on_free (sep : ascii) (l : str) :
  sep_free sep l = true -> split_on sep l = [l].
Proof.
  unfold sep_free. induction l as [|c l IH]; intros H; simpl in *.
  - reflexivity.
  - apply andb_prop in H. destruct H as [Hc Hl].
    apply negb_true_iff in Hc. rewrite Hc, (IH Hl). reflexivity.
Qed.

Lemma split_on_sep_free (sep : ascii) (s : str) :
  Forall (fun l => sep_free sep l = true) (split_on sep s).
Proof.
  induction s as [|c s IH]; simpl.
  - repeat constructor.
  - destruct (Ascii.eqb c sep) eqn:E.
    + constructor; [reflexivity|exact IH].
    + destruct (split_on sep s) as [|w ws]; [repeat constructor|].
      * simpl. rewrite E. reflexivity.
      * inversion IH; subst. constructor; [|assumption].
        unfold sep_free in *. simpl. rewrite E. simpl. assumption.
Qed.

Lemma split_on_forall (P : ascii -> bool) (sep : ascii) (s : str) :
  forallb P s = true ->
  Forall (fun l => forallb P l = true) (split_on sep s).
Proof.
  induction s as [|c s IH]; simpl; intros H.
  - repeat constructor.
  - apply andb_prop in H. destruct H as [Hc Hs]. specialize (IH Hs).
    destruct (Ascii.eqb c sep).
    + constructor; [reflexivity|exact IH].
    + destruct (split_on sep s) as [|w ws]; [repeat constructor|].
      * simpl. rewrite Hc. reflexivity.
      * inversion IH; subst. constructor; [|assumption].
        simpl. rewrite Hc. assumption.
Qed.

Lemma split_join (sep : ascii) (ts : list str) :
  ts <> [] -> Forall (fun l => sep_free sep l = true) ts ->
  split_on sep (join [sep] ts) = ts.
Proof.
  induction ts as [|t ts IH]; intros Hne Hall; [congruence|].
  inversion Hall as [|? ? Ht Hts]; subst.
  destruct ts as [|u ts].
  - simpl. apply split_on_free. exact Ht.
  - change (join [sep] (t :: u :: ts)) with (t ++ [sep] ++ join [sep] (u :: ts)).
    simpl app. rewrite split_on_app_sep by exact Ht.
    f_equal. apply IH; [discriminate|exact Hts].
Qed.

Lemma unlines_cons (l : str) (ls : list str) :
  unlines (l :: ls) = l ++ nl ++ unlines ls.
Proof. unfold unlines. simpl. rewrite <- app_assoc. reflexivity. Qed.

Lemma unlines_app (a b : list str) :
  unlines (a ++ b) = unlines a ++ unlines b.
Proof. unfold unlines. rewrite map_app, concat_app. reflexivity. Qed.

Lemma unlines_join (ls : list str) :
  ls <> [] -> unlines ls = join nl ls ++ nl.
Proof.
  induction ls as [|l ls IH]; intros H; [congruence|].
  rewrite unlines_cons. destruct ls as [|l' ls].
  - reflexivity.
  - rewrite IH by discriminate.
    change (join nl (l :: l' :: ls)) with (l ++ nl ++ join nl (l' :: ls)).
    rewrite <- !app_assoc. reflexivity.
Qed.

Lemma unlines_split (s : str) : unlines (split_on NL s) = s ++ nl.
Proof.
  rewrite unlines_join by apply split_on_not_nil.
  unfold nl. rewrite join_split_on. reflexivity.
Qed.

Lemma split_on_unlines (ls : list str) :
  Forall (fun l => sep_free NL l = true) ls ->
  split_on NL (unlines ls) = ls ++ [[]].
Proof.
  induction ls as [|l ls IH]; intros H.
  - reflexivity.
  - inversion H as [|? ? Hl Hls]; subst.
    rewrite unlines_cons. unfold nl. simpl app.
    rewrite split_on_app_sep by exact Hl.
    rewrite (IH Hls). reflexivity.
Qed.

Lemma last_app_one {A : Type} (l : list A) (x d : A) : last (l ++ [x]) d = x.
Proof.
  induction l as [|a l IH]; simpl; [reflexivity|].
  destruct (l ++ [x]) eqn:E; [destruct l; discriminate|exact IH].
Qed.

Lemma splitlines_unlines (ls : list str) :
  Forall (fun l => sep_free NL l = true) ls ->
  splitlines (unlines ls) = ls.
Proof.
  intros H. unfold splitlines.
  destruct (unlines ls) as [|c s] eqn:E.
  - destruct ls as [|l ls]; [reflexivity|].
    rewrite unlines_cons in E. destruct l; discriminate.
  - rewrite <- E. rewrite (split_on_unlines H).
    rewrite last_app_one. apply removelast_last.
Qed.

(** Stripping. *)
Lemma lstrip_spaces (w s : str) :
  forallb is_space w = true -> lstrip (w ++ s) = lstrip s.
Proof.
  induction w as [|c w IH]; simpl; intros H; [reflexivity|].
  apply andb_prop in H. destruct H as [Hc Hw]. rewrite Hc. auto.
Qed.

Lemma lstrip_decomp (s : str) :
  exists w, s = w ++ lstrip s /\ forallb is_space w = true /\
            match lstrip s with
            | [] => True
            | c :: _ => is_space c = false
            end.
Proof.
  induction s as [|c s IH]; simpl.
  - exists []. auto.
  - destruct (is_space c) eqn:E.
    + destruct IH as (w & Hs & Hw & Hh). exists (c :: w). simpl.
      rewrite E, Hw. rewrite <- Hs. auto.
    + exists []. simpl. auto.
Qed.

Lemma lstrip_head (c : ascii) (s : str) :
  is_space c = false -> lstrip (c :: s) = c :: s.
Proof. intros H. simpl. rewrite H. reflexivity. Qed.

Lemma rstrip_spaces (s w : str) :
  forallb is_space w = true -> rstrip (s ++ w) = rstrip s.
Proof.
  intros H. unfold rstrip. rewrite rev_app_distr.
  rewrite lstrip_spaces; [reflexivity|].
  rewrite forallb_forall in *. intros x Hx. apply H.
  apply in_rev. exact Hx.
Qed.

Lemma rstrip_last (s : str) (c : ascii) :
  is_space c = false -> rstrip (s ++ [c]) = s ++ [c].
Proof.
  intros H. unfold rstrip. rewrite rev_app_distr. simpl.
  rewrite H. simpl. rewrite rev_involutive. reflexivity.
Qed.

Lemma rstrip_decomp (s : str) :
  exists w, s = rstrip s ++ w /\ forallb is_space w = true /\
            match rev (rstrip s) with
            | [] => True
            | c :: _ => is_space c = false
            end.
Proof.
  unfold rstrip. destruct (lstrip_decomp (rev s)) as (w & Hs & Hw & Hh).
  exists (rev w). rewrite rev_involutive. split; [|split].
  - rewrite <- rev_app_distr, <- Hs, rev_involutive. reflexivity.
  - rewrite forallb_forall in *. intros x Hx. apply Hw.
    apply in_rev. exact Hx.
  - exact Hh.
Qed.

Lemma rstrip_nil : rstrip [] = [].
Proof. reflexivity. Qed.

Lemma stripped_inv (s : str) :
  stripped s = true ->
  exists c s', s = c :: s' /\ is_space c = false /\
  exists s'' c', s = s'' ++ [c'] /\ is_space c' = false.
Proof.
  unfold stripped. intros H.
  destruct s as [|c s']; [discriminate|].
  destruct (rev (c :: s')) as [|c' r] eqn:E; [discriminate|].
  apply andb_prop in H. destruct H as [H1 H2].
  apply negb_true_iff in H1. apply negb_true_iff in H2.
  exists c, s'. split; [reflexivity|]. split; [exact H1|].
  exists (rev r), c'. split; [|exact H2].
  rewrite <- (rev_involutive (c :: s')), E. reflexivity.
Qed.

Lemma lstrip_stripped (s : str) : stripped s = true -> lstrip s = s.
Proof.
  intros H. destruct (stripped_inv s H) as (c & s' & -> & Hc & _).
  apply lstrip_head. exact Hc.
Qed.

Lemma rstrip_stripped (s : str) : stripped s = true -> rstrip s = s.
Proof.
  intros H. destruct (stripped_inv s H) as (_ & _ & _ & _ & s'' & c' & -> & Hc).
  apply rstrip_last. exact Hc.
Qed.

Lemma strip_stripped (s : str) : stripped s = true -> strip s = s.
Proof.
  intros H. unfold strip. rewrite lstrip_stripped by exact H.
  apply rstrip_stripped. exact H.
Qed.


Lemma strip_spaces_around (w s w' : str) :
  forallb is_space w = true -> forallb is_space w' = true ->
  s = [] \/ stripped s = true ->
  strip (w ++ s ++ w') = s.
Proof.
  intros Hw Hw' [->|Hs]; unfold strip.
  - simpl. rewrite lstrip_spaces by exact Hw.
    destruct (lstrip_decomp w') as (x & Hx & _ & Hh).
    assert (E : lstrip w' = []).
    { destruct (lstrip w') as [|c r] eqn:El; [reflexivity|].
      rewrite forallb_forall in Hw'.
      assert (Hin : In c w') by (rewrite Hx; apply in_or_app; right; left;
                                 reflexivity).
      rewrite (Hw' c Hin) in Hh. discriminate. }
    rewrite E. reflexivity.
  - rewrite lstrip_spaces by exact Hw.
    destruct (stripped_inv s Hs) as (c & s' & E & Hc & _).
    rewrite E. simpl app. rewrite lstrip_head by exact Hc.
    change (c :: s' ++ w') with ((c :: s') ++ w'). rewrite <- E.
    rewrite rstrip_spaces by exact Hw'.
    apply rstrip_stripped. exact Hs.
Qed.

Lemma forallb_lstrip (P : ascii -> bool) (s : str) :
  forallb P s = true -> forallb P (lstrip s) = true.
Proof.
  intros H. destruct (lstrip_decomp s) as (w & Hs & _).
  rewrite Hs in H. rewrite forallb_app in H. apply andb_prop in H.
  tauto.
Qed.

Lemma forallb_rstrip (P : ascii -> bool) (s : str) :
  forallb P s = true -> forallb P (rstrip s) = true.
Proof.
  intros H. destruct (rstrip_decomp s) as (w & Hs & _).
  rewrite Hs in H. rewrite forallb_app in H. apply andb_prop in H.
  tauto.
Qed.

Lemma forallb_strip (P : ascii -> bool) (s : str) :
  forallb P s = true -> forallb P (strip s) = true.
Proof.
  intros H. unfold strip. apply forallb_rstrip, forallb_lstrip. exact H.
Qed.

(** Searching. *)
Lemma startswith_app (p s : str) : startswith p (p ++ s) = true.
Proof.
  induction p as [|c p IH]; simpl; [reflexivity|].
  rewrite Ascii.eqb_refl. exact IH.
Qed.

Lemma skipn_app_length {A : Type} (a b : list A) (n : nat) :
  n = length a -> skipn n (a ++ b) = b.
Proof.
  intros ->. induction a as [|x a IH]; simpl; auto.
Qed.

Lemma contains_cons (p : str) (c : ascii) (s : str) :
  contains p (c :: s) = startswith p (c :: s) || contains p s.
Proof. reflexivity. Qed.

(** A text without colon holds no text that starts with one. *)
Lemma contains_colon_free (p s : str) :
  forallb (fun c => negb (is_colon c)) s = true ->
  contains (":"%char :: p) s = false.
Proof.
  induction s as [|c s IH]; intros H.
  - reflexivity.
  - simpl in H. apply andb_prop in H. destruct H as [Hc Hs].
    rewrite contains_cons, (IH Hs). cbn [startswith].
    unfold is_colon in Hc. apply negb_true_iff in Hc.
    rewrite Ascii.eqb_sym, Hc. reflexivity.
Qed.

(** A text without [E] does not hold [:END:]. *)
Lemma contains_END_free (s : str) :
  forallb (fun c => negb (Ascii.eqb c "E")) s = true ->
  contains ":END:" s = false.
Proof.
  induction s as [|c s IH]; intros H.
  - reflexivity.
  - simpl in H. apply andb_prop in H. destruct H as [Hc Hs].
    rewrite contains_cons, (IH Hs).
    destruct s as [|c2 s]; cbn [startswith lit list_ascii_of_string].
    + destruct (Ascii.eqb ":" c); reflexivity.
    + simpl in Hs. apply andb_prop in Hs. destruct Hs as [Hc2 _].
      apply negb_true_iff in Hc2. rewrite (Ascii.eqb_sym "E" c2), Hc2.
      destruct (Ascii.eqb ":" c); reflexivity.
Qed.

(** ** Reading a heading line back *)

Lemma forallb_impl {A : Type} (P Q : A -> bool) (l : list A) :
  (forall x, P x = true -> Q x = true) ->
  forallb P l = true -> forallb Q l = true.
Proof.
  intros H. induction l as [|x l IH]; simpl; [reflexivity|].
  intros Hl. apply andb_prop in Hl. destruct Hl as [Hx Hl].
  rewrite (H x Hx), (IH Hl). reflexivity.
Qed.

Lemma stripped_intro (c c' : ascii) (s s' : str) :
  is_space c = false -> is_space c' = false ->
  c :: s = s' ++ [c'] -> stripped (c :: s) = true.
Proof.
  intros Hc Hc' E. unfold stripped. rewrite E.
  rewrite rev_app_distr. simpl. rewrite Hc, Hc'. reflexivity.
Qed.

Lemma stripped_app (a b : str) :
  stripped a = true -> stripped b = true -> stripped (a ++ b) = true.
Proof.
  intros Ha Hb.
  destruct (stripped_inv a Ha) as (c & a' & -> & Hc & _).
  destruct (stripped_inv b Hb) as (_ & _ & _ & _ & b' & c' & -> & Hc').
  simpl app. apply (@stripped_intro c c' _ ((c :: a') ++ b')).
  - exact Hc.
  - exact Hc'.
  - rewrite <- app_assoc. reflexivity.
Qed.

Lemma stripped_app_mid (a m b : str) :
  stripped a = true -> stripped b = true -> stripped (a ++ m ++ b) = true.
Proof.
  intros Ha Hb.
  destruct (stripped_inv a Ha) as (c & a' & -> & Hc & _).
  destruct (stripped_inv b Hb) as (_ & _ & _ & _ & b' & c' & -> & Hc').
  simpl app. apply (@stripped_intro c c' _ ((c :: a') ++ m ++ b')).
  - exact Hc.
  - exact Hc'.
  - rewrite <- !app_assoc. reflexivity.
Qed.

Lemma span_all (p : ascii -> bool) (s : str) :
  forallb p s = true -> span p s = (s, []).
Proof.
  intros H. rewrite <- (app_nil_r s) at 1. apply span_app; [exact H|exact I].
Qed.

(** The stars of a heading. *)
Lemma is_heading_line_stars (n : nat) (r : str) :
  is_heading_line (repeat_char "*" (S n) ++ " "%char :: r) = true.
Proof.
  unfold is_heading_line, repeat_char.
  rewrite (span_app is_star (repeat "*"%char (S n)) (" "%char :: r)).
  - reflexivity.
  - apply forallb_forall. intros x Hx. apply repeat_spec in Hx. subst.
    reflexivity.
  - reflexivity.
Qed.

Lemma not_heading_line (l : str) :
  match l with
  | [] => True
  | c :: _ => is_star c = false
  end ->
  is_heading_line l = false.
Proof.
  unfold is_heading_line. destruct l as [|c l]; [reflexivity|].
  intros H. simpl. rewrite H. reflexivity.
Qed.

Lemma parse_heading_level_stars (n : nat) (r : str) :
  parse_heading_level (repeat_char "*" n ++ " "%char :: r)
  = (n, strip (" "%char :: r)).
Proof.
  unfold parse_heading_level, repeat_char.
  rewrite (span_app is_star (repeat "*"%char n) (" "%char :: r)).
  - rewrite repeat_length. reflexivity.
  - apply forallb_forall. intros x Hx. apply repeat_spec in Hx. subst.
    reflexivity.
  - reflexivity.
Qed.

(** A heading without colon has no tags. *)
Lemma parse_heading_tags_none (h : str) :
  forallb (fun c => negb (is_colon c)) h = true ->
  parse_heading_tags h = (h, []).
Proof.
  intros H. unfold parse_heading_tags.
  destruct (span is_tag_char (rev (rstrip h))) as [rrun rprefix] eqn:E.
  apply span_spec in E. destruct E as (E & _ & _).
  assert (Hrun : forallb (fun c => negb (is_colon c)) (rev rrun) = true).
  { apply forallb_forall. intros x Hx. apply in_rev in Hx.
    assert (Hin : In x (rev (rstrip h)))
      by (rewrite E; apply in_or_app; left; exact Hx).
    apply in_rev in Hin.
    apply forallb_rstrip in H. rewrite forallb_forall in H. apply H.
    exact Hin. }
  rewrite (span_all _ _ Hrun). reflexivity.
Qed.

Lemma is_tag_char_not_space (c : ascii) :
  is_tag_char c = true -> is_space c = false.
Proof.
  destruct c as [[] [] [] [] [] [] [] []]; intros H;
    try reflexivity; discriminate H.
Qed.

(** A heading that ends with a tag block. *)
Lemma parse_heading_tags_block (P J : str) :
  stripped P = true -> forallb is_tag_char J = true -> J <> [] ->
  parse_heading_tags (P ++ " "%char :: ":"%char :: J ++ [":"%char])
  = (P, split_on ":" J).
Proof.
  intros HP HJ Hne. unfold parse_heading_tags.
  assert (Hrs : rstrip (P ++ " "%char :: ":"%char :: J ++ [":"%char])
                = P ++ " "%char :: ":"%char :: J ++ [":"%char]).
  { replace (P ++ " "%char :: ":"%char :: J ++ [":"%char])
      with ((P ++ " "%char :: ":"%char :: J) ++ [":"%char])
      by (rewrite <- app_assoc; reflexivity).
    apply rstrip_last. reflexivity. }
  rewrite Hrs.
  assert (Hrev : rev (P ++ " "%char :: ":"%char :: J ++ [":"%char])
                 = rev (":"%char :: J ++ [":"%char]) ++ " "%char :: rev P).
  { change (P ++ " "%char :: ":"%char :: J ++ [":"%char])
      with (P ++ [" "%char] ++ (":"%char :: J ++ [":"%char])).
    rewrite !rev_app_distr. rewrite <- app_assoc. reflexivity. }
  rewrite Hrev.
  rewrite (span_app is_tag_char (rev (":"%char :: J ++ [":"%char]))
             (" "%char :: rev P)).
  2:{ apply forallb_forall. intros x Hx. apply in_rev in Hx.
      destruct Hx as [<-|Hx]; [reflexivity|].
      apply in_app_or in Hx. destruct Hx as [Hx|[<-|[]]]; [|reflexivity].
      rewrite forallb_forall in HJ. apply HJ. exact Hx. }
  2:{ reflexivity. }
  rewrite rev_involutive. cbn [span].
  change (negb (is_colon ":"%char)) with false. cbv iota.
  assert (Hhd : rev (":"%char :: J ++ [":"%char])
                = ":"%char :: rev (":"%char :: J)).
  { change (":"%char :: J ++ [":"%char])
      with ((":"%char :: J) ++ [":"%char]).
    rewrite rev_app_distr. reflexivity. }
  rewrite Hhd. change (is_colon ":"%char) with true. cbn [andb].
  assert (Hlen : (3 <=? length (":"%char :: J ++ [":"%char]))%nat = true).
  { apply Nat.leb_le. simpl. rewrite length_app. simpl.
    destruct J; [congruence|simpl; lia]. }
  rewrite Hlen. rewrite removelast_last.
  f_equal. rewrite app_nil_r. cbn [rev]. rewrite rev_involutive.
  rewrite rstrip_spaces by reflexivity.
  apply rstrip_stripped. exact HP.
Qed.

(** TODO keywords. *)
Lemma parse_heading_todos_none (ttl : str) (keys : list str) :
  forallb (fun k => negb (str_eqb ttl k) &&
                    negb (startswith f[k; " "] ttl)) keys = true ->
  parse_heading_todos ttl keys = ttl.
Proof.
  induction keys as [|k keys IH]; simpl; intros H; [reflexivity|].
  apply andb_prop in H. destruct H as [Hk Hks].
  apply andb_prop in Hk. destruct Hk as [H1 H2].
  apply negb_true_iff in H1. apply negb_true_iff in H2.
  rewrite H1, H2. apply IH. exact Hks.
Qed.

Lemma startswith_word (k sv ttl : str) :
  space_free k = true -> space_free sv = true ->
  startswith (k ++ [" "%char]) (sv ++ " "%char :: ttl) = true -> k = sv.
Proof.
  unfold space_free. revert sv.
  induction k as [|c k IH]; intros [|d sv] Hk Hsv H;
    cbn [startswith app forallb] in *.
  - reflexivity.
  - apply andb_prop in Hsv. destruct Hsv as [Hd _].
    apply andb_prop in H. destruct H as [H _].
    apply Ascii.eqb_eq in H. subst d. discriminate.
  - apply andb_prop in Hk. destruct Hk as [Hc _].
    apply andb_prop in H. destruct H as [H _].
    apply Ascii.eqb_eq in H. subst c. discriminate.
  - apply andb_prop in Hk. destruct Hk as [_ Hk].
    apply andb_prop in Hsv. destruct Hsv as [_ Hsv].
    apply andb_prop in H. destruct H as [H1 H2].
    apply Ascii.eqb_eq in H1. subst d. f_equal. apply IH; assumption.
Qed.

Lemma parse_heading_todos_token (sv ttl : str) (keys : list str) :
  keys_ok keys = true -> space_free sv = true ->
  existsb (str_eqb sv) keys = true ->
  parse_heading_todos (sv ++ " "%char :: ttl) keys = ttl.
Proof.
  intros Hkeys Hsv. unfold keys_ok in Hkeys.
  induction keys as [|k keys IH]; simpl; intros Hin; [discriminate|].
  simpl in Hkeys. apply andb_prop in Hkeys. destruct Hkeys as [Hk Hkeys].
  assert (Hneq : str_eqb (sv ++ " "%char :: ttl) k = false).
  { apply str_eqb_neq. intros E. subst k.
    rewrite forallb_app in Hk. apply andb_prop in Hk. destruct Hk as [_ Hk].
    simpl in Hk. discriminate. }
  rewrite Hneq.
  unfold fstr. cbn [List.concat lit list_ascii_of_string app].
  rewrite ?app_nil_r.
  destruct (startswith (k ++ [" "%char]) (sv ++ " "%char :: ttl)) eqn:Es.
  - apply startswith_word in Es; [|exact Hk|exact Hsv]. subst k.
    replace (sv ++ " "%char :: ttl) with ((sv ++ [" "%char]) ++ ttl)
      by (rewrite <- app_assoc; reflexivity).
    apply skipn_app_length. rewrite length_app. reflexivity.
  - apply IH; [exact Hkeys|].
    destruct (str_eqb sv k) eqn:E; [|exact Hin].
    apply str_eqb_eq in E. subst k.
    replace (sv ++ " "%char :: ttl) with ((sv ++ [" "%char]) ++ ttl) in Es
      by (rewrite <- app_assoc; reflexivity).
    rewrite startswith_app in Es. discriminate.
Qed.

Lemma parse_heading_priority_none (ttl : str) :
  stripped ttl = true ->
  forallb (fun c => negb (is_colon c) && negb (is_bracket c)) ttl = true ->
  parse_heading_priority ttl = ttl.
Proof.
  intros Hs Hb. unfold parse_heading_priority.
  rewrite lstrip_stripped by exact Hs.
  destruct ttl as [|c1 [|c2 [|c3 [|c4 r]]]]; try reflexivity.
  simpl in Hb. apply andb_prop in Hb. destruct Hb as [Hc _].
  apply andb_prop in Hc. destruct Hc as [_ Hc].
  unfold is_bracket in Hc. apply negb_true_iff in Hc. rewrite Hc.
  reflexivity.
Qed.

(** ** Reading the lines of a record back *)

Lemma after_prefix (p r : str) : after p (p ++ r) = Some r.
Proof.
  destruct p as [|c p].
  - destruct r; reflexivity.
  - cbn [app after]. change (c :: p ++ r) with ((c :: p) ++ r).
    rewrite expect_app. reflexivity.
Qed.

Lemma day_abbr_class (w : Z) :
  forallb (fun c => negb (is_digit c) && negb (Ascii.eqb c ">"))
          (day_abbr w) = true.
Proof.
  unfold day_abbr.
  repeat match goal with
         | |- context [match ?x with _ => _ end] => destruct x
         end; reflexivity.
Qed.

Lemma pad2_head_digit (n : Z) (r : str) :
  0 <= n ->
  match pad2 n ++ r with
  | c :: _ => is_digit c = true
  | [] => False
  end.
Proof.
  intros H. unfold pad2. cbn [app]. apply is_digit_digit.
  apply mod10_digit. Z.div_mod_to_equations. lia.
Qed.

Lemma pad2_digits (n : Z) : 0 <= n -> forallb is_digit (pad2 n) = true.
Proof.
  intros H. unfold pad2. cbn [forallb].
  rewrite !is_digit_digit by (apply mod10_digit; Z.div_mod_to_equations; lia).
  reflexivity.
Qed.

(** A year of four digits is written as it is. *)
Lemma strftime_Y_pad4 (y : Z) : 1000 <= y -> strftime_Y y = pad4 y.
Proof.
  intros H. unfold strftime_Y.
  destruct (Z.ltb_spec y 10); [lia|].
  destruct (Z.ltb_spec y 100); [lia|].
  destruct (Z.ltb_spec y 1000); [lia|]. reflexivity.
Qed.

Lemma scheduled_line_form (d : datetime) :
  1000 <= year d ->
  f["SCHEDULED: <"; strftime_org d; ">"]
  = lit "SCHEDULED:" ++ lit " " ++ lit "<" ++ pad4 (year d) ++ lit "-"
    ++ pad2 (month d) ++ lit "-" ++ pad2 (day d)
    ++ (lit " " ++ day_abbr (weekday d) ++ lit " ")
    ++ pad2 (hour d) ++ lit ":" ++ pad2 (minute d) ++ lit ">".
Proof.
  intros Hy. unfold strftime_org. rewrite (strftime_Y_pad4 Hy).
  unfold fstr. cbn [List.concat]. rewrite !app_nil_r.
  rewrite <- !app_assoc. reflexivity.
Qed.

(** The stamp of a SCHEDULED line is the due date to the minute. *)
Lemma parse_scheduled_line (d : datetime) :
  valid_datetime d = true -> 1000 <= year d ->
  parse_scheduled f["SCHEDULED: <"; strftime_org d; ">"]
  = Ok (Some (to_the_minute d)).
Proof.
  intros Hv Hy. destruct (valid_datetime_parts d Hv) as (Hd & Hh & Hmi & _).
  pose proof Hd as Hd'. unfold valid_date, MINYEAR, MAXYEAR in Hd'.
  repeat (apply andb_prop in Hd'; destruct Hd' as [Hd' ?H]).
  repeat match goal with
         | E : (_ <=? _) = true |- _ => apply Z.leb_le in E
         end.
  assert (Hd31 : day d <= 99).
  { unfold days_in_month, DAYS_IN_MONTH in H.
    destruct ((month d =? 2) && is_leap (year d)); [lia|].
    destruct (month d) as [|p|p]; try lia.
    repeat (destruct p as [p|p|]; try lia). }
  rewrite scheduled_line_form by exact Hy. unfold parse_scheduled.
  rewrite after_prefix.
  rewrite lstrip_spaces by reflexivity.
  cbn [lit list_ascii_of_string app lstrip].
  change (is_space "<"%char) with false. cbv iota.
  rewrite Ascii.eqb_refl.
  rewrite take_digits_pad4 by lia.
  cbn [expect]. rewrite Ascii.eqb_refl. rewrite take_digits_pad2 by lia.
  cbn [expect]. rewrite Ascii.eqb_refl. rewrite take_digits_pad2 by lia.
  change (" "%char :: (day_abbr (weekday d) ++ [" "%char]) ++
          pad2 (hour d) ++ ":"%char :: pad2 (minute d) ++ [">"%char])
    with ((" "%char :: day_abbr (weekday d) ++ [" "%char]) ++
          pad2 (hour d) ++ ":"%char :: pad2 (minute d) ++ [">"%char]).
  rewrite (span_app (fun c => negb (is_digit c) && negb (Ascii.eqb c ">"))
             (" "%char :: day_abbr (weekday d) ++ [" "%char])
             (pad2 (hour d) ++ ":"%char :: pad2 (minute d) ++ [">"%char])).
  2:{ cbn [forallb]. rewrite forallb_app, day_abbr_class. reflexivity. }
  2:{ pose proof (@pad2_head_digit (hour d)
                    (":"%char :: pad2 (minute d) ++ [">"%char])) as Hhd.
      destruct (pad2 (hour d) ++ ":"%char :: pad2 (minute d) ++ [">"%char]);
        [exact I|].
      rewrite Hhd by lia. reflexivity. }
  cbn [snd]. unfold stamp_time.
  rewrite (span_app is_digit (pad2 (hour d))
             (":"%char :: pad2 (minute d) ++ [">"%char]))
    by (try reflexivity; apply pad2_digits; lia).
  change (length (pad2 (hour d)) <=? 2)%nat with true.
  unfold pad2 at 1.
  rewrite Ascii.eqb_refl. cbn [andb].
  rewrite take_digits_pad2 by lia.
  fold (pad2 (hour d)).
  rewrite int_of_digits_pad4 by lia.
  rewrite !int_of_digits_pad2 by lia.
  cbv beta iota.
  rewrite new_datetime_ok; [reflexivity|exact Hd|].
  apply valid_time_bounds. lia.
Qed.

Lemma parse_scheduled_properties :
  parse_scheduled ":PROPERTIES:" = Ok None.
Proof. reflexivity. Qed.

(** One property line of the drawer. *)
Lemma contains_app_colon_free (p a b : str) :
  forallb (fun c => negb (is_colon c)) a = true ->
  contains (":"%char :: p) (a ++ b) = contains (":"%char :: p) b.
Proof.
  induction a as [|c a IH]; intros H; [reflexivity|].
  simpl in H. apply andb_prop in H. destruct H as [Hc Ha].
  cbn [app]. rewrite contains_cons, (IH Ha). cbn [startswith].
  unfold is_colon in Hc. apply negb_true_iff in Hc.
  rewrite Ascii.eqb_sym, Hc. reflexivity.
Qed.

Lemma property_line_no_END (key v : str) :
  key_ok key = true -> contains ":END:" v = false ->
  contains ":END:" ((":"%char :: key) ++ ":"%char :: " "%char :: v) = false.
Proof.
  intros Hk Hv. unfold key_ok in Hk. destruct key as [|k key]; [discriminate|].
  apply andb_prop in Hk. destruct Hk as [HE Hcf].
  apply negb_true_iff in HE.
  cbn [app]. rewrite contains_cons.
  cbn [startswith lit list_ascii_of_string].
  rewrite Ascii.eqb_refl, (Ascii.eqb_sym "E" k), HE. cbn [andb orb].
  change (k :: key ++ ":"%char :: " "%char :: v)
    with ((k :: key) ++ ":"%char :: " "%char :: v).
  rewrite contains_app_colon_free by exact Hcf.
  rewrite contains_cons. cbn [startswith].
  rewrite Ascii.eqb_refl. change (Ascii.eqb "E" " ") with false.
  cbn [andb orb]. rewrite contains_cons. cbn [startswith].
  change (Ascii.eqb ":" " ") with false. cbn [andb orb]. exact Hv.
Qed.

Lemma parse_property_line (key v : str) :
  key_ok key = true -> stripped v = true ->
  parse_property ((":"%char :: key) ++ ":"%char :: " "%char :: v)
  = Some (key, v).
Proof.
  intros Hk Hv. unfold key_ok in Hk. destruct key as [|k key]; [discriminate|].
  apply andb_prop in Hk. destruct Hk as [_ Hcf].
  unfold parse_property. cbn [app].
  rewrite lstrip_head by reflexivity.
  change (is_colon ":"%char) with true. cbv iota.
  change (k :: key ++ ":"%char :: " "%char :: v)
    with ((k :: key) ++ ":"%char :: " "%char :: v).
  rewrite (span_app (fun c => negb (is_colon c)) (k :: key)
             (":"%char :: " "%char :: v)) by (try exact Hcf; reflexivity).
  f_equal. f_equal.
  replace (" "%char :: v) with (lit " " ++ v ++ [])
    by (rewrite app_nil_r; reflexivity).
  apply strip_spaces_around; try reflexivity.
  right. exact Hv.
Qed.

Lemma drawer_property (key v : str) (ls : list str) (props : dict str) :
  key_ok key = true -> stripped v = true -> contains ":END:" v = false ->
  drawer_lines (((":"%char :: key) ++ ":"%char :: " "%char :: v) :: ls) props
  = drawer_lines ls (dict_set props key v).
Proof.
  intros Hk Hs Hv. cbn [drawer_lines].
  rewrite property_line_no_END by assumption.
  rewrite parse_property_line by assumption.
  destruct key; [discriminate|reflexivity].
Qed.

Lemma stripped_no_END (v : str) :
  forallb (fun c => negb (is_colon c)) v = true ->
  contains ":END:" v = false.
Proof. apply contains_colon_free. Qed.

Lemma digit_iso_char_small (k : Z) :
  0 <= k <= 9 -> iso_char (digit k) = true.
Proof.
  intros H.
  assert (Hc : k = 0 \/ k = 1 \/ k = 2 \/ k = 3 \/ k = 4 \/ k = 5 \/
               k = 6 \/ k = 7 \/ k = 8 \/ k = 9) by lia.
  repeat (destruct Hc as [->|Hc]; [reflexivity|]). subst. reflexivity.
Qed.

Lemma digit_iso_char (k : Z) : iso_char (digit (k mod 10)) = true.
Proof.
  apply digit_iso_char_small. pose proof (Z.mod_pos_bound k 10). lia.
Qed.

Lemma isoformat_chars (t : datetime) :
  forallb iso_char (isoformat t) = true.
Proof.
  unfold isoformat, fstr. cbn [List.concat].
  rewrite !forallb_app. unfold pad4, pad2.
  cbn [forallb lit list_ascii_of_string]. rewrite !digit_iso_char.
  destruct (microsecond t =? 0); [reflexivity|].
  unfold fstr, pad6. cbn [List.concat forallb app lit list_ascii_of_string].
  rewrite !digit_iso_char. reflexivity.
Qed.

Lemma isoformat_no_END (t : datetime) :
  contains ":END:" (isoformat t) = false.
Proof.
  apply contains_END_free.
  apply (forallb_impl iso_char); [|apply isoformat_chars].
  intros c H. unfold iso_char in H. apply andb_prop in H. tauto.
Qed.

Lemma isoformat_stripped (t : datetime) : stripped (isoformat t) = true.
Proof.
  pose proof (isoformat_chars t) as H.
  assert (Hne : isoformat t <> []).
  { unfold isoformat, fstr, pad4. cbn [List.concat app]. discriminate. }
  unfold stripped.
  destruct (isoformat t) as [|c s] eqn:E; [congruence|].
  destruct (rev (c :: s)) as [|c' r] eqn:Er.
  - apply (f_equal (@rev ascii)) in Er. rewrite rev_involutive in Er.
    discriminate.
  - rewrite forallb_forall in H.
    assert (H1 : iso_char c = true) by (apply H; left; reflexivity).
    assert (H2 : iso_char c' = true).
    { apply H. apply in_rev. rewrite Er. left. reflexivity. }
    unfold iso_char in *. apply andb_prop in H1. apply andb_prop in H2.
    destruct H1 as [_ ->]. destruct H2 as [_ ->]. reflexivity.
Qed.

Lemma join_snoc_empty (sep : str) (ls : list str) :
  ls <> [] -> join sep (ls ++ [[]]) = join sep ls ++ sep.
Proof.
  induction ls as [|l ls IH]; intros H; [congruence|].
  destruct ls as [|l' ls].
  - simpl. rewrite app_nil_r. reflexivity.
  - change (join sep ((l :: l' :: ls) ++ [[]]))
      with (l ++ sep ++ join sep ((l' :: ls) ++ [[]])).
    rewrite IH by discriminate.
    change (join sep (l :: l' :: ls)) with (l ++ sep ++ join sep (l' :: ls)).
    rewrite <- !app_assoc. reflexivity.
Qed.

(** The body read from the lines of a description. *)
Lemma body_of_description (t : Task) :
  join nl ([] :: description_lines t) = node_body t.
Proof.
  unfold description_lines, node_body.
  destruct (description t) as [|c d]; [reflexivity|].
  set (s := strip (c :: d)).
  assert (Hne : split_on NL s ++ [[]] <> [])
    by (destruct (split_on NL s); discriminate).
  destruct (split_on NL s ++ [[]]) as [|l ls] eqn:E; [congruence|].
  change (join nl ([] :: l :: ls)) with ([] ++ nl ++ join nl (l :: ls)).
  rewrite <- E. rewrite join_snoc_empty by apply split_on_not_nil.
  unfold nl at 2. rewrite join_split_on.
  unfold fstr. cbn [List.concat]. rewrite app_nil_r. reflexivity.
Qed.

(** ** Reading a record back *)

Lemma join_forallb (P : ascii -> bool) (sep : str) (parts : list str) :
  forallb P sep = true -> Forall (fun p => forallb P p = true) parts ->
  forallb P (join sep parts) = true.
Proof.
  intros Hsep. induction parts as [|p parts IH]; intros H; [reflexivity|].
  inversion H as [|? ? Hp Hps]; subst.
  destruct parts as [|q parts]; [exact Hp|].
  change (join sep (p :: q :: parts)) with (p ++ sep ++ join sep (q :: parts)).
  rewrite !forallb_app, Hp, Hsep, (IH Hps). reflexivity.
Qed.

Lemma status_token_cases (t : Task) :
  (status t = TODO /\ status_token t = []) \/
  (status t <> TODO /\
   status_token t = Status_value (status t) ++ [" "%char] /\
   stripped (Status_value (status t)) = true /\
   space_free (Status_value (status t)) = true /\
   forallb (fun c => negb (is_colon c)) (Status_value (status t)) = true).
Proof.
  unfold status_token. destruct (status t); simpl.
  - left. auto.
  - right. repeat split; discriminate || reflexivity.
  - right. repeat split; discriminate || reflexivity.
Qed.

Section Record.
Variable todo_keys : list str.
Hypothesis Hkeys : keys_ok todo_keys = true.
Variable t : Task.
Hypothesis Hok : task_ok todo_keys t = true.

Lemma task_ok_id : value_ok (id t) = true.
Proof.
  unfold task_ok in Hok.
  do 7 (apply andb_prop in Hok; destruct Hok as [Hok ?]). exact Hok.
Qed.

Lemma task_ok_parent : opt_value_ok (parent_id t) = true.
Proof.
  unfold task_ok in Hok.
  do 7 (apply andb_prop in Hok; destruct Hok as [Hok ?]). assumption.
Qed.

Lemma task_ok_author : opt_value_ok (author t) = true.
Proof.
  unfold task_ok in Hok.
  do 7 (apply andb_prop in Hok; destruct Hok as [Hok ?]). assumption.
Qed.

Lemma task_ok_title : title_ok todo_keys t = true.
Proof.
  unfold task_ok in Hok.
  do 7 (apply andb_prop in Hok; destruct Hok as [Hok ?]). assumption.
Qed.

Lemma task_ok_tags : forallb tag_ok (tags t) = true.
Proof.
  unfold task_ok in Hok.
  do 7 (apply andb_prop in Hok; destruct Hok as [Hok ?]). assumption.
Qed.

Lemma task_ok_description : description_ok (description t) = true.
Proof.
  unfold task_ok in Hok.
  do 7 (apply andb_prop in Hok; destruct Hok as [Hok ?]). assumption.
Qed.

Lemma task_ok_file : file_ok (file t) = true.
Proof.
  unfold task_ok in Hok.
  do 7 (apply andb_prop in Hok; destruct Hok as [Hok ?]). assumption.
Qed.

Lemma task_ok_due : due_ok (due_date t) = true.
Proof.
  unfold task_ok in Hok.
  do 7 (apply andb_prop in Hok; destruct Hok as [Hok ?]). assumption.
Qed.

Lemma title_parts :
  stripped (title t) = true /\ no_break (title t) = true /\
  forallb (fun c => negb (is_colon c) && negb (is_bracket c)) (title t)
  = true /\
  (if Status_eqb (status t) TODO
   then forallb (fun k => negb (str_eqb (title t) k) &&
                          negb (startswith f[k; " "] (title t))) todo_keys
   else existsb (str_eqb (Status_value (status t))) todo_keys) = true.
Proof.
  pose proof task_ok_title as H. unfold title_ok in H.
  do 3 (apply andb_prop in H; destruct H as [H ?]). auto.
Qed.

Lemma title_colon_free :
  forallb (fun c => negb (is_colon c)) (title t) = true.
Proof.
  destruct title_parts as (_ & _ & H & _).
  apply (forallb_impl _ _ _ (fun c Hc => proj1 (andb_prop _ _ Hc)) H).
Qed.

(** The heading without stars: the status token and the title. *)
Lemma heading_core_stripped : stripped (heading_core t) = true.
Proof.
  unfold heading_core. destruct title_parts as (Hs & _).
  destruct (status_token_cases t) as [[_ ->]|(_ & -> & Hsv & _)].
  - exact Hs.
  - rewrite <- app_assoc. apply stripped_app_mid; assumption.
Qed.

Lemma heading_core_colon_free :
  forallb (fun c => negb (is_colon c)) (heading_core t) = true.
Proof.
  unfold heading_core. rewrite forallb_app, title_colon_free.
  destruct (status_token_cases t) as [[_ ->]|(_ & -> & _ & _ & Hc)].
  - reflexivity.
  - rewrite forallb_app, Hc. reflexivity.
Qed.

Lemma heading_core_todos :
  parse_heading_todos (heading_core t) todo_keys = title t.
Proof.
  unfold heading_core. destruct title_parts as (_ & _ & _ & Hst).
  destruct (status_token_cases t) as [[E ->]|(Hne & -> & _ & Hsf & _)].
  - rewrite E in Hst. simpl in Hst.
    apply parse_heading_todos_none. exact Hst.
  - assert (Et : Status_eqb (status t) TODO = false)
      by (destruct (status t); congruence || reflexivity).
    rewrite Et in Hst. rewrite <- app_assoc.
    apply parse_heading_todos_token; assumption.
Qed.

Lemma tags_parts :
  Forall (fun tg => tg <> [] /\ forallb is_tag_char tg = true /\
                    sep_free ":" tg = true) (tags t).
Proof.
  pose proof task_ok_tags as H. rewrite forallb_forall in H.
  apply Forall_forall. intros tg Hin. specialize (H tg Hin).
  unfold tag_ok in H. destruct tg as [|c tg]; [discriminate|].
  split; [discriminate|]. split.
  - eapply forallb_impl; [|exact H].
    intros x Hx. unfold is_tag_char. cbv beta in Hx. apply orb_prop in Hx.
    destruct Hx as [-> | ->]; [reflexivity|]. rewrite orb_true_r. reflexivity.
  - unfold sep_free. eapply forallb_impl; [|exact H].
    intros x Hx. cbv beta in Hx.
    destruct (Ascii.eqb x ":") eqn:E; [|reflexivity].
    apply Ascii.eqb_eq in E. subst. discriminate.
Qed.

(** The heading line read back. *)
Lemma heading_line_parts (lvl : nat) :
  exists h0,
    parse_heading_level (heading_line t lvl) = (lvl, h0) /\
    parse_heading_tags h0 = ((heading_core t), tags t) /\
    parse_heading_priority (parse_heading_todos (heading_core t) todo_keys)
    = title t.
Proof.
  assert (Hform : heading_line t lvl
                  = repeat_char "*" lvl
                    ++ " "%char :: (heading_core t) ++ " "%char :: tag_block t).
  { unfold heading_line, heading_core, fstr. cbn [List.concat].
    rewrite app_nil_r. rewrite <- !app_assoc. reflexivity. }
  rewrite Hform, parse_heading_level_stars.
  eexists. split; [reflexivity|]. split.
  - unfold tag_block. destruct (tags t) as [|tg tgs] eqn:Etags.
    + replace (strip (" "%char :: (heading_core t) ++ [" "%char]))
        with (heading_core t).
      * apply parse_heading_tags_none. apply heading_core_colon_free.
      * symmetry.
        apply (@strip_spaces_around (lit " ") (heading_core t) (lit " "));
          try reflexivity.
        right. apply heading_core_stripped.
    + pose proof tags_parts as Htags. rewrite Etags in Htags.
      set (J := join ":" (tg :: tgs)).
      assert (HJ : forallb is_tag_char J = true).
      { apply join_forallb; [reflexivity|].
        apply (Forall_impl _ (P := fun tg => tg <> [] /\
                 forallb is_tag_char tg = true /\ sep_free ":" tg = true));
          [|exact Htags].
        intros a (_ & Ha & _). exact Ha. }
      assert (HJne : J <> []).
      { subst J. inversion Htags as [|? ? (Hne & _) _]; subst.
        destruct tg as [|c tg]; [congruence|].
        destruct tgs; discriminate. }
      assert (Hblock : f[":"; J; ":"] = ":"%char :: J ++ [":"%char]).
      { unfold fstr. cbn [List.concat]. rewrite app_nil_r. reflexivity. }
      rewrite Hblock.
      replace (strip (" "%char :: (heading_core t)
                      ++ " "%char :: ":"%char :: J ++ [":"%char]))
        with ((heading_core t) ++ " "%char :: ":"%char :: J ++ [":"%char]).
      * rewrite parse_heading_tags_block
          by (try assumption; apply heading_core_stripped).
        f_equal. apply split_join; [discriminate|].
        apply (Forall_impl _ (P := fun tg => tg <> [] /\
                 forallb is_tag_char tg = true /\ sep_free ":" tg = true));
          [|exact Htags].
        intros a (_ & _ & Ha). exact Ha.
      * symmetry.
        replace (" "%char :: (heading_core t)
                 ++ " "%char :: ":"%char :: J ++ [":"%char])
          with (lit " " ++ ((heading_core t)
                 ++ " "%char :: ":"%char :: J ++ [":"%char]) ++ [])
          by (rewrite app_nil_r; reflexivity).
        apply strip_spaces_around; try reflexivity.
        right.
        change ((heading_core t) ++ " "%char :: ":"%char :: J ++ [":"%char])
          with ((heading_core t) ++ (" "%char :: ":"%char :: J) ++ lit ":").
        apply stripped_app_mid; [apply heading_core_stripped|reflexivity].
  - rewrite heading_core_todos.
    destruct title_parts as (Hs & _ & Hb & _).
    apply parse_heading_priority_none; assumption.
Qed.

Lemma value_ok_parts (v : str) :
  value_ok v = true ->
  stripped v = true /\ contains ":END:" v = false /\
  sep_free NL v = true.
Proof.
  unfold value_ok. intros H.
  do 2 (apply andb_prop in H; destruct H as [H ?]).
  split; [exact H|]. split; [apply stripped_no_END; assumption|].
  unfold sep_free, no_break in *.
  eapply forallb_impl; [|exact H1].
  intros c Hc. cbv beta in Hc.
  destruct (Ascii.eqb c NL) eqn:E; [|reflexivity].
  apply Ascii.eqb_eq in E. subst. discriminate.
Qed.

Lemma opt_value_ok_truthy (o : option str) :
  opt_value_ok o = true -> truthy o = true -> value_ok (or_empty o) = true.
Proof.
  destruct o as [[|c v]|]; simpl; try discriminate. auto.
Qed.

(** The lines of the drawer read back. *)
Lemma property_lines_parsed (rest : list str) :
  iparse_properties (property_lines t ++ rest)
  = (node_properties t, [] :: rest).
Proof.
  destruct (value_ok_parts _ task_ok_id) as (Hid1 & Hid2 & _).
  unfold property_lines. rewrite <- !app_assoc.
  cbn [app iparse_properties].
  change (contains ":PROPERTIES:" ":PROPERTIES:") with true. cbv iota.
  assert (Hline : forall key v : str,
             f[":"%char :: key ++ lit ": "; v]
             = (":"%char :: key) ++ ":"%char :: " "%char :: v).
  { intros key v. unfold fstr. cbn [List.concat]. rewrite app_nil_r.
    cbn [app]. rewrite <- app_assoc. reflexivity. }
  change (f[":id: "; id t]) with (f[":"%char :: lit "id" ++ lit ": "; id t]).
  rewrite Hline, drawer_property by (assumption || reflexivity).
  unfold node_properties.
  assert (Htail : forall props,
    drawer_lines
      (f[":status: "; Status_value (status t)]
       :: f[":priority: "; Priority_value (priority t)]
       :: f[":created_at: "; isoformat (created_at t)]
       :: lit ":END:" :: [] :: rest) props
    = (dict_set
         (dict_set
            (dict_set props "status" (Status_value (status t)))
            "priority" (Priority_value (priority t)))
         "created_at" (isoformat (created_at t)),
       [] :: rest)).
  { intros props.
    change (f[":status: "; Status_value (status t)])
      with (f[":"%char :: lit "status" ++ lit ": ";
              Status_value (status t)]).
    rewrite Hline, drawer_property
      by (try reflexivity; destruct (status t); reflexivity).
    change (f[":priority: "; Priority_value (priority t)])
      with (f[":"%char :: lit "priority" ++ lit ": ";
              Priority_value (priority t)]).
    rewrite Hline, drawer_property
      by (try reflexivity; destruct (priority t); reflexivity).
    change (f[":created_at: "; isoformat (created_at t)])
      with (f[":"%char :: lit "created_at" ++ lit ": ";
              isoformat (created_at t)]).
    rewrite Hline.
    rewrite drawer_property;
      [|reflexivity|apply isoformat_stripped|apply isoformat_no_END].
    reflexivity. }
  assert (Hauthor : forall props,
    drawer_lines
      ((if truthy (author t)
        then [f[":author: "; or_empty (author t)]] else [])
       ++ f[":status: "; Status_value (status t)]
          :: f[":priority: "; Priority_value (priority t)]
          :: f[":created_at: "; isoformat (created_at t)]
          :: lit ":END:" :: [] :: rest) props
    = (dict_set
         (dict_set
            (dict_set
               (if truthy (author t)
                then dict_set props "author" (or_empty (author t))
                else props)
               "status" (Status_value (status t)))
            "priority" (Priority_value (priority t)))
         "created_at" (isoformat (created_at t)),
       [] :: rest)).
  { intros props. destruct (truthy (author t)) eqn:Ea; cbn [app].
    - destruct (value_ok_parts _ (opt_value_ok_truthy _ task_ok_author Ea))
        as (Ha1 & Ha2 & _).
      change (f[":author: "; or_empty (author t)])
        with (f[":"%char :: lit "author" ++ lit ": "; or_empty (author t)]).
      rewrite Hline, drawer_property by (assumption || reflexivity).
      apply Htail.
    - apply Htail. }
  destruct (truthy (parent_id t)) eqn:Ep; cbn [app].
  - destruct (value_ok_parts _ (opt_value_ok_truthy _ task_ok_parent Ep))
      as (Hp1 & Hp2 & _).
    change (f[":parent_id: "; or_empty (parent_id t)])
      with (f[":"%char :: lit "parent_id" ++ lit ": ";
              or_empty (parent_id t)]).
    rewrite Hline, drawer_property by (assumption || reflexivity).
    rewrite Hauthor. destruct (truthy (author t)); reflexivity.
  - rewrite Hauthor. destruct (truthy (author t)); reflexivity.
Qed.

(** A record read back from its lines. *)
Lemma parse_node_record (lvl : nat) :
  parse_node todo_keys
    (heading_line t lvl,
     scheduled_lines t ++ property_lines t ++ description_lines t)
  = Ok (node_of (t, lvl)).
Proof.
  unfold parse_node.
  destruct (heading_line_parts lvl) as (h0 & -> & -> & Hh).
  rewrite Hh. unfold scheduled_lines, node_of. cbn [fst snd].
  pose proof task_ok_due as Hdue. unfold due_ok in Hdue.
  destruct (due_date t) as [d|].
  - apply andb_prop in Hdue. destruct Hdue as [Hvalid Hyear].
    apply Z.leb_le in Hyear.
    cbn [app]. rewrite parse_scheduled_line by assumption. cbn [bind].
    rewrite property_lines_parsed. rewrite body_of_description.
    reflexivity.
  - cbn [app].
    assert (Hfirst : exists l ls, property_lines t ++ description_lines t
                                  = l :: ls /\ l = lit ":PROPERTIES:").
    { unfold property_lines. eexists. eexists. split; reflexivity. }
    destruct Hfirst as (l & ls & E & ->).
    pose proof (property_lines_parsed (description_lines t)) as Hp.
    rewrite E in *. rewrite parse_scheduled_properties. cbn [bind].
    rewrite Hp. rewrite body_of_description. reflexivity.
Qed.

End Record.

(** ** Reading a file back *)

Lemma sep_free_app (sep : ascii) (a b : str) :
  sep_free sep (a ++ b) = sep_free sep a && sep_free sep b.
Proof. apply forallb_app. Qed.

Lemma no_break_sep_free (s : str) : no_break s = true -> sep_free NL s = true.
Proof.
  unfold no_break, sep_free. apply forallb_impl.
  intros c Hc. destruct (Ascii.eqb c NL) eqn:E; [|reflexivity].
  apply Ascii.eqb_eq in E. subst. discriminate.
Qed.

Lemma not_space_sep_free (s : str) :
  forallb (fun c => negb (is_space c)) s = true -> sep_free NL s = true.
Proof.
  unfold sep_free. apply forallb_impl.
  intros c Hc. destruct (Ascii.eqb c NL) eqn:E; [|reflexivity].
  apply Ascii.eqb_eq in E. subst. discriminate.
Qed.

Lemma tag_chars_sep_free (s : str) :
  forallb is_tag_char s = true -> sep_free NL s = true.
Proof.
  intros H. apply not_space_sep_free.
  apply (forallb_impl is_tag_char); [|exact H].
  intros c Hc. rewrite (is_tag_char_not_space c Hc). reflexivity.
Qed.

Lemma digit_sep_free (k : Z) : Ascii.eqb (digit (k mod 10)) NL = false.
Proof.
  pose proof (digit_iso_char k) as H. unfold iso_char in H.
  apply andb_prop in H. destruct H as [_ H].
  destruct (Ascii.eqb (digit (k mod 10)) NL) eqn:E; [|reflexivity].
  apply Ascii.eqb_eq in E. rewrite E in H. discriminate.
Qed.

Lemma day_abbr_sep_free (w : Z) : sep_free NL (day_abbr w) = true.
Proof.
  unfold day_abbr.
  repeat match goal with
         | |- context [match ?x with _ => _ end] => destruct x
         end; reflexivity.
Qed.

Lemma strftime_Y_sep_free (y : Z) : sep_free NL (strftime_Y y) = true.
Proof.
  unfold strftime_Y.
  destruct (y <? 10); [|destruct (y <? 100); [|destruct (y <? 1000)]];
    unfold pad4, pad2, sep_free; cbn [forallb];
    rewrite !digit_sep_free; reflexivity.
Qed.

Lemma strftime_sep_free (d : datetime) : sep_free NL (strftime_org d) = true.
Proof.
  unfold strftime_org, fstr. cbn [List.concat].
  rewrite !sep_free_app, day_abbr_sep_free, strftime_Y_sep_free.
  unfold pad2, sep_free.
  cbn [forallb lit list_ascii_of_string]. rewrite !digit_sep_free.
  reflexivity.
Qed.

Lemma isoformat_sep_free (t : datetime) : sep_free NL (isoformat t) = true.
Proof.
  apply not_space_sep_free.
  apply (forallb_impl iso_char); [|apply isoformat_chars].
  intros c H. unfold iso_char in H. apply andb_prop in H. tauto.
Qed.

Lemma skipn_incl {A : Type} (n : nat) :
  forall (l : list A) (x : A), In x (skipn n l) -> In x l.
Proof.
  induction n as [|n IH]; intros l x H; [exact H|].
  destruct l as [|y l]; [exact H|]. right. apply IH. exact H.
Qed.

Lemma remove_org_incl (n : nat) :
  forall (s : str) (c : ascii), In c (remove_org n s) -> In c s.
Proof.
  induction n as [|n IH]; intros s c H; [exact H|].
  cbn [remove_org] in H. destruct s as [|x s]; [exact H|].
  destruct (startswith ".org" (x :: s)).
  - apply IH in H. apply (skipn_incl 4 _ _ H).
  - destruct H as [->|H]; [left; reflexivity|]. right. apply IH. exact H.
Qed.

Lemma title_lines_text (filename : str) :
  title_line filename = unlines (title_lines filename).
Proof.
  unfold title_line, title_lines, unlines, fstr. cbn [map List.concat].
  rewrite !app_nil_r. rewrite <- !app_assoc. reflexivity.
Qed.

Lemma title_lines_sep_free (filename : str) :
  no_break filename = true ->
  Forall (fun l => sep_free NL l = true) (title_lines filename).
Proof.
  intros H. unfold title_lines. repeat constructor.
  unfold fstr. cbn [List.concat]. rewrite app_nil_r, sep_free_app.
  apply andb_true_intro. split; [reflexivity|].
  apply no_break_sep_free in H. unfold sep_free in *.
  rewrite forallb_forall in *. intros c Hc. apply H.
  apply (remove_org_incl _ _ _ Hc).
Qed.

Lemma title_lines_not_heading (filename : str) :
  Forall (fun l => is_heading_line l = false) (title_lines filename).
Proof. unfold title_lines. repeat constructor. Qed.

(** The text of a record is its lines. *)
Lemma node_text_lines (t : Task) (lvl : nat) :
  node_text t lvl = unlines (node_lines (t, lvl)).
Proof.
  unfold node_lines, node_text, heading_line, scheduled_lines,
    property_lines, description_lines, status_token, tag_block, or_empty.
  cbn [fst snd].
  destruct (due_date t), (truthy (parent_id t)), (truthy (author t)),
    (description t) as [|c body];
    rewrite ?unlines_cons, ?unlines_app, ?unlines_split;
    unfold unlines, fstr; cbn [map List.concat app];
    rewrite ?app_nil_r; rewrite <- ?app_assoc; reflexivity.
Qed.

Lemma render_lines (tr : list (Task * nat)) :
  render tr = unlines (flat_map node_lines tr).
Proof.
  induction tr as [|[t lvl] tr IH]; [reflexivity|].
  unfold render in *. cbn [map List.concat flat_map fst snd].
  rewrite unlines_app, <- IH, node_text_lines. reflexivity.
Qed.

(** The lines under a heading are no headings. *)
Lemma tail_not_heading (todo_keys : list str) (t : Task) :
  task_ok todo_keys t = true ->
  Forall (fun l => is_heading_line l = false)
         (scheduled_lines t ++ property_lines t ++ description_lines t).
Proof.
  intros Hok. apply Forall_app. split; [|apply Forall_app; split].
  - unfold scheduled_lines. destruct (due_date t); repeat constructor.
  - unfold property_lines.
    destruct (truthy (parent_id t)), (truthy (author t));
      repeat constructor.
  - unfold description_lines.
    destruct (description t) as [|c d] eqn:Ed; [constructor|].
    apply Forall_app. split; [|repeat constructor].
    pose proof (task_ok_description _ _ Hok) as Hd. rewrite Ed in Hd.
    unfold description_ok in Hd.
    assert (Hstar : forallb (fun c => negb (is_star c)) (strip (c :: d))
                    = true).
    { apply forallb_strip. apply (forallb_impl _ _ _ (fun x Hx =>
        proj2 (andb_prop _ _ (proj1 (andb_prop _ _
          (proj1 (andb_prop _ _ Hx)))))) Hd). }
    pose proof (split_on_forall _ NL _ Hstar) as Hl.
    apply (Forall_impl _ (P := fun l => forallb (fun c => negb (is_star c)) l
                                        = true)); [|exact Hl].
    intros l Hb. apply not_heading_line. destruct l as [|x l]; [exact I|].
    simpl in Hb. apply andb_prop in Hb. destruct Hb as [Hx _].
    apply negb_true_iff in Hx. exact Hx.
Qed.

Lemma lines_to_chunks_tail (ls rest : list str) :
  Forall (fun l => is_heading_line l = false) ls ->
  lines_to_chunks (ls ++ rest)
  = (ls ++ fst (lines_to_chunks rest), snd (lines_to_chunks rest)).
Proof.
  induction ls as [|l ls IH]; intros H.
  - simpl. destruct (lines_to_chunks rest). reflexivity.
  - inversion H as [|? ? Hl Hls]; subst. cbn [app lines_to_chunks].
    rewrite (IH Hls), Hl. reflexivity.
Qed.

Lemma lines_to_chunks_records (todo_keys : list str)
    (tr : list (Task * nat)) :
  Forall (fun e => task_ok todo_keys (fst e) = true /\ (1 <= snd e)%nat) tr ->
  lines_to_chunks (flat_map node_lines tr) = ([], map chunk_of tr).
Proof.
  induction tr as [|[t lvl] tr IH]; intros H; [reflexivity|].
  inversion H as [|? ? [Hok Hlvl] Htr]; subst. cbn [fst snd] in *.
  cbn [flat_map map]. unfold node_lines at 1. cbn [fst snd app].
  cbn [lines_to_chunks].
  rewrite (@lines_to_chunks_tail _ _ (@tail_not_heading _ _ Hok)).
  rewrite (IH Htr). cbn [fst snd]. rewrite app_nil_r.
  destruct lvl as [|n]; [lia|].
  assert (Hh : is_heading_line (heading_line t (S n)) = true).
  { unfold heading_line, fstr. cbn [List.concat].
    apply is_heading_line_stars. }
  rewrite Hh. reflexivity.
Qed.

(** ** The nodes of a written file *)

Lemma repeat_char_sep_free (n : nat) :
  sep_free NL (repeat_char "*" n) = true.
Proof. induction n as [|n IH]; [reflexivity|exact IH]. Qed.

Lemma status_token_sep_free (t : Task) : sep_free NL (status_token t) = true.
Proof. unfold status_token. destruct (status t); reflexivity. Qed.

Lemma tag_block_sep_free (todo_keys : list str) (t : Task) :
  task_ok todo_keys t = true -> sep_free NL (tag_block t) = true.
Proof.
  intros Hok. unfold tag_block.
  pose proof (tags_parts _ _ Hok) as Hp.
  destruct (tags t) as [|tg tgs]; [reflexivity|].
  unfold fstr. cbn [List.concat]. rewrite app_nil_r, !sep_free_app.
  apply andb_true_intro. split; [reflexivity|].
  apply andb_true_intro. split; [|reflexivity].
  apply tag_chars_sep_free. apply join_forallb; [reflexivity|].
  apply (Forall_impl _ (P := fun tg => tg <> [] /\
                                       forallb is_tag_char tg = true /\
                                       sep_free ":" tg = true));
    [|exact Hp].
  intros a [_ [Ha _]]. exact Ha.
Qed.

Lemma node_lines_sep_free (todo_keys : list str) (t : Task) (lvl : nat) :
  task_ok todo_keys t = true ->
  Forall (fun l => sep_free NL l = true) (node_lines (t, lvl)).
Proof.
  intros Hok. unfold node_lines. cbn [fst snd].
  constructor; [|apply Forall_app; split; [|apply Forall_app; split]].
  - unfold heading_line, fstr. cbn [List.concat].
    rewrite app_nil_r, !sep_free_app.
    rewrite repeat_char_sep_free, status_token_sep_free,
      (tag_block_sep_free _ _ Hok).
    destruct (title_parts _ _ Hok) as [_ [Hnb _]].
    rewrite (no_break_sep_free _ Hnb). reflexivity.
  - unfold scheduled_lines. destruct (due_date t) as [d|]; [|constructor].
    repeat constructor. unfold fstr. cbn [List.concat].
    rewrite app_nil_r, !sep_free_app, strftime_sep_free. reflexivity.
  - pose proof (value_ok_parts _ (task_ok_id _ _ Hok)) as [_ [_ Hid]].
    unfold property_lines.
    assert (Hopt : forall o, opt_value_ok o = true -> truthy o = true ->
                             sep_free NL (or_empty o) = true).
    { intros o Ho Ht.
      apply (value_ok_parts _ (opt_value_ok_truthy _ Ho Ht)). }
    pose proof (Hopt _ (task_ok_parent _ _ Hok)) as Hp.
    pose proof (Hopt _ (task_ok_author _ _ Hok)) as Ha.
    assert (Hs : sep_free NL (Status_value (status t)) = true)
      by (destruct (status t); reflexivity).
    assert (Hpr : sep_free NL (Priority_value (priority t)) = true)
      by (destruct (priority t); reflexivity).
    destruct (truthy (parent_id t)), (truthy (author t));
      cbn [app]; repeat constructor;
      unfold fstr; cbn [List.concat]; rewrite app_nil_r, sep_free_app;
      rewrite ?Hid, ?Hs, ?Hpr, ?isoformat_sep_free, ?Hp, ?Ha
        by reflexivity;
      reflexivity.
  - unfold description_lines.
    destruct (description t) as [|c d]; [constructor|].
    apply Forall_app. split; [|repeat constructor].
    apply split_on_sep_free.
Qed.

Lemma parse_nodes_records (todo_keys : list str) (tr : list (Task * nat)) :
  keys_ok todo_keys = true ->
  Forall (fun e => task_ok todo_keys (fst e) = true /\ (1 <= snd e)%nat) tr ->
  parse_nodes todo_keys (map chunk_of tr) = Ok (map node_of tr).
Proof.
  intros Hkeys. induction tr as [|[t lvl] tr IH]; intros H; [reflexivity|].
  inversion H as [|? ? [Hok _] Htr]; subst. cbn [fst] in Hok.
  cbn [map parse_nodes]. unfold chunk_of at 1. cbn [fst snd].
  rewrite (parse_node_record _ Hkeys _ Hok lvl). cbn [bind].
  rewrite (IH Htr). reflexivity.
Qed.

(** The file of a sequence of records loads as the nodes of the records,
    with the tags of the headings above them. *)
Lemma orgparse_load_records (todo_keys : list str) (filename : str)
    (tr : list (Task * nat)) :
  keys_ok todo_keys = true -> no_break filename = true ->
  Forall (fun e => task_ok todo_keys (fst e) = true /\ (1 <= snd e)%nat) tr ->
  orgparse_load todo_keys (Text (title_line filename ++ render tr))
  = Ok (inherit_tags [] (map node_of tr)).
Proof.
  intros Hkeys Hf Htr. unfold orgparse_load.
  rewrite title_lines_text, render_lines, <- unlines_app.
  rewrite splitlines_unlines.
  - rewrite (@lines_to_chunks_tail _ _ (title_lines_not_heading filename)).
    rewrite (@lines_to_chunks_records _ _ Htr). cbn [snd].
    rewrite (@parse_nodes_records _ _ Hkeys Htr). reflexivity.
  - apply Forall_app. split; [apply title_lines_sep_free; exact Hf|].
    apply Forall_flat_map. apply (Forall_impl _ (P := fun e =>
      task_ok todo_keys (fst e) = true /\ (1 <= snd e)%nat)); [|exact Htr].
    intros [t lvl] [Hok _]. apply (@node_lines_sep_free _ _ _ Hok).
Qed.

(** ** Loading the written files *)

Lemma Status_of_value (s : Status) : Status_of (Status_value s) = Ok s.
Proof. destruct s; reflexivity. Qed.

Lemma Priority_of_value (p : Priority) : Priority_of (Priority_value p) = Ok p.
Proof. destruct p; reflexivity. Qed.

Lemma if_truthy_or_empty (o : option str) :
  truthy o = true -> Some (or_empty o) = o.
Proof. destruct o as [[|c s]|]; simpl; congruence. Qed.

Lemma node_properties_get (t : Task) :
  dict_get (node_properties t) "id" = Some (id t) /\
  dict_get (node_properties t) "status" = Some (Status_value (status t)) /\
  dict_get (node_properties t) "priority"
  = Some (Priority_value (priority t)) /\
  dict_get (node_properties t) "due_date" = None /\
  dict_get (node_properties t) "parent_id" = if_truthy (parent_id t) /\
  dict_get (node_properties t) "author" = if_truthy (author t).
Proof.
  unfold node_properties, if_truthy.
  destruct (truthy (parent_id t)) eqn:Ep, (truthy (author t)) eqn:Ea;
    repeat split; try reflexivity;
    cbn; try (apply if_truthy_or_empty; assumption).
Qed.

(** The dictionary of a node that carries the record of [t]. *)
Lemma node_to_dict_record (now : datetime) (filename : str) (t : Task)
    (n : OrgNode) :
  heading n = title t -> body n = node_body t ->
  scheduled n = option_map to_the_minute (due_date t) ->
  properties n = node_properties t ->
  exists ca,
    node_to_dict now filename n
    = Ok (mkTaskData (Some (id t)) (title t) (node_body t)
            (if_truthy (author t)) (status t) (priority t)
            (option_map to_the_minute (due_date t)) (node_tags n)
            (if_truthy (parent_id t)) ca filename).
Proof.
  intros Hh Hb Hs Hp.
  destruct (node_properties_get t) as [Hid [Hst [Hpr [Hdue [Hpar Hau]]]]].
  unfold node_to_dict, get_default. rewrite Hp, Hh, Hb, Hs.
  rewrite Hid, Hst, Hpr, Hdue, Hpar, Hau.
  rewrite Status_of_value, Priority_of_value. cbn [bind truthy].
  eexists. f_equal. f_equal.
  destruct (due_date t); reflexivity.
Qed.

Lemma tag_union_incl (own inherited pool : list str) :
  incl own pool -> incl inherited pool ->
  incl own (tag_union own inherited) /\
  incl (tag_union own inherited) pool.
Proof.
  intros Ho Hi. unfold tag_union. split.
  - intros x Hx. apply in_or_app. left. exact Hx.
  - intros x Hx. apply in_app_or in Hx. destruct Hx as [Hx|Hx].
    + apply Ho. exact Hx.
    + apply filter_In in Hx. apply Hi. tauto.
Qed.

Lemma nodes_to_dicts_records (now : datetime) (filename : str)
    (pool : list str) (tr : list (Task * nat)) :
  forall stack : list (nat * list str),
    (forall a, In a stack -> incl (snd a) pool) ->
    Forall (fun e => incl (tags (fst e)) pool) tr ->
    exists ds,
      nodes_to_dicts now filename (inherit_tags stack (map node_of tr))
      = Ok ds /\
      Forall2 (reads_as pool) (map fst tr) ds.
Proof.
  induction tr as [|[t lvl] tr IH]; intros stack Hstack Htr.
  - exists []. split; [reflexivity|constructor].
  - inversion Htr as [|? ? Ht Htr']; subst. cbn [fst] in Ht.
    cbn [map inherit_tags fst].
    set (stack' := filter (fun a => (fst a <? level (node_of (t, lvl)))%nat)
                          stack).
    set (inherited := match stack' with
                      | (_, ts) :: _ => ts
                      | [] => []
                      end).
    assert (Hstack' : forall a, In a stack' -> incl (snd a) pool).
    { intros a Ha. apply filter_In in Ha. apply Hstack. tauto. }
    assert (Hinh : incl inherited pool).
    { unfold inherited. destruct stack' as [|[l0 ts0] s0].
      - intros x [].
      - apply (Hstack' (l0, ts0)). left. reflexivity. }
    destruct (tag_union_incl Ht Hinh) as [Hown Hfull].
    set (full := tag_union (shallow_tags (node_of (t, lvl))) inherited) in *.
    destruct (IH ((level (node_of (t, lvl)), full) :: stack')) as [ds [E F]].
    { intros a [<-|Ha]; [exact Hfull|apply Hstack'; exact Ha]. }
    { exact Htr'. }
    cbn [nodes_to_dicts].
    match goal with
    | |- context [node_to_dict now filename ?n] =>
        destruct (@node_to_dict_record now filename t n) as [ca Hd];
          try reflexivity
    end.
    rewrite Hd. cbn [bind]. rewrite E. cbn [bind].
    eexists. split; [reflexivity|].
    constructor; [|exact F].
    unfold reads_as. cbn. repeat split; try reflexivity; assumption.
Qed.

(** The dictionaries of a directory whose outline files hold records. *)
Lemma load_files_records (todo_keys : list str) (now : datetime)
    (pool : list str) (trf : str -> list (Task * nat)) :
  keys_ok todo_keys = true ->
  forall files : directory,
    (forall name c, In (name, c) files -> endswith ".org" name = true ->
       no_break name = true /\
       c = Text (title_line name ++ render (trf name)) /\
       Forall (fun e => task_ok todo_keys (fst e) = true /\
                        (1 <= snd e)%nat) (trf name) /\
       Forall (fun e => incl (tags (fst e)) pool) (trf name)) ->
    exists data,
      load_files todo_keys now files = Ok data /\
      Forall2 (reads_as pool) (records_of trf files) data.
Proof.
  intros Hkeys. induction files as [|[name c] files IH]; intros H.
  - exists []. split; [reflexivity|constructor].
  - destruct IH as [rest [Erest Frest]].
    { intros name' c' Hin. apply H. right. exact Hin. }
    cbn [load_files]. unfold records_of. cbn [flat_map fst].
    fold (records_of trf files).
    destruct (endswith ".org" name) eqn:Eorg; cbn [negb].
    + destruct (H name c (or_introl eq_refl) Eorg) as [Hnb [-> [Hok Hpool]]].
      rewrite (@orgparse_load_records _ _ _ Hkeys Hnb Hok).
      destruct (@nodes_to_dicts_records now name pool (trf name) [])
        as [ds [Eds Fds]].
      { intros a []. }
      { exact Hpool. }
      rewrite Eds. cbn [bind]. rewrite Erest. cbn [bind].
      eexists. split; [reflexivity|].
      apply Forall2_app; assumption.
    + exists rest. split; [exact Erest|exact Frest].
Qed.

(** ** The objects a load builds *)

Lemma dict_get_set (d : dict loc) (k k' : str) (v : loc) :
  dict_get (dict_set d k v) k'
  = if str_eqb k k' then Some v else dict_get d k'.
Proof.
  destruct (str_eqb k k') eqn:E.
  - apply str_eqb_eq in E. subst. apply dict_get_set_same.
  - apply str_eqb_neq in E. apply dict_get_set_other. exact E.
Qed.

Lemma dict_values_NoDup (d : dict loc) :
  NoDup (dict_keys d) ->
  (forall k1 k2 l, dict_get d k1 = Some l -> dict_get d k2 = Some l ->
                   k1 = k2) ->
  NoDup (dict_values d).
Proof.
  induction d as [|[k v] d IH]; intros Hk Hinj; [constructor|].
  cbn [dict_keys dict_values map fst snd] in *.
  inversion Hk as [|? ? Hnot Hk']; subst.
  assert (Hget : forall k1 l, In (k1, l) d ->
                              dict_get ((k, v) :: d) k1 = Some l).
  { intros k1 l Hin. apply dict_get_NoDup_In; [exact Hk|].
    right. exact Hin. }
  constructor.
  - intros Hv. apply in_map_iff in Hv. destruct Hv as [[k' v'] [Ev Hin]].
    cbn [snd] in Ev. subst v'.
    assert (k' = k).
    { apply (Hinj k' k v); [apply Hget; exact Hin|].
      apply dict_get_NoDup_In; [exact Hk|left; reflexivity]. }
    subst k'. apply Hnot. apply in_map_iff. exists (k, v). tauto.
  - apply IH; [exact Hk'|].
    intros k1 k2 l H1 H2. apply (Hinj k1 k2 l).
    + apply Hget. apply dict_get_In. exact H1.
    + apply Hget. apply dict_get_In. exact H2.
Qed.

(** The first loop of [load_tasks]: every key of the dict leads to a fresh
    object built from a dictionary that carries the key. *)
Lemma build_temp_tasks_spec (P : TaskData -> Prop) (data : list TaskData) :
  forall (h : heap) (temp : dict loc),
    Forall P data ->
    (forall k l, dict_get temp k = Some l -> (l < length h)%nat) ->
    (forall k1 k2 l, dict_get temp k1 = Some l -> dict_get temp k2 = Some l ->
                     k1 = k2) ->
    (forall k l, dict_get temp k = Some l ->
       exists d t0, P d /\ d_id d = Some k /\ task_of_data d k = Ok t0 /\
                    heap_get h l = Some t0) ->
    (forall k1 k2 l, dict_get (snd (build_temp_tasks h temp data)) k1 = Some l ->
                     dict_get (snd (build_temp_tasks h temp data)) k2 = Some l ->
                     k1 = k2) /\
    (forall k l, dict_get (snd (build_temp_tasks h temp data)) k = Some l ->
       exists d t0, P d /\ d_id d = Some k /\ task_of_data d k = Ok t0 /\
                    heap_get (fst (build_temp_tasks h temp data)) l
                    = Some t0) /\
    (forall k, dict_mem (snd (build_temp_tasks h temp data)) k = true <->
               (dict_mem temp k = true \/
                exists d, In d data /\ d_id d = Some k)).
Proof.
  induction data as [|a data IH]; intros h temp HP Hlt Hinj Hcont.
  - cbn [build_temp_tasks fst snd]. repeat split; try assumption.
    + intros H. left. exact H.
    + intros [H|[d [[] _]]]. exact H.
  - inversion HP as [|? ? Ha HP']; subst. cbn [build_temp_tasks].
    destruct (d_id a) as [k0|] eqn:Eid.
    + unfold task_of_data at 1 2 3. unfold heap_alloc.
      set (t0 := mkTask (d_title a) k0 (d_description a) (d_author a)
                   (d_status a) (d_priority a) (d_due_date a) None 30%Z true
                   (d_tags a) [] (d_parent_id a) (d_created_at a)
                   (Some (d_file a))).
      destruct (IH (h ++ [t0]) (dict_set temp k0 (length h)) HP')
        as [I1 [I2 I3]].
      * intros k l. rewrite dict_get_set, length_app. cbn [length].
        destruct (str_eqb k0 k).
        -- intros E. injection E as <-. lia.
        -- intros E. apply Hlt in E. lia.
      * intros k1 k2 l. rewrite !dict_get_set.
        destruct (str_eqb k0 k1) eqn:E1, (str_eqb k0 k2) eqn:E2.
        -- apply str_eqb_eq in E1, E2. congruence.
        -- intros H1 H2. injection H1 as <-. apply Hlt in H2. lia.
        -- intros H1 H2. injection H2 as <-. apply Hlt in H1. lia.
        -- apply Hinj.
      * intros k l. rewrite dict_get_set.
        destruct (str_eqb k0 k) eqn:E.
        -- apply str_eqb_eq in E. subst k. intros H. injection H as <-.
           exists a, t0. repeat split; try assumption.
           unfold heap_get. rewrite nth_error_app2 by apply Nat.le_refl.
           rewrite Nat.sub_diag. reflexivity.
        -- intros H. destruct (Hcont k l H) as [d [t1 [H1 [H2 [H3 H4]]]]].
           exists d, t1. repeat split; try assumption.
           unfold heap_get in *. rewrite nth_error_app1; [exact H4|].
           apply (Hlt k l H).
      * split; [exact I1|]. split; [exact I2|].
        intros k. refine (iff_trans (I3 k) _).
        unfold dict_mem. rewrite dict_get_set.
        destruct (str_eqb k0 k) eqn:E.
        -- apply str_eqb_eq in E. subst k. split; intros _.
           ++ right. exists a. split; [left; reflexivity|exact Eid].
           ++ left. reflexivity.
        -- apply str_eqb_neq in E. split.
           ++ intros [H|[d [Hd Hk]]]; [left; exact H|].
              right. exists d. split; [right; exact Hd|exact Hk].
           ++ intros [H|[d [[<-|Hd] Hk]]]; [left; exact H| |].
              ** congruence.
              ** right. exists d. split; assumption.
    + destruct (IH h temp HP' Hlt Hinj Hcont) as [I1 [I2 I3]].
      split; [exact I1|]. split; [exact I2|].
      intros k. refine (iff_trans (I3 k) _). split.
      * intros [H|[d [Hd Hk]]]; [left; exact H|].
        right. exists d. split; [right; exact Hd|exact Hk].
      * intros [H|[d [[<-|Hd] Hk]]]; [left; exact H| |].
        -- congruence.
        -- right. exists d. split; assumption.
Qed.

(** One round of the linking loop touches the links only, and the parent of
    the object it is run for. *)
Lemma link_task_get (temp : dict loc) (h : heap) (l l' : loc) (t : Task) :
  heap_get h l' = Some t ->
  exists t',
    heap_get (link_task temp h l) l' = Some t' /\ core t' = core t /\
    parent_id t' = if Nat.eqb l' l then resolve temp (parent_id t)
                   else parent_id t.
Proof.
  intros Hget. unfold link_task.
  destruct (Nat.eqb_spec l' l) as [->|Hne].
  - rewrite heap_get_upd_same, Hget. cbn [option_map set_children parent_id].
    destruct (parent_id t) as [p|] eqn:Ep.
    + cbn [resolve]. unfold dict_mem.
      destruct (truthy (Some p)), (dict_get temp p) as [lp|] eqn:Elp;
        cbn [andb].
      * destruct (Nat.eq_dec lp l) as [->|Hlp].
        -- rewrite heap_get_upd_same, heap_get_upd_same, Hget.
           eexists. split; [reflexivity|]. split; [reflexivity|exact Ep].
        -- rewrite heap_get_upd_other by exact Hlp.
           rewrite heap_get_upd_same, Hget.
           eexists. split; [reflexivity|]. split; [reflexivity|exact Ep].
      * rewrite heap_get_upd_same, heap_get_upd_same, Hget.
        eexists. split; [reflexivity|]. split; reflexivity.
      * rewrite heap_get_upd_same, heap_get_upd_same, Hget.
        eexists. split; [reflexivity|]. split; reflexivity.
      * rewrite heap_get_upd_same, heap_get_upd_same, Hget.
        eexists. split; [reflexivity|]. split; reflexivity.
    + rewrite heap_get_upd_same, heap_get_upd_same, Hget.
      eexists. split; [reflexivity|]. split; reflexivity.
  - assert (Hne' : l <> l') by congruence.
    set (h1 := heap_upd h l (fun task => set_children task [])).
    assert (H1 : heap_get h1 l' = Some t).
    { unfold h1. rewrite heap_get_upd_other by exact Hne'. exact Hget. }
    destruct (heap_get h1 l) as [task|]; [|exists t; tauto].
    assert (Hset : exists t',
               heap_get (heap_upd h1 l (fun task => set_parent_id task None))
                        l' = Some t' /\ core t' = core t /\
               parent_id t' = parent_id t).
    { rewrite heap_get_upd_other by exact Hne'. exists t. tauto. }
    destruct (parent_id task) as [p|]; [|exact Hset].
    destruct (if truthy (Some p) then dict_get temp p else None) as [lp|];
      [|exact Hset].
    destruct (Nat.eq_dec lp l') as [->|Hlp].
    + rewrite heap_get_upd_same, H1.
      eexists. split; [reflexivity|]. split; reflexivity.
    + rewrite heap_get_upd_other by exact Hlp. exists t. tauto.
Qed.

Lemma link_fold_get (temp : dict loc) (ls : list loc) :
  forall (h : heap) (l : loc) (t : Task),
    NoDup ls -> heap_get h l = Some t ->
    exists t',
      heap_get (fold_left (link_task temp) ls h) l = Some t' /\
      core t' = core t /\
      parent_id t' = if existsb (Nat.eqb l) ls
                     then resolve temp (parent_id t) else parent_id t.
Proof.
  induction ls as [|a ls IH]; intros h l t Hnd Hget.
  - exists t. cbn. tauto.
  - inversion Hnd as [|? ? Hnot Hnd']; subst. cbn [fold_left existsb].
    destruct (@link_task_get temp h a l t Hget) as [t1 [G1 [C1 P1]]].
    destruct (IH _ _ _ Hnd' G1) as [t' [G2 [C2 P2]]].
    exists t'. split; [exact G2|]. split; [congruence|].
    rewrite P2, P1. destruct (Nat.eqb_spec l a) as [->|Hne].
    + cbn [orb].
      assert (E : existsb (Nat.eqb a) ls = false).
      { destruct (existsb (Nat.eqb a) ls) eqn:E; [|reflexivity].
        apply existsb_exists in E. destruct E as [x [Hx Ex]].
        apply Nat.eqb_eq in Ex. subst x. contradiction. }
      rewrite E. reflexivity.
    + cbn [orb]. reflexivity.
Qed.

(** [load_tasks]: the ids of the map are the ids of the dictionaries; the
    task of an id is built from a dictionary with that id, and its parent
    is kept when it is in the map. *)
Lemma load_tasks_get (P : TaskData -> Prop) (data : list TaskData) :
  Forall P data ->
  (forall k, dict_mem (tasks (load_tasks data)) k = true <->
             exists d, In d data /\ d_id d = Some k) /\
  (forall k, dict_mem (tasks (load_tasks data)) k = true ->
     exists d t0 t',
       P d /\ d_id d = Some k /\ task_of_data d k = Ok t0 /\
       get_task (load_tasks data) k = Some t' /\ core t' = core t0 /\
       parent_id t' = resolve (tasks (load_tasks data)) (parent_id t0)).
Proof.
  intros HP.
  destruct (@build_temp_tasks_spec P data [] [] HP) as [Hinj [Hcont Hmem]].
  { intros k l H. discriminate. }
  { intros k1 k2 l H. discriminate. }
  { intros k l H. discriminate. }
  pose proof (@build_temp_tasks_keys data [] [] (NoDup_nil _)) as Hnd.
  unfold load_tasks.
  destruct (build_temp_tasks [] [] data) as [h temp] eqn:E.
  cbn [fst snd tasks objects] in *. split.
  - intros k. rewrite Hmem. split.
    + intros [H|H]; [discriminate|exact H].
    + intros H. right. exact H.
  - intros k Hk. unfold dict_mem in Hk.
    destruct (dict_get temp k) as [l|] eqn:El; [|discriminate].
    destruct (Hcont k l El) as [d [t0 [H1 [H2 [H3 H4]]]]].
    destruct (@link_fold_get temp (dict_values temp) h l t0
                (@dict_values_NoDup temp Hnd Hinj) H4) as [t' [G [C Pp]]].
    exists d, t0, t'. repeat split; try assumption.
    + unfold get_task. cbn [tasks objects]. rewrite El. exact G.
    + rewrite Pp.
      assert (Ex : existsb (Nat.eqb l) (dict_values temp) = true).
      { apply existsb_exists. exists l. split; [|apply Nat.eqb_refl].
        apply in_map_iff. exists (k, l). split; [reflexivity|].
        apply dict_get_In. exact El. }
      rewrite Ex. reflexivity.
Qed.

(** ** Save, then load *)

Lemma Forall2_In_l {A B : Type} (R : A -> B -> Prop) (xs : list A)
    (ys : list B) (x : A) :
  Forall2 R xs ys -> In x xs -> exists y, In y ys /\ R x y.
Proof.
  induction 1 as [|a b xs ys Hab _ IH]; intros Hin; [contradiction|].
  destruct Hin as [<-|Hin].
  - exists b. split; [left; reflexivity|exact Hab].
  - destruct (IH Hin) as [y [Hy Hr]]. exists y. split; [right|]; assumption.
Qed.

Lemma Forall2_In_r {A B : Type} (R : A -> B -> Prop) (xs : list A)
    (ys : list B) (y : B) :
  Forall2 R xs ys -> In y ys -> exists x, In x xs /\ R x y.
Proof.
  induction 1 as [|a b xs ys Hab _ IH]; intros Hin; [contradiction|].
  destruct Hin as [<-|Hin].
  - exists a. split; [left; reflexivity|exact Hab].
  - destruct (IH Hin) as [x [Hx Hr]]. exists x. split; [right|]; assumption.
Qed.

Lemma written_closed (h : heap) (ts : list Task) :
  (forall t c, In t ts -> In c (deref h (children t)) -> In c ts) ->
  forall (depth : nat) (r : Task) (n : nat) (u : Task) (lvl : nat),
    In r ts -> In (u, lvl) (written depth h r n) ->
    In u ts /\ (n <= lvl)%nat.
Proof.
  intros Hcl. induction depth as [|depth IH]; intros r n u lvl Hr Hu;
    cbn [written] in Hu; [contradiction|].
  destruct Hu as [E|Hu].
  - injection E as <- <-. split; [exact Hr|apply Nat.le_refl].
  - apply in_flat_map in Hu. destruct Hu as [c [Hc Hu]].
    apply (proj1 (sorted_by_created_In _ _)) in Hc.
    apply IH in Hu; [|apply (Hcl r c Hr Hc)].
    destruct Hu as [Hu Hle]. split; [exact Hu|lia].
Qed.

Lemma dict_set_keys_In (d : directory) (k : str) (v : FileContent)
    (name : str) :
  In name (dict_keys (dict_set d k v)) -> In name (dict_keys d) \/ name = k.
Proof.
  rewrite dict_keys_set. destruct (dict_mem d k); [tauto|].
  intros H. apply in_app_or in H. destruct H as [H|[H|[]]]; [tauto|].
  right. symmetry. exact H.
Qed.

(** A save adds to the directory the files that the names of the groups
    open, nothing else. *)
Lemma save_files_keys (env : surroundings) (depth : nat) (h : heap)
    (groups : list (option str * list Task)) :
  forall (dir dir' : directory) (e : option exn),
    save_files env depth h dir groups = (dir', e) ->
    (NoDup (dict_keys dir) -> NoDup (dict_keys dir')) /\
    forall name, In name (dict_keys dir') ->
                 In name (dict_keys dir) \/
                 exists g, In (Some g) (map fst groups) /\
                           open_target env g = InDirectory name.
Proof.
  induction groups as [|[[f|] fts] groups IH]; intros dir dir' e H.
  - cbn [save_files] in H. injection H as <- _. split; [tauto|].
    intros name Hn. left. exact Hn.
  - rewrite save_files_step in H.
    assert (Hrest : forall d,
               save_files env depth h d groups = (dir', e) ->
               (NoDup (dict_keys d) -> NoDup (dict_keys dir')) /\
               forall name, In name (dict_keys dir') ->
                 In name (dict_keys d) \/
                 exists g, In (Some g) (map fst ((Some f, fts) :: groups)) /\
                           open_target env g = InDirectory name).
    { intros d Hd. apply IH in Hd. destruct Hd as [Hnd Hin].
      split; [exact Hnd|]. intros name Hn. apply Hin in Hn.
      destruct Hn as [Hn|(g & Hg & Eg)]; [left; exact Hn|].
      right. exists g. split; [right; exact Hg|exact Eg]. }
    destruct (open_target env f) as [name0| |e0] eqn:Eo.
    + assert (Hset : forall v name,
                 In name (dict_keys (dict_set dir name0 v)) ->
                 In name (dict_keys dir) \/
                 exists g, In (Some g) (map fst ((Some f, fts) :: groups)) /\
                           open_target env g = InDirectory name).
      { intros v name Hn. apply dict_set_keys_In in Hn.
        destruct Hn as [Hn| ->]; [left; exact Hn|].
        right. exists f. split; [left; reflexivity|exact Eo]. }
      destruct (write_tasks depth h (title_line f) (sorted_by_created fts))
        as [out [e'|]].
      * injection H as <- _. split; [apply dict_set_NoDup|]. apply Hset.
      * apply Hrest in H. destruct H as [Hnd Hin]. split.
        -- intros Hd. apply Hnd. apply dict_set_NoDup. exact Hd.
        -- intros name Hn. apply Hin in Hn. destruct Hn as [Hn|Hn];
             [apply (Hset _ _ Hn)|right; exact Hn].
    + destruct (write_tasks depth h (title_line f) (sorted_by_created fts))
        as [out [e'|]].
      * injection H as <- _. split; [tauto|]. intros name Hn. left. exact Hn.
      * apply (Hrest _ H).
    + injection H as <- _. split; [tauto|]. intros name Hn. left. exact Hn.
  - cbn [save_files] in H. injection H as <- _. split; [tauto|].
    intros name Hn. left. exact Hn.
Qed.

Lemma file_ok_parts (f : str) :
  file_ok (Some f) = true ->
  endswith ".org" f = true /\ no_break f = true /\ plain_name f = true.
Proof.
  unfold file_ok. intros H. apply andb_prop in H. destruct H as [H H3].
  apply andb_prop in H. tauto.
Qed.

(** The file names of tasks the format can carry open the files of those
    names in the directory. *)
Lemma groups_open_by_name (env : surroundings) (todo_keys : list str)
    (ts : list Task) :
  (forall t, In t ts -> task_ok todo_keys t = true) ->
  forall g name, In (Some g) (map fst (tasks_by_file ts)) ->
                 open_target env g = InDirectory name -> name = g.
Proof.
  intros Hok g name Hg Eo. apply tasks_by_file_key in Hg.
  destruct Hg as (t & Ht & Hf).
  pose proof (task_ok_file _ _ (Hok t Ht)) as Hfo. rewrite Hf in Hfo.
  apply file_ok_parts in Hfo. destruct Hfo as (_ & _ & Hp).
  rewrite (open_target_plain env _ Hp) in Eo. congruence.
Qed.

Lemma task_values_inv (tm : TaskManager) (t : Task) :
  In t (task_values tm) ->
  exists k l, In (k, l) (tasks tm) /\ heap_get (objects tm) l = Some t.
Proof.
  unfold task_values. intros H. apply in_flat_map in H.
  destruct H as [l [Hl Ht]]. apply in_map_iff in Hl.
  destruct Hl as [[k l'] [E Hin]]. cbn [snd] in E. subst l'.
  exists k, l. split; [exact Hin|].
  destruct (heap_get (objects tm) l) as [u|]; [|contradiction].
  destruct Ht as [->|[]]. reflexivity.
Qed.

Lemma get_task_values (tm : TaskManager) (k : str) (t : Task) :
  coherent tm -> get_task tm k = Some t ->
  In t (task_values tm) /\ id t = k.
Proof.
  intros [_ Hco] H. unfold get_task in H.
  destruct (dict_get (tasks tm) k) as [l|] eqn:El; [|discriminate].
  split.
  - unfold task_values. apply in_flat_map. exists l. split.
    + apply in_map_iff. exists (k, l). split; [reflexivity|].
      apply dict_get_In. exact El.
    + rewrite H. left. reflexivity.
  - destruct (Hco k l El) as [u [Hu Eu]]. congruence.
Qed.

Lemma task_values_get (tm : TaskManager) (t : Task) :
  coherent tm -> In t (task_values tm) -> get_task tm (id t) = Some t.
Proof.
  intros [Hnd Hco] H. apply task_values_inv in H.
  destruct H as [k [l [Hin Hget]]].
  pose proof (dict_get_NoDup_In _ _ _ Hnd Hin) as El.
  destruct (Hco k l El) as [u [Hu Eu]].
  assert (u = t) by congruence. subst u. subst k.
  unfold get_task. rewrite El. exact Hget.
Qed.





(** The tags of a task can grow: the last record of a child that was
    created before its parent is the one beneath the heading of the parent,
    and the node read from it has the tags of that heading too. *)
Lemma child_takes_tags_of_parent :
  match new_TaskManager default_todo_keys clock
          (fst (save_tasks closed_surroundings 100 elder_child_manager [])) with
  | Ok tm' =>
      option_map tags (get_task tm' "c1")
      = Some [lit "home"; lit "travel"]
  | Raise _ => False
  end.
Proof. vm_compute. reflexivity. Qed.

(** Outside the conditions of C1.  A status that is no TODO keyword of the
    loader is read as the start of the title. *)
Lemma waiting_status_joins_the_title :
  let tm := mkTaskManager
              [mkTask "Call" "t1" "" None WAITING NONE None None 30 true
                      [] [] None (mkdatetime 2024 1 1 8 0 0 0)
                      (Some (lit "a.org"))]
              [(lit "t1", 0%nat)] in
  match new_TaskManager default_todo_keys clock
          (fst (save_tasks closed_surroundings 100 tm [])) with
  | Ok tm' =>
      option_map title (get_task tm' "t1") = Some (lit "WAITING Call")
  | Raise _ => False
  end.
Proof. vm_compute. reflexivity. Qed.

(** The year of a due date before the year 1000 is written with fewer than
    four digits, and the stamp is not read back. *)
Lemma early_due_date_is_not_kept :
  let due := mkdatetime 999 3 5 9 30 0 0 in
  let tm := mkTaskManager
              [mkTask "Call" "t1" "" None TODO NONE (Some due) None 30 true
                      [] [] None (mkdatetime 2024 1 1 8 0 0 0)
                      (Some (lit "a.org"))]
              [(lit "t1", 0%nat)] in
  strftime_org due = lit "999-03-05 Tue 09:30" /\
  match new_TaskManager default_todo_keys clock
          (fst (save_tasks closed_surroundings 100 tm [])) with
  | Ok tm' => option_map due_date (get_task tm' "t1") = Some None
  | Raise _ => False
  end.
Proof. vm_compute. split; reflexivity. Qed.

(** A file name that is a path out of the directory writes no file of the
    directory, and the task is not there after a load. *)
Lemma path_name_leaves_the_directory :
  let env := fun name => if str_eqb name "/tmp/x.org" then Elsewhere
                         else OpenRaises OSError in
  let tm := mkTaskManager
              [mkTask "Call" "t1" "" None TODO NONE None None 30 true
                      [] [] None (mkdatetime 2024 1 1 8 0 0 0)
                      (Some (lit "/tmp/x.org"))]
              [(lit "t1", 0%nat)] in
  save_tasks env 100 tm [] = ([], None) /\
  match new_TaskManager default_todo_keys clock
          (fst (save_tasks env 100 tm [])) with
  | Ok tm' => get_task tm' "t1" = None
  | Raise _ => False
  end.
Proof. vm_compute. split; reflexivity. Qed.

(** ** Sorting *)

Lemma insert_sorted_perm {A : Type} (lt : A -> A -> bool) (x : A)
    (l : list A) :
  Permutation (insert_sorted lt x l) (x :: l).
Proof.
  induction l as [|y l IH]; cbn [insert_sorted]; [apply Permutation_refl|].
  destruct (lt y x); [|apply Permutation_refl].
  apply (perm_trans (l' := y :: x :: l)); [|apply perm_swap].
  apply perm_skip. exact IH.
Qed.

Lemma sorted_with_perm {A : Type} (lt : A -> A -> bool) (l : list A) :
  Permutation (sorted_with lt l) l.
Proof.
  induction l as [|x l IH]; [apply perm_nil|].
  unfold sorted_with in *. cbn [fold_right].
  apply (perm_trans (insert_sorted_perm lt x _)).
  apply perm_skip. exact IH.
Qed.

Lemma sorted_with_In {A : Type} (lt : A -> A -> bool) (l : list A) (x : A) :
  In x (sorted_with lt l) <-> In x l.
Proof.
  split; apply Permutation_in;
    [|apply Permutation_sym]; apply sorted_with_perm.
Qed.

Section Order.
Variable A : Type.
Variable lt : A -> A -> bool.
Hypothesis lt_asym : forall a b, lt a b = true -> lt b a = false.
Hypothesis le_trans :
  forall a b c, lt b a = false -> lt c b = false -> lt c a = false.

Lemma insert_sorted_sorted (x : A) (l : list A) :
  StronglySorted (fun a b => lt b a = false) l ->
  StronglySorted (fun a b => lt b a = false) (insert_sorted lt x l).
Proof.
  induction 1 as [|y l Hl IH Hy]; cbn [insert_sorted].
  - constructor; constructor.
  - destruct (lt y x) eqn:E.
    + constructor; [exact IH|].
      apply Forall_forall. intros z Hz.
      apply (Permutation_in _ (insert_sorted_perm lt x l)) in Hz.
      destruct Hz as [<-|Hz]; [apply lt_asym; exact E|].
      rewrite Forall_forall in Hy. apply Hy. exact Hz.
    + constructor; [constructor; assumption|].
      constructor; [exact E|].
      apply Forall_forall. intros z Hz. rewrite Forall_forall in Hy.
      apply (le_trans E (Hy z Hz)).
Qed.

Lemma sorted_with_sorted (l : list A) :
  StronglySorted (fun a b => lt b a = false) (sorted_with lt l).
Proof.
  induction l as [|x l IH]; [constructor|].
  apply insert_sorted_sorted. exact IH.
Qed.

End Order.

(** The order of two moments, field by field. *)
Lemma lex_Lt (c r : comparison) :
  lex c r = Lt <-> c = Lt \/ (c = Eq /\ r = Lt).
Proof. destruct c; simpl; intuition congruence. Qed.

Lemma dt_lt_fields (a b : datetime) :
  dt_lt a b = true <->
  year a < year b \/ (year a = year b /\
  (month a < month b \/ (month a = month b /\
  (day a < day b \/ (day a = day b /\
  (hour a < hour b \/ (hour a = hour b /\
  (minute a < minute b \/ (minute a = minute b /\
  (second a < second b \/ (second a = second b /\
   microsecond a < microsecond b))))))))))).
Proof.
  unfold dt_lt.
  assert (H : forall c, match c with Lt => true | _ => false end = true
                        <-> c = Lt)
    by (intros c; destruct c; intuition congruence).
  rewrite H. unfold dt_compare.
  rewrite !lex_Lt, !Z.compare_lt_iff, !Z.compare_eq_iff. reflexivity.
Qed.

Lemma dt_lt_asym (a b : datetime) : dt_lt a b = true -> dt_lt b a = false.
Proof.
  intros H. destruct (dt_lt b a) eqn:E; [|reflexivity].
  apply dt_lt_fields in H, E. lia.
Qed.

Lemma dt_le_trans (a b c : datetime) :
  dt_lt b a = false -> dt_lt c b = false -> dt_lt c a = false.
Proof.
  intros H1 H2. destruct (dt_lt c a) eqn:E; [|reflexivity].
  apply dt_lt_fields in E.
  assert (N1 : ~ dt_lt b a = true) by congruence.
  assert (N2 : ~ dt_lt c b = true) by congruence.
  rewrite dt_lt_fields in N1, N2. lia.
Qed.

Lemma dt_lt_le (a b : datetime) : dt_lt a b = false <-> dt_le b a = true.
Proof.
  unfold dt_lt, dt_le.
  assert (Hsym : dt_compare b a = CompOpp (dt_compare a b)).
  { unfold dt_compare.
    rewrite (Z.compare_antisym (year a)), (Z.compare_antisym (month a)),
      (Z.compare_antisym (day a)), (Z.compare_antisym (hour a)),
      (Z.compare_antisym (minute a)), (Z.compare_antisym (second a)),
      (Z.compare_antisym (microsecond a)).
    destruct (year a ?= year b), (month a ?= month b), (day a ?= day b),
      (hour a ?= hour b), (minute a ?= minute b), (second a ?= second b),
      (microsecond a ?= microsecond b); reflexivity. }
  rewrite Hsym. destruct (dt_compare a b); simpl; intuition congruence.
Qed.

(** ** Sorted views of the map *)

Ltac eval_keys :=
  repeat match goal with
         | |- context [str_eqb (lit ?x) (lit ?y)] =>
             let v := eval vm_compute in (str_eqb (lit x) (lit y)) in
             change (str_eqb (lit x) (lit y)) with v
         | |- context [str_ltb (lit ?x) (lit ?y)] =>
             let v := eval vm_compute in (str_ltb (lit x) (lit y)) in
             change (str_ltb (lit x) (lit y)) with v
         end.

Lemma tree_key_lt_asym (a b : Task) :
  tree_key_lt a b = true -> tree_key_lt b a = false.
Proof.
  unfold tree_key_lt.
  destruct (priority a), (priority b); unfold Priority_value; eval_keys;
    cbv iota; try discriminate; try reflexivity; apply dt_lt_asym.
Qed.

Lemma tree_key_le_trans (a b c : Task) :
  tree_key_lt b a = false -> tree_key_lt c b = false ->
  tree_key_lt c a = false.
Proof.
  unfold tree_key_lt.
  destruct (priority a), (priority b), (priority c);
    unfold Priority_value; eval_keys; cbv iota;
    try discriminate; try reflexivity; apply dt_le_trans.
Qed.

Lemma tree_key_le (a b : Task) :
  tree_key_lt b a = false ->
  str_ltb (Priority_value (priority b)) (Priority_value (priority a))
  = false /\
  (priority a = priority b ->
   dt_le (created_at a) (created_at b) = true).
Proof.
  unfold tree_key_lt.
  destruct (priority a), (priority b); unfold Priority_value; eval_keys;
    cbv iota; intros H; split; try reflexivity; try discriminate;
    intros _; apply dt_lt_le; exact H.
Qed.

(** X1: [get_task_tree] gives the tasks of the map that have no parent id, each
    as often as the map holds it, by priority letter and, within a
    priority, by creation time. *)
Theorem get_task_tree_roots_in_order (tm : TaskManager) :
  Permutation (get_task_tree tm)
    (filter (fun t => negb (truthy (parent_id t))) (task_values tm)) /\
  StronglySorted
    (fun a b =>
       str_ltb (Priority_value (priority b)) (Priority_value (priority a))
       = false /\
       (priority a = priority b ->
        dt_le (created_at a) (created_at b) = true))
    (get_task_tree tm).
Proof.
  split; [apply sorted_with_perm|].
  unfold get_task_tree.
  pose proof (@sorted_with_sorted _ tree_key_lt tree_key_lt_asym
                tree_key_le_trans
                (filter (fun t => negb (truthy (parent_id t)))
                        (task_values tm))) as H.
  induction H as [|x l Hl IH Hx]; constructor; [exact IH|].
  apply (Forall_impl _ (fun b H => tree_key_le x b H) Hx).
Qed.

(** X2: [get_all_tasks_flat] gives the tasks of the map that have a due date,
    each as often as the map holds it, by due date. *)
Theorem get_all_tasks_flat_by_due_date (tm : TaskManager) :
  Permutation (get_all_tasks_flat tm)
    (filter (fun t => match due_date t with
                      | Some _ => true
                      | None => false
                      end) (task_values tm)) /\
  StronglySorted
    (fun a b => exists x y, due_date a = Some x /\ due_date b = Some y /\
                            dt_le x y = true)
    (get_all_tasks_flat tm).
Proof.
  split; [apply sorted_with_perm|].
  unfold get_all_tasks_flat.
  set (has_due := fun t : Task => match due_date t with
                                  | Some _ => true
                                  | None => false
                                  end).
  set (lt := fun a b : Task => dt_lt (due_key a) (due_key b)).
  assert (Hin : forall t, In t (sorted_with lt (filter has_due (task_values tm)))
                          -> exists x, due_date t = Some x).
  { intros t Ht. apply sorted_with_In in Ht. apply filter_In in Ht.
    destruct Ht as [_ Ht]. unfold has_due in Ht.
    destruct (due_date t) as [x|]; [exists x; reflexivity|discriminate]. }
  assert (H : StronglySorted (fun a b => lt b a = false)
                (sorted_with lt (filter has_due (task_values tm)))).
  { apply sorted_with_sorted.
    - intros a b. apply dt_lt_asym.
    - intros a b c. apply dt_le_trans. }
  induction H as [|t l Hl IH Ht]; constructor.
  - apply IH. intros u Hu. apply Hin. right. exact Hu.
  - apply Forall_forall. intros u Hu. rewrite Forall_forall in Ht.
    destruct (Hin t (or_introl eq_refl)) as [x Ex].
    destruct (Hin u (or_intror Hu)) as [y Ey].
    exists x, y. repeat split; try assumption.
    specialize (Ht u Hu). unfold lt, due_key in Ht. rewrite Ex, Ey in Ht.
    apply dt_lt_le. exact Ht.
Qed.

(** ** The scheduler in general *)

Lemma dt_le_refl (a : datetime) : dt_le a a = true.
Proof. apply dt_lt_le. destruct (dt_lt a a) eqn:E; [|reflexivity].
  apply dt_lt_fields in E. lia. Qed.

(** What the generated reminders are: the identity starts with the id of
    the task and an underscore, and an OVERDUE reminder is only generated
    after the due time. *)
Lemma generated_shape (task : Task) (now : datetime)
    (rems : list ReminderConfig) (r : ReminderConfig) :
  _generate_reminders_for_task task now = Ok rems -> In r rems ->
  enabled r = true /\ sent r = false /\
  (exists rest, task_id r = id task ++ "_"%char :: rest) /\
  exists due, due_date task = Some due /\
              (reminder_type r = OVERDUE -> dt_lt due now = true) /\
              (reminder_type r = DUE_DATE ->
               trigger_time r = due /\
               task_id r = f[f[id task; "_"; isoformat due]; "_due"]).
Proof.
  unfold _generate_reminders_for_task.
  destruct (due_date task) as [due|]; [|intros [= <-] []].
  change (new_timedelta 0 0 30) with (Ok 1800000000%Z : result timedelta).
  cbn [bind]. destruct (dt_sub due 1800000000) as [before|]; [|discriminate].
  cbn [bind]. destruct (dt_add due 1800000000) as [over|]; [|discriminate].
  cbn [bind]. intros [= <-] Hin.
  assert (Hid : forall (a x y : str) (c : ascii),
               exists rest, (a ++ c :: x) ++ y = a ++ c :: rest).
  { intros a x y c. exists (x ++ y). rewrite <- app_assoc. reflexivity. }
  destruct (dt_le now due) eqn:E1, (dt_le now before) eqn:E2,
    (dt_lt due now && dt_le now over) eqn:E3; cbn [app In] in Hin;
    try (apply andb_prop in E3; destruct E3 as [E3 _]);
    repeat (destruct Hin as [<-|Hin]; [|]); try contradiction;
    cbn [enabled sent task_id reminder_type trigger_time];
    (split; [reflexivity|]; split; [reflexivity|]; split; [apply Hid|];
     exists due; split; [reflexivity|]; split;
     [intros; try discriminate; assumption
     |intros; try discriminate; split; reflexivity]).
Qed.

Lemma hd_split_on_app (sep : ascii) (a b : str) :
  hd [] (split_on sep (a ++ sep :: b)) = hd [] (split_on sep a).
Proof.
  induction a as [|c a IH]; cbn [app split_on].
  - rewrite Ascii.eqb_refl. reflexivity.
  - destruct (Ascii.eqb c sep); [reflexivity|].
    destruct (split_on sep (a ++ sep :: b)) as [|w ws] eqn:E1;
      [exfalso; apply (split_on_not_nil _ _ E1)|].
    destruct (split_on sep a) as [|w' ws'] eqn:E2;
      [exfalso; apply (split_on_not_nil _ _ E2)|].
    cbn [hd] in *. rewrite IH. reflexivity.
Qed.

Lemma send_due_fold (tm : TaskManager) (now : datetime)
    (rs : ReminderSystem) (rems : list ReminderConfig) :
  send_due tm now rs rems = fold_left (send_step tm now) rems rs.
Proof. reflexivity. Qed.

(** What one step can add: the reminder itself, when its trigger time is
    reached, it was not sent, and the task is found under the start of the
    identity. *)
Lemma send_step_cases (tm : TaskManager) (now : datetime)
    (rs : ReminderSystem) (r : ReminderConfig) :
  send_step tm now rs r = rs \/
  (dt_ge now (trigger_time r) = true /\ in_sent rs (task_id r) = false /\
   get_task tm (hd [] (split_on "_" (task_id r))) <> None /\
   sent_reminders (send_step tm now rs r) = task_id r :: sent_reminders rs /\
   exists n, delivered (send_step tm now rs r) = delivered rs ++ [n] /\
             n_reminder n = r).
Proof.
  unfold send_step.
  destruct (enabled r && negb (sent r) && dt_ge now (trigger_time r) &&
            negb (in_sent rs (task_id r))) eqn:G; [|left; reflexivity].
  apply andb_prop in G. destruct G as [G G4].
  apply andb_prop in G. destruct G as [_ G3].
  apply negb_true_iff in G4. unfold _send_reminder.
  destruct (get_task tm (hd [] (split_on "_" (task_id r)))) as [task|];
    [|left; reflexivity].
  right. split; [exact G3|]. split; [exact G4|].
  split; [discriminate|]. split; [reflexivity|].
  eexists. split; reflexivity.
Qed.

Lemma in_sent_In (rs : ReminderSystem) (x : str) :
  in_sent rs x = true <-> In x (sent_reminders rs).
Proof.
  unfold in_sent. rewrite existsb_exists. split.
  - intros [y [Hy E]]. apply str_eqb_eq in E. subst. exact Hy.
  - intros H. exists x. split; [exact H|apply str_eqb_refl].
Qed.

Lemma send_step_delivered (tm : TaskManager) (now : datetime)
    (rs : ReminderSystem) (r : ReminderConfig) (n : Notification) :
  In n (delivered (send_step tm now rs r)) ->
  In n (delivered rs) \/
  (n_reminder n = r /\ dt_ge now (trigger_time r) = true).
Proof.
  destruct (send_step_cases tm now rs r)
    as [->|(G & _ & _ & _ & n0 & -> & E)]; [tauto|].
  intros H. apply in_app_or in H. destruct H as [H|[<-|[]]]; [tauto|].
  right. split; assumption.
Qed.

Lemma send_step_sent (tm : TaskManager) (now : datetime)
    (rs : ReminderSystem) (r : ReminderConfig) (x : str) :
  In x (sent_reminders rs) -> In x (sent_reminders (send_step tm now rs r)).
Proof.
  destruct (send_step_cases tm now rs r)
    as [->|(_ & _ & _ & -> & _)]; [tauto|].
  intros H. right. exact H.
Qed.

Lemma send_step_ledger (tm : TaskManager) (now : datetime)
    (rs : ReminderSystem) (r : ReminderConfig) :
  ledger_ok rs -> ledger_ok (send_step tm now rs r).
Proof.
  intros [Hnd Hin].
  destruct (send_step_cases tm now rs r)
    as [->|(_ & G & _ & Es & n0 & Ed & En)]; [split; assumption|].
  unfold ledger_ok, delivered_ids. rewrite Ed, Es, map_app.
  cbn [map]. rewrite En.
  assert (Hnew : ~ In (task_id r) (delivered_ids rs)).
  { intros H. apply Hin in H. apply in_sent_In in H. congruence. }
  split.
  - apply NoDup_app; [exact Hnd|repeat constructor; intros []|].
    intros x Hx [<-|[]]. apply Hnew. exact Hx.
  - intros x Hx. apply in_app_or in Hx.
    destruct Hx as [Hx|[<-|[]]]; [right; apply Hin; exact Hx|].
    left. reflexivity.
Qed.

Lemma send_due_delivered (tm : TaskManager) (now : datetime)
    (rems : list ReminderConfig) :
  forall (rs : ReminderSystem) (n : Notification),
    In n (delivered (send_due tm now rs rems)) ->
    In n (delivered rs) \/
    (In (n_reminder n) rems /\
     dt_ge now (trigger_time (n_reminder n)) = true).
Proof.
  induction rems as [|r rems IH]; intros rs n H; [left; exact H|].
  rewrite send_due_fold in H. cbn [fold_left] in H.
  rewrite <- send_due_fold in H. apply IH in H.
  destruct H as [H|[H G]]; [|right; split; [right|]; assumption].
  apply send_step_delivered in H. destruct H as [H|[E G]]; [tauto|].
  right. rewrite E. split; [left; reflexivity|exact G].
Qed.

Lemma send_due_sent (tm : TaskManager) (now : datetime)
    (rems : list ReminderConfig) :
  forall (rs : ReminderSystem) (x : str),
    In x (sent_reminders rs) ->
    In x (sent_reminders (send_due tm now rs rems)).
Proof.
  induction rems as [|r rems IH]; intros rs x H; [exact H|].
  rewrite send_due_fold. cbn [fold_left]. rewrite <- send_due_fold.
  apply IH. apply send_step_sent. exact H.
Qed.

Lemma send_due_ledger (tm : TaskManager) (now : datetime)
    (rems : list ReminderConfig) :
  forall rs : ReminderSystem,
    ledger_ok rs -> ledger_ok (send_due tm now rs rems).
Proof.
  induction rems as [|r rems IH]; intros rs H; [exact H|].
  rewrite send_due_fold. cbn [fold_left]. rewrite <- send_due_fold.
  apply IH. apply send_step_ledger. exact H.
Qed.

(** One tick, task by task. *)
Lemma check_tasks_keeps (tm : TaskManager) (now : datetime)
    (ts : list Task) :
  forall (rs rs' : ReminderSystem) (e : option exn),
    check_tasks tm now rs ts = (rs', e) ->
    (forall n, In n (delivered rs') ->
               In n (delivered rs) \/ trigger_time (n_reminder n) = now) /\
    (forall x, In x (sent_reminders rs) -> In x (sent_reminders rs')) /\
    (ledger_ok rs -> ledger_ok rs').
Proof.
  induction ts as [|task ts IH]; intros rs rs' e H; cbn [check_tasks] in H.
  - injection H as <- _. tauto.
  - destruct (due_date task) as [due|] eqn:Ed; [|apply (IH _ _ _ H)].
    destruct (str_eqb (Status_value (status task)) "DONE");
      [apply (IH _ _ _ H)|].
    destruct (_generate_reminders_for_task task now) as [rems|e'] eqn:Eg.
    + destruct (IH _ _ _ H) as [I1 [I2 I3]]. split; [|split].
      * intros n Hn. destruct (I1 n Hn) as [Hd|Hd]; [|right; exact Hd].
        apply send_due_delivered in Hd. destruct Hd as [Hd|[Hr G]]; [tauto|].
        right. symmetry. apply dt_le_ge_eq; [|exact G].
        apply (@generated_trigger_not_past task now rems (n_reminder n) Eg Hr).
      * intros x Hx. apply I2. apply send_due_sent. exact Hx.
      * intros Hl. apply I3. apply send_due_ledger. exact Hl.
    + injection H as <- _. tauto.
Qed.

Lemma tick_delivers_at_trigger_time (tm : TaskManager) (now : datetime)
    (rs : ReminderSystem) (n : Notification) :
  In n (delivered (fst (_check_all_reminders tm now rs))) ->
  In n (delivered rs) \/ trigger_time (n_reminder n) = now.
Proof.
  unfold _check_all_reminders.
  destruct (check_tasks tm now rs (task_values tm)) as [rs' e] eqn:E.
  apply (@check_tasks_keeps tm now (task_values tm) rs rs' e E).
Qed.

(** X3: whatever the ticks, a notification is only ever delivered by a
    tick whose clock reading equals its trigger time: a trigger time that
    falls between two ticks is passed over. *)
Theorem delivered_only_at_trigger_time (tm : TaskManager)
    (ticks : list datetime) (rs : ReminderSystem) (n : Notification) :
  In n (delivered (_reminder_loop tm ticks rs)) ->
  In n (delivered rs) \/ In (trigger_time (n_reminder n)) ticks.
Proof.
  revert rs. induction ticks as [|now ticks IH]; intros rs H; [left; exact H|].
  unfold _reminder_loop in *. cbn [fold_left] in H.
  destruct (IH _ H) as [H1|H1]; [|right; right; exact H1].
  destruct (tick_delivers_at_trigger_time tm now rs n H1) as [H2|H2];
    [left; exact H2|right; left; symmetry; exact H2].
Qed.

(** The four ticks of the scheduler scenario: the one notification comes
    from the tick at the due time. *)
Lemma delivered_only_at_trigger_time_witness :
  let rs := _reminder_loop (reminder_manager 30 true) four_ticks
                           new_ReminderSystem in
  exists n, delivered rs = [n] /\
            In (trigger_time (n_reminder n)) four_ticks.
Proof.
  intros rs. eexists. split; [vm_compute; reflexivity|].
  match goal with
  | |- In (trigger_time (n_reminder ?n)) _ =>
      destruct (@delivered_only_at_trigger_time (reminder_manager 30 true)
                  four_ticks new_ReminderSystem n) as [[]|H]; [|exact H]
  end.
  vm_compute. left. reflexivity.
Defined.

Lemma reminder_loop_ledger (tm : TaskManager) (ticks : list datetime) :
  forall rs : ReminderSystem,
    ledger_ok rs -> ledger_ok (_reminder_loop tm ticks rs).
Proof.
  induction ticks as [|now ticks IH]; intros rs H; [exact H|].
  unfold _reminder_loop in *. cbn [fold_left]. apply IH.
  unfold _check_all_reminders.
  destruct (check_tasks tm now rs (task_values tm)) as [rs' e] eqn:E.
  apply (@check_tasks_keeps tm now (task_values tm) rs rs' e E). exact H.
Qed.

(** X4: whatever the ticks, no reminder identity is delivered twice, and every
    identity delivered is in the sent set. *)
Theorem identity_delivered_at_most_once (tm : TaskManager)
    (ticks : list datetime) :
  ledger_ok (_reminder_loop tm ticks new_ReminderSystem).
Proof.
  apply reminder_loop_ledger. split; [constructor|intros x []].
Qed.

Lemma send_due_not_found (tm : TaskManager) (now : datetime)
    (rems : list ReminderConfig) :
  forall rs : ReminderSystem,
    (forall r, In r rems ->
               get_task tm (hd [] (split_on "_" (task_id r))) = None) ->
    send_due tm now rs rems = rs.
Proof.
  induction rems as [|r rems IH]; intros rs H; [reflexivity|].
  rewrite send_due_fold. cbn [fold_left]. rewrite <- send_due_fold.
  destruct (send_step_cases tm now rs r) as [->|(_ & _ & G & _)].
  - apply IH. intros r' Hr'. apply H. right. exact Hr'.
  - exfalso. apply G. apply H. left. reflexivity.
Qed.

(** X5: a reminder is looked up under the part of the task id before its first
    underscore: when the map has no task under that, none of the reminders
    of the task is delivered or recorded. *)
Theorem reminder_lookup_stops_at_underscore (tm : TaskManager)
    (now : datetime) (rs : ReminderSystem) (task : Task)
    (rems : list ReminderConfig) :
  get_task tm (hd [] (split_on "_" (id task))) = None ->
  _generate_reminders_for_task task now = Ok rems ->
  send_due tm now rs rems = rs.
Proof.
  intros Hnone Hgen. apply send_due_not_found. intros r Hr.
  destruct (@generated_shape task now rems r Hgen Hr)
    as (_ & _ & [rest ->] & _).
  rewrite hd_split_on_app. exact Hnone.
Qed.

Lemma reminder_lookup_stops_at_underscore_witness :
  exists rems,
    _generate_reminders_for_task underscore_task due_T = Ok rems /\
    length rems = 1%nat /\
    send_due underscore_manager due_T new_ReminderSystem rems
    = new_ReminderSystem.
Proof.
  destruct (_generate_reminders_for_task underscore_task due_T)
    as [rems|e] eqn:E; [|vm_compute in E; discriminate].
  exists rems. split; [reflexivity|]. split.
  - vm_compute in E. injection E as <-. reflexivity.
  - apply (@reminder_lookup_stops_at_underscore underscore_manager due_T
             new_ReminderSystem underscore_task rems);
      [reflexivity|exact E].
Defined.

(** An identity enters the sent set together with a delivery. *)
Lemma send_step_origin (tm : TaskManager) (now : datetime)
    (rs : ReminderSystem) (r : ReminderConfig) :
  (forall x, In x (delivered_ids rs) ->
             In x (delivered_ids (send_step tm now rs r))) /\
  (forall x, In x (sent_reminders (send_step tm now rs r)) ->
             In x (sent_reminders rs) \/
             In x (delivered_ids (send_step tm now rs r))).
Proof.
  destruct (send_step_cases tm now rs r)
    as [->|(_ & _ & _ & Es & n0 & Ed & En)]; [tauto|].
  unfold delivered_ids. rewrite Ed, Es, map_app. cbn [map]. rewrite En.
  split.
  - intros x Hx. apply in_or_app. left. exact Hx.
  - intros x [<-|Hx]; [|left; exact Hx].
    right. apply in_or_app. right. left. reflexivity.
Qed.

Lemma send_due_origin (tm : TaskManager) (now : datetime)
    (rems : list ReminderConfig) :
  forall rs : ReminderSystem,
    (forall x, In x (delivered_ids rs) ->
               In x (delivered_ids (send_due tm now rs rems))) /\
    (forall x, In x (sent_reminders (send_due tm now rs rems)) ->
               In x (sent_reminders rs) \/
               In x (delivered_ids (send_due tm now rs rems))).
Proof.
  induction rems as [|r rems IH]; intros rs; [tauto|].
  rewrite send_due_fold. cbn [fold_left]. rewrite <- send_due_fold.
  destruct (IH (send_step tm now rs r)) as [I1 I2].
  destruct (send_step_origin tm now rs r) as [S1 S2].
  split.
  - intros x Hx. apply I1. apply S1. exact Hx.
  - intros x Hx. destruct (I2 x Hx) as [H|H]; [|right; exact H].
    destruct (S2 x H) as [H'|H']; [left; exact H'|].
    right. apply I1. exact H'.
Qed.

Lemma check_tasks_origin (tm : TaskManager) (now : datetime)
    (ts : list Task) :
  forall (rs rs' : ReminderSystem) (e : option exn),
    check_tasks tm now rs ts = (rs', e) ->
    (forall x, In x (delivered_ids rs) -> In x (delivered_ids rs')) /\
    (forall x, In x (sent_reminders rs') ->
               In x (sent_reminders rs) \/ In x (delivered_ids rs')).
Proof.
  induction ts as [|task ts IH]; intros rs rs' e H; cbn [check_tasks] in H.
  - injection H as <- _. tauto.
  - destruct (due_date task) as [due|]; [|apply (IH _ _ _ H)].
    destruct (str_eqb (Status_value (status task)) "DONE");
      [apply (IH _ _ _ H)|].
    destruct (_generate_reminders_for_task task now) as [rems|e'].
    + destruct (IH _ _ _ H) as [I1 I2].
      destruct (send_due_origin tm now rems rs) as [S1 S2].
      split.
      * intros x Hx. apply I1. apply S1. exact Hx.
      * intros x Hx. destruct (I2 x Hx) as [Hs|Hs]; [|right; exact Hs].
        destruct (S2 x Hs) as [H'|H']; [left; exact H'|].
        right. apply I1. exact H'.
    + injection H as <- _. tauto.
Qed.

(** A reminder that is due, enabled, and whose task is found is recorded
    by the inner loop. *)
Lemma send_due_records (tm : TaskManager) (now : datetime)
    (rems : list ReminderConfig) (r : ReminderConfig) :
  forall rs : ReminderSystem,
    In r rems -> enabled r = true -> sent r = false ->
    dt_ge now (trigger_time r) = true ->
    get_task tm (hd [] (split_on "_" (task_id r))) <> None ->
    In (task_id r) (sent_reminders (send_due tm now rs rems)).
Proof.
  induction rems as [|r0 rems IH]; intros rs Hin He Hs Hg Hf;
    [contradiction|].
  rewrite send_due_fold. cbn [fold_left]. rewrite <- send_due_fold.
  destruct Hin as [->|Hin]; [|apply IH; assumption].
  apply send_due_sent. unfold send_step. rewrite He, Hs, Hg. cbn [negb andb].
  destruct (in_sent rs (task_id r)) eqn:Ei; cbn [negb].
  - apply in_sent_In. exact Ei.
  - unfold _send_reminder.
    destruct (get_task tm (hd [] (split_on "_" (task_id r))));
      [left; reflexivity|congruence].
Qed.

Lemma check_tasks_due_recorded (tm : TaskManager) (now : datetime)
    (ts : list Task) (task : Task) :
  forall rs rs' : ReminderSystem,
    check_tasks tm now rs ts = (rs', None) -> In task ts ->
    due_date task = Some now -> status task <> DONE ->
    get_task tm (hd [] (split_on "_" (id task))) <> None ->
    In f[f[id task; "_"; isoformat now]; "_due"] (sent_reminders rs').
Proof.
  intros rs rs' H Hin Hdue Hst Hf. revert rs H.
  induction ts as [|t ts IH]; intros rs H; [contradiction|].
  cbn [check_tasks] in H. destruct Hin as [->|Hin].
  - rewrite Hdue in H.
    assert (Es : str_eqb (Status_value (status task)) "DONE" = false)
      by (destruct (status task); [reflexivity|congruence|reflexivity]).
    rewrite Es in H.
    destruct (_generate_reminders_for_task task now) as [rems|e] eqn:Eg;
      [|discriminate].
    destruct (@check_tasks_keeps tm now ts _ _ _ H) as [_ [Hmono _]].
    apply Hmono.
    assert (Hr : exists r, In r rems /\ reminder_type r = DUE_DATE).
    { revert Eg. unfold _generate_reminders_for_task. rewrite Hdue.
      rewrite dt_le_refl.
      change (new_timedelta 0 0 30)
        with (Ok 1800000000%Z : result timedelta).
      cbn [bind].
      destruct (dt_sub now 1800000000) as [before|]; [|discriminate].
      cbn [bind].
      destruct (dt_add now 1800000000) as [over|]; [|discriminate].
      cbn [bind]. intros [= <-].
      destruct (dt_le now before), (dt_lt now now && dt_le now over);
        cbn [app]; eexists; (split; [left; reflexivity|reflexivity]). }
    destruct Hr as [r [Hr Hk]].
    destruct (@generated_shape task now rems r Eg Hr)
      as (He & Hs & [rest Hid] & due & Hd & _ & Hdd).
    destruct (Hdd Hk) as [Ht Hi]. rewrite Hdue in Hd. injection Hd as <-.
    rewrite <- Hi. apply send_due_records; try assumption.
    + rewrite Ht. unfold dt_ge. apply dt_le_refl.
    + rewrite Hid, hd_split_on_app. exact Hf.
  - destruct (due_date t) as [due|]; [|apply (IH Hin _ H)].
    destruct (str_eqb (Status_value (status t)) "DONE");
      [apply (IH Hin _ H)|].
    destruct (_generate_reminders_for_task t now) as [rems|e];
      [|discriminate].
    apply (IH Hin _ H).
Qed.

(** X6: a tick whose clock reading is exactly the due time of a task that is
    not DONE, and that ends without an exception, leaves the DUE_DATE
    identity of the task in the sent set: it was there before, or this tick
    delivered it.  The id of the task must have no underscore. *)
Theorem due_reminder_sent_at_due_time (tm : TaskManager) (now : datetime)
    (rs rs' : ReminderSystem) (task : Task) :
  coherent tm -> In task (task_values tm) ->
  sep_free "_" (id task) = true ->
  due_date task = Some now -> status task <> DONE ->
  _check_all_reminders tm now rs = (rs', None) ->
  In f[f[id task; "_"; isoformat now]; "_due"] (sent_reminders rs) \/
  In f[f[id task; "_"; isoformat now]; "_due"] (delivered_ids rs').
Proof.
  intros Hco Hin Hfree Hdue Hst H. unfold _check_all_reminders in H.
  destruct (@check_tasks_origin tm now (task_values tm) rs rs' None H)
    as [_ Horigin].
  apply Horigin.
  apply (@check_tasks_due_recorded tm now (task_values tm) task rs rs' H Hin
           Hdue Hst).
  rewrite (split_on_free _ _ Hfree). cbn [hd].
  rewrite (@task_values_get tm task Hco Hin). discriminate.
Qed.

Lemma due_reminder_sent_at_due_time_witness :
  let rs' := fst (_check_all_reminders (reminder_manager 30 true) due_T
                    new_ReminderSystem) in
  In f[f[lit "7f3a"; "_"; isoformat due_T]; "_due"] (delivered_ids rs').
Proof.
  intros rs'.
  destruct (@due_reminder_sent_at_due_time (reminder_manager 30 true) due_T
              new_ReminderSystem rs' (reminder_task 30 true))
    as [[]|H]; [| | | | | |exact H].
  - split; [repeat constructor; intros []|].
    intros k l Hk. unfold reminder_manager in Hk. cbn [tasks dict_get] in Hk.
    destruct (str_eqb k "7f3a") eqn:E; [|discriminate].
    apply str_eqb_eq in E. injection Hk as <-. subst k.
    eexists. split; reflexivity.
  - left. reflexivity.
  - reflexivity.
  - reflexivity.
  - discriminate.
  - vm_compute. reflexivity.
Defined.

(** ** Upcoming reminders *)

Lemma upcoming_of_window (now cutoff : datetime) (ts : list Task) :
  forall ups : list ReminderConfig,
    upcoming_of now cutoff ts = Ok ups ->
    forall r, In r ups ->
      reminder_type r <> OVERDUE /\
      dt_le now (trigger_time r) = true /\
      dt_le (trigger_time r) cutoff = true.
Proof.
  induction ts as [|task ts IH]; intros ups H r Hr; cbn [upcoming_of] in H.
  - injection H as <-. contradiction.
  - destruct (due_date task) as [due|] eqn:Ed; [|apply (IH _ H _ Hr)].
    destruct (dt_le now due && dt_le due cutoff &&
              negb (str_eqb (Status_value (status task)) "DONE")) eqn:G;
      [|apply (IH _ H _ Hr)].
    destruct (_generate_reminders_for_task task now) as [rems|e] eqn:Eg;
      [|discriminate].
    cbn [bind] in H.
    destruct (upcoming_of now cutoff ts) as [rest|e]; [|discriminate].
    cbn [bind] in H. injection H as <-.
    apply in_app_or in Hr. destruct Hr as [Hr|Hr]; [|apply (IH _ eq_refl _ Hr)].
    apply filter_In in Hr. destruct Hr as [Hr Hw].
    apply andb_prop in Hw. destruct Hw as [Hw1 Hw2].
    split; [|split; assumption].
    intros Hk.
    destruct (@generated_shape task now rems r Eg Hr)
      as (_ & _ & _ & due' & Hd & Hover & _).
    rewrite Ed in Hd. injection Hd as <-.
    apply andb_prop in G. destruct G as [G _].
    apply andb_prop in G. destruct G as [G _].
    apply dt_lt_le in G. rewrite (Hover Hk) in G. discriminate.
Qed.

(** X7: [get_upcoming_reminders] gives reminders whose trigger time lies
    between now and the cutoff, in the order of their trigger times, and
    never one of the OVERDUE kind: those are only generated once the due
    time is past, and a task whose due time is past is not looked at. *)
Theorem upcoming_reminders_in_window (tm : TaskManager) (now : datetime)
    (hours_ahead : Z) (rems : list ReminderConfig) :
  get_upcoming_reminders tm now hours_ahead = Ok rems ->
  exists delta cutoff,
    new_timedelta 0 hours_ahead 0 = Ok delta /\
    dt_add now delta = Ok cutoff /\
    (forall r, In r rems ->
       reminder_type r <> OVERDUE /\
       dt_le now (trigger_time r) = true /\
       dt_le (trigger_time r) cutoff = true) /\
    StronglySorted
      (fun a b => dt_le (trigger_time a) (trigger_time b) = true) rems.
Proof.
  unfold get_upcoming_reminders. intros H.
  destruct (new_timedelta 0 hours_ahead 0) as [delta|e] eqn:E1;
    [|discriminate].
  cbn [bind] in H.
  destruct (dt_add now delta) as [cutoff|e] eqn:E2; [|discriminate].
  cbn [bind] in H.
  destruct (upcoming_of now cutoff (task_values tm)) as [ups|e] eqn:Eu;
    [|discriminate].
  cbn [bind] in H. injection H as <-.
  exists delta, cutoff. split; [reflexivity|]. split; [exact E2|]. split.
  - intros r Hr. apply sorted_with_In in Hr.
    apply (@upcoming_of_window now cutoff (task_values tm) ups Eu r Hr).
  - set (lt := fun a b : ReminderConfig =>
                 dt_lt (trigger_time a) (trigger_time b)).
    assert (Hs : StronglySorted (fun a b => lt b a = false)
                   (sorted_with lt ups)).
    { apply sorted_with_sorted.
      - intros a b. apply dt_lt_asym.
      - intros a b c. apply dt_le_trans. }
    induction Hs as [|x l Hl IH Hx]; constructor; [exact IH|].
    apply (Forall_impl _ (fun b Hb => proj1 (dt_lt_le _ _) Hb) Hx).
Qed.

Lemma upcoming_reminders_in_window_witness :
  exists rems,
    get_upcoming_reminders (reminder_manager 30 true)
      (mkdatetime 2024 1 1 11 0 0 0) 24 = Ok rems /\
    map reminder_type rems = [BEFORE_DUE; DUE_DATE] /\
    forall r, In r rems -> reminder_type r <> OVERDUE.
Proof.
  destruct (get_upcoming_reminders (reminder_manager 30 true)
              (mkdatetime 2024 1 1 11 0 0 0) 24) as [rems|e] eqn:E;
    [|vm_compute in E; discriminate].
  exists rems. split; [reflexivity|]. split.
  - vm_compute in E. injection E as <-. reflexivity.
  - intros r Hr.
    destruct (@upcoming_reminders_in_window (reminder_manager 30 true)
                (mkdatetime 2024 1 1 11 0 0 0) 24 rems E)
      as (delta & cutoff & _ & _ & Hw & _).
    apply (Hw r Hr).
Defined.

(** ** Deleting a task *)

Section DictDel.
Variable V : Type.

Lemma dict_get_del_other (d : dict V) (k k' : str) :
  k <> k' -> dict_get (dict_del d k) k' = dict_get d k'.
Proof.
  intros Hne. induction d as [|[k0 v0] d IH]; [reflexivity|].
  cbn [dict_del]. destruct (str_eqb k k0) eqn:E.
  - apply str_eqb_eq in E. subst k0. cbn [dict_get].
    assert (E' : str_eqb k' k = false)
      by (apply str_eqb_neq; congruence).
    rewrite E'. reflexivity.
  - cbn [dict_get]. rewrite IH. reflexivity.
Qed.

Lemma dict_keys_del_incl (d : dict V) (k x : str) :
  In x (dict_keys (dict_del d k)) -> In x (dict_keys d).
Proof.
  induction d as [|[k0 v0] d IH]; [intros []|].
  cbn [dict_del]. destruct (str_eqb k k0).
  - intros H. right. exact H.
  - cbn [dict_keys map fst]. intros [H|H]; [left; exact H|].
    right. apply IH. exact H.
Qed.

Lemma dict_del_NoDup (d : dict V) (k : str) :
  NoDup (dict_keys d) -> NoDup (dict_keys (dict_del d k)).
Proof.
  induction d as [|[k0 v0] d IH]; intros H; [constructor|].
  cbn [dict_keys map fst] in H. inversion H as [|? ? Hnot Hd]; subst.
  cbn [dict_del]. destruct (str_eqb k k0); [exact Hd|].
  cbn [dict_keys map fst]. constructor; [|apply IH; exact Hd].
  intros Hin. apply Hnot. apply (@dict_keys_del_incl _ _ _ Hin).
Qed.

Lemma dict_get_None_keys (d : dict V) (k : str) :
  ~ In k (dict_keys d) -> dict_get d k = None.
Proof.
  intros H. destruct (dict_get d k) as [v|] eqn:E; [|reflexivity].
  exfalso. apply H. apply in_map_iff. exists (k, v).
  split; [reflexivity|apply dict_get_In; exact E].
Qed.

Lemma dict_get_del_same (d : dict V) (k : str) :
  NoDup (dict_keys d) -> dict_get (dict_del d k) k = None.
Proof.
  induction d as [|[k0 v0] d IH]; intros H; [reflexivity|].
  cbn [dict_keys map fst] in H. inversion H as [|? ? Hnot Hd]; subst.
  cbn [dict_del]. destruct (str_eqb k k0) eqn:E.
  - apply str_eqb_eq in E. subst k0. apply dict_get_None_keys. exact Hnot.
  - cbn [dict_get]. rewrite E. apply IH. exact Hd.
Qed.

Lemma dict_get_del_Some (d : dict V) (k k' : str) (v : V) :
  NoDup (dict_keys d) -> dict_get (dict_del d k) k' = Some v ->
  dict_get d k' = Some v.
Proof.
  intros Hnd H. destruct (str_eqb k k') eqn:E.
  - apply str_eqb_eq in E. subst k'. rewrite dict_get_del_same in H;
      [discriminate|exact Hnd].
  - apply str_eqb_neq in E. rewrite dict_get_del_other in H; assumption.
Qed.

End DictDel.

Lemma shrinks_refl (w : world) : shrinks w w.
Proof.
  split; [tauto|]. split; [tauto|].
  intros l t H. exists t. split; [exact H|]. split; [reflexivity|].
  apply incl_refl.
Qed.

Lemma shrinks_keys (w w' : world) :
  shrinks w w' -> coherent (fst w) ->
  NoDup (dict_keys (tasks (fst w'))).
Proof. intros [H _] Hco. apply (H Hco). Qed.

Lemma shrinks_trans (w1 w2 w3 : world) :
  coherent (fst w1) -> shrinks w1 w2 -> shrinks w2 w3 -> shrinks w1 w3.
Proof.
  intros Hco [A1 [A2 A3]] [B1 [B2 B3]]. split; [tauto|]. split.
  - intros Hnd k l H. apply (A2 Hnd). apply B2; [|exact H].
    apply (A1 Hco).
  - intros l t H. destruct (A3 l t H) as [t2 [H2 [E2 I2]]].
    destruct (B3 l t2 H2) as [t3 [H3 [E3 I3]]].
    exists t3. split; [exact H3|]. split; [congruence|].
    intros x Hx. apply I2. apply I3. exact Hx.
Qed.

Lemma same_but_children_id (t t' : Task) :
  set_children t' [] = set_children t [] -> id t' = id t.
Proof. intros H. apply (f_equal id) in H. exact H. Qed.

Lemma heap_upd_without_child (h : heap) (lp : loc) (task_id : str)
    (l : loc) (t : Task) :
  heap_get h l = Some t ->
  exists t', heap_get (heap_upd h lp (without_child h task_id)) l = Some t' /\
             set_children t' [] = set_children t [] /\
             incl (children t') (children t).
Proof.
  intros H. destruct (Nat.eq_dec lp l) as [->|Hne].
  - rewrite heap_get_upd_same, H. cbn [option_map].
    eexists. split; [reflexivity|]. split; [reflexivity|].
    unfold without_child. cbn [children set_children].
    intros x Hx. apply filter_In in Hx. tauto.
  - rewrite heap_get_upd_other by exact Hne.
    exists t. split; [exact H|]. split; [reflexivity|apply incl_refl].
Qed.

(** The end of [delete_task]: whatever the save does, the map has lost the
    id and nothing else. *)
Lemma unlink_and_save_spec (env : surroundings) (depth : nat)
    (w w' : world) (l : loc)
    (task_id : str) (e : option exn) :
  unlink_and_save env depth w l task_id = (w', e) ->
  shrinks w w' /\
  tasks (fst w') = dict_del (tasks (fst w)) task_id.
Proof.
  destruct w as [tm dir]. unfold unlink_and_save.
  set (h' := match heap_get (objects tm) l with
             | Some task_to_delete =>
                 match parent_id task_to_delete with
                 | Some p =>
                     match (if truthy (Some p) then dict_get (tasks tm) p
                            else None) with
                     | Some lp =>
                         heap_upd (objects tm) lp
                                  (without_child (objects tm) task_id)
                     | None => objects tm
                     end
                 | None => objects tm
                 end
             | None => objects tm
             end).
  destruct (save_tasks env depth
              (mkTaskManager h' (dict_del (tasks tm) task_id)) dir)
    as [dir1 e1]. intros [= <- <-]. cbn [fst tasks objects].
  assert (Hframe : forall l0 t, heap_get (objects tm) l0 = Some t ->
            exists t', heap_get h' l0 = Some t' /\
                       set_children t' [] = set_children t [] /\
                       incl (children t') (children t)).
  { intros l0 t H. unfold h'.
    assert (Hsame : exists t', heap_get (objects tm) l0 = Some t' /\
                      set_children t' [] = set_children t [] /\
                      incl (children t') (children t))
      by (exists t; split; [exact H|]; split;
          [reflexivity|apply incl_refl]).
    destruct (heap_get (objects tm) l) as [td|]; [|exact Hsame].
    destruct (parent_id td) as [p|]; [|exact Hsame].
    destruct (if truthy (Some p) then dict_get (tasks tm) p else None)
      as [lp|]; [|exact Hsame].
    apply heap_upd_without_child. exact H. }
  split; [|reflexivity]. split; [|split].
  - intros [Hnd Hco]. split; [apply dict_del_NoDup; exact Hnd|].
    intros k l0 Hk. cbn [tasks objects] in *.
    apply (@dict_get_del_Some _ _ _ _ _ Hnd) in Hk.
    destruct (Hco k l0 Hk) as [t [Ht Hid]].
    destruct (Hframe l0 t Ht) as [t' [Ht' [Es _]]].
    exists t'. split; [exact Ht'|].
    rewrite (@same_but_children_id _ _ Es). exact Hid.
  - intros Hnd k l0 Hk. apply (@dict_get_del_Some _ _ _ _ _ Hnd Hk).
  - exact Hframe.
Qed.

(** The loop over the children, for a method [rec] that only takes tasks
    out and, when it returns, has taken out the id it was given. *)
Lemma delete_children_spec (rec : world -> str -> world * option exn) :
  (forall w task_id w' e,
      rec w task_id = (w', e) -> coherent (fst w) ->
      shrinks w w' /\
      (e = None -> dict_get (tasks (fst w')) task_id = None)) ->
  forall (cs : list loc) (w w' : world) (e : option exn),
    delete_children rec w cs = (w', e) -> coherent (fst w) ->
    shrinks w w' /\
    (e = None ->
     forall c child, In c cs -> heap_get (objects (fst w)) c = Some child ->
                     dict_get (tasks (fst w')) (id child) = None).
Proof.
  intros Hrec. induction cs as [|c cs IH]; intros w w' e H Hco;
    cbn [delete_children] in H.
  - injection H as <- <-. split; [apply shrinks_refl|]. intros _ c ch [].
  - destruct (heap_get (objects (fst w)) c) as [child|] eqn:Ec.
    + destruct (rec w (id child)) as [w1 [e1|]] eqn:Er.
      * injection H as <- <-.
        split; [apply (Hrec _ _ _ _ Er Hco)|discriminate].
      * destruct (Hrec _ _ _ _ Er Hco) as [S1 R1].
        assert (Hco1 : coherent (fst w1)) by (apply S1; exact Hco).
        destruct (IH _ _ _ H Hco1) as [S2 R2].
        split; [apply (@shrinks_trans _ _ _ Hco S1 S2)|].
        intros He c0 ch0 [<-|Hin] Hc0.
        -- rewrite Ec in Hc0. injection Hc0 as <-.
           destruct (dict_get (tasks (fst w')) (id child)) as [l|] eqn:El;
             [|reflexivity].
           destruct S2 as [_ [S2 _]].
           rewrite (S2 (proj1 Hco1) _ _ El) in R1.
           specialize (R1 eq_refl). discriminate.
        -- destruct S1 as [_ [_ F1]].
           destruct (F1 c0 ch0 Hc0) as [ch1 [H1 [E1 _]]].
           rewrite <- (@same_but_children_id _ _ E1).
           apply (R2 He c0 ch1 Hin H1).
    + destruct (IH _ _ _ H Hco) as [S2 R2]. split; [exact S2|].
      intros He c0 ch0 [<-|Hin] Hc0; [congruence|].
      apply (R2 He c0 ch0 Hin Hc0).
Qed.

Lemma delete_task_spec (env : surroundings) (depth : nat) :
  forall (w : world) (task_id : str) (w' : world) (e : option exn),
    delete_task env depth w task_id = (w', e) -> coherent (fst w) ->
    shrinks w w' /\
    (e = None -> dict_get (tasks (fst w')) task_id = None).
Proof.
  induction depth as [|depth IH]; intros w task_id w' e H Hco;
    cbn [delete_task] in H.
  - injection H as <- <-. split; [apply shrinks_refl|discriminate].
  - destruct (dict_get (tasks (fst w)) task_id) as [l|] eqn:El.
    + destruct (heap_get (objects (fst w)) l) as [t|] eqn:Et.
      * destruct (delete_children (delete_task env depth) w (children t))
          as [w1 [e1|]] eqn:Ec.
        -- injection H as <- <-.
           split; [|discriminate].
           apply (@delete_children_spec (delete_task env depth) IH _ _ _ _
                    Ec Hco).
        -- destruct (@delete_children_spec (delete_task env depth) IH _ _ _ _
                       Ec Hco)
             as [S1 _].
           destruct (@unlink_and_save_spec _ _ _ _ _ _ _ H) as [S2 Et2].
           assert (Hco1 : coherent (fst w1)) by (apply S1; exact Hco).
           split; [apply (@shrinks_trans _ _ _ Hco S1 S2)|].
           intros _. rewrite Et2. apply dict_get_del_same.
           apply (proj1 Hco1).
      * destruct Hco as [_ Hco]. destruct (Hco _ _ El) as [t [Ht _]].
        congruence.
    + injection H as <- <-. split; [apply shrinks_refl|]. intros _. exact El.
Qed.

(** X8: [delete_task] on a coherent manager, whether it returns or raises:
    the manager is still coherent and every id of its map was there, with
    the same task; when it returns, the id it was given is not in the map
    any more. *)
Theorem delete_task_only_removes (env : surroundings) (depth : nat)
    (tm tm' : TaskManager)
    (dir dir' : directory) (task_id : str) (e : option exn) :
  coherent tm ->
  delete_task env depth (tm, dir) task_id = ((tm', dir'), e) ->
  coherent tm' /\
  (forall k l, dict_get (tasks tm') k = Some l ->
               dict_get (tasks tm) k = Some l) /\
  (e = None -> get_task tm' task_id = None).
Proof.
  intros Hco H.
  destruct (@delete_task_spec env depth _ _ _ _ H Hco) as [[S1 [S2 _]] R].
  cbn [fst] in *. split; [apply S1; exact Hco|].
  split; [apply S2; apply (proj1 Hco)|].
  intros He. unfold get_task. rewrite (R He). reflexivity.
Qed.

Lemma delete_task_only_removes_witness :
  let '((tm', dir'), e) :=
    delete_task closed_surroundings 100 (family_manager, []) "p1" in
  e = None /\ get_task tm' "p1" = None /\ coherent tm'.
Proof.
  destruct (delete_task closed_surroundings 100 (family_manager, []) "p1")
    as [[tm' dir'] e]
    eqn:E.
  assert (He : e = None) by (vm_compute in E; congruence).
  destruct (@delete_task_only_removes closed_surroundings 100 family_manager
              tm' [] dir' "p1" e)
    as [Hco [_ Hrem]]; [|exact E|].
  - split; [repeat constructor; simpl; intuition discriminate|].
    intros k l Hk. unfold family_manager in *. cbn [tasks dict_get] in Hk.
    destruct (str_eqb k "p1") eqn:E1.
    + apply str_eqb_eq in E1. injection Hk as <-. subst k.
      eexists. split; reflexivity.
    + destruct (str_eqb k "c1") eqn:E2; [|discriminate].
      apply str_eqb_eq in E2. injection Hk as <-. subst k.
      eexists. split; reflexivity.
  - split; [exact He|]. split; [apply Hrem; exact He|exact Hco].
Defined.

(** X9: [delete_task] changes no task object except in its children list, and
    a children list can only lose entries. *)
Theorem delete_task_touches_children_only (env : surroundings) (depth : nat)
    (tm tm' : TaskManager)
    (dir dir' : directory) (task_id : str) (e : option exn) (l : loc)
    (t : Task) :
  coherent tm ->
  delete_task env depth (tm, dir) task_id = ((tm', dir'), e) ->
  heap_get (objects tm) l = Some t ->
  exists t',
    heap_get (objects tm') l = Some t' /\
    set_children t' [] = set_children t [] /\
    incl (children t') (children t).
Proof.
  intros Hco H Hl.
  destruct (@delete_task_spec env depth _ _ _ _ H Hco) as [[_ [_ F]] _].
  apply (F l t Hl).
Qed.

Lemma family_manager_coherent : coherent family_manager.
Proof.
  split; [repeat constructor; simpl; intuition discriminate|].
  intros k l Hk. unfold family_manager in *. cbn [tasks dict_get] in Hk.
  destruct (str_eqb k "p1") eqn:E1.
  - apply str_eqb_eq in E1. injection Hk as <-. subst k.
    eexists. split; reflexivity.
  - destruct (str_eqb k "c1") eqn:E2; [|discriminate].
    apply str_eqb_eq in E2. injection Hk as <-. subst k.
    eexists. split; reflexivity.
Qed.

Lemma delete_task_touches_children_only_witness :
  let '((tm', dir'), e) :=
    delete_task closed_surroundings 100 (family_manager, []) "c1" in
  exists p', heap_get (objects tm') 0%nat = Some p' /\
             title p' = lit "Parent" /\ children p' = [].
Proof.
  destruct (delete_task closed_surroundings 100 (family_manager, []) "c1")
    as [[tm' dir'] e]
    eqn:E.
  destruct (@delete_task_touches_children_only closed_surroundings 100
              family_manager tm' []
              dir' "c1" e 0%nat
              (mkTask "Parent" "p1" "" None TODO NONE None None 30 true []
                      [1%nat] None (mkdatetime 2024 1 1 8 1 0 0)
                      (Some (lit "a.org"))))
    as [p' [Hp [Es _]]];
    [apply family_manager_coherent|exact E|reflexivity|].
  exists p'. split; [exact Hp|].
  split; [apply (f_equal title) in Es; exact Es|].
  vm_compute in E. injection E as <- _ _. vm_compute in Hp.
  injection Hp as <-. reflexivity.
Defined.

(** X10: when [delete_task] returns, the ids of the children of the task are
    not in the map either. *)
Theorem delete_task_removes_children (env : surroundings) (depth : nat)
    (tm tm' : TaskManager)
    (dir dir' : directory) (task_id : str) (t c : Task) :
  coherent tm -> get_task tm task_id = Some t ->
  delete_task env depth (tm, dir) task_id = ((tm', dir'), None) ->
  In c (deref (objects tm) (children t)) ->
  get_task tm' (id c) = None.
Proof.
  intros Hco Hget H Hc. destruct depth as [|depth]; [discriminate|].
  cbn [delete_task fst] in H. unfold get_task in Hget.
  destruct (dict_get (tasks tm) task_id) as [l|] eqn:El; [|discriminate].
  rewrite Hget in H.
  destruct (delete_children (delete_task env depth) (tm, dir) (children t))
    as [w1 [e1|]] eqn:Ec; [discriminate|].
  destruct (@delete_children_spec (delete_task env depth)
              (@delete_task_spec env depth) _ _ _ _ Ec Hco) as [S1 R1].
  destruct (@unlink_and_save_spec _ _ _ _ _ _ _ H) as [[_ [S2 _]] _].
  assert (Hco1 : coherent (fst w1)) by (apply S1; exact Hco).
  unfold deref in Hc. apply in_flat_map in Hc. destruct Hc as [lc [Hlc Hc]].
  cbn [fst] in *.
  destruct (heap_get (objects tm) lc) as [child|] eqn:Ech; [|contradiction].
  destruct Hc as [->|[]].
  pose proof (R1 eq_refl lc c Hlc Ech) as Hnone.
  unfold get_task.
  destruct (dict_get (tasks tm') (id c)) as [l'|] eqn:E'; [|reflexivity].
  rewrite (S2 (proj1 Hco1) _ _ E') in Hnone. discriminate.
Qed.

Lemma delete_task_removes_children_witness :
  let '((tm', dir'), e) :=
    delete_task closed_surroundings 100 (family_manager, []) "p1" in
  e = None /\ dict_keys (tasks tm') = [] /\ get_task tm' "c1" = None.
Proof.
  destruct (delete_task closed_surroundings 100 (family_manager, []) "p1")
    as [[tm' dir'] e]
    eqn:E.
  assert (He : e = None) by (vm_compute in E; congruence).
  subst e. split; [reflexivity|]. split.
  - vm_compute in E. injection E as <- _. reflexivity.
  - apply (@delete_task_removes_children closed_surroundings 100
             family_manager tm' [] dir' "p1"
             (mkTask "Parent" "p1" "" None TODO NONE None None 30 true []
                     [1%nat] None (mkdatetime 2024 1 1 8 1 0 0)
                     (Some (lit "a.org")))
             (mkTask "Child" "c1" "" None TODO NONE None None 30 true [] []
                     (Some (lit "p1")) (mkdatetime 2024 1 1 8 2 0 0)
                     (Some (lit "a.org"))));
      [apply family_manager_coherent|reflexivity|exact E|].
    left. reflexivity.
Defined.

(** ** More on saving *)

Lemma write_task_node_returns (depth : nat) :
  forall (h : heap) (out : str) (task : Task) (level : nat),
    shallow h depth task ->
    exists out', _write_task_node depth h out task level = (out', None).
Proof.
  induction depth as [|d IH]; intros h out task level Hs; [contradiction|].
  cbn [shallow] in Hs. cbn [_write_task_node].
  assert (Hkids : forall c,
             In c (sorted_by_created (deref h (children task))) ->
             shallow h d c).
  { intros c Hc. apply Hs. apply sorted_by_created_In. exact Hc. }
  revert Hkids. generalize (out ++ node_text task level) as out0.
  generalize (sorted_by_created (deref h (children task))) as cs.
  induction cs as [|c cs IHcs]; intros out0 Hkids.
  - exists out0. reflexivity.
  - destruct (IH h out0 c (level + 1)%nat (Hkids c (or_introl eq_refl)))
      as [out1 E1].
    rewrite E1. apply IHcs. intros c' Hc'. apply Hkids. right. exact Hc'.
Qed.

Lemma write_tasks_returns (depth : nat) (h : heap) (ts : list Task) :
  forall out : str,
    (forall t, In t ts -> shallow h depth t) ->
    exists out', write_tasks depth h out ts = (out', None).
Proof.
  induction ts as [|t ts IH]; intros out Hs; cbn [write_tasks].
  - exists out. reflexivity.
  - destruct (@write_task_node_returns depth h out t 1%nat
                (Hs t (or_introl eq_refl))) as [out1 E1].
    rewrite E1. apply IH. intros t' Ht'. apply Hs. right. exact Ht'.
Qed.

Lemma save_files_returns (env : surroundings) (depth : nat) (h : heap)
    (groups : list (option str * list Task)) :
  forall dir : directory,
    (forall k ts, In (k, ts) groups ->
                  (exists f, k = Some f /\
                             forall e, open_target env f <> OpenRaises e) /\
                  forall t, In t ts -> shallow h depth t) ->
    exists dir', save_files env depth h dir groups = (dir', None).
Proof.
  induction groups as [|[[f|] ts] groups IH]; intros dir H.
  - exists dir. reflexivity.
  - rewrite save_files_step.
    destruct (H (Some f) ts (or_introl eq_refl)) as [(f' & Ef & Hopen) Hts].
    injection Ef as <-.
    destruct (@write_tasks_returns depth h (sorted_by_created ts)
                (title_line f)) as [out E].
    { intros t Ht. apply Hts. apply sorted_by_created_In. exact Ht. }
    rewrite E.
    assert (Hrest : forall d, exists dir',
               save_files env depth h d groups = (dir', None)).
    { intros d. apply IH. intros k ts' Hin. apply H. right. exact Hin. }
    destruct (open_target env f) as [name| |e0];
      [apply Hrest|apply Hrest|destruct (Hopen e0 eq_refl)].
  - destruct (H None ts (or_introl eq_refl)) as [(f & Ef & _) _].
    discriminate Ef.
Qed.

(** The members of a group of [tasks_by_file] are tasks of the list, and
    the key of the group is their file. *)
Lemma group_add_members (g : list (option str * list Task))
    (k0 : option str) (t0 : Task) (k : option str) (ts : list Task)
    (t : Task) :
  In (k, ts) (group_add g k0 t0) -> In t ts ->
  (t = t0 /\ k = k0) \/ exists ts', In (k, ts') g /\ In t ts'.
Proof.
  induction g as [|[k1 ts1] g IH]; cbn [group_add].
  - intros [E|[]] Ht. injection E as <- <-.
    destruct Ht as [<-|[]]. left. split; reflexivity.
  - destruct (opt_str_eqb k0 k1) eqn:E.
    + apply opt_str_eqb_eq in E. subst k1.
      intros [E|Hin] Ht.
      * injection E as <- <-. apply in_app_or in Ht.
        destruct Ht as [Ht|[<-|[]]].
        -- right. exists ts1. split; [left; reflexivity|exact Ht].
        -- left. split; reflexivity.
      * right. exists ts. split; [right; exact Hin|exact Ht].
    + intros [E'|Hin] Ht.
      * injection E' as <- <-. right. exists ts1.
        split; [left; reflexivity|exact Ht].
      * destruct (IH Hin Ht) as [H|[ts' [H1 H2]]]; [left; exact H|].
        right. exists ts'. split; [right; exact H1|exact H2].
Qed.

Lemma tasks_by_file_members (ts : list Task) (k : option str)
    (g : list Task) (t : Task) :
  In (k, g) (tasks_by_file ts) -> In t g -> In t ts /\ file t = k.
Proof.
  unfold tasks_by_file.
  assert (H : forall acc,
             In (k, g) (fold_left (fun g t => group_add g (file t) t) ts acc)
             -> In t g ->
             (In t ts /\ file t = k) \/
             exists g', In (k, g') acc /\ In t g').
  { induction ts as [|t0 ts IH]; intros acc Hin Ht.
    - right. exists g. split; assumption.
    - cbn [fold_left] in Hin. destruct (IH _ Hin Ht) as [[H1 H2]|[g' [H1 H2]]].
      + left. split; [right; exact H1|exact H2].
      + destruct (@group_add_members acc (file t0) t0 k g' t H1 H2)
          as [[-> ->]|H'].
        * left. split; [left|]; reflexivity.
        * right. exact H'. }
  intros Hin Ht. destruct (H [] Hin Ht) as [H'|[g' [[] _]]]. exact H'.
Qed.

Lemma group_add_nonempty (g : list (option str * list Task))
    (k0 : option str) (t0 : Task) :
  (forall k ts, In (k, ts) g -> ts <> []) ->
  forall k ts, In (k, ts) (group_add g k0 t0) -> ts <> [].
Proof.
  induction g as [|[k1 ts1] g IH]; intros Hg k ts; cbn [group_add].
  - intros [E|[]]. injection E as <- <-. discriminate.
  - destruct (opt_str_eqb k0 k1).
    + intros [E|Hin].
      * injection E as <- <-. destruct ts1; discriminate.
      * apply (Hg k ts). right. exact Hin.
    + intros [E|Hin].
      * injection E as <- <-. apply (Hg k1 ts1). left. reflexivity.
      * apply (IH (fun k' ts' H' => Hg k' ts' (or_intror H')) k ts Hin).
Qed.

Lemma tasks_by_file_nonempty (ts : list Task) (k : option str)
    (g : list Task) :
  In (k, g) (tasks_by_file ts) -> g <> [].
Proof.
  unfold tasks_by_file.
  assert (H : forall acc,
             (forall k' g', In (k', g') acc -> g' <> []) ->
             In (k, g) (fold_left (fun g t => group_add g (file t) t) ts acc)
             -> g <> []).
  { induction ts as [|t0 ts IH]; intros acc Hacc Hin.
    - apply (Hacc k g Hin).
    - cbn [fold_left] in Hin. apply (IH _ (@group_add_nonempty acc (file t0) t0 Hacc) Hin). }
  apply H. intros k' g' [].
Qed.

(** X11: a save returns when every task names a file that [open] opens,
    in the directory or elsewhere, and the nesting of the children stays
    within the depth the interpreter allows. *)
Theorem save_returns_when_shallow (env : surroundings) (depth : nat)
    (tm : TaskManager) (dir : directory) :
  (forall t, In t (task_values tm) ->
             (exists f, file t = Some f /\
                        forall e, open_target env f <> OpenRaises e) /\
             shallow (objects tm) depth t) ->
  exists dir', save_tasks env depth tm dir = (dir', None).
Proof.
  intros H. unfold save_tasks, OrgStorage_save.
  apply save_files_returns. intros k g Hin. split.
  - destruct g as [|t g'] eqn:Eg;
      [exfalso; apply (@tasks_by_file_nonempty _ _ _ Hin); reflexivity|].
    destruct (@tasks_by_file_members (task_values tm) k (t :: g') t Hin
                (or_introl eq_refl)) as [Ht <-].
    apply (H t Ht).
  - intros t Ht.
    destruct (@tasks_by_file_members (task_values tm) k g t Hin Ht)
      as [Ht' _].
    apply (H t Ht').
Qed.

Lemma save_returns_when_shallow_witness :
  exists dir',
    save_tasks closed_surroundings 2 family_manager [] = (dir', None).
Proof.
  apply (@save_returns_when_shallow closed_surroundings 2%nat
           family_manager []).
  intros t Ht. vm_compute in Ht.
  destruct Ht as [<-|[<-|[]]];
    (split; [exists (lit "a.org"); split; [reflexivity|];
             intros e E; vm_compute in E; discriminate E|]).
  - intros c Hc. vm_compute in Hc. destruct Hc as [<-|[]].
    intros c' Hc'. vm_compute in Hc'. destruct Hc'.
  - intros c Hc. vm_compute in Hc. destruct Hc.
Defined.

(** A save stops at the first file name that [open] does not open: the
    empty name and a name in a folder that is not there raise, and the
    files of the groups before are written. *)
Lemma save_raises_where_open_fails :
  let task name :=
    mkTask "Note" name "" None TODO NONE None None 30 true [] [] None
           (mkdatetime 2024 1 1 8 1 0 0) (Some name) in
  let tm := mkTaskManager
              [task (lit "a.org"); task []; task (lit "sub/x.org")]
              [(lit "a.org", 0%nat); ([], 1%nat);
               (lit "sub/x.org", 2%nat)] in
  let '(dir', e) := save_tasks closed_surroundings 100 tm [] in
  e = Some OSError /\ dict_keys dir' = [lit "a.org"].
Proof. vm_compute. split; reflexivity. Qed.

Lemma dict_set_same (d : directory) (k : str) (v : FileContent) :
  dict_get d k = Some v -> dict_set d k v = d.
Proof.
  induction d as [|[k0 v0] d IH]; cbn [dict_get dict_set]; [discriminate|].
  destruct (str_eqb k k0).
  - intros [= ->]. reflexivity.
  - intros H. rewrite (IH H). reflexivity.
Qed.

Lemma group_get_None (g : list (option str * list Task)) (k : option str) :
  ~ In k (map fst g) -> group_get g k = None.
Proof.
  intros H. destruct (group_get g k) as [ts|] eqn:E; [|reflexivity].
  exfalso. apply H. apply (group_get_In _ _ E).
Qed.

(** X12: [OrgStorage.save] writes the files that the file names of the tasks
    open and no other: a file of the directory that no file name of a task
    of the map opens is left as it is, whether the save returns or raises,
    also when the file holds records of tasks that are no longer in the
    map. *)
Theorem save_leaves_other_files (env : surroundings) (depth : nat)
    (tm : TaskManager) (dir dir' : directory) (e : option exn) (f : str) :
  save_tasks env depth tm dir = (dir', e) ->
  (forall t g, In t (task_values tm) -> file t = Some g ->
               open_target env g <> InDirectory f) ->
  dict_get dir' f = dict_get dir f.
Proof.
  unfold save_tasks, OrgStorage_save. intros H Hf.
  apply (@save_files_unopened env depth (objects tm) f _ _ _ _) with (2 := H).
  intros g Hg. apply tasks_by_file_key in Hg.
  destruct Hg as (t & Ht & Eft). apply (Hf t g Ht Eft).
Qed.

(** After the only task of a file is deleted, the file still holds its
    record, and a manager started on the directory has the task again. *)
Lemma save_leaves_other_files_witness :
  let dir := fst (save_tasks closed_surroundings 100 note_manager []) in
  let '((tm', dir'), e) :=
    delete_task closed_surroundings 100 (note_manager, dir) "t1" in
  e = None /\ dict_keys (tasks tm') = [] /\
  dict_get dir' "a.org" = dict_get dir "a.org" /\
  match new_TaskManager default_todo_keys clock dir' with
  | Ok tm2 => dict_keys (tasks tm2) = [lit "t1"]
  | Raise _ => False
  end.
Proof.
  intros dir.
  destruct (delete_task closed_surroundings 100 (note_manager, dir) "t1")
    as [[tm' dir'] e] eqn:E.
  assert (Hd : dir' = fst (save_tasks closed_surroundings 99
                 (mkTaskManager (objects note_manager) []) dir) /\
               e = None /\
               tm' = mkTaskManager (objects note_manager) []).
  { vm_compute in E. injection E as <- <- <-. vm_compute. tauto. }
  destruct Hd as [Hd [-> ->]]. split; [reflexivity|].
  split; [reflexivity|]. split.
  - rewrite Hd.
    apply (@save_leaves_other_files closed_surroundings 99
             (mkTaskManager (objects note_manager) []) dir _
             (snd (save_tasks closed_surroundings 99
                     (mkTaskManager (objects note_manager) []) dir))
             "a.org").
    + destruct (save_tasks closed_surroundings 99
                  (mkTaskManager (objects note_manager) []) dir);
        reflexivity.
    + intros t g [].
  - rewrite Hd. vm_compute. reflexivity.
Defined.

(** A file name that leads into the directory writes the file there: with
    [./a.org] opening [a.org], the records of the second group replace those
    of the first. *)
Lemma save_through_another_name :
  let env := fun name => if str_eqb name "./a.org"
                         then InDirectory (lit "a.org")
                         else OpenRaises OSError in
  let task name key :=
    mkTask "Note" key "" None TODO NONE None None 30 true [] [] None
           (mkdatetime 2024 1 1 8 1 0 0) (Some name) in
  let tm := mkTaskManager
              [task (lit "a.org") (lit "t1"); task (lit "./a.org") (lit "t2")]
              [(lit "t1", 0%nat); (lit "t2", 1%nat)] in
  let '(dir', e) := save_tasks env 100 tm [] in
  e = None /\ dict_keys dir' = [lit "a.org"] /\
  match new_TaskManager default_todo_keys clock dir' with
  | Ok tm2 => dict_keys (tasks tm2) = [lit "t2"]
  | Raise _ => False
  end.
Proof. vm_compute. repeat split; reflexivity. Qed.

(** *** Saving twice *)

Lemma save_files_writes (env : surroundings) (depth : nat) (h : heap)
    (groups : list (option str * list Task)) :
  forall dir dir' : directory,
    save_files env depth h dir groups = (dir', None) ->
    forall d, save_files env depth h d groups
              = (apply_writes (writes env depth h groups) d, None).
Proof.
  induction groups as [|[[f|] ts] groups IH]; intros dir dir' H d.
  - reflexivity.
  - rewrite save_files_step in H. rewrite save_files_step.
    cbn [writes].
    destruct (open_target env f) as [name| |e0]; [| |discriminate H];
      (destruct (write_tasks depth h (title_line f) (sorted_by_created ts))
         as [out [e'|]]; [discriminate H|]);
      cbn [fst apply_writes fold_left snd]; apply (IH _ _ H).
  - cbn [save_files] in H. discriminate H.
Qed.

Lemma apply_writes_cons (k : str) (v : FileContent)
    (ops : list (str * FileContent)) (d : directory) :
  apply_writes ((k, v) :: ops) d = apply_writes ops (dict_set d k v).
Proof. reflexivity. Qed.

Lemma apply_writes_snoc (k : str) (v : FileContent)
    (ops : list (str * FileContent)) (d : directory) :
  apply_writes (ops ++ [(k, v)]) d = dict_set (apply_writes ops d) k v.
Proof. unfold apply_writes. rewrite fold_left_app. reflexivity. Qed.

Lemma dict_set_twice (d : directory) (k : str) (v w : FileContent) :
  dict_set (dict_set d k v) k w = dict_set d k w.
Proof.
  induction d as [|[k0 v0] d IH]; cbn [dict_set].
  - rewrite str_eqb_refl. reflexivity.
  - destruct (str_eqb k k0) eqn:E; cbn [dict_set]; rewrite E;
      [reflexivity|]. rewrite IH. reflexivity.
Qed.

Lemma dict_set_swap (d : directory) (k k' : str) (v w : FileContent) :
  k <> k' -> dict_get d k <> None ->
  dict_set (dict_set d k v) k' w = dict_set (dict_set d k' w) k v.
Proof.
  intros Hne. induction d as [|[k0 v0] d IH]; intros Hk;
    [destruct (Hk eq_refl)|].
  cbn [dict_get] in Hk. cbn [dict_set].
  destruct (str_eqb k k0) eqn:E.
  - apply str_eqb_eq in E. subst k0.
    assert (E' : str_eqb k' k = false)
      by (apply str_eqb_neq; congruence).
    cbn [dict_set]. rewrite E'. cbn [dict_set]. rewrite str_eqb_refl.
    reflexivity.
  - destruct (str_eqb k' k0) eqn:E'; cbn [dict_set]; rewrite E, ?E'.
    + reflexivity.
    + rewrite (IH Hk). reflexivity.
Qed.

(** A write is forgotten when the same file is written again later. *)
Lemma apply_writes_absorb (ops : list (str * FileContent)) :
  forall (d : directory) (k : str) (v : FileContent),
    In k (map fst ops) -> dict_get d k <> None ->
    apply_writes ops (dict_set d k v) = apply_writes ops d.
Proof.
  induction ops as [|[m w] ops IH]; intros d k v Hin Hk; [destruct Hin|].
  rewrite !apply_writes_cons.
  destruct (str_eqb k m) eqn:E.
  - apply str_eqb_eq in E. subst m. rewrite dict_set_twice. reflexivity.
  - apply str_eqb_neq in E. destruct Hin as [Hin|Hin];
      [cbn [fst] in Hin; congruence|].
    rewrite (@dict_set_swap d k m v w E Hk).
    apply IH; [exact Hin|].
    rewrite dict_get_set_other by congruence. exact Hk.
Qed.

Lemma apply_writes_unwritten (ops : list (str * FileContent)) :
  forall (d : directory) (k : str),
    ~ In k (map fst ops) ->
    dict_get (apply_writes ops d) k = dict_get d k.
Proof.
  induction ops as [|[m w] ops IH]; intros d k Hk; [reflexivity|].
  rewrite apply_writes_cons, IH by (intros H; apply Hk; right; exact H).
  apply dict_get_set_other. intros ->. apply Hk. left. reflexivity.
Qed.

(** What is in a file that was written does not depend on the directory
    the writes started from. *)
Lemma apply_writes_written (ops : list (str * FileContent)) :
  forall k : str,
    In k (map fst ops) ->
    forall d d' : directory,
      dict_get (apply_writes ops d) k <> None /\
      dict_get (apply_writes ops d) k = dict_get (apply_writes ops d') k.
Proof.
  induction ops as [|[m w] ops IH] using rev_ind; intros k Hin d d';
    [destruct Hin|].
  rewrite !apply_writes_snoc.
  destruct (str_eqb m k) eqn:E.
  - apply str_eqb_eq in E. subst m. rewrite !dict_get_set_same.
    split; [discriminate|reflexivity].
  - apply str_eqb_neq in E. rewrite !dict_get_set_other by exact E.
    apply IH. rewrite map_app in Hin. apply in_app_or in Hin.
    destruct Hin as [Hin|[Hin|[]]]; [exact Hin|].
    cbn [fst] in Hin. congruence.
Qed.

(** Writes change nothing in a directory that already holds, for every file
    written, what the last write to it leaves. *)
Lemma apply_writes_fixed (ops : list (str * FileContent)) :
  forall X : directory,
    (forall k, In k (map fst ops) ->
               dict_get X k = dict_get (apply_writes ops []) k) ->
    apply_writes ops X = X.
Proof.
  induction ops as [|[n c] ops IH]; intros X HX; [reflexivity|].
  rewrite apply_writes_cons.
  assert (Hrest : forall k, In k (map fst ops) ->
                            dict_get X k = dict_get (apply_writes ops []) k).
  { intros k Hk. rewrite (HX k (or_intror Hk)). rewrite apply_writes_cons.
    apply (@apply_writes_written ops k Hk). }
  destruct (in_dec (list_eq_dec Ascii.ascii_dec) n (map fst ops))
    as [Hin|Hout].
  - rewrite apply_writes_absorb; [apply IH; exact Hrest|exact Hin|].
    rewrite (Hrest n Hin).
    apply (@apply_writes_written ops n Hin [] []).
  - assert (Hn : dict_get X n = Some c).
    { rewrite (HX n (or_introl eq_refl)), apply_writes_cons.
      rewrite (@apply_writes_unwritten ops _ n Hout).
      apply dict_get_set_same. }
    rewrite (dict_set_same _ _ Hn). apply IH. exact Hrest.
Qed.

(** X13: saving again after a save that returned changes nothing: the directory
    is the same, file for file. *)
Theorem save_again_changes_nothing (env : surroundings) (depth : nat)
    (tm : TaskManager) (dir dir' : directory) :
  save_tasks env depth tm dir = (dir', None) ->
  save_tasks env depth tm dir' = (dir', None).
Proof.
  unfold save_tasks, OrgStorage_save. intros H.
  pose proof (@save_files_writes _ _ _ _ _ _ H) as Hw.
  rewrite (Hw dir) in H. injection H as H.
  rewrite (Hw dir'). f_equal.
  set (ops := writes env depth (objects tm) (tasks_by_file (task_values tm)))
    in *.
  rewrite <- H. apply apply_writes_fixed.
  intros k Hk. apply (@apply_writes_written ops k Hk).
Qed.

Lemma save_again_changes_nothing_witness :
  let dir' := fst (save_tasks closed_surroundings 100 family_manager []) in
  save_tasks closed_surroundings 100 family_manager dir' = (dir', None).
Proof.
  intros dir'.
  apply (@save_again_changes_nothing closed_surroundings 100 family_manager
           [] dir').
  vm_compute. reflexivity.
Defined.

(** ** The links after a load *)

Lemma build_temp_tasks_no_children (data : list TaskData) :
  forall (h : heap) (temp : dict loc),
    (forall l t, heap_get h l = Some t -> children t = []) ->
    forall l t, heap_get (fst (build_temp_tasks h temp data)) l = Some t ->
                children t = [].
Proof.
  induction data as [|d data IH]; intros h temp H; [exact H|].
  cbn [build_temp_tasks]. destruct (d_id d) as [k|]; [|apply IH; exact H].
  unfold task_of_data, heap_alloc. apply IH.
  intros l t Hl. unfold heap_get in *.
  destruct (Nat.lt_ge_cases l (length h)) as [Hlt|Hge].
  - rewrite nth_error_app1 in Hl by exact Hlt. apply (H l t Hl).
  - rewrite nth_error_app2 in Hl by exact Hge.
    destruct (l - length h)%nat as [|n]; cbn in Hl.
    + injection Hl as <-. reflexivity.
    + destruct n; discriminate.
Qed.

Lemma heap_get_upd_defined (h : heap) (lp l : loc) (f : Task -> Task)
    (t' : Task) :
  heap_get (heap_upd h lp f) l = Some t' ->
  exists t, heap_get h l = Some t.
Proof.
  intros H. destruct (heap_get h l) as [t|] eqn:E; [exists t; reflexivity|].
  exfalso. unfold heap_get in *.
  apply nth_error_None in E.
  assert (Hs : nth_error (heap_upd h lp f) l <> None) by congruence.
  apply nth_error_Some in Hs. rewrite heap_upd_length in Hs. lia.
Qed.

Lemma link_task_defined (temp : dict loc) (h : heap) (a l : loc) (t' : Task) :
  heap_get (link_task temp h a) l = Some t' ->
  exists t, heap_get h l = Some t.
Proof.
  unfold link_task. intros H.
  set (h1 := heap_upd h a (fun task => set_children task [])) in *.
  assert (H1 : forall t1, heap_get h1 l = Some t1 ->
                          exists t, heap_get h l = Some t)
    by (intros t1; apply heap_get_upd_defined).
  destruct (heap_get h1 a) as [task|]; [|apply (H1 _ H)].
  destruct (parent_id task) as [p|].
  - destruct (if truthy (Some p) then dict_get temp p else None) as [lp|];
      apply heap_get_upd_defined in H; destruct H as [t1 H];
      apply (H1 _ H).
  - apply heap_get_upd_defined in H. destruct H as [t1 H]. apply (H1 _ H).
Qed.

(** The children lists after one round of the linking loop, for the
    object at [a]. *)
Lemma link_task_children (temp : dict loc) (h : heap) (a l : loc)
    (t : Task) :
  heap_get h l = Some t ->
  exists t',
    heap_get (link_task temp h a) l = Some t' /\
    forall c, In c (children t') ->
      (In c (children t) /\ l <> a) \/
      (c = a /\ exists ta p, heap_get h a = Some ta /\
                             parent_id ta = Some p /\
                             truthy (Some p) = true /\
                             dict_get temp p = Some l).
Proof.
  intros Hl. unfold link_task.
  set (h1 := heap_upd h a (fun task => set_children task [])).
  assert (H1 : exists t1, heap_get h1 l = Some t1 /\
                 forall c, In c (children t1) ->
                           In c (children t) /\ l <> a).
  { unfold h1. destruct (Nat.eq_dec a l) as [->|Hne].
    - rewrite heap_get_upd_same, Hl. eexists. split; [reflexivity|].
      intros c [].
    - rewrite heap_get_upd_other by exact Hne. exists t.
      split; [exact Hl|]. intros c Hc. split; [exact Hc|congruence]. }
  destruct H1 as [t1 [Ht1 Hc1]].
  assert (Hkeep : forall f,
             (forall x, children (f x) = children x) ->
             exists t', heap_get (heap_upd h1 a f) l = Some t' /\
               forall c, In c (children t') ->
                 (In c (children t) /\ l <> a) \/
                 (c = a /\ exists ta p, heap_get h a = Some ta /\
                                        parent_id ta = Some p /\
                                        truthy (Some p) = true /\
                                        dict_get temp p = Some l)).
  { intros f Hf. destruct (Nat.eq_dec a l) as [->|Hne].
    - rewrite heap_get_upd_same, Ht1. eexists. split; [reflexivity|].
      intros c Hc. rewrite Hf in Hc. left. apply Hc1. exact Hc.
    - rewrite heap_get_upd_other by exact Hne. exists t1.
      split; [exact Ht1|]. intros c Hc. left. apply Hc1. exact Hc. }
  destruct (heap_get h1 a) as [task|] eqn:Ea.
  - assert (Hta : exists ta, heap_get h a = Some ta /\
                             parent_id ta = parent_id task).
    { unfold h1 in Ea. rewrite heap_get_upd_same in Ea.
      destruct (heap_get h a) as [ta|]; [|discriminate].
      injection Ea as <-. exists ta. split; reflexivity. }
    destruct Hta as [ta [Hta Hpa]].
    destruct (parent_id task) as [p|] eqn:Ep;
      [|apply Hkeep; intros x; reflexivity].
    destruct (truthy (Some p)) eqn:Et;
      [|apply Hkeep; intros x; reflexivity].
    destruct (dict_get temp p) as [lp|] eqn:Elp;
      [|apply Hkeep; intros x; reflexivity].
    destruct (Nat.eq_dec lp l) as [->|Hne].
    + rewrite heap_get_upd_same, Ht1. eexists. split; [reflexivity|].
      cbn [option_map children set_children]. intros c Hc.
      apply in_app_or in Hc. destruct Hc as [Hc|[<-|[]]].
      * left. apply Hc1. exact Hc.
      * right. split; [reflexivity|]. exists ta, p. tauto.
    + rewrite heap_get_upd_other by exact Hne. exists t1.
      split; [exact Ht1|]. intros c Hc. left. apply Hc1. exact Hc.
  - exists t1. split; [exact Ht1|]. intros c Hc. left. apply Hc1. exact Hc.
Qed.

Lemma link_task_links_ok (temp : dict loc) (h : heap) (visited : list loc)
    (a : loc) :
  ~ In a visited -> links_ok temp h visited ->
  links_ok temp (link_task temp h a) (visited ++ [a]).
Proof.
  intros Hnew J l t' Hl' c Hc.
  destruct (@link_task_defined temp h a l t' Hl') as [t Hl].
  destruct (@link_task_children temp h a l t Hl) as [t'' [Hl'' Hch]].
  rewrite Hl' in Hl''. injection Hl'' as <-.
  destruct (Hch c Hc) as [[Hc0 Hla]|[-> [ta [p [Hta [Hp [Htr Hlp]]]]]]].
  - destruct (J l t Hl c Hc0) as [Hv [tc [p [Htc [Hp Hlp]]]]].
    split; [apply in_or_app; left; exact Hv|].
    destruct (@link_task_get temp h a c tc Htc) as [tc' [Htc' [_ Hp']]].
    exists tc', p. split; [exact Htc'|]. split; [|exact Hlp].
    rewrite Hp'. destruct (Nat.eqb_spec c a) as [->|_]; [contradiction|].
    exact Hp.
  - split; [apply in_or_app; right; left; reflexivity|].
    destruct (@link_task_get temp h a a ta Hta) as [ta' [Hta' [_ Hp']]].
    exists ta', p. split; [exact Hta'|]. split; [|exact Hlp].
    rewrite Hp', Nat.eqb_refl, Hp. unfold resolve, dict_mem.
    rewrite Htr, Hlp. reflexivity.
Qed.

Lemma link_fold_links_ok (temp : dict loc) (ls : list loc) :
  forall (h : heap) (visited : list loc),
    NoDup (visited ++ ls) -> links_ok temp h visited ->
    links_ok temp (fold_left (link_task temp) ls h) (visited ++ ls).
Proof.
  induction ls as [|a ls IH]; intros h visited Hnd J.
  - rewrite app_nil_r. exact J.
  - cbn [fold_left].
    replace (visited ++ a :: ls) with ((visited ++ [a]) ++ ls)
      by (rewrite <- app_assoc; reflexivity).
    apply IH.
    + rewrite <- app_assoc. exact Hnd.
    + apply link_task_links_ok; [|exact J].
      apply NoDup_remove_2 in Hnd. intros Hin. apply Hnd.
      apply in_or_app. left. exact Hin.
Qed.

(** X14: a manager that was loaded is coherent; the parent id of each of its
    tasks is [None] or a non-empty id of the map; and every task in a
    children list is a task of the map whose parent id is the id of the
    owner of the list. *)
Theorem load_tasks_links_are_sound (data : list TaskData) :
  coherent (load_tasks data) /\
  forall k t, get_task (load_tasks data) k = Some t ->
    (forall q, parent_id t = Some q ->
               q <> [] /\ dict_mem (tasks (load_tasks data)) q = true) /\
    (forall c, In c (deref (objects (load_tasks data)) (children t)) ->
               parent_id c = Some k /\
               In c (task_values (load_tasks data))).
Proof.
  assert (HP : Forall (fun _ : TaskData => True) data)
    by (apply Forall_forall; intros; exact I).
  destruct (@load_tasks_get (fun _ => True) data HP) as [_ Hget].
  assert (Hco : coherent (load_tasks data)).
  { split; [apply load_tasks_keys|]. intros k l Hk.
    assert (Hm : dict_mem (tasks (load_tasks data)) k = true)
      by (unfold dict_mem; rewrite Hk; reflexivity).
    destruct (Hget k Hm) as [d [t0 [t' [_ [_ [Ht0 [Hg [Hc _]]]]]]]].
    unfold get_task in Hg. rewrite Hk in Hg. exists t'.
    split; [exact Hg|]. apply (f_equal id) in Hc. cbn in Hc. rewrite Hc.
    unfold task_of_data in Ht0. injection Ht0 as <-. reflexivity. }
  split; [exact Hco|]. intros k t Hk. split.
  - assert (Hm : dict_mem (tasks (load_tasks data)) k = true).
    { unfold get_task in Hk. unfold dict_mem.
      destruct (dict_get (tasks (load_tasks data)) k); [reflexivity|].
      discriminate. }
    destruct (Hget k Hm) as [d [t0 [t' [_ [_ [_ [Hg [_ Hp]]]]]]]].
    rewrite Hk in Hg. injection Hg as <-. intros q Hq. rewrite Hq in Hp.
    unfold resolve in Hp. destruct (parent_id t0) as [q0|]; [|discriminate].
    destruct (truthy (Some q0) && dict_mem (tasks (load_tasks data)) q0)
      eqn:E; [|discriminate].
    injection Hp as ->. apply andb_prop in E. destruct E as [E1 E2].
    split; [|exact E2]. intros ->. discriminate.
  - revert Hk Hco. unfold load_tasks.
    destruct (@build_temp_tasks_spec (fun _ => True) data [] [] HP)
      as [Hinj _].
    { intros k0 l H. discriminate. }
    { intros k1 k2 l H. discriminate. }
    { intros k0 l H. discriminate. }
    pose proof (@build_temp_tasks_keys data [] [] (NoDup_nil _)) as Hnd.
    assert (Hempty : forall (l : loc) (t0 : Task),
               heap_get [] l = Some t0 -> children t0 = [])
      by (intros l t0 H; destruct l; discriminate).
    pose proof (@build_temp_tasks_no_children data [] [] Hempty) as Hnc.
    clear Hempty.
    destruct (build_temp_tasks [] [] data) as [h temp].
    cbn [fst snd] in *. intros Hk Hco c Hc.
    assert (J : links_ok temp
                  (fold_left (link_task temp) (dict_values temp) h)
                  ([] ++ dict_values temp)).
    { apply link_fold_links_ok.
      - apply (@dict_values_NoDup temp Hnd Hinj).
      - intros l t0 Hl c0 Hc0. rewrite (Hnc l t0 Hl) in Hc0.
        destruct Hc0. }
    unfold get_task in Hk. cbn [tasks objects] in *.
    destruct (dict_get temp k) as [l|] eqn:El; [|discriminate].
    unfold deref in Hc. apply in_flat_map in Hc.
    destruct Hc as [lc [Hlc Hc]].
    destruct (J l t Hk lc Hlc) as [Hv [tc [p [Htc [Hp Hlp]]]]].
    rewrite Htc in Hc. destruct Hc as [<-|[]].
    split.
    + rewrite Hp. f_equal. apply (Hinj p k l Hlp El).
    + unfold task_values. cbn [tasks objects]. apply in_flat_map.
      exists lc. split; [exact Hv|]. rewrite Htc. left. reflexivity.
Qed.

(** The links of the loaded family: the child names the parent, which is in
    the map, and the record whose parent is in no file has lost its parent
    id. *)
Lemma load_tasks_links_are_sound_witness :
  (exists t, get_task (load_tasks family_data) "c1" = Some t /\
             parent_id t = Some (lit "p1") /\
             dict_mem (tasks (load_tasks family_data)) "p1" = true) /\
  (exists t, get_task (load_tasks family_data) "o1" = Some t /\
             parent_id t = None).
Proof.
  split.
  - destruct (get_task (load_tasks family_data) "c1") as [t|] eqn:E;
      [|vm_compute in E; discriminate].
    exists t. split; [reflexivity|].
    assert (Hp : parent_id t = Some (lit "p1")).
    { vm_compute in E. injection E as <-. reflexivity. }
    split; [exact Hp|].
    destruct (load_tasks_links_are_sound family_data) as [_ H].
    destruct (H (lit "c1") t E) as [H1 _].
    exact (proj2 (H1 (lit "p1") Hp)).
  - eexists. split; vm_compute; reflexivity.
Defined.

(** ** The reminder list of [notif.py] *)

Lemma check_reminders_spec (title_of : str -> option str) (now : datetime)
    (reminders : list Reminder) :
  forall calls : list (str * str),
    fst (_check_reminders title_of now reminders calls)
    = map (fun r => if negb (r_sent r) && dt_le (r_trigger_time r) now
                    then mark_sent r else r) reminders /\
    snd (_check_reminders title_of now reminders calls)
    = calls ++ map (notice title_of)
                   (filter (fun r => negb (r_sent r) &&
                                     dt_le (r_trigger_time r) now)
                           reminders).
Proof.
  induction reminders as [|r rest IH]; intros calls;
    cbn [_check_reminders map filter].
  - rewrite app_nil_r. split; reflexivity.
  - destruct (negb (r_sent r) && dt_le (r_trigger_time r) now).
    + destruct (IH (calls ++ [notice title_of r])) as [I1 I2].
      destruct (_check_reminders title_of now rest (calls ++ [notice title_of r]))
        as [rest' calls']. cbn [fst snd] in *. subst.
      split; [reflexivity|]. rewrite <- app_assoc. reflexivity.
    + destruct (IH calls) as [I1 I2].
      destruct (_check_reminders title_of now rest calls) as [rest' calls'].
      cbn [fst snd] in *. subst. split; reflexivity.
Qed.

Lemma calls_of_tick (title_of : str -> option str) (now : datetime)
    (ticks : list datetime) (reminders : list Reminder) :
  Permutation
    (map (notice title_of)
         (filter (fun r => negb (r_sent r) && dt_le (r_trigger_time r) now)
                 reminders) ++
     map (notice title_of)
         (filter (fun r => negb (r_sent r) &&
                           reached ticks (r_trigger_time r))
                 (map (fun r => if negb (r_sent r) &&
                                   dt_le (r_trigger_time r) now
                                then mark_sent r else r) reminders)))
    (map (notice title_of)
         (filter (fun r => negb (r_sent r) &&
                           reached (now :: ticks) (r_trigger_time r))
                 reminders)).
Proof.
  induction reminders as [|r rest IHr]; [constructor|].
  cbn [map filter]. unfold reached in *. cbn [existsb] in *.
  destruct (r_sent r) eqn:Es; cbn [negb andb].
  - rewrite Es. cbn [negb andb]. exact IHr.
  - destruct (dt_le (r_trigger_time r) now);
      cbn [orb r_sent mark_sent negb andb r_trigger_time filter map app].
    + apply perm_skip. exact IHr.
    + rewrite Es. cbn [negb andb].
      destruct (existsb (fun now0 => dt_le (r_trigger_time r) now0) ticks);
        cbn [map app].
      * apply Permutation_sym, Permutation_cons_app, Permutation_sym.
        exact IHr.
      * exact IHr.
Qed.

(** X15 ([notif.ReminderSystem._run_loop], [_check_reminders]): over any
    sequence of ticks, a reminder that was not yet sent is marked sent
    exactly when some tick is at or after its trigger time, nothing else of
    a reminder changes, and the notifier is called once for each such
    reminder and for nothing else. *)
Theorem notif_reminder_notified_once (title_of : str -> option str)
    (ticks : list datetime) :
  forall (reminders : list Reminder) (calls : list (str * str)),
    fst (_run_loop title_of ticks reminders calls)
    = map (fun r => if negb (r_sent r) && reached ticks (r_trigger_time r)
                    then mark_sent r else r) reminders /\
    Permutation
      (snd (_run_loop title_of ticks reminders calls))
      (calls ++ map (notice title_of)
                    (filter (fun r => negb (r_sent r) &&
                                      reached ticks (r_trigger_time r))
                            reminders)).
Proof.
  induction ticks as [|now ticks IH]; intros reminders calls.
  - unfold _run_loop, reached. cbn [fold_left fst snd existsb].
    split.
    + rewrite <- (map_id reminders) at 1. apply map_ext.
      intros r. rewrite andb_false_r. reflexivity.
    + replace (filter _ reminders) with (@nil Reminder).
      * cbn [map]. rewrite app_nil_r. apply Permutation_refl.
      * induction reminders as [|r rest IHr]; [reflexivity|].
        cbn [filter]. rewrite andb_false_r. exact IHr.
  - destruct (check_reminders_spec title_of now reminders calls) as [C1 C2].
    destruct (IH (fst (_check_reminders title_of now reminders calls))
                 (snd (_check_reminders title_of now reminders calls)))
      as [I1 I2].
    unfold _run_loop in *. cbn [fold_left fst snd].
    rewrite <- surjective_pairing in I1, I2. rewrite I1. split.
    + rewrite C1. clear. rewrite map_map. apply map_ext. intros r.
      unfold reached. cbn [existsb].
      destruct (r_sent r) eqn:Es; cbn [negb andb].
      * rewrite Es. reflexivity.
      * destruct (dt_le (r_trigger_time r) now); cbn [orb r_sent mark_sent
          negb andb r_trigger_time]; [reflexivity|].
        rewrite Es. reflexivity.
    + eapply Permutation_trans; [exact I2|].
      rewrite C1, C2, <- app_assoc. apply Permutation_app_head.
      apply calls_of_tick.
Qed.

(** ** Files that [OrgStorage.load] passes over *)

Lemma load_files_app (todo_keys : list str) (now : datetime)
    (a b : directory) :
  load_files todo_keys now (a ++ b)
  = (da <- load_files todo_keys now a ;;
     db <- load_files todo_keys now b ;;
     Ok (da ++ db)).
Proof.
  induction a as [|[name c] a IH]; cbn [app load_files].
  - destruct (load_files todo_keys now b); reflexivity.
  - destruct (negb (endswith ".org" name)); [exact IH|].
    destruct (orgparse_load todo_keys c) as [nodes|e]; [|exact IH].
    rewrite IH.
    destruct (nodes_to_dicts now name nodes) as [ds|e]; [|reflexivity].
    cbn [bind].
    destruct (load_files todo_keys now a) as [da|e]; [|reflexivity].
    cbn [bind].
    destruct (load_files todo_keys now b) as [db|e]; [|reflexivity].
    cbn [bind]. rewrite app_assoc. reflexivity.
Qed.

(** X16: a file whose name does not end in [.org], or that [orgparse]
    cannot load, may stand anywhere in the directory: [load] returns, or
    raises, what it does without the file. *)
Theorem load_passes_over_other_files (todo_keys : list str) (now : datetime)
    (a b : directory) (name : str) (c : FileContent) (e : exn) :
  endswith ".org" name = false \/ orgparse_load todo_keys c = Raise e ->
  OrgStorage_load todo_keys now (a ++ (name, c) :: b)
  = OrgStorage_load todo_keys now (a ++ b).
Proof.
  intros H. unfold OrgStorage_load. rewrite !load_files_app.
  replace (load_files todo_keys now ((name, c) :: b))
    with (load_files todo_keys now b); [reflexivity|].
  cbn [load_files]. destruct H as [H|H]; rewrite H; cbn [negb].
  - reflexivity.
  - destruct (endswith ".org" name); reflexivity.
Qed.

(** The directory of the child-first outline with a picture before it and
    an outline that is not text after it. *)
Lemma load_passes_over_other_files_witness :
  OrgStorage_load default_todo_keys clock
    ((lit "cover.png", Undecodable) :: dir_child_first)
  = OrgStorage_load default_todo_keys clock dir_child_first /\
  OrgStorage_load default_todo_keys clock
    (dir_child_first ++ [(lit "broken.org", Undecodable)])
  = OrgStorage_load default_todo_keys clock dir_child_first.
Proof.
  split.
  - apply (@load_passes_over_other_files default_todo_keys clock []
             dir_child_first (lit "cover.png") Undecodable ValueError).
    left. reflexivity.
  - rewrite <- (app_nil_r dir_child_first) at 2.
    apply (@load_passes_over_other_files default_todo_keys clock
             dir_child_first [] (lit "broken.org") Undecodable ValueError).
    right. reflexivity.
Defined.

(** ** The calendar of the dashboard *)

Lemma first_of_month_valid (y m : Z) :
  valid_date y m 1 = (1 <=? y) && (y <=? 9999) && (1 <=? m) && (m <=? 12).
Proof.
  unfold valid_date, MINYEAR, MAXYEAR.
  destruct ((1 <=? y) && (y <=? 9999)); [|reflexivity]. cbn [andb].
  destruct (1 <=? m) eqn:E1; [|reflexivity].
  destruct (m <=? 12) eqn:E2; [|reflexivity]. cbn [andb].
  apply Z.leb_le in E1, E2. apply Z.leb_le.
  assert (Hm : m = 1 \/ m = 2 \/ m = 3 \/ m = 4 \/ m = 5 \/ m = 6 \/ m = 7 \/
               m = 8 \/ m = 9 \/ m = 10 \/ m = 11 \/ m = 12) by lia.
  unfold days_in_month.
  repeat (destruct Hm as [->|Hm]; [destruct (is_leap y); cbn; lia|]).
  subst m. cbn. lia.
Qed.

Lemma date_ok_fields (d : date) :
  date_ok d = true ->
  1 <= date_year d <= 9999 /\ 1 <= date_month d <= 12.
Proof.
  unfold date_ok, valid_date, MINYEAR, MAXYEAR. intros H.
  repeat (apply andb_prop in H; destruct H as [H ?]).
  repeat match goal with
         | [ E : (_ <=? _) = true |- _ ] => apply Z.leb_le in E
         end. lia.
Qed.

(** One key on a date that a [date] object can hold. *)
Lemma handle_input_step (d : date) :
  date_ok d = true ->
  (if (date_year d =? 9999) && (date_month d =? 12)
   then handle_input d KEY_RIGHT = (d, Raise ValueError)
   else exists d',
       handle_input d KEY_RIGHT = (d', Ok true) /\ date_ok d' = true /\
       date_day d' = 1 /\ month_index d' = month_index d + 1) /\
  (if (date_year d =? 1) && (date_month d =? 1)
   then handle_input d KEY_LEFT = (d, Raise ValueError)
   else exists d',
       handle_input d KEY_LEFT = (d', Ok true) /\ date_ok d' = true /\
       date_day d' = 1 /\ month_index d' = month_index d - 1).
Proof.
  intros Hok. destruct (date_ok_fields d Hok) as [Hy Hm].
  unfold handle_input, date_replace, month_index, date_ok. split.
  - destruct (date_month d + 1 =? 13) eqn:E13.
    + apply Z.eqb_eq in E13.
      replace (date_month d =? 12) with true by (symmetry; apply Z.eqb_eq; lia).
      rewrite andb_true_r, first_of_month_valid.
      destruct (date_year d =? 9999) eqn:Ey.
      * apply Z.eqb_eq in Ey. rewrite Ey. reflexivity.
      * apply Z.eqb_neq in Ey.
        replace ((1 <=? date_year d + 1) && (date_year d + 1 <=? 9999) &&
                 (1 <=? 1) && (1 <=? 12)) with true.
        -- eexists. split; [reflexivity|]. cbn [date_year date_month date_day].
           rewrite first_of_month_valid. split; [|split; lia].
           repeat (apply andb_true_intro; split); apply Z.leb_le; lia.
        -- symmetry.
           repeat (apply andb_true_intro; split); apply Z.leb_le; lia.
    + apply Z.eqb_neq in E13.
      replace (date_month d =? 12) with false
        by (symmetry; apply Z.eqb_neq; lia).
      rewrite andb_false_r, first_of_month_valid.
      replace ((1 <=? date_year d) && (date_year d <=? 9999) &&
               (1 <=? date_month d + 1) && (date_month d + 1 <=? 12))
        with true.
      * eexists. split; [reflexivity|]. cbn [date_year date_month date_day].
        rewrite first_of_month_valid. split; [|split; lia].
        repeat (apply andb_true_intro; split); apply Z.leb_le; lia.
      * symmetry.
        repeat (apply andb_true_intro; split); apply Z.leb_le; lia.
  - destruct (date_month d - 1 =? 0) eqn:E0.
    + apply Z.eqb_eq in E0.
      replace (date_month d =? 1) with true by (symmetry; apply Z.eqb_eq; lia).
      rewrite andb_true_r, first_of_month_valid.
      destruct (date_year d =? 1) eqn:Ey.
      * apply Z.eqb_eq in Ey. rewrite Ey. reflexivity.
      * apply Z.eqb_neq in Ey.
        replace ((1 <=? date_year d - 1) && (date_year d - 1 <=? 9999) &&
                 (1 <=? 12) && (12 <=? 12)) with true.
        -- eexists. split; [reflexivity|]. cbn [date_year date_month date_day].
           rewrite first_of_month_valid. split; [|split; lia].
           repeat (apply andb_true_intro; split); apply Z.leb_le; lia.
        -- symmetry.
           repeat (apply andb_true_intro; split); apply Z.leb_le; lia.
    + apply Z.eqb_neq in E0.
      replace (date_month d =? 1) with false
        by (symmetry; apply Z.eqb_neq; lia).
      rewrite andb_false_r, first_of_month_valid.
      replace ((1 <=? date_year d) && (date_year d <=? 9999) &&
               (1 <=? date_month d - 1) && (date_month d - 1 <=? 12))
        with true.
      * eexists. split; [reflexivity|]. cbn [date_year date_month date_day].
        rewrite first_of_month_valid. split; [|split; lia].
        repeat (apply andb_true_intro; split); apply Z.leb_le; lia.
      * symmetry.
        repeat (apply andb_true_intro; split); apply Z.leb_le; lia.
Qed.

Lemma date_by_month_index (a b : date) :
  date_ok a = true -> date_ok b = true ->
  month_index a = month_index b -> date_day a = date_day b -> a = b.
Proof.
  intros Ha Hb Hi Hd.
  destruct (date_ok_fields a Ha) as [_ Hma].
  destruct (date_ok_fields b Hb) as [_ Hmb].
  unfold month_index in Hi. destruct a as [ya ma da], b as [yb mb db].
  cbn [date_year date_month date_day] in *.
  assert (ya = yb) by lia. assert (ma = mb) by lia. congruence.
Qed.

(** X17: on a date that a [date] object can hold, RIGHT moves the calendar
    to the first day of the next month and LEFT after it brings back the
    first day of the month it started from; LEFT moves to the month before
    and RIGHT after it brings the month back.  At December of year 9999
    RIGHT, and at January of year 1 LEFT, raises [ValueError] and leaves
    the date. *)
Theorem calendar_keys_are_inverse (d : date) :
  date_ok d = true ->
  (if (date_year d =? 9999) && (date_month d =? 12)
   then handle_input d KEY_RIGHT = (d, Raise ValueError)
   else handle_inputs d [KEY_RIGHT; KEY_LEFT]
        = (mkdate (date_year d) (date_month d) 1, None)) /\
  (if (date_year d =? 1) && (date_month d =? 1)
   then handle_input d KEY_LEFT = (d, Raise ValueError)
   else handle_inputs d [KEY_LEFT; KEY_RIGHT]
        = (mkdate (date_year d) (date_month d) 1, None)).
Proof.
  intros Hok. destruct (date_ok_fields d Hok) as [Hy Hm].
  assert (Hfirst : date_ok (mkdate (date_year d) (date_month d) 1) = true).
  { unfold date_ok. cbn [date_year date_month date_day].
    rewrite first_of_month_valid.
    repeat (apply andb_true_intro; split); apply Z.leb_le; lia. }
  destruct (handle_input_step d Hok) as [HR HL]. split.
  - destruct ((date_year d =? 9999) && (date_month d =? 12)); [exact HR|].
    destruct HR as [d1 [E1 [Hok1 [Hd1 Hi1]]]].
    cbn [handle_inputs]. rewrite E1.
    destruct (handle_input_step d1 Hok1) as [_ HL1].
    destruct ((date_year d1 =? 1) && (date_month d1 =? 1)) eqn:E.
    + apply andb_prop in E. destruct E as [Ea Eb].
      apply Z.eqb_eq in Ea, Eb. unfold month_index in Hi1. lia.
    + destruct HL1 as [d2 [E2 [Hok2 [Hd2 Hi2]]]]. rewrite E2.
      f_equal. apply date_by_month_index; try assumption.
      unfold month_index in *. cbn [date_year date_month]. lia.
  - destruct ((date_year d =? 1) && (date_month d =? 1)); [exact HL|].
    destruct HL as [d1 [E1 [Hok1 [Hd1 Hi1]]]].
    cbn [handle_inputs]. rewrite E1.
    destruct (handle_input_step d1 Hok1) as [HR1 _].
    destruct ((date_year d1 =? 9999) && (date_month d1 =? 12)) eqn:E.
    + apply andb_prop in E. destruct E as [Ea Eb].
      apply Z.eqb_eq in Ea, Eb. unfold month_index in Hi1. lia.
    + destruct HR1 as [d2 [E2 [Hok2 [Hd2 Hi2]]]]. rewrite E2.
      f_equal. apply date_by_month_index; try assumption.
      unfold month_index in *. cbn [date_year date_month]. lia.
Qed.

(** From the last day of January 2024 the calendar goes to February and
    back to the first of January, and to December 2023 and back. *)
Lemma calendar_keys_are_inverse_witness :
  handle_inputs (mkdate 2024 1 31) [KEY_RIGHT; KEY_LEFT]
  = (mkdate 2024 1 1, None) /\
  handle_inputs (mkdate 2024 1 31) [KEY_LEFT; KEY_RIGHT]
  = (mkdate 2024 1 1, None).
Proof.
  apply (calendar_keys_are_inverse (mkdate 2024 1 31)). reflexivity.
Defined.

(** ** The data of the task graph *)

Lemma fold_left_collect (A B : Type) (g : A -> list B) (l : list A) :
  forall acc : list B,
    fold_left (fun acc x => acc ++ g x) l acc = acc ++ flat_map g l.
Proof.
  induction l as [|x l IH]; intros acc; cbn [fold_left flat_map].
  - rewrite app_nil_r. reflexivity.
  - rewrite IH, app_assoc. reflexivity.
Qed.

Lemma live_graph_fold (all : list Task) (ids : list str) (ts : list Task) :
  forall (nodes : list LiveNode) (links : list LiveLink),
    fold_left
      (fun '(nodes, links) task =>
         let has_children :=
           existsb (fun t => is_id (parent_id t) (id task)) all in
         let nodes :=
           nodes ++
           [mkLiveNode (id task) (title task)
              (or_default (author task) "Unknown") (description task)
              (Status_value (status task))
              (strftime_minute (created_at task)) (file task)
              (if has_children then 30 else 15)%Z] in
         let links :=
           match parent_id task with
           | Some p =>
               if truthy (Some p) && existsb (str_eqb p) ids
               then links ++ [mkLiveLink (id task) p]
               else links
           | None => links
           end in
         (nodes, links))
      ts (nodes, links)
    = (nodes ++
       map (fun task =>
              mkLiveNode (id task) (title task)
                (or_default (author task) "Unknown") (description task)
                (Status_value (status task))
                (strftime_minute (created_at task)) (file task)
                (if existsb (fun t => is_id (parent_id t) (id task)) all
                 then 30 else 15))
           ts,
       links ++
       flat_map (fun task =>
                   match parent_id task with
                   | Some p =>
                       if truthy (Some p) && existsb (str_eqb p) ids
                       then [mkLiveLink (id task) p] else []
                   | None => []
                   end)
                ts).
Proof.
  induction ts as [|task ts IH]; intros nodes links.
  - cbn [fold_left map flat_map]. rewrite !app_nil_r. reflexivity.
  - cbn [fold_left map flat_map]. rewrite IH. f_equal.
    + rewrite <- app_assoc. reflexivity.
    + rewrite app_assoc. f_equal.
      destruct (parent_id task) as [p|]; [|rewrite app_nil_r; reflexivity].
      destruct (truthy (Some p) && existsb (str_eqb p) ids);
        [reflexivity|rewrite app_nil_r; reflexivity].
Qed.

Lemma web_links_fold (keys : dict loc) (ts : list Task) :
  forall links : list WebLink,
    fold_left
      (fun links task =>
         match parent_id task with
         | Some p =>
             if truthy (Some p) && dict_mem keys p
             then links ++ [mkWebLink (id task) p "parent"]
             else links
         | None => links
         end)
      ts links
    = links ++
      flat_map (fun task =>
                  match parent_id task with
                  | Some p =>
                      if truthy (Some p) && dict_mem keys p
                      then [mkWebLink (id task) p "parent"] else []
                  | None => []
                  end)
               ts.
Proof.
  induction ts as [|task ts IH]; intros links.
  - cbn [fold_left flat_map]. rewrite app_nil_r. reflexivity.
  - cbn [fold_left flat_map]. rewrite IH, app_assoc. f_equal.
    destruct (parent_id task) as [p|]; [|rewrite app_nil_r; reflexivity].
    destruct (truthy (Some p) && dict_mem keys p);
      [reflexivity|rewrite app_nil_r; reflexivity].
Qed.

Lemma web_nodes_fold (central : option str) (ts : list Task) :
  forall nodes : list WebNode,
    map wn_id
      (fold_left
         (fun nodes task =>
            nodes ++
            [mkWebNode (id task) (title task)
               (or_default (author task) "Unknown")
               (or_default (Some (description task))
                           "No description available.")
               (Status_value (status task))
               (strftime_minute (created_at task))
               (is_id central (id task))
               (if is_id central (id task) then 50 else 15)%Z
               (parent_id task)])
         ts nodes)
    = map wn_id nodes ++ map id ts.
Proof.
  induction ts as [|task ts IH]; intros nodes.
  - cbn [fold_left map]. rewrite app_nil_r. reflexivity.
  - cbn [fold_left map]. rewrite IH, map_app, <- app_assoc. reflexivity.
Qed.

Lemma existsb_str_eqb (x : str) (l : list str) :
  existsb (str_eqb x) l = true <-> In x l.
Proof.
  rewrite existsb_exists. split.
  - intros [y [Hy E]]. apply str_eqb_eq in E. subst. exact Hy.
  - intros H. exists x. split; [exact H|]. apply str_eqb_eq. reflexivity.
Qed.

(** X18: the live graph has one node per task of the map, in the order of
    the map, and a link only from a task to the parent it names, and only
    when that parent is the id of a node: no link of the graph leads to a
    node that is not there. *)
Theorem live_graph_links_join_nodes (tm : TaskManager) :
  let (nodes, links) := build_graph_data_live (Some tm) in
  map ln_id nodes = map id (task_values tm) /\
  forall l, In l links ->
    In (ll_source l) (map ln_id nodes) /\
    In (ll_target l) (map ln_id nodes) /\
    exists task, In task (task_values tm) /\ id task = ll_source l /\
                 parent_id task = Some (ll_target l).
Proof.
  unfold build_graph_data_live. rewrite live_graph_fold.
  cbn [app]. rewrite map_map. cbn [ln_id]. split; [reflexivity|].
  intros l Hl. apply in_flat_map in Hl. destruct Hl as [task [Ht Hl]].
  destruct (parent_id task) as [p|] eqn:Ep; [|destruct Hl].
  destruct (truthy (Some p) && existsb (str_eqb p) (map id (task_values tm)))
    eqn:E; [|destruct Hl].
  destruct Hl as [<-|[]]. cbn [ll_source ll_target].
  apply andb_prop in E. destruct E as [_ E].
  apply existsb_str_eqb in E.
  split; [apply in_map; exact Ht|]. split; [exact E|].
  exists task. split; [exact Ht|]. split; [reflexivity|exact Ep].
Qed.

(** The family of a parent and its child: two nodes and the link from the
    child to the parent. *)
Lemma live_graph_links_join_nodes_witness :
  snd (build_graph_data_live (Some family_manager))
  = [mkLiveLink "c1" "p1"] /\
  In (lit "p1") (map ln_id (fst (build_graph_data_live (Some family_manager)))).
Proof.
  pose proof (live_graph_links_join_nodes family_manager) as H.
  destruct (build_graph_data_live (Some family_manager)) as [nodes links] eqn:E.
  assert (El : links = [mkLiveLink "c1" "p1"]).
  { vm_compute in E. injection E as _ <-. reflexivity. }
  split; [exact El|].
  destruct H as [_ H]. cbn [fst].
  assert (Hin : In (mkLiveLink "c1" "p1") links)
    by (rewrite El; left; reflexivity).
  exact (proj1 (proj2 (H _ Hin))).
Defined.

Lemma coherent_key_is_id (tm : TaskManager) (p : str) :
  coherent tm ->
  dict_mem (tasks tm) p = existsb (str_eqb p) (map id (task_values tm)).
Proof.
  intros Hco. apply eq_true_iff_eq. rewrite existsb_str_eqb, in_map_iff.
  unfold dict_mem. split.
  - destruct (dict_get (tasks tm) p) as [l|] eqn:El; [|discriminate].
    intros _. destruct (proj2 Hco p l El) as [t [Hl Hid]].
    exists t. split; [exact Hid|].
    apply (@get_task_values tm p t Hco). unfold get_task. rewrite El.
    exact Hl.
  - intros [t [Hid Ht]]. pose proof (@task_values_get tm t Hco Ht) as G.
    unfold get_task in G. rewrite Hid in G.
    destruct (dict_get (tasks tm) p); [reflexivity|discriminate].
Qed.

(** X19: in a manager whose keys are the ids of its tasks, the graph of
    [web_graph] and the live graph have the same node ids and the same
    links, so no link of either leads to a node that is not there. *)
Theorem web_graph_agrees_with_live (tm : TaskManager)
    (central_node_id : option str) :
  coherent tm ->
  map wn_id (fst (_build_graph_data tm central_node_id))
  = map ln_id (fst (build_graph_data_live (Some tm))) /\
  map (fun l => (wl_source l, wl_target l))
      (snd (_build_graph_data tm central_node_id))
  = map (fun l => (ll_source l, ll_target l))
        (snd (build_graph_data_live (Some tm))).
Proof.
  intros Hco. unfold build_graph_data_live. rewrite live_graph_fold.
  cbn [app fst snd]. rewrite map_map. cbn [ln_id].
  assert (E : forall ts,
             map (fun l => (wl_source l, wl_target l))
               (flat_map (fun task =>
                  match parent_id task with
                  | Some p =>
                      if truthy (Some p) && dict_mem (tasks tm) p
                      then [mkWebLink (id task) p "parent"] else []
                  | None => []
                  end) ts)
             = map (fun l => (ll_source l, ll_target l))
                 (flat_map (fun task =>
                    match parent_id task with
                    | Some p =>
                        if truthy (Some p) &&
                           existsb (str_eqb p) (map id (task_values tm))
                        then [mkLiveLink (id task) p] else []
                    | None => []
                    end) ts)).
  { induction ts as [|task ts IH]; [reflexivity|].
    cbn [flat_map]. rewrite !map_app, IH. f_equal.
    destruct (parent_id task) as [p|]; [|reflexivity].
    rewrite (coherent_key_is_id p Hco).
    destruct (truthy (Some p) && _); reflexivity. }
  unfold _build_graph_data.
  destruct (task_values tm) as [|t0 ts] eqn:Ev; [split; reflexivity|].
  rewrite <- Ev in *. cbn [fst snd].
  rewrite web_nodes_fold, web_links_fold. cbn [map app].
  split; [reflexivity|apply E].
Qed.

(** The two graphs of the family of a parent and its child. *)
Lemma web_graph_agrees_with_live_witness :
  map (fun l => (wl_source l, wl_target l))
      (snd (_build_graph_data family_manager None))
  = map (fun l => (ll_source l, ll_target l))
        (snd (build_graph_data_live (Some family_manager))).
Proof.
  exact (proj2 (web_graph_agrees_with_live None family_manager_coherent)).
Defined.

(** ** [isoformat] and [fromisoformat] *)

Lemma int_of_digits_pad6 (n : Z) :
  0 <= n <= 999999 -> int_of_digits (pad6 n) = n.
Proof.
  intros H. unfold int_of_digits, pad6. cbn [fold_left].
  rewrite !digit_val_digit by (apply mod10_digit; Z.div_mod_to_equations; lia).
  Z.div_mod_to_equations. lia.
Qed.

Lemma take_digits_pad6 (n : Z) (r : str) :
  0 <= n -> take_digits 6 (pad6 n ++ r) = Some (pad6 n, r).
Proof.
  intros H. unfold pad6. cbn [take_digits app].
  rewrite !is_digit_digit by (apply mod10_digit; Z.div_mod_to_equations; lia).
  reflexivity.
Qed.

Lemma isoformat_form (t : datetime) :
  isoformat t
  = pad4 (year t) ++ "-"%char :: pad2 (month t) ++ "-"%char :: pad2 (day t)
    ++ "T"%char :: pad2 (hour t) ++ ":"%char :: pad2 (minute t)
    ++ ":"%char :: pad2 (second t)
    ++ (if microsecond t =? 0 then []
        else "."%char :: pad6 (microsecond t) ++ []).
Proof.
  unfold isoformat, fstr. cbn [List.concat].
  destruct (microsecond t =? 0); cbn [List.concat];
    rewrite ?app_nil_r; rewrite <- ?app_assoc; reflexivity.
Qed.

(** What [isoformat] writes for a date that a [datetime] object can hold,
    [fromisoformat] reads back. *)
Lemma fromisoformat_isoformat (t : datetime) :
  valid_datetime t = true -> fromisoformat (isoformat t) = Ok t.
Proof.
  intros Hv.
  destruct (valid_datetime_parts t Hv) as (Hd & Hh & Hmi & Hs & Hus).
  pose proof Hd as Hd'. unfold valid_date, MINYEAR, MAXYEAR in Hd'.
  repeat (apply andb_prop in Hd'; destruct Hd' as [Hd' ?H]).
  repeat match goal with
         | E : (_ <=? _) = true |- _ => apply Z.leb_le in E
         end.
  assert (Hd31 : day t <= 99).
  { unfold days_in_month, DAYS_IN_MONTH in H.
    destruct ((month t =? 2) && is_leap (year t)); [lia|].
    destruct (month t) as [|p|p]; try lia.
    repeat (destruct p as [p|p|]; try lia). }
  assert (Hnew : new_datetime (year t) (month t) (day t) (hour t) (minute t)
                   (second t) (microsecond t) = Ok t).
  { rewrite new_datetime_ok; [destruct t; reflexivity|exact Hd|].
    apply valid_time_bounds. lia. }
  rewrite isoformat_form. unfold fromisoformat.
  rewrite take_digits_pad4 by lia. rewrite take_digits_pad2 by lia.
  rewrite Ascii.eqb_refl. cbn [andb].
  rewrite take_digits_pad2 by lia. unfold iso_time.
  rewrite take_digits_pad2 by lia.
  change (is_colon ":"%char) with true. cbv iota.
  rewrite take_digits_pad2 by lia. cbv iota.
  rewrite int_of_digits_pad4 by lia.
  destruct (microsecond t =? 0) eqn:Eus.
  - rewrite take_digits_pad2 by lia.
    rewrite !int_of_digits_pad2 by lia.
    apply Z.eqb_eq in Eus. rewrite <- Eus. exact Hnew.
  - rewrite take_digits_pad2 by lia.
    rewrite Ascii.eqb_refl. unfold iso_fraction.
    rewrite take_digits_pad6 by lia.
    rewrite !int_of_digits_pad2 by lia.
    rewrite int_of_digits_pad6 by lia. exact Hnew.
Qed.

(** ** The author and the creation time of a record *)

Lemma node_properties_created (t : Task) :
  dict_get (node_properties t) "created_at"
  = Some (isoformat (created_at t)).
Proof.
  unfold node_properties.
  destruct (truthy (parent_id t)), (truthy (author t)); reflexivity.
Qed.

Lemma isoformat_truthy (t : datetime) : truthy (Some (isoformat t)) = true.
Proof. rewrite isoformat_form. unfold pad4. reflexivity. Qed.

Lemma node_to_dict_created (now : datetime) (filename : str) (t : Task)
    (n : OrgNode) (d : TaskData) :
  properties n = node_properties t ->
  node_to_dict now filename n = Ok d -> reads_created t d.
Proof.
  intros Hp. unfold node_to_dict, get_default. rewrite Hp.
  destruct (node_properties_get t) as [_ [_ [_ [_ [_ Hau]]]]].
  rewrite node_properties_created, isoformat_truthy, Hau.
  destruct (Status_of _) as [st|e]; [|discriminate].
  destruct (Priority_of _) as [pr|e]; [|discriminate].
  cbn [bind]. intros E.
  apply (f_equal (fun r => match r with Ok x => x | Raise _ => d end)) in E.
  cbv beta iota in E. subst d. split; [reflexivity|].
  cbn [d_created_at]. intros Hv.
  rewrite (fromisoformat_isoformat _ Hv). reflexivity.
Qed.

Lemma nodes_to_dicts_created (now : datetime) (filename : str)
    (tr : list (Task * nat)) :
  forall (stack : list (nat * list str)) (ds : list TaskData),
    nodes_to_dicts now filename (inherit_tags stack (map node_of tr)) = Ok ds ->
    Forall2 reads_created (map fst tr) ds.
Proof.
  induction tr as [|[t lvl] tr IH]; intros stack ds.
  - cbn [map inherit_tags nodes_to_dicts]. intros E. injection E as <-.
    constructor.
  - cbn [map inherit_tags fst nodes_to_dicts].
    match goal with
    | |- context [node_to_dict now filename ?n] =>
        destruct (node_to_dict now filename n) as [d|e] eqn:Ed;
          [|discriminate]
    end.
    cbn [bind].
    match goal with
    | |- context [nodes_to_dicts now filename ?ns] =>
        destruct (nodes_to_dicts now filename ns) as [ds'|e] eqn:Eds;
          [|discriminate]
    end.
    cbn [bind]. intros E. injection E as <-. constructor.
    + refine (@node_to_dict_created now filename t _ d _ Ed). reflexivity.
    + apply (IH _ _ Eds).
Qed.

Lemma load_files_created (todo_keys : list str) (now : datetime)
    (trf : str -> list (Task * nat)) :
  keys_ok todo_keys = true ->
  forall (files : directory) (data : list TaskData),
    (forall name c, In (name, c) files -> endswith ".org" name = true ->
       no_break name = true /\
       c = Text (title_line name ++ render (trf name)) /\
       Forall (fun e => task_ok todo_keys (fst e) = true /\
                        (1 <= snd e)%nat) (trf name)) ->
    load_files todo_keys now files = Ok data ->
    Forall2 reads_created (records_of trf files) data.
Proof.
  intros Hkeys. induction files as [|[name c] files IH]; intros data H.
  - cbn [load_files]. intros E. injection E as <-. constructor.
  - assert (H' : forall name' c', In (name', c') files ->
                 endswith ".org" name' = true ->
                 no_break name' = true /\
                 c' = Text (title_line name' ++ render (trf name')) /\
                 Forall (fun e => task_ok todo_keys (fst e) = true /\
                                  (1 <= snd e)%nat) (trf name')).
    { intros name' c' Hin. apply H. right. exact Hin. }
    cbn [load_files]. unfold records_of. cbn [flat_map fst].
    fold (records_of trf files).
    destruct (endswith ".org" name) eqn:Eorg; cbn [negb].
    + destruct (H name c (or_introl eq_refl) Eorg) as [Hnb [-> Hok]].
      rewrite (@orgparse_load_records _ _ _ Hkeys Hnb Hok).
      destruct (nodes_to_dicts now name (inherit_tags [] (map node_of (trf name))))
        as [ds|e] eqn:Eds; [|discriminate].
      cbn [bind].
      destruct (load_files todo_keys now files) as [rest|e] eqn:Erest;
        [|discriminate].
      cbn [bind]. intros E. injection E as <-.
      apply Forall2_app.
      * apply (@nodes_to_dicts_created now name (trf name) [] ds Eds).
      * apply (IH rest H' eq_refl).
    + intros E. apply (IH data H' E).
Qed.

Lemma Forall2_both {A B : Type} (R S : A -> B -> Prop) (xs : list A)
    (ys : list B) :
  Forall2 R xs ys -> Forall2 S xs ys ->
  Forall2 (fun x y => R x y /\ S x y) xs ys.
Proof.
  induction 1 as [|a b xs ys Hab _ IH]; intros HS.
  - constructor.
  - inversion HS; subst. constructor; [split; assumption|].
    apply IH. assumption.
Qed.

(** X20: under the conditions of the round trip ([task_ok], with its plain
    file names, in any file system around the directory), a save that
    returns followed by a load of the directory it wrote gives back every
    task with its author, when that is not empty, and with its creation
    time, when that is a date a [datetime] object can hold. *)
Theorem save_then_load_keeps_created_at (todo_keys : list str)
    (now : datetime) (env : surroundings) (depth : nat)
    (tm : TaskManager)
    (dir dir' : directory) :
  keys_ok todo_keys = true -> coherent tm -> closed tm -> owned tm dir ->
  (forall t, In t (task_values tm) -> task_ok todo_keys t = true) ->
  save_tasks env depth tm dir = (dir', None) ->
  exists tm',
    new_TaskManager todo_keys now dir' = Ok tm' /\
    forall k t, get_task tm k = Some t ->
      exists t',
        get_task tm' k = Some t' /\
        author t' = if_truthy (author t) /\
        (valid_datetime (created_at t) = true ->
         created_at t' = created_at t).
Proof.
  intros Hkeys Hco Hcl [Hdnd Hown] Hok Hsave.
  unfold save_tasks, OrgStorage_save in Hsave. unfold closed in Hcl.
  set (ts := task_values tm) in *. set (h := objects tm) in *.
  set (pool := flat_map tags ts).
  set (trf := fun name => file_trace depth h name ts).
  destruct (@save_files_keys env depth h (tasks_by_file ts) dir dir' None
              Hsave) as [Hnd' Hkeys'].
  specialize (Hnd' Hdnd).
  assert (Hfile : forall name,
             In name (dict_keys dir') -> endswith ".org" name = true ->
             exists t, In t ts /\ file t = Some name).
  { intros name Hn Ho. destruct (Hkeys' name Hn) as [H|(g & Hg & Eo)].
    - apply Hown; assumption.
    - rewrite (@groups_open_by_name env todo_keys ts Hok g name Hg Eo).
      apply tasks_by_file_key in Hg. exact Hg. }
  assert (Htrace : forall name u lvl,
             In (u, lvl) (trf name) -> In u ts /\ (1 <= lvl)%nat).
  { intros name u lvl H. unfold trf, file_trace in H.
    apply in_flat_map in H. destruct H as [r [Hr Hu]].
    apply (proj1 (sorted_by_created_In _ _)) in Hr.
    unfold tasks_of_file in Hr. apply filter_In in Hr. destruct Hr as [Hr _].
    apply (@written_closed h ts Hcl depth r 1%nat u lvl Hr Hu). }
  assert (Hsaved : forall t name,
             In t ts -> file t = Some name ->
             dict_get dir' name
             = Some (Text (title_line name ++ render (trf name))) /\
             In (t, 1%nat) (trf name)).
  { intros t name Ht Hf.
    pose proof (@tasks_by_file_get ts name t Ht Hf) as Hg.
    pose proof (task_ok_file _ _ (Hok t Ht)) as Hfo. rewrite Hf in Hfo.
    apply file_ok_parts in Hfo. destruct Hfo as (_ & _ & Hplain).
    destruct (@save_files_ok env depth h name (tasks_of_file name ts)
                (tasks_by_file ts) dir dir' (tasks_by_file_keys ts) Hg Hplain)
      with (2 := Hsave) as [Hd Hin].
    { intros g Hin Eo. symmetry.
      apply (@groups_open_by_name env todo_keys ts Hok g name Hin Eo). }
    split; [exact Hd|]. apply Hin. unfold tasks_of_file.
    apply filter_In. split; [exact Ht|]. rewrite Hf.
    apply opt_str_eqb_refl. }
  assert (Hfiles : forall name c,
             In (name, c) dir' -> endswith ".org" name = true ->
             no_break name = true /\
             c = Text (title_line name ++ render (trf name)) /\
             Forall (fun e => task_ok todo_keys (fst e) = true /\
                              (1 <= snd e)%nat) (trf name) /\
             Forall (fun e => incl (tags (fst e)) pool) (trf name)).
  { intros name c Hin Ho.
    assert (Hn : In name (dict_keys dir')).
    { apply in_map_iff. exists (name, c). tauto. }
    destruct (Hfile name Hn Ho) as [t [Ht Hf]].
    destruct (Hsaved t name Ht Hf) as [Hd _].
    pose proof (dict_get_NoDup_In _ _ _ Hnd' Hin) as Hd'.
    rewrite Hd in Hd'. injection Hd' as <-.
    split.
    { pose proof (task_ok_file _ _ (Hok t Ht)) as Hfo. rewrite Hf in Hfo.
      apply file_ok_parts in Hfo. tauto. }
    split; [reflexivity|]. split.
    - apply Forall_forall. intros [u lvl] Hu.
      destruct (Htrace _ _ _ Hu) as [Hu' Hl]. cbn [fst snd].
      split; [apply Hok; exact Hu'|exact Hl].
    - apply Forall_forall. intros [u lvl] Hu.
      destruct (Htrace _ _ _ Hu) as [Hu' _]. cbn [fst].
      intros x Hx. unfold pool. apply in_flat_map. exists u. tauto. }
  destruct (@load_files_records todo_keys now pool trf Hkeys dir' Hfiles)
    as [data [Eload F2]].
  assert (F3 : Forall2 reads_created (records_of trf dir') data).
  { apply (@load_files_created todo_keys now trf Hkeys dir' data);
      [|exact Eload].
    intros name c Hin Ho. destruct (Hfiles name c Hin Ho) as [A [B [C _]]].
    tauto. }
  pose proof (Forall2_both F2 F3) as F4.
  assert (Hrec_in : forall t, In t (records_of trf dir') -> In t ts).
  { intros t H. unfold records_of in H. apply in_flat_map in H.
    destruct H as [[name c] [Hin Ht]]. cbn [fst] in Ht.
    destruct (endswith ".org" name); [|contradiction].
    apply in_map_iff in Ht. destruct Ht as [[u lvl] [E Hu]].
    cbn [fst] in E. subst u. apply (Htrace _ _ _ Hu). }
  assert (Hrec_all : forall t, In t ts -> In t (records_of trf dir')).
  { intros t Ht. pose proof (task_ok_file _ _ (Hok t Ht)) as Hfo.
    destruct (file t) as [name|] eqn:Hf; [|discriminate].
    apply file_ok_parts in Hfo. destruct Hfo as [Ho _].
    destruct (Hsaved t name Ht Hf) as [Hd Hin].
    unfold records_of. apply in_flat_map.
    eexists (name, _). split; [apply dict_get_In; exact Hd|].
    cbn [fst]. rewrite Ho. apply in_map_iff. exists (t, 1%nat). tauto. }
  set (P := fun d => exists t, In t ts /\ reads_as pool t d /\
                               reads_created t d).
  assert (HP : Forall P data).
  { apply Forall_forall. intros d Hd.
    destruct (@Forall2_In_r _ _ _ _ _ d F4 Hd) as [t [Ht [Hr Hc]]].
    exists t. split; [apply Hrec_in; exact Ht|]. split; assumption. }
  destruct (@load_tasks_get P data HP) as [Hmem Hget].
  exists (load_tasks data). split.
  { unfold new_TaskManager, OrgStorage_load. rewrite Eload. reflexivity. }
  intros k t Hgt. destruct (@get_task_values tm k t Hco Hgt) as [Ht Hid].
  assert (Hk : dict_mem (tasks (load_tasks data)) k = true).
  { apply Hmem.
    destruct (@Forall2_In_l _ _ _ _ _ t F2 (Hrec_all t Ht))
      as [d [Hd [Hdid _]]].
    exists d. split; [exact Hd|]. rewrite Hdid, Hid. reflexivity. }
  destruct (Hget k Hk)
    as [d [t0 [t' [[u [Hu [Hr Hc]]] [Hdid [Htask [Hgt' [Hcore _]]]]]]]].
  assert (u = t).
  { destruct Hr as [Huid _]. rewrite Huid in Hdid. injection Hdid as Hdid.
    pose proof (@task_values_get tm u Hco Hu) as G. rewrite Hdid in G.
    congruence. }
  subst u. destruct Hc as [Hau Hca].
  unfold task_of_data in Htask. injection Htask as <-.
  pose proof (f_equal author Hcore) as C1.
  pose proof (f_equal created_at Hcore) as C2.
  cbn in C1, C2.
  exists t'. split; [exact Hgt'|]. split; [congruence|].
  intros Hv. rewrite C2. apply Hca. exact Hv.
Qed.

(** The trip and its packing: the packing keeps its author, and both keep
    the time they were created. *)
Lemma save_then_load_keeps_created_at_witness :
  let dir' := fst (save_tasks closed_surroundings 100 outline_manager []) in
  exists tm',
    new_TaskManager default_todo_keys clock dir' = Ok tm' /\
    forall k t, get_task outline_manager k = Some t ->
      exists t',
        get_task tm' k = Some t' /\
        author t' = if_truthy (author t) /\
        (valid_datetime (created_at t) = true ->
         created_at t' = created_at t).
Proof.
  intros dir'.
  apply (@save_then_load_keeps_created_at default_todo_keys clock
           closed_surroundings 100%nat
           outline_manager [] dir').
  - reflexivity.
  - split.
    + vm_compute. repeat constructor; simpl; intuition discriminate.
    + intros k l H. unfold outline_manager in *. cbn [tasks dict_get] in H.
      destruct (str_eqb k "p1") eqn:E1.
      * apply str_eqb_eq in E1. injection H as <-. subst k.
        eexists. split; reflexivity.
      * destruct (str_eqb k "c1") eqn:E2; [|discriminate].
        apply str_eqb_eq in E2. injection H as <-. subst k.
        eexists. split; reflexivity.
  - intros t c Ht Hc. vm_compute in Ht.
    destruct Ht as [<-|[<-|[]]]; vm_compute in Hc.
    + destruct Hc as [<-|[]]. vm_compute. tauto.
    + destruct Hc.
  - split; [constructor|]. intros name [].
  - intros t Ht. vm_compute in Ht.
    destruct Ht as [<-|[<-|[]]]; vm_compute; reflexivity.
  - vm_compute. reflexivity.
Defined.

(** ** What a load does not bring back *)

(** X21: every task of a loaded manager has the reminder lead of 30
    minutes, reminders enabled and no scheduled date, whatever these were
    when the files were written: the dictionaries of the storage do not
    carry them. *)
Theorem load_tasks_resets_reminder_settings (data : list TaskData)
    (k : str) (t : Task) :
  get_task (load_tasks data) k = Some t ->
  reminder_minutes t = 30 /\ reminder_enabled t = true /\
  scheduled_date t = None.
Proof.
  intros Hg.
  assert (HP : Forall (fun _ : TaskData => True) data).
  { apply Forall_forall. intros d _. exact I. }
  destruct (@load_tasks_get _ data HP) as [_ Hget].
  assert (Hk : dict_mem (tasks (load_tasks data)) k = true).
  { unfold dict_mem. unfold get_task in Hg.
    destruct (dict_get (tasks (load_tasks data)) k); [reflexivity|].
    discriminate. }
  destruct (Hget k Hk) as [d [t0 [t' [_ [_ [Htask [Hgt' [Hcore _]]]]]]]].
  assert (t' = t) by congruence. subst t'.
  unfold task_of_data in Htask. injection Htask as <-.
  pose proof (f_equal reminder_minutes Hcore) as C1.
  pose proof (f_equal reminder_enabled Hcore) as C2.
  pose proof (f_equal scheduled_date Hcore) as C3.
  cbn in C1, C2, C3. tauto.
Qed.

(** The child of the loaded family. *)
Lemma load_tasks_resets_reminder_settings_witness :
  exists t, get_task (load_tasks family_data) "c1" = Some t /\
            reminder_minutes t = 30 /\ reminder_enabled t = true /\
            scheduled_date t = None.
Proof.
  destruct (get_task (load_tasks family_data) "c1") as [t|] eqn:E;
    [|vm_compute in E; discriminate].
  exists t. split; [reflexivity|].
  exact (@load_tasks_resets_reminder_settings family_data (lit "c1") t E).
Defined.

(** ** The operations of the manager keep the keys coherent *)

Lemma coherent_same_ids (h h' : heap) (d : dict loc) :
  (forall l t, heap_get h l = Some t ->
               exists t', heap_get h' l = Some t' /\ id t' = id t) ->
  coherent (mkTaskManager h d) -> coherent (mkTaskManager h' d).
Proof.
  intros Hh [Hnd Hco]. split; [exact Hnd|].
  cbn [tasks objects] in *. intros k l Hk.
  destruct (Hco k l Hk) as [t [Hl Hid]].
  destruct (Hh l t Hl) as [t' [Hl' Hid']].
  exists t'. split; [exact Hl'|congruence].
Qed.

Lemma heap_upd_keeps_ids (h : heap) (lp : loc) (f : Task -> Task) :
  (forall t, id (f t) = id t) ->
  forall l t, heap_get h l = Some t ->
              exists t', heap_get (heap_upd h lp f) l = Some t' /\
                         id t' = id t.
Proof.
  intros Hf l t Hl. destruct (Nat.eq_dec lp l) as [->|Hne].
  - rewrite heap_get_upd_same, Hl. cbn [option_map].
    exists (f t). split; [reflexivity|apply Hf].
  - rewrite heap_get_upd_other by exact Hne. exists t. tauto.
Qed.

Lemma setattr_fold_id (task_id : str) (kwargs : list kwarg) :
  (forall v, In (K_id v) kwargs -> v = task_id) ->
  forall t, id t = task_id -> id (fold_left setattr kwargs t) = task_id.
Proof.
  induction kwargs as [|k kwargs IH]; intros H t Ht; [exact Ht|].
  cbn [fold_left]. apply IH.
  - intros v Hv. apply H. right. exact Hv.
  - destruct k; cbn [setattr id set_children set_parent_id]; try exact Ht.
    apply H. left. reflexivity.
Qed.

(** X22: [add_task] leaves the keys of the map the ids of its tasks,
    whatever the title, the parent, the file and the keywords are and
    whether the save returns or raises: the new task is filed under the id
    it ends up with. *)
Theorem add_task_keeps_coherent (env : surroundings) (depth : nat)
    (fresh_id : str) (now : datetime) (tm : TaskManager) (dir : directory)
    (title0 : str)
    (parent filename : option str) (kwargs : list kwarg) :
  coherent tm ->
  coherent (fst (fst (add_task env depth fresh_id now (tm, dir) title0 parent
                               filename kwargs))).
Proof.
  intros Hco. unfold add_task.
  destruct (new_Task fresh_id now title0 parent filename kwargs)
    as [new_task|e]; [|exact Hco].
  unfold heap_alloc.
  set (h1 := objects tm ++ [new_task]).
  set (l := length (objects tm)).
  set (tasks' := dict_set (tasks tm) (id new_task) l).
  assert (Hbase : coherent (mkTaskManager h1 tasks')).
  { destruct Hco as [Hnd Hco]. split.
    - apply dict_set_NoDup. exact Hnd.
    - cbn [tasks objects]. intros k l0 Hk. unfold tasks' in Hk.
      rewrite dict_get_set in Hk.
      destruct (str_eqb (id new_task) k) eqn:E.
      + apply str_eqb_eq in E. injection Hk as <-.
        exists new_task. split; [|exact E].
        apply (heap_get_alloc (objects tm) new_task).
      + destruct (Hco k l0 Hk) as [t [Hl Hid]].
        exists t. split; [|exact Hid].
        unfold h1, heap_get. rewrite nth_error_app1; [exact Hl|].
        apply nth_error_Some. unfold heap_get in Hl. congruence. }
  match goal with
  | |- context [save_tasks env depth (mkTaskManager ?h' tasks') dir] =>
      assert (Hfin : coherent (mkTaskManager h' tasks'))
  end.
  { destruct parent as [p|]; [|exact Hbase].
    destruct (if truthy (Some p) then dict_get tasks' p else None) as [lp|];
      [|exact Hbase].
    apply (@coherent_same_ids h1 _ tasks'); [|exact Hbase].
    apply heap_upd_keeps_ids. intros t. reflexivity. }
  match goal with
  | |- context [save_tasks env depth ?m dir] =>
      destruct (save_tasks env depth m dir) as [dir' [e|]]
  end; exact Hfin.
Qed.

(** An add of a child to the family. *)
Lemma add_task_keeps_coherent_witness :
  coherent (fst (fst (add_task closed_surroundings 100 "n1" clock
                               (family_manager, [])
                               "Grandchild" (Some (lit "c1"))
                               (Some (lit "a.org")) []))).
Proof.
  apply add_task_keeps_coherent. exact family_manager_coherent.
Defined.

(** X23: [update_task] leaves the keys of the map the ids of its tasks
    when the patch does not change the id of the task. *)
Theorem update_task_keeps_coherent (env : surroundings) (depth : nat)
    (tm : TaskManager)
    (dir : directory) (task_id : str) (kwargs : list kwarg) :
  coherent tm ->
  (forall v, In (K_id v) kwargs -> v = task_id) ->
  coherent (fst (fst (update_task env depth (tm, dir) task_id kwargs))).
Proof.
  intros Hco Hid. unfold update_task.
  destruct (dict_get (tasks tm) task_id) as [l|] eqn:El; [|exact Hco].
  match goal with
  | |- context [save_tasks env depth ?m dir] =>
      destruct (save_tasks env depth m dir) as [dir' e]
  end.
  cbn [fst]. destruct Hco as [Hnd Hco]. split; [exact Hnd|].
  cbn [tasks objects]. intros k l0 Hk.
  destruct (Hco k l0 Hk) as [t [Hl Ht]].
  destruct (Nat.eq_dec l l0) as [<-|Hne].
  - assert (Ek : k = task_id).
    { destruct (Hco task_id l El) as [t1 [Hl1 Ht1]]. congruence. }
    rewrite Ek in *. rewrite (@update_fold_get l kwargs (objects tm) t Hl).
    eexists. split; [reflexivity|].
    apply setattr_fold_id; [|exact Ht].
    intros v Hv. apply filter_In in Hv. apply Hid. tauto.
  - rewrite (@update_fold_other l l0 kwargs Hne). exists t. tauto.
Qed.

(** A new title and status for the child of the family. *)
Lemma update_task_keeps_coherent_witness :
  coherent (fst (fst (update_task closed_surroundings 100
                                  (family_manager, []) "c1"
                                  [K_title "Child, done"; K_status DONE]))).
Proof.
  apply update_task_keeps_coherent; [exact family_manager_coherent|].
  intros v [H|[H|[]]]; discriminate.
Defined.

(** ** The file of a new top-level task *)

Lemma lower_char_class (c : ascii) :
  is_upper (lower_char c) = false /\
  (is_space (lower_char c) = is_space c) /\
  (Ascii.eqb (lower_char c) "_" = Ascii.eqb c "_") /\
  (Ascii.eqb (lower_char c) "-" = Ascii.eqb c "-") /\
  (is_ascii c = true -> is_alnum_latin (lower_char c) = false).
Proof.
  destruct c as [[] [] [] [] [] [] [] []]; vm_compute; repeat split;
    intros H; first [reflexivity | discriminate H].
Qed.

Lemma hyphenate_chars (s : str) :
  Forall (fun c => (is_upper c = false /\ is_alnum_latin c = false) /\
                   (is_word c || is_space c || Ascii.eqb c "-") = true) s ->
  forall in_run, forallb is_slug_char (hyphenate in_run s) = true.
Proof.
  induction 1 as [|c s [[Hu Hl] Hc] _ IH]; intros in_run; [reflexivity|].
  cbn [hyphenate].
  destruct (is_space c || Ascii.eqb c "_" || Ascii.eqb c "-") eqn:E.
  - destruct in_run; [apply IH|]. cbn [forallb]. rewrite IH. reflexivity.
  - cbn [forallb]. rewrite IH, andb_true_r.
    apply orb_false_elim in E. destruct E as [E E3].
    apply orb_false_elim in E. destruct E as [E1 E2].
    unfold is_word in Hc. rewrite Hu, Hl, E1, E2, E3 in Hc.
    unfold is_slug_char. rewrite E3.
    destruct (is_lower c), (is_digit c); try reflexivity; discriminate.
Qed.

Lemma hyphenate_no_double (s : str) :
  forall in_run,
    contains "--" (hyphenate in_run s) = false /\
    (in_run = true -> startswith "-" (hyphenate in_run s) = false).
Proof.
  induction s as [|c s IH]; intros in_run; [split; reflexivity|].
  cbn [hyphenate].
  destruct (is_space c || Ascii.eqb c "_" || Ascii.eqb c "-") eqn:E.
  - destruct in_run.
    + apply IH.
    + destruct (IH true) as [I1 I2]. split; [|discriminate].
      cbn [contains]. rewrite I1, orb_false_r.
      change (startswith "--" ("-"%char :: hyphenate true s))
        with (startswith "-" (hyphenate true s)).
      apply I2. reflexivity.
  - destruct (IH false) as [I1 _].
    apply orb_false_elim in E. destruct E as [_ E3].
    assert (E3' : Ascii.eqb "-" c = false).
    { rewrite Ascii.eqb_sym. exact E3. }
    split.
    + cbn [contains]. rewrite I1, orb_false_r.
      change (startswith "--" (c :: hyphenate false s))
        with (Ascii.eqb "-" c && startswith "-" (hyphenate false s)).
      rewrite E3'. reflexivity.
    + intros _.
      change (startswith "-" (c :: hyphenate false s))
        with (Ascii.eqb "-" c && true).
      rewrite E3'. reflexivity.
Qed.

(** X24: the file that key [a] gives a new task with a title of ASCII
    characters is named by lower-case letters, digits and single hyphens
    followed by [.org]: it has no path separator and no upper-case letter,
    and [load] takes it for an outline file. *)
Theorem filename_of_title_is_a_slug (title0 : str) :
  forallb is_ascii title0 = true -> title0 <> [] ->
  exists s,
    filename_of_title title0 = Some (s ++ lit ".org") /\
    forallb is_slug_char s = true /\ contains "--" s = false /\
    endswith ".org" (s ++ lit ".org") = true.
Proof.
  intros Hascii Hne. unfold filename_of_title.
  destruct title0 as [|c0 rest]; [congruence|].
  set (s0 := lower (strip (c0 :: rest))).
  exists (hyphenate false (drop_punctuation s0)).
  split; [unfold fstr; cbn [List.concat]; rewrite app_nil_r; reflexivity|].
  split; [|split].
  - apply hyphenate_chars. apply Forall_forall. intros c Hc.
    unfold drop_punctuation in Hc. apply filter_In in Hc.
    destruct Hc as [Hc Hk]. split; [|exact Hk].
    unfold s0, lower in Hc. apply in_map_iff in Hc.
    destruct Hc as [c' [<- Hc']].
    destruct (lower_char_class c') as (H1 & _ & _ & _ & H5).
    split; [exact H1|]. apply H5.
    apply (forallb_strip is_ascii) in Hascii.
    rewrite forallb_forall in Hascii. apply Hascii. exact Hc'.
  - apply hyphenate_no_double.
  - unfold endswith. rewrite rev_app_distr.
    change (rev (lit ".org")) with (lit "gro.").
    cbn [lit list_ascii_of_string app startswith].
    rewrite !Ascii.eqb_refl. reflexivity.
Qed.

(** A title with upper-case letters, punctuation and a path. *)
Lemma filename_of_title_is_a_slug_witness :
  filename_of_title "  ../Plans: Q3_review!  "
  = Some (lit "plans-q3-review.org") /\
  exists s,
    filename_of_title "  ../Plans: Q3_review!  " = Some (s ++ lit ".org") /\
    forallb is_slug_char s = true /\ contains "--" s = false /\
    endswith ".org" (s ++ lit ".org") = true.
Proof.
  split; [reflexivity|].
  apply filename_of_title_is_a_slug; [reflexivity|discriminate].
Defined.

(** ** The rows of the task list *)

Lemma flatten_each (depth : nat) (h : heap) (collapsed : list str)
    (level : nat) (pc : bool) (task : Task) (ts : list Task)
    (planner : list Row) :
  flatten (S depth) h collapsed planner (task :: ts) level pc
  = let planner :=
      if pc then planner else planner ++ [mkRow task level (id task)] in
    match deref h (children task) with
    | [] => flatten (S depth) h collapsed planner ts level pc
    | c :: cs =>
        match flatten depth h collapsed planner (c :: cs) (level + 1)
                      (if existsb (str_eqb (id task)) collapsed then true
                       else pc) with
        | (planner, None) => flatten (S depth) h collapsed planner ts level pc
        | (planner, Some e) => (planner, Some e)
        end
    end.
Proof. reflexivity. Qed.

Lemma flatten_nil (depth : nat) (h : heap) (collapsed : list str)
    (level : nat) (pc : bool) (planner : list Row) :
  flatten (S depth) h collapsed planner [] level pc = (planner, None).
Proof. reflexivity. Qed.

(** Under a folded task nothing is appended. *)
Lemma flatten_hidden (h : heap) (collapsed : list str) (depth : nat) :
  forall (ts : list Task) (level : nat) (planner : list Row),
    (1 <= depth)%nat -> Forall (shallow h depth) ts ->
    flatten depth h collapsed planner ts level true = (planner, None).
Proof.
  induction depth as [|depth IH]; intros ts level planner Hd Hs; [lia|].
  induction ts as [|task ts IHts]; [reflexivity|].
  inversion Hs as [|? ? Ht Hts]; subst.
  rewrite flatten_each. cbv zeta.
  destruct (deref h (children task)) as [|c cs] eqn:Ec; [apply IHts, Hts|].
  assert (Hcs : Forall (shallow h depth) (c :: cs)).
  { apply Forall_forall. intros x Hx. cbn [shallow] in Ht. apply Ht.
    rewrite Ec. exact Hx. }
  assert (Hd' : (1 <= depth)%nat).
  { destruct depth; [|lia]. inversion Hcs as [|? ? F _]. destruct F. }
  replace (if existsb (str_eqb (id task)) collapsed then true else true)
    with true by (destruct (existsb _ _); reflexivity).
  rewrite (IH (c :: cs) (level + 1)%nat planner Hd' Hcs).
  apply IHts, Hts.
Qed.

Lemma flatten_rows (h : heap) (collapsed : list str) (depth : nat) :
  forall (ts : list Task) (level : nat) (planner : list Row),
    (1 <= depth)%nat -> Forall (shallow h depth) ts ->
    flatten depth h collapsed planner ts level false
    = (planner ++ flat_map (rows_under depth h collapsed level) ts, None).
Proof.
  induction depth as [|depth IH]; intros ts level planner Hd Hs; [lia|].
  revert planner. induction ts as [|task ts IHts]; intros planner.
  - rewrite flatten_nil. cbn [flat_map]. rewrite app_nil_r. reflexivity.
  - inversion Hs as [|? ? Ht Hts]; subst.
    rewrite flatten_each. cbv zeta. cbn [flat_map rows_under].
    destruct (deref h (children task)) as [|c cs] eqn:Ec.
    + rewrite (IHts Hts). rewrite <- app_assoc. cbn [app flat_map].
      destruct (existsb (str_eqb (id task)) collapsed); reflexivity.
    + assert (Hcs : Forall (shallow h depth) (c :: cs)).
      { apply Forall_forall. intros x Hx. cbn [shallow] in Ht. apply Ht.
        rewrite Ec. exact Hx. }
      assert (Hd' : (1 <= depth)%nat).
      { destruct depth; [|lia]. inversion Hcs as [|? ? F _]. destruct F. }
      destruct (existsb (str_eqb (id task)) collapsed).
      * rewrite (@flatten_hidden h collapsed depth (c :: cs) (level + 1)%nat
                   _ Hd' Hcs).
        rewrite (IHts Hts). rewrite <- app_assoc. reflexivity.
      * rewrite (IH (c :: cs) (level + 1)%nat _ Hd' Hcs).
        rewrite (IHts Hts). rewrite <- !app_assoc. reflexivity.
Qed.

(** X25: when the nesting of the children is within the depth the
    interpreter allows, the task list has, for each root of the tree in
    order, the row of the task and, unless the task is folded, the rows of
    its children one level deeper: a folded task hides all that is nested
    under it, and nothing else is hidden. *)
Theorem task_list_shows_unfolded_subtrees (depth : nat) (tm : TaskManager)
    (collapsed_tasks : list str) :
  (1 <= depth)%nat ->
  Forall (shallow (objects tm) depth) (get_task_tree tm) ->
  planner_tasks_of depth tm collapsed_tasks
  = (flat_map (rows_under depth (objects tm) collapsed_tasks 0)
              (get_task_tree tm), None).
Proof.
  intros Hd Hs. unfold planner_tasks_of.
  rewrite (@flatten_rows (objects tm) collapsed_tasks depth
             (get_task_tree tm) 0%nat [] Hd Hs).
  reflexivity.
Qed.

(** The family of a parent and its child, unfolded and with the parent
    folded. *)
Lemma task_list_shows_unfolded_subtrees_witness :
  map row_id (fst (planner_tasks_of 100 family_manager []))
  = [lit "p1"; lit "c1"] /\
  map row_id (fst (planner_tasks_of 100 family_manager [lit "p1"]))
  = [lit "p1"].
Proof.
  assert (Hs : Forall (shallow (objects family_manager) 100)
                      (get_task_tree family_manager)).
  { vm_compute get_task_tree. repeat constructor.
    cbn [shallow]. intros c Hc. vm_compute in Hc.
    destruct Hc as [<-|[]]. intros c Hc. vm_compute in Hc. destruct Hc. }
  split.
  - rewrite (@task_list_shows_unfolded_subtrees 100 family_manager []
               (le_n_S _ _ (Nat.le_0_l 99)) Hs).
    vm_compute. reflexivity.
  - rewrite (@task_list_shows_unfolded_subtrees 100 family_manager
               [lit "p1"] (le_n_S _ _ (Nat.le_0_l 99)) Hs).
    vm_compute. reflexivity.
Defined.

(** ** The search view *)

(** One key on a view that has no result to show. *)
Lemma search_step (tm : TaskManager) (sv : SearchView) (key : Z) :
  sv_results sv = None \/ sv_results sv = Some [] ->
  (sv_results (fst (SearchView_handle_input tm sv key)) = None \/
   sv_results (fst (SearchView_handle_input tm sv key)) = Some []) /\
  (snd (SearchView_handle_input tm sv key) = Nothing \/
   snd (SearchView_handle_input tm sv key) = Raised_TypeError).
Proof.
  intros H. unfold SearchView_handle_input.
  destruct (key_in key [KEY_BACKSPACE; 127; 8]);
    [cbn; tauto|].
  destruct ((32 <=? key) && (key <=? 126)); [cbn; tauto|].
  destruct (key_in key [KEY_DOWN; 106]).
  { destruct H as [H|H]; rewrite H; [cbn; rewrite H; tauto|].
    cbn [length Z.of_nat].
    destruct (sv_selected_index sv <? 0 - 1); cbn; rewrite ?H; tauto. }
  destruct (key_in key [KEY_UP; 107]).
  { destruct (0 <? sv_selected_index sv); cbn; tauto. }
  destruct (key_in key [KEY_ENTER; 10; 13]).
  { destruct H as [H|H]; rewrite H; cbn; rewrite H; tauto. }
  destruct (key =? 27); cbn; tauto.
Qed.

(** X26: whatever keys are pressed after the search view is opened, no
    task is ever selected: a call of [handle_input] returns [None] or
    raises [TypeError], because [search_tasks] returns [None] for every
    query. *)
Theorem search_never_selects_a_task (tm : TaskManager) (sv : SearchView)
    (keys : list Z) :
  snd (SearchView_session tm (activate sv) keys) = Nothing \/
  snd (SearchView_session tm (activate sv) keys) = Raised_TypeError.
Proof.
  assert (H : sv_results (activate sv) = None \/
              sv_results (activate sv) = Some []) by (right; reflexivity).
  revert H. generalize (activate sv) as v. clear sv.
  induction keys as [|key keys IH]; intros v H; [left; reflexivity|].
  cbn [SearchView_session].
  destruct (search_step tm v key H) as [Hres Hout].
  destruct (SearchView_handle_input tm v key) as [v' out].
  cbn [fst snd] in *.
  destruct Hout as [-> | ->]; [apply IH; exact Hres|right; reflexivity].
Qed.

(** X27: after a key that edits the query the view holds [None] for its
    results, so that the key DOWN raises [TypeError]. *)
Theorem search_edit_then_down_raises (tm : TaskManager) (sv : SearchView)
    (key : Z) :
  key_in key [KEY_BACKSPACE; 127; 8] = true \/ 32 <= key <= 126 ->
  snd (SearchView_handle_input tm sv key) = Nothing /\
  sv_results (fst (SearchView_handle_input tm sv key)) = None /\
  snd (SearchView_handle_input tm (fst (SearchView_handle_input tm sv key))
                               KEY_DOWN) = Raised_TypeError.
Proof.
  intros H. unfold SearchView_handle_input at 1 2 4.
  destruct (key_in key [KEY_BACKSPACE; 127; 8]) eqn:E1.
  - cbn [fst snd _update_search sv_results search_tasks].
    repeat split; reflexivity.
  - destruct H as [H|H]; [discriminate|].
    replace ((32 <=? key) && (key <=? 126)) with true.
    + cbn [fst snd _update_search sv_results search_tasks].
      repeat split; reflexivity.
    + symmetry. apply andb_true_intro. split; apply Z.leb_le; lia.
Qed.

(** The letter [a] typed into a view that was just opened, then DOWN. *)
Lemma search_edit_then_down_raises_witness :
  snd (SearchView_session (mkTaskManager [] []) (activate
         (mkSearchView [] (Some []) 0 0 false)) [97; KEY_DOWN])
  = Raised_TypeError.
Proof.
  assert (Hk : key_in 97 [KEY_BACKSPACE; 127; 8] = true \/ 32 <= 97 <= 126)
    by (right; lia).
  destruct (@search_edit_then_down_raises (mkTaskManager [] [])
              (activate (mkSearchView [] (Some []) 0 0 false)) 97 Hk)
    as [_ [_ H]].
  exact H.
Defined.
